(** * Soup orchestration server (Server/server.js): retry, polling and
      wallet-provisioning logic, embedded as state-passing programs.

    The server is asynchronous JavaScript that talks to JSON-RPC nodes and to
    an HTTP attestation service.  Every [await] of the source becomes one step
    of a small state-and-exception monad [M]: the state is the chronological
    trace of the interactions performed so far (timer sleeps, contract calls,
    HTTP requests), and the outcome is a returned value or a thrown value.
    What the outside world answers is an [Env]: each answer may depend on the
    whole history, so an [Env] stands for an arbitrary deterministic
    environment.

    Parts I to III hold the provisioner, the poller and the retry wrapper
    with the vocabulary and the scenarios of their properties; Part IV the
    single-chain route, the classifier of errors and the client of the batch
    route (Web/lib/api.ts); Part V the Solidity contracts behind the
    factories (unnamed/part_001), as functions on their storage; Part VI the
    routes that burn, mint, transfer and use the database, over a wider
    record of interactions.  The properties follow from Part VII on. *)

From Stdlib Require Import ZArith String Ascii Bool List Lia SpecFloat.
Import ListNotations.

(* ===================================================================== *)
(** * Part I: the embedding of server.js                                  *)
(* ===================================================================== *)

(** ** JavaScript values that matter here *)

(** An [Error] object; only its [message] is ever inspected by the server. *)
Record JsError : Type := mkError { message : string }.

(** Anything a [throw] can carry: the server throws [Error] objects, and
    [runWithRetries] can throw its unassigned [lastErr], i.e. [undefined]. *)
Inductive Thrown : Type :=
| ThrownUndefined
| ThrownError (e : JsError).

(** ** Interactions with the outside world *)

Inductive Event : Type :=
| EvSleep (ms : Z)
    (* await new Promise(r => setTimeout(r, ms)); [ms] is the requested delay *)
| EvInvoke
    (* one invocation of the action handed to runWithRetries *)
| EvConnect (rpc factory : option string)
    (* new ethers.JsonRpcProvider(rpc) [, new ethers.Wallet(PRIVATE_KEY, provider)],
       new ethers.Contract(factory, ABI, runner) *)
| EvOwner (factory : option string)
    (* await factory.owner() *)
| EvCreateBurn (factory : option string) (destinationDomain : Z) (mintRecipient : string)
    (* await factory.createSingleWallet(DESTINATION_DOMAIN, mintRecipient) *)
| EvCreateTransfer (factory : option string) (destination : string)
    (* await factory.createSingleWallet(destinationAddress) *)
| EvWait
    (* await tx.wait() *)
| EvQueryFilter (factory : option string) (destination : option string) (fromBlock : Z)
    (* await factory.queryFilter(factory.filters.WalletCreated(null, destination), fromBlock) *)
| EvFetch (chainId : Z) (transactionHash : string).
    (* await fetch(url); await response.json() *)

Definition Trace := list Event.

(** ** The monad of asynchronous steps *)

Inductive Outcome (A : Type) : Type :=
| Returned (a : A)
| Threw (t : Thrown)
| OutOfFuel.
Arguments Returned {A} a.
Arguments Threw {A} t.
Arguments OutOfFuel {A}.

Definition M (A : Type) : Type := Trace -> Outcome A * Trace.

Definition ret {A} (a : A) : M A := fun tr => (Returned a, tr).

Definition throw {A} (t : Thrown) : M A := fun tr => (Threw t, tr).

Definition throwError {A} (msg : string) : M A :=
  throw (ThrownError (mkError msg)).

Definition out_of_fuel {A} : M A := fun tr => (OutOfFuel, tr).

Definition bind {A B} (c : M A) (k : A -> M B) : M B :=
  fun tr =>
    match c tr with
    | (Returned a, tr') => k a tr'
    | (Threw t, tr') => (Threw t, tr')
    | (OutOfFuel, tr') => (OutOfFuel, tr')
    end.

(** [try { body } catch (err) { handler err }]: the handler itself runs
    unprotected. *)
Definition try_catch {A} (body : M A) (handler : Thrown -> M A) : M A :=
  fun tr =>
    match body tr with
    | (Threw t, tr') => handler t tr'
    | other => other
    end.

Definition emit (e : Event) : M unit := fun tr => (Returned tt, tr ++ [e]).

Definition sleep (ms : Z) : M unit := emit (EvSleep ms).

Declare Scope js_scope.
Delimit Scope js_scope with js.
Notation "x <- c ;; k" := (bind c (fun x => k))
  (at level 61, c at next level, right associativity) : js_scope.
Notation "c ;; k" := (bind c (fun _ => k))
  (at level 61, right associativity) : js_scope.
Open Scope js_scope.

(** [err.message]: reading a property of [undefined] throws a TypeError. *)
Definition message_of {A} (err : Thrown) (k : string -> M A) : M A :=
  match err with
  | ThrownError e => k (message e)
  | ThrownUndefined =>
      throwError "Cannot read properties of undefined (reading 'message')"
  end.

(** ** Strings *)

Definition lower_ascii (c : ascii) : ascii :=
  let n := nat_of_ascii c in
  if (65 <=? n) && (n <=? 90) then ascii_of_nat (n + 32) else c.

Definition upper_ascii (c : ascii) : ascii :=
  let n := nat_of_ascii c in
  if (97 <=? n) && (n <=? 122) then ascii_of_nat (n - 32) else c.

Fixpoint map_string (f : ascii -> ascii) (s : string) : string :=
  match s with
  | EmptyString => EmptyString
  | String c s' => String (f c) (map_string f s')
  end.

(** [s.toLowerCase()] and [s.toUpperCase()] on ASCII text (addresses and
    chain names are ASCII). *)
Definition toLowerCase : string -> string := map_string lower_ascii.
Definition toUpperCase : string -> string := map_string upper_ascii.

(** Text of ASCII characters only (codes 0 to 127).  On such text the two
    functions above are JavaScript's.  Beyond ASCII they are not: JavaScript
    maps by Unicode (the Kelvin sign U+212A lower-cases to "k", the long s
    U+017F upper-cases to "S"), so a property about the case of text that
    comes from outside is stated for [ascii_only] text. *)
Fixpoint ascii_only (s : string) : bool :=
  match s with
  | EmptyString => true
  | String c s' => (nat_of_ascii c <? 128) && ascii_only s'
  end.

(** [hay.includes(needle)] *)
Fixpoint includes (hay needle : string) : bool :=
  String.prefix needle hay
  || match hay with
     | EmptyString => false
     | String _ hay' => includes hay' needle
     end.

(** ** Objects used as maps *)

(** What [obj[key]] finds on an object literal: an own property, a property
    inherited from [Object.prototype], or nothing ([undefined]). *)
Inductive JsLookup (A : Type) : Type :=
| OwnProperty (a : A)
| InheritedProperty
| NoProperty.
Arguments OwnProperty {A} a.
Arguments InheritedProperty {A}.
Arguments NoProperty {A}.

(** The property names every object literal inherits from [Object.prototype];
    each names a function, except [__proto__], which names the prototype
    object itself. *)
Definition Object_prototype_names : list string :=
  [ "constructor"; "__proto__"; "hasOwnProperty"; "isPrototypeOf";
    "propertyIsEnumerable"; "toLocaleString"; "toString"; "valueOf";
    "__defineGetter__"; "__defineSetter__"; "__lookupGetter__";
    "__lookupSetter__" ]%string.

Definition js_get {A} (own : list (string * A)) (key : string) : JsLookup A :=
  match find (fun kv => String.eqb (fst kv) key) own with
  | Some kv => OwnProperty (snd kv)
  | None =>
      if existsb (String.eqb key) Object_prototype_names
      then InheritedProperty else NoProperty
  end.

(** [!value] for a looked-up property: configuration objects, functions and
    the prototype object are all truthy. *)
Definition js_not {A} (v : JsLookup A) : bool :=
  match v with NoProperty => true | _ => false end.

(** ** The environment *)

(** What a remote call answers: a value, or an [Error] thrown by ethers,
    [fetch] or [response.json()]. *)
Inductive Answer (A : Type) : Type :=
| Ok (a : A)
| Fail (e : JsError).
Arguments Ok {A} a.
Arguments Fail {A} e.

(** A receipt log after [factory.interface.parseLog(log)]. *)
Record ParsedLog : Type := mkLog { log_name : string; log_wallet : string }.

(** A log of a receipt: [Some p] if [parseLog] decodes it, [None] if the
    attempt to read [parsed.name] throws. *)
Definition Log := option ParsedLog.

Record Receipt : Type := mkReceipt { logs : list Log }.

(** A [WalletCreated] event returned by [queryFilter], with its [args]. *)
Record EventLog : Type := mkEvent { args_wallet : string; args_destination : string }.

(** One entry of the attestation service's [messages]; a field is [None]
    when absent. *)
Record Message : Type := mkMessage {
  msg_attestation : option string;
  msg_message : option string;
  msg_status : option string
}.

(** The JSON document of the attestation service; [messages] is [None] when
    the document has no such field. *)
Record Data : Type := mkData { messages : option (list Message) }.

(** Every answer may depend on the history of interactions so far. *)
Record Env : Type := mkEnv {
  env_connect : option string -> option string -> Trace -> Answer unit;
  env_owner : option string -> Trace -> Answer string;
  env_createBurn : option string -> Z -> string -> Trace -> Answer unit;
  env_createTransfer : option string -> string -> Trace -> Answer unit;
  env_wait : Trace -> Answer Receipt;
  env_queryFilter : option string -> option string -> Z -> Trace -> Answer (list EventLog);
  env_fetch : Z -> string -> Trace -> Answer Data
}.

(** One awaited interaction: it is recorded, and it returns or throws what
    the environment answers. *)
Definition call {A} (e : Event) (answer : Trace -> Answer A) : M A :=
  fun tr =>
    match answer tr with
    | Ok a => (Returned a, tr ++ [e])
    | Fail err => (Threw (ThrownError err), tr ++ [e])
    end.

(** ** Configuration (server.js 36-90) *)

(** The values read from [process.env] at start-up, and the address of the
    signer that [new ethers.Wallet(PRIVATE_KEY, provider)] derives. *)
Record ProcessEnv : Type := mkProcessEnv {
  ARBITRUM_RPC_URL : string;
  ARBITRUM_FACTORY_ADDRESS : string;
  BASE_RPC_URL : string;
  BASE_FACTORY_ADDRESS : string;
  AVALANCHE_RPC_URL : string;
  AVALANCHE_FACTORY_ADDRESS : string;
  AVALANCHE_TRANSFER_FACTORY_ADDRESS : string;
  signer_address : string
}.

Record ChainConfig : Type := mkChain { rpc : string; factory : string; label : string }.

Definition DESTINATION_DOMAIN : Z := 1.

Definition CHAIN_CONFIGS (penv : ProcessEnv) : list (string * ChainConfig) :=
  [ ("arbitrum"%string,
      mkChain (ARBITRUM_RPC_URL penv) (ARBITRUM_FACTORY_ADDRESS penv) "Arbitrum Sepolia");
    ("base"%string,
      mkChain (BASE_RPC_URL penv) (BASE_FACTORY_ADDRESS penv) "Base Sepolia");
    ("avalanche"%string,
      mkChain (AVALANCHE_RPC_URL penv) (AVALANCHE_FACTORY_ADDRESS penv) "Avalanche Fuji") ].

Definition AVALANCHE_TRANSFER_CONFIG (penv : ProcessEnv) : ChainConfig :=
  mkChain (AVALANCHE_RPC_URL penv) (AVALANCHE_TRANSFER_FACTORY_ADDRESS penv)
          "Avalanche Fuji Transfer".

(** [cfg.rpc] and [cfg.factory] of a looked-up value: the functions and the
    prototype object that can be inherited have no such properties. *)
Definition cfg_rpc (cfg : JsLookup ChainConfig) : option string :=
  match cfg with OwnProperty c => Some (rpc c) | _ => None end.

Definition cfg_factory (cfg : JsLookup ChainConfig) : option string :=
  match cfg with OwnProperty c => Some (factory c) | _ => None end.

(** ** RetryExecutor: runWithRetries (server.js 131-146) *)

Section RetryExecutor.
Context {T : Type}.
Variable action : M T.
Variables maxAttempts baseDelayMs : Z.

(** The [while (attempt < maxAttempts)] loop with the statement after it.
    [fuel] bounds the number of iterations; [runWithRetries] supplies
    enough of it.  The counter, the bound and the delay are integers, and
    [baseDelayMs * attempt] is the exact product: this is the source's
    arithmetic of Numbers as long as the numbers involved are safe integers
    ([safe_configuration] below), and the properties that compute a delay
    from a configuration not fixed by the source assume as much. *)
Fixpoint retry_loop (fuel : nat) (attempt : Z) (lastErr : Thrown) : M T :=
  if (attempt <? maxAttempts)%Z then
    match fuel with
    | O => out_of_fuel
    | S fuel' =>
        let attempt := (attempt + 1)%Z in
        try_catch action (fun err =>
          let lastErr := err in
          if (attempt >=? maxAttempts)%Z then throw lastErr
          else
            let delay := (baseDelayMs * attempt)%Z in
            sleep delay ;;
            retry_loop fuel' attempt lastErr)
    end
  else throw lastErr.

End RetryExecutor.

(** The options object [{ maxAttempts = 3, baseDelayMs = 1000 } = {}]: a
    field left out takes its default. *)
Record RetryOptions : Type := mkOptions {
  opt_maxAttempts : option Z;
  opt_baseDelayMs : option Z
}.

Definition default {A} (d : A) (o : option A) : A :=
  match o with Some a => a | None => d end.

Definition runWithRetries {T} (action : M T) (opts : RetryOptions) : M T :=
  let maxAttempts := default 3%Z (opt_maxAttempts opts) in
  let baseDelayMs := default 1000%Z (opt_baseDelayMs opts) in
  let attempt := 0%Z in
  let lastErr := ThrownUndefined in
  retry_loop action maxAttempts baseDelayMs (Z.to_nat maxAttempts) attempt lastErr.

(** The call [runWithRetries(action, { maxAttempts, baseDelayMs })]. *)
Definition retryWith {T} (action : M T) (maxAttempts baseDelayMs : Z) : M T :=
  runWithRetries action (mkOptions (Some maxAttempts) (Some baseDelayMs)).

(** [Number.MAX_SAFE_INTEGER]: up to it, in absolute value, every integer is
    a Number and sums and products of integers that stay within it are
    computed exactly. *)
Definition MAX_SAFE_INTEGER : Z := 2 ^ 53 - 1.

Definition safe_integer (n : Z) : Prop :=
  (- MAX_SAFE_INTEGER <= n <= MAX_SAFE_INTEGER)%Z.

(** A configuration of integers on which the loop computes exactly: the
    counter runs up to [maxAttempts] and the largest delay it can ask for is
    below [baseDelayMs * maxAttempts] in absolute value. *)
Definition safe_configuration (maxAttempts baseDelayMs : Z) : Prop :=
  safe_integer maxAttempts /\ safe_integer baseDelayMs
  /\ safe_integer (baseDelayMs * maxAttempts).

(** ** WalletProvisioner and AttestationPoller (server.js 229-420) *)

Section Server.
Variable penv : ProcessEnv.
Variable env : Env.

(** [new ethers.JsonRpcProvider(rpc)], [new ethers.Wallet(PRIVATE_KEY, provider)]
    where a signer is needed, and [new ethers.Contract(factory, ABI, runner)]:
    the constructors can throw on a malformed argument. *)
Definition connect (rpc factory : option string) : M unit :=
  call (EvConnect rpc factory) (env_connect env rpc factory).

(** The predicate handed to [receipt.logs.find]. *)
Definition is_WalletCreated (log : Log) : bool :=
  match log with
  | Some parsed => String.eqb (log_name parsed) "WalletCreated"
  | None => false
  end.

(** [parsed.args.wallet] of the log that [find] selected, or the failure for
    a missing one. *)
Definition wallet_of_receipt (receipt : Receipt) : M (option string) :=
  match find is_WalletCreated (logs receipt) with
  | None => throwError "Wallet creation failed - no event found"
  | Some eventLog =>
      match eventLog with
      | Some parsed => ret (Some (log_wallet parsed))
      | None => throwError "Cannot read properties of null (reading 'args')"
      end
  end.

(** [owner.toLowerCase() !== signer.address.toLowerCase()] *)
Definition owner_mismatch (owner : string) : bool :=
  negb (String.eqb (toLowerCase owner) (toLowerCase (signer_address penv))).

(** The [try] block of one attempt of [createWalletOnChain]. *)
Definition burn_attempt (cfg : JsLookup ChainConfig) (mintRecipient : string)
  : M (option string) :=
  connect (cfg_rpc cfg) (cfg_factory cfg) ;;
  owner <- call (EvOwner (cfg_factory cfg)) (env_owner env (cfg_factory cfg)) ;;
  if owner_mismatch owner then throwError "Not factory owner"
  else
    (call (EvCreateBurn (cfg_factory cfg) DESTINATION_DOMAIN mintRecipient)
          (env_createBurn env (cfg_factory cfg) DESTINATION_DOMAIN mintRecipient) ;;
     receipt <- call EvWait (env_wait env) ;;
     wallet_of_receipt receipt).

(** The [while (attempts < maxAttempts)] loop of [createWalletOnChain]; a
    function that runs off its end returns [undefined], here [None]. *)
Fixpoint burn_loop (cfg : JsLookup ChainConfig) (mintRecipient : string)
    (fuel : nat) (attempts : Z) : M (option string) :=
  let maxAttempts := 6%Z in
  if (attempts <? maxAttempts)%Z then
    match fuel with
    | O => out_of_fuel
    | S fuel' =>
        let attempts := (attempts + 1)%Z in
        try_catch (burn_attempt cfg mintRecipient) (fun err =>
          message_of err (fun _ =>
            (* Retry on ANY error type *)
            if (attempts >=? maxAttempts)%Z then throw err
            else
              let backoffMs := (1500 * attempts)%Z in
              sleep backoffMs ;;
              burn_loop cfg mintRecipient fuel' attempts))
    end
  else ret None.

Definition createWalletOnChain (chainKey mintRecipient : string) : M (option string) :=
  let cfg := js_get (CHAIN_CONFIGS penv) chainKey in
  if js_not cfg then
    throwError ("Unsupported chain " ++ chainKey ++ ". Use eth, base, avalanche.")
  else
    let attempts := 0%Z in
    burn_loop cfg mintRecipient 6 attempts.

(** [events[events.length - 1].args.wallet] when [events.length > 0]. *)
Definition latest_wallet (events : list EventLog) : option string :=
  match rev events with
  | [] => None
  | latestEvent :: _ => Some (args_wallet latestEvent)
  end.

(** A [try] block that queries [WalletCreated] events and returns from the
    function with the latest wallet when there is one; any failure is
    swallowed by its [catch].  [Some w] stands for [return w]. *)
Definition lookup_events (cfg : ChainConfig) (destination : option string)
    (fromBlock : Z) : M (option string) :=
  try_catch
    (connect (Some (rpc cfg)) (Some (factory cfg)) ;;
     events <- call (EvQueryFilter (Some (factory cfg)) destination fromBlock)
                    (env_queryFilter env (Some (factory cfg)) destination fromBlock) ;;
     ret (latest_wallet events))
    (fun _ => ret None).

(** The [try] block of one attempt of [createAvalancheTransferWallet]. *)
Definition transfer_attempt (cfg : ChainConfig) (destinationAddress : string)
  : M (option string) :=
  connect (Some (rpc cfg)) (Some (factory cfg)) ;;
  owner <- call (EvOwner (Some (factory cfg))) (env_owner env (Some (factory cfg))) ;;
  if owner_mismatch owner then throwError "Not factory owner"
  else
    (call (EvCreateTransfer (Some (factory cfg)) destinationAddress)
          (env_createTransfer env (Some (factory cfg)) destinationAddress) ;;
     receipt <- call EvWait (env_wait env) ;;
     wallet_of_receipt receipt).

(** The ["already known"] branch of the [catch]: wait, then look for any
    [WalletCreated] event of the last 20 blocks. *)
Definition already_known_recovery (cfg : ChainConfig) (msg : string) : M (option string) :=
  if includes msg "already known" then
    sleep 10000 ;;
    lookup_events cfg None (-20)
  else ret None.

Fixpoint transfer_loop (cfg : ChainConfig) (destinationAddress : string)
    (fuel : nat) (attempts : Z) : M (option string) :=
  let maxAttempts := 3%Z in
  if (attempts <? maxAttempts)%Z then
    match fuel with
    | O => out_of_fuel
    | S fuel' =>
        let attempts := (attempts + 1)%Z in
        try_catch (transfer_attempt cfg destinationAddress) (fun err =>
          message_of err (fun msg =>
            recovered <- already_known_recovery cfg msg ;;
            match recovered with
            | Some walletAddress => ret (Some walletAddress)
            | None =>
                if (attempts >=? maxAttempts)%Z then throw err
                else
                  let backoffMs := (3000 * attempts)%Z in
                  sleep backoffMs ;;
                  transfer_loop cfg destinationAddress fuel' attempts
            end))
    end
  else ret None.

Definition createAvalancheTransferWallet (destinationAddress : string)
  : M (option string) :=
  let cfg := AVALANCHE_TRANSFER_CONFIG penv in
  existing <- lookup_events cfg (Some destinationAddress) (-50) ;;
  match existing with
  | Some walletAddress => ret (Some walletAddress)
  | None =>
      let attempts := 0%Z in
      transfer_loop cfg destinationAddress 3 attempts
  end.

(** [data.messages && data.messages.length > 0], then
    [message.attestation && message.status === 'complete'] on
    [data.messages[0]]: the entry returned, if any. *)
Definition ready_attestation (data : Data) : option Message :=
  match messages data with
  | Some (message :: _) =>
      match msg_attestation message, msg_status message with
      | Some attestation, Some status =>
          if negb (String.eqb attestation "") && String.eqb status "complete"
          then Some message else None
      | _, _ => None
      end
  | _ => None
  end.

Fixpoint fetch_loop (chainId : Z) (transactionHash : string)
    (fuel : nat) (attempts : Z) : M Message :=
  let maxAttempts := 10%Z in
  if (attempts <? maxAttempts)%Z then
    match fuel with
    | O => out_of_fuel
    | S fuel' =>
        let attempts := (attempts + 1)%Z in
        polled <- try_catch
          ((if (attempts =? 1)%Z then sleep 10000 else sleep 5000) ;;
           data <- call (EvFetch chainId transactionHash)
                        (env_fetch env chainId transactionHash) ;;
           ret (ready_attestation data))
          (fun error =>
             message_of error (fun _ =>
               if (attempts >=? maxAttempts)%Z then throw error else ret None)) ;;
        match polled with
        | Some result => ret result
        | None => fetch_loop chainId transactionHash fuel' attempts
        end
    end
  else throwError "Failed to fetch attestation after maximum attempts".

Definition fetchAttestation (chainId : Z) (transactionHash : string) : M Message :=
  let attempts := 0%Z in
  fetch_loop chainId transactionHash 10 attempts.

End Server.

(** ** Batch provisioning: POST /api/create-wallet-all (server.js 915-956) *)

Definition is_hex_digit (c : ascii) : bool :=
  let n := nat_of_ascii c in
  ((48 <=? n) && (n <=? 57)) || ((97 <=? n) && (n <=? 102)) || ((65 <=? n) && (n <=? 70)).

Fixpoint all_hex (s : string) : bool :=
  match s with
  | EmptyString => true
  | String c s' => is_hex_digit c && all_hex s'
  end.

Fixpoint zeros (n : nat) : string :=
  match n with
  | O => EmptyString
  | S n' => String "0"%char (zeros n')
  end.

(** The hex digits of a string that starts with "0x". *)
Definition strip_0x (s : string) : option string :=
  if String.prefix "0x" s
  then Some (String.substring 2 (String.length s - 2) s) else None.

(** [ethers.zeroPadValue(data, length)]: [data] has to be "0x" followed by
    whole bytes in hex, at most [length] of them; the result is their
    lower-case hex, padded with zero bytes on the left.  (The messages of the
    errors are shortened.) *)
Definition zeroPadValue (data : option string) (len : nat) : M string :=
  match data with
  | Some s =>
      match strip_0x s with
      | Some digits =>
          if all_hex digits && Nat.even (String.length digits) then
            if 2 * len <? String.length digits
            then throwError "padding exceeds data length"
            else ret ("0x" ++ zeros (2 * len - String.length digits)
                           ++ toLowerCase digits)%string
          else throwError "invalid BytesLike value"
      | None => throwError "invalid BytesLike value"
      end
  | None => throwError "invalid BytesLike value"
  end.

Inductive ResponseBody : Type :=
| JsonError (error : string)      (* res.json({ error }) *)
| TextBody (text : string).       (* res.set('Content-Type', 'text/plain'); res.send(text) *)

Record Response : Type := mkResponse { status : Z; body : ResponseBody }.

Definition newline : string := String (ascii_of_nat 10) EmptyString.

(** A possibly undefined string inside a template literal. *)
Definition show (v : option string) : string := default "undefined"%string v.

(** [!value] for a possibly undefined string. *)
Definition falsy (v : option string) : bool :=
  match v with
  | None => true
  | Some s => String.eqb s ""
  end.

(** [error.message || 'Internal error'] *)
Definition or_internal_error (msg : string) : string :=
  if String.eqb msg "" then "Internal error"%string else msg.

Section Batch.
Variable penv : ProcessEnv.
Variable env : Env.

(** The [for (const chain of [...])] loop: a chain that fails leaves [lines]
    as they are and the loop goes on. *)
Fixpoint create_burn_wallets (chains : list string) (avalancheBytes32 : string)
    (lines : list string) : M (list string) :=
  match chains with
  | [] => ret lines
  | chain :: rest =>
      lines <- try_catch
        (addr <- createWalletOnChain penv env chain avalancheBytes32 ;;
         ret (lines ++ [toUpperCase chain ++ ": " ++ show addr]%string))
        (fun e =>
           message_of e (fun _ =>
             (* Continue with other chains even if one fails *)
             ret lines)) ;;
      create_burn_wallets rest avalancheBytes32 lines
  end.

(** The handler, from the [avalancheDestination] field of the request body
    to the response sent. *)
Definition create_wallet_all (avalancheDestination : option string) : M Response :=
  try_catch
    (if falsy avalancheDestination then
       ret (mkResponse 400 (JsonError "avalancheDestination is required (address)"))
     else
       let lines := [] in
       step1 <- try_catch
         (avalancheAddress <-
            createAvalancheTransferWallet penv env (show avalancheDestination) ;;
          ret (inl (avalancheAddress,
                    lines ++ ["AVALANCHE: " ++ show avalancheAddress]%string)))
         (fun e =>
            message_of e (fun _ =>
              ret (inr (mkResponse 500
                          (JsonError "Failed to create Avalanche transfer wallet"))))) ;;
       match step1 with
       | inr response => ret response
       | inl (avalancheAddress, lines) =>
           avalancheBytes32 <- zeroPadValue avalancheAddress 32 ;;
           lines <- create_burn_wallets ["arbitrum"; "base"]%string avalancheBytes32 lines ;;
           ret (mkResponse 200 (TextBody (String.concat newline lines)))
       end)
    (fun error =>
       message_of error (fun msg =>
         ret (mkResponse 500 (JsonError (or_internal_error msg))))).

End Batch.

(** ** Amounts at the boundary (server.js 722-729 and 786-811) *)

(** A JavaScript Number: an IEEE 754 binary64 value (53 bits of precision,
    exponents below 1024), with the operations of the Standard Library's
    executable specification of floating point. *)
Definition Number := spec_float.

(** The Number nearest to [p / q] (ties to even), for [0 <= p] and [0 < q]. *)
Definition number_of_ratio (negative : bool) (p q : Z) : Number :=
  match p with
  | Z0 => S754_zero negative
  | _ => let '(mz, ez, lz) := SFdiv_core_binary 53 1024 p 0 q 0 in
         binary_round_aux 53 1024 negative mz ez lz
  end.

(** The Number for [mantissa * 10 ^ exponent10]. *)
Definition number_of_decimal (negative : bool) (mantissa exponent10 : Z) : Number :=
  if (0 <=? exponent10)%Z
  then number_of_ratio negative (mantissa * 10 ^ exponent10) 1
  else number_of_ratio negative mantissa (10 ^ (- exponent10)).

(** [x * y] *)
Definition number_mul (x y : Number) : Number := SFmul 53 1024 x y.

(** The integer [floor(+-m * 2 ^ e)]. *)
Definition floor_of_finite (s : bool) (m : positive) (e : Z) : Z :=
  let signed := if s then Z.neg m else Z.pos m in
  if (0 <=? e)%Z then (signed * 2 ^ e)%Z else (signed / 2 ^ (- e))%Z.

(** [Math.floor(x)] *)
Definition Math_floor (x : Number) : Number :=
  match x with
  | S754_finite s m e => binary_normalize 53 1024 (floor_of_finite s m e) 0 s
  | _ => x
  end.

(** [isNaN(x)] and [x <= 0] *)
Definition isNaN (x : Number) : bool :=
  match x with S754_nan => true | _ => false end.

Definition number_le_zero (x : Number) : bool := SFleb x (S754_zero false).

Definition range_error {A} : M A :=
  throwError "The number cannot be converted to a BigInt because it is not an integer".

Definition syntax_error {A} : M A := throwError "Cannot convert string to a BigInt".

(** [BigInt(x)] for a Number: its value when it is an integer, a RangeError
    otherwise. *)
Definition BigInt_of_number (x : Number) : M Z :=
  match x with
  | S754_zero _ => ret 0%Z
  | S754_finite s m e =>
      let signed := if s then Z.neg m else Z.pos m in
      if (0 <=? e)%Z then ret (signed * 2 ^ e)%Z
      else if (signed mod 2 ^ (- e) =? 0)%Z then ret (signed / 2 ^ (- e))%Z
      else range_error
  | _ => range_error
  end.

(** *** Reading numbers from ASCII text *)

Definition is_whitespace (c : ascii) : bool :=
  let n := nat_of_ascii c in ((9 <=? n) && (n <=? 13)) || (n =? 32).

Fixpoint trim_start (s : string) : string :=
  match s with
  | String c s' => if is_whitespace c then trim_start s' else s
  | EmptyString => s
  end.

Fixpoint string_rev (s : string) (acc : string) : string :=
  match s with
  | String c s' => string_rev s' (String c acc)
  | EmptyString => acc
  end.

Definition trim (s : string) : string :=
  string_rev (trim_start (string_rev (trim_start s) "")) "".

(** The value of a digit in a radix, if it is one. *)
Definition digit_in (radix : Z) (c : ascii) : option Z :=
  let n := Z.of_nat (nat_of_ascii c) in
  let v := if ((48 <=? n) && (n <=? 57))%Z then (n - 48)%Z
           else if ((97 <=? n) && (n <=? 122))%Z then (n - 87)%Z
           else if ((65 <=? n) && (n <=? 90))%Z then (n - 55)%Z
           else radix in
  if (v <? radix)%Z then Some v else None.

(** The longest run of digits at the start of [s]: the number they make when
    appended to [acc], how many they are, and what follows. *)
Fixpoint read_digits (radix : Z) (s : string) (acc : Z) (count : Z) : Z * Z * string :=
  match s with
  | String c s' =>
      match digit_in radix c with
      | Some v => read_digits radix s' (radix * acc + v)%Z (count + 1)%Z
      | None => (acc, count, s)
      end
  | EmptyString => (acc, count, s)
  end.

(** A leading sign. *)
Definition read_sign (s : string) : bool * string :=
  match s with
  | String c s' =>
      if Ascii.eqb c "-" then (true, s')
      else if Ascii.eqb c "+" then (false, s')
      else (false, s)
  | EmptyString => (false, s)
  end.

(** The exponent part [e], [e+] or [e-] followed by digits; it counts only
    when it has digits. *)
Definition read_exponent (s : string) : Z :=
  match s with
  | String c s' =>
      if Ascii.eqb c "e" || Ascii.eqb c "E" then
        let '(negative, s'') := read_sign s' in
        let '(value, count, _) := read_digits 10 s'' 0 0 in
        if (0 <? count)%Z then (if negative then - value else value)%Z else 0%Z
      else 0%Z
  | EmptyString => 0%Z
  end.

(** [parseFloat(input)]: leading white space is skipped and the longest
    prefix that is a decimal literal is read; [NaN] when there is none. *)
Definition parseFloat (input : string) : Number :=
  let '(negative, s) := read_sign (trim_start input) in
  if String.prefix "Infinity" s then S754_infinity negative else
  let '(int_value, int_count, s1) := read_digits 10 s 0 0 in
  let '(mantissa, frac_count, s2) :=
    match s1 with
    | String c s1' =>
        if Ascii.eqb c "." then read_digits 10 s1' int_value 0
        else (int_value, 0%Z, s1)
    | EmptyString => (int_value, 0%Z, s1)
    end in
  if (int_count + frac_count =? 0)%Z then S754_nan
  else number_of_decimal negative mantissa (read_exponent s2 - frac_count).

(** Digits in a radix and nothing else. *)
Definition read_integer (radix : Z) (s : string) : option Z :=
  let '(value, count, rest) := read_digits radix s 0 0 in
  if (0 <? count)%Z && String.eqb rest "" then Some value else None.

(** [BigInt(text)]: white space around is dropped; an empty text is 0; a
    decimal literal may carry a sign; "0x", "0o" and "0b" announce another
    radix; anything else is a SyntaxError. *)
Definition BigInt_of_string (text : string) : M Z :=
  let s := trim text in
  if String.eqb s "" then ret 0%Z else
  let prefixed :=
    if String.prefix "0x" s || String.prefix "0X" s then Some 16%Z
    else if String.prefix "0o" s || String.prefix "0O" s then Some 8%Z
    else if String.prefix "0b" s || String.prefix "0B" s then Some 2%Z
    else None in
  match prefixed with
  | Some radix =>
      match read_integer radix (String.substring 2 (String.length s - 2) s) with
      | Some value => ret value
      | None => syntax_error
      end
  | None =>
      let '(negative, digits) := read_sign s in
      match read_integer 10 digits with
      | Some value => ret (if negative then - value else value)%Z
      | None => syntax_error
      end
  end.

(** *** The two conversions *)

(** POST /api/test-burn: the amount handed to the SDK, or what is thrown to
    the handler's [catch]. *)
Definition test_burn_amount (amount : string) : M Z :=
  if includes amount "." then
    let decimalAmount := parseFloat amount in
    BigInt_of_number (Math_floor (number_mul decimalAmount (number_of_decimal false 1000000 0)))
  else
    BigInt_of_string amount.

(** POST /api/transfer-usdc: the amount handed to the SDK, or the response
    that rejects the request. *)
Definition invalid_amount_format : Response :=
  mkResponse 400
    (JsonError "Invalid amount format. Use decimal (e.g., 0.001) or wei (e.g., 1000)").

Definition transfer_amount (amount : string) : M (Z + Response) :=
  try_catch
    (if includes amount "." then
       let decimalAmount := parseFloat amount in
       if isNaN decimalAmount || number_le_zero decimalAmount then
         ret (inr invalid_amount_format)
       else
         (amountBigInt <- BigInt_of_number
            (Math_floor (number_mul decimalAmount (number_of_decimal false 1000000 0))) ;;
          ret (inl amountBigInt))
     else
       (amountBigInt <- BigInt_of_string amount ;;
        if (amountBigInt <=? 0)%Z then
          ret (inr (mkResponse 400 (JsonError "Amount must be greater than 0")))
        else ret (inl amountBigInt)))
    (fun error => ret (inr invalid_amount_format)).

(* ===================================================================== *)
(** * Part II: vocabulary of the properties                               *)
(* ===================================================================== *)

(** ** Reading a trace *)

Definition sleep_ms (e : Event) : list Z :=
  match e with EvSleep ms => [ms] | _ => [] end.

(** The delays requested from the timer, in order. *)
Definition delays (tr : Trace) : list Z := flat_map sleep_ms tr.

Definition sumZ (l : list Z) : Z := fold_right Z.add 0%Z l.

(** Total delay slept. *)
Definition slept (tr : Trace) : Z := sumZ (delays tr).

Definition is_invoke (e : Event) : bool :=
  match e with EvInvoke => true | _ => false end.

(** How many times the retried action has been invoked. *)
Definition invocations (tr : Trace) : nat := length (filter is_invoke tr).

Definition is_fetch (e : Event) : bool :=
  match e with EvFetch _ _ => true | _ => false end.

Definition is_owner_call (e : Event) : bool :=
  match e with EvOwner _ => true | _ => false end.

Definition is_submission (e : Event) : bool :=
  match e with EvCreateBurn _ _ _ | EvCreateTransfer _ _ => true | _ => false end.

(** How often [factory.owner()] was called, and how many creation
    transactions were submitted. *)
Definition owner_calls (tr : Trace) : nat := length (filter is_owner_call tr).
Definition submissions (tr : Trace) : nat := length (filter is_submission tr).

Definition is_wait (e : Event) : bool :=
  match e with EvWait => true | _ => false end.

(** ** Runs of the retry wrapper *)

(** An action seen from the wrapper: its [i]-th invocation (from 0) ends
    as [script i]. *)
Definition scripted {T} (script : nat -> Outcome T) : M T :=
  fun tr => (script (invocations tr), tr ++ [EvInvoke]).

(** [1 + 2 + ... + k]. *)
Fixpoint triangle (k : nat) : Z :=
  match k with
  | O => 0%Z
  | S k' => (triangle k' + Z.of_nat k)%Z
  end.

(** The delays [base * 1, base * 2, ..., base * k]. *)
Definition linear_backoff (base : Z) (k : nat) : list Z :=
  map (fun i => (base * Z.of_nat i)%Z) (seq 1 k).

(** What the wrapper adds to the trace when the action fails [k] times in a
    row starting after attempt number [a] and is then invoked once more:
    invocation, backoff, invocation, backoff, ..., invocation. *)
Fixpoint retry_events (base : Z) (a : Z) (k : nat) : Trace :=
  match k with
  | O => [EvInvoke]
  | S k' => EvInvoke :: EvSleep (base * (a + 1)) :: retry_events base (a + 1) k'
  end.

(** ** Reading a run of the poller *)

(** The wait before poll number [i] (from 1). *)
Definition poll_delay (i : nat) : Z := if Nat.eqb i 1 then 10000%Z else 5000%Z.

(** The trace after [n] polls that did not end the loop. *)
Fixpoint poll_events (chainId : Z) (transactionHash : string) (n : nat) : Trace :=
  match n with
  | O => []
  | S n' => poll_events chainId transactionHash n'
            ++ [EvSleep (poll_delay n); EvFetch chainId transactionHash]
  end.

(** What the service answers to poll number [i] of a run started on the
    empty trace. *)
Definition poll_answer (env : Env) (chainId : Z) (transactionHash : string) (i : nat)
  : Answer Data :=
  env_fetch env chainId transactionHash
    (poll_events chainId transactionHash (i - 1) ++ [EvSleep (poll_delay i)]).

(** The attestation that poll number [i] yields, if it yields one. *)
Definition poll_ready (env : Env) (chainId : Z) (transactionHash : string) (i : nat)
  : option Message :=
  match poll_answer env chainId transactionHash i with
  | Ok data => ready_attestation data
  | Fail _ => None
  end.

(** What is thrown when no poll was ready and the last one answered [last]. *)
Definition exhaustion_error (last : Answer Data) : JsError :=
  match last with
  | Fail e => e
  | Ok _ => mkError "Failed to fetch attestation after maximum attempts"
  end.

(** The success condition in the spec's words: some entry of the message
    list, at any position, is complete and carries an attestation. *)
Definition entry_complete (m : Message) : bool :=
  match msg_attestation m, msg_status m with
  | Some attestation, Some status =>
      negb (String.eqb attestation "") && String.eqb status "complete"
  | _, _ => false
  end.

Definition some_entry_complete (answer : Answer Data) : bool :=
  match answer with
  | Ok data => existsb entry_complete (default [] (messages data))
  | Fail _ => false
  end.

(** ** Runs of the provisioner *)

(** What a loop adds to the trace when [k] attempts in a row fail after
    attempt number [a], each leaving [attempt] behind and followed by its
    backoff, and one more attempt leaves [attempt] and ends the loop. *)
Fixpoint failed_attempts (attempt : Trace) (base : Z) (a : Z) (k : nat) : Trace :=
  match k with
  | O => attempt
  | S k' => attempt ++ EvSleep (base * (a + 1))
                    :: failed_attempts attempt base (a + 1) k'
  end.

(** The factory always answers, and always with an owner other than the
    signer. *)
Definition persistent_mismatch (penv : ProcessEnv) (env : Env)
    (rpc factory : option string) : Prop :=
  (forall tr, env_connect env rpc factory tr = Ok tt)
  /\ (forall tr, exists owner,
         env_owner env factory tr = Ok owner /\ owner_mismatch penv owner = true).

(** A [WalletCreated] query that fails or finds no event, whenever asked. *)
Definition nothing_found (env : Env) (factory destination : option string)
    (fromBlock : Z) : Prop :=
  forall tr,
    match env_queryFilter env factory destination fromBlock tr with
    | Ok events => events = []
    | Fail _ => True
    end.

Definition not_factory_owner : Thrown := ThrownError (mkError "Not factory owner").

Definition unsupported_chain (chainKey : string) : Thrown :=
  ThrownError (mkError ("Unsupported chain " ++ chainKey ++ ". Use eth, base, avalanche.")).

(** The chain key is one of the configured ones. *)
Definition configured (penv : ProcessEnv) (chainKey : string) : bool :=
  existsb (fun kv => String.eqb (fst kv) chainKey) (CHAIN_CONFIGS penv).

(** Every event a filtered query returns is for the destination asked. *)
Definition honours_filter (env : Env) : Prop :=
  forall factory d fromBlock tr events,
    env_queryFilter env factory (Some d) fromBlock tr = Ok events ->
    Forall (fun ev => args_destination ev = d) events.

(** The first call on the empty history, then the second call. *)
Definition call_twice {A} (c : M A) : Outcome A * Outcome A * Trace :=
  let first := c [] in
  let second := c (snd first) in
  (fst first, fst second, snd second).

(** The line a chain contributes to the response: one when its wallet was
    created, none when its creation failed. *)
Definition created (chain : string) (outcome : Outcome (option string)) : list string :=
  match outcome with
  | Returned addr => [toUpperCase chain ++ ": " ++ show addr]%string
  | _ => []
  end.

(** A computation that, when it returns, returns an address and not
    [undefined]. *)
Definition returns_address (c : M (option string)) : Prop :=
  forall tr, fst (c tr) <> Returned None.

(** ** Well-behaved computations *)

(** An outcome a caller can handle: a value, or a thrown [Error] object. *)
Definition settled {A} (o : Outcome A) : Prop :=
  match o with
  | Returned _ => True
  | Threw (ThrownError _) => True
  | Threw ThrownUndefined => False
  | OutOfFuel => False
  end.

(** From every history the computation settles, only appends to the trace,
    and submits at most [n] creation transactions. *)
Definition behaves {A} (n : nat) (c : M A) : Prop :=
  forall tr,
    settled (fst (c tr))
    /\ exists more, snd (c tr) = tr ++ more /\ submissions more <= n.

(** From every history, the first thing the computation does is [e]. *)
Definition begins_with {A} (e : Event) (c : M A) : Prop :=
  forall tr, exists more, snd (c tr) = tr ++ e :: more.

(** ** Amounts in exact arithmetic *)

(** The spec's conversion of a decimal amount "D.F", in exact arithmetic:
    [floor(D.F * 1_000_000)], where [D.F] is [mantissa / 10 ^ frac_count]. *)
Definition exact_units (D F : string) : Z :=
  let '(mantissa, _, _) := read_digits 10 (D ++ F) 0 0 in
  (mantissa * 1000000 / 10 ^ Z.of_nat (String.length F))%Z.

(** Integer-string amounts: non-empty runs of the digits 0-9, and the
    integer they denote. *)
Definition is_decimal_digit (c : ascii) : bool :=
  match digit_in 10 c with Some _ => true | None => false end.

Fixpoint all_decimal (s : string) : bool :=
  match s with
  | EmptyString => true
  | String c s' => is_decimal_digit c && all_decimal s'
  end.

Fixpoint decimal_value_from (acc : Z) (s : string) : Z :=
  match s with
  | EmptyString => acc
  | String c s' => decimal_value_from (10 * acc + (Z.of_nat (nat_of_ascii c) - 48))%Z s'
  end.

Definition decimal_value (s : string) : Z := decimal_value_from 0 s.

Definition starts_with_digit (s : string) : bool :=
  match s with
  | String c _ => is_decimal_digit c
  | EmptyString => false
  end.

(** ** The backoff delay on Numbers *)

(** An integer as a Number (the nearest one), and [baseDelayMs * attempt] as
    the source computes it. *)
Definition number_of_integer (n : Z) : Number :=
  number_of_decimal (n <? 0)%Z (Z.abs n) 0.

Definition backoff_delay (baseDelayMs attempt : Z) : Number :=
  number_mul (number_of_integer baseDelayMs) (number_of_integer attempt).

(* ===================================================================== *)
(** * Part III: scenarios                                                 *)
(* ===================================================================== *)

(** ** Scenarios: concrete environments *)

Definition network_error {A} : Answer A := Fail (mkError "network error").

(** Nothing outside answers. *)
Definition offline : Env :=
  mkEnv (fun _ _ _ => network_error) (fun _ _ => network_error)
        (fun _ _ _ _ => network_error) (fun _ _ _ => network_error)
        (fun _ => network_error) (fun _ _ _ _ => network_error)
        (fun _ _ _ => network_error).

(** An attestation service whose [i]-th answer (from 0) is [polls i]. *)
Definition attestation_service (polls : nat -> Answer Data) : Env :=
  mkEnv (env_connect offline) (env_owner offline) (env_createBurn offline)
        (env_createTransfer offline) (env_wait offline) (env_queryFilter offline)
        (fun _ _ tr => polls (length (filter is_fetch tr))).

Definition pending_message : Message :=
  mkMessage (Some "PENDING"%string) (Some "0x00"%string)
            (Some "pending_confirmations"%string).

Definition complete_message : Message :=
  mkMessage (Some "0xa77e57"%string) (Some "0x00"%string) (Some "complete"%string).

(** Not ready on polls 1 and 2 (an empty list, then a pending entry),
    complete on poll 3. *)
Definition complete_on_third (i : nat) : Answer Data :=
  match i with
  | 0 => Ok (mkData (Some []))
  | 1 => Ok (mkData (Some [pending_message]))
  | _ => Ok (mkData (Some [complete_message]))
  end.

(** Every answer lists a pending entry first and a complete one second. *)
Definition complete_in_second_entry (i : nat) : Answer Data :=
  Ok (mkData (Some [pending_message; complete_message])).

(** A deployment for the scenarios. *)
Definition deployment : ProcessEnv :=
  mkProcessEnv "https://arbitrum.example" "0xA4B1FAC7"
               "https://base.example" "0xBA5EFAC7"
               "https://avalanche.example" "0xA7A1FAC7"
               "0x7FAC7" "0x0pE4a704".

(** Nodes that answer, with factories owned by somebody else and no
    [WalletCreated] event in sight. *)
Definition foreign_factories : Env :=
  mkEnv (fun _ _ _ => Ok tt) (fun _ _ => Ok "0x50meb0dyE15e"%string)
        (fun _ _ _ _ => Ok tt) (fun _ _ _ => Ok tt)
        (fun _ => Ok (mkReceipt [])) (fun _ _ _ _ => Ok [])
        (fun _ _ _ => network_error).

(** Nodes that answer, where the ethers constructors reject a missing
    contract address as they do. *)
Definition strict_constructors : Env :=
  mkEnv (fun _ factory _ =>
           match factory with
           | Some _ => Ok tt
           | None => Fail (mkError "invalid value for Contract target")
           end)
        (fun _ _ => Ok "0x0pE4a704"%string)
        (fun _ _ _ _ => Ok tt) (fun _ _ _ => Ok tt)
        (fun _ => Ok (mkReceipt [])) (fun _ _ _ _ => Ok [])
        (fun _ _ _ => network_error).

(** The events a factory shared with other users has emitted: one wallet,
    created for somebody else's destination. *)
Definition foreign_events : list EventLog :=
  [ mkEvent "0x07be4a11e7" "0x07be4" ]%string.

(** A node that answers event queries from [chain], honouring the
    destination filter. *)
Definition query_events (chain : list EventLog) (destination : option string)
  : list EventLog :=
  match destination with
  | Some d => filter (fun ev => String.eqb (args_destination ev) d) chain
  | None => chain
  end.

(** The operator owns the factory, which other users use as well; the
    creation transaction is reported as already known to the network. *)
Definition shared_factory : Env :=
  mkEnv (fun _ _ _ => Ok tt) (fun _ _ => Ok "0x0PE4A704"%string)
        (fun _ _ _ _ => Ok tt)
        (fun _ _ _ => Fail (mkError "could not coalesce error (error: already known)"))
        (fun _ => Ok (mkReceipt []))
        (fun _ destination _ _ => Ok (query_events foreign_events destination))
        (fun _ _ _ => network_error).

(** The same factory on a busier day, with its [WalletCreated] events oldest
    first as [queryFilter] returns them.  Before the call it has emitted one
    event, for the wallet of another user. *)
Definition events_before_submission : list EventLog :=
  [ mkEvent "0xa11cea11e7" "0xa11ce" ]%string.

(** The creation transaction of the call is mined although the node reports
    it as already known, and creates wallet 0xde57a11e7 for destination
    0xde57; by the time of the scan a third user has had a wallet created
    too. *)
Definition events_after_submission : list EventLog :=
  [ mkEvent "0xa11cea11e7" "0xa11ce";
    mkEvent "0xde57a11e7" "0xde57";
    mkEvent "0x07be4a11e7" "0x07be4" ]%string.

Definition busy_factory : Env :=
  mkEnv (fun _ _ _ => Ok tt) (fun _ _ => Ok "0x0PE4A704"%string)
        (fun _ _ _ _ => Ok tt)
        (fun _ _ _ => Fail (mkError "could not coalesce error (error: already known)"))
        (fun _ => Ok (mkReceipt []))
        (fun _ destination _ tr =>
           match submissions tr with
           | 0 => Ok (query_events events_before_submission destination)
           | _ => Ok (query_events events_after_submission destination)
           end)
        (fun _ _ _ => network_error).

(** The operator owns the factory; every creation transaction is reported
    as already known and no [WalletCreated] event ever shows. *)
Definition never_mined : Env :=
  mkEnv (fun _ _ _ => Ok tt) (fun _ _ => Ok "0x0PE4A704"%string)
        (fun _ _ _ _ => Ok tt)
        (fun _ _ _ => Fail (mkError "could not coalesce error (error: already known)"))
        (fun _ => Ok (mkReceipt []))
        (fun _ _ _ _ => Ok [])
        (fun _ _ _ => network_error).

(** A node where the receipt of the first transaction cannot be fetched and
    the second transaction creates wallet 0x5ec0; both transactions were
    mined, so that afterwards the log shows two wallets for the
    destination. *)
Definition flaky_receipts : Env :=
  mkEnv (fun _ _ _ => Ok tt) (fun _ _ => Ok "0x0PE4A704"%string)
        (fun _ _ _ _ => Ok tt) (fun _ _ _ => Ok tt)
        (fun tr => match length (filter is_wait tr) with
                   | 0 => Fail (mkError "timeout")
                   | _ => Ok (mkReceipt [Some (mkLog "WalletCreated" "0x5ec0")])
                   end)
        (fun _ destination _ tr =>
           match submissions tr, destination with
           | 0, _ => Ok []
           | _, Some d => Ok [mkEvent "0xf125" d; mkEvent "0x5ec0" d]
           | _, None => Ok []
           end)
        (fun _ _ _ => network_error).

(** A node where the call creates wallet 0xf125 at once and, by the time of
    the next query, somebody else has created wallet 0x07be for the same
    destination. *)
Definition third_party : Env :=
  mkEnv (fun _ _ _ => Ok tt) (fun _ _ => Ok "0x0PE4A704"%string)
        (fun _ _ _ _ => Ok tt) (fun _ _ _ => Ok tt)
        (fun _ => Ok (mkReceipt [Some (mkLog "WalletCreated" "0xf125")]))
        (fun _ destination _ tr =>
           match submissions tr, destination with
           | 0, _ => Ok []
           | _, Some d => Ok [mkEvent "0xf125" d; mkEvent "0x07be" d]
           | _, None => Ok []
           end)
        (fun _ _ _ => network_error).

(** Nodes where everything works except the Base RPC endpoint. *)
Definition base_down : Env :=
  mkEnv (fun rpc _ _ =>
           match rpc with
           | Some url => if String.eqb url "https://base.example"
                         then Fail (mkError "failed to detect network") else Ok tt
           | None => Ok tt
           end)
        (fun _ _ => Ok "0x0PE4A704"%string)
        (fun _ _ _ _ => Ok tt) (fun _ _ _ => Ok tt)
        (fun tr => match length (filter is_wait tr) with
                   | 0 => Ok (mkReceipt [None;
                               Some (mkLog "WalletCreated"
                                           "0xA7A1a7a1a7a1a7a1a7a1a7a1a7a1a7a1a7a1a7a1")])
                   | _ => Ok (mkReceipt [Some (mkLog "WalletCreated"
                                           "0xa4b1a4b1a4b1a4b1a4b1a4b1a4b1a4b1a4b1a4b1")])
                   end)
        (fun _ _ _ _ => Ok [])
        (fun _ _ _ => network_error).

(* ===================================================================== *)
(** * Part IV: one more route, the classifier and the client             *)
(* ===================================================================== *)

(** ** POST /api/create-wallet/:chain (server.js 884-911) *)

(** The fields of the request body that the handler reads. *)
Record CreateWalletBody : Type := mkCreateWalletBody {
  body_destination : option string;
  body_mintRecipient : option string
}.

Section CreateWalletRoute.
Variable penv : ProcessEnv.
Variable env : Env.

(** The handler, from [req.params.chain] and the body to the response. *)
Definition create_wallet (chainParam : string) (body : CreateWalletBody) : M Response :=
  try_catch
    (let chain := toLowerCase chainParam in
     if String.eqb chain "avalanche" then
       (* Special handling for Avalanche transfer wallet *)
       let destination := body_destination body in
       if falsy destination then
         ret (mkResponse 400 (JsonError "destination is required (address) for Avalanche"))
       else
         (address <- createAvalancheTransferWallet penv env (show destination) ;;
          ret (mkResponse 200 (TextBody (toUpperCase chain ++ ": " ++ show address)%string)))
     else
       (* Regular burn wallet creation *)
       let mintRecipient := body_mintRecipient body in
       if falsy mintRecipient then
         ret (mkResponse 400 (JsonError "mintRecipient is required (bytes32)"))
       else
         (address <- createWalletOnChain penv env chain (show mintRecipient) ;;
          ret (mkResponse 200 (TextBody (toUpperCase chain ++ ": " ++ show address)%string))))
    (fun error =>
       message_of error (fun msg =>
         ret (mkResponse 500 (JsonError (or_internal_error msg))))).

End CreateWalletRoute.

(** ** Vocabulary: what a run may emit *)

(** From every history the computation only appends events, and every
    event it appends satisfies [P]. *)
Definition emits {A} (P : Event -> Prop) (c : M A) : Prop :=
  forall tr, exists more, snd (c tr) = tr ++ more /\ Forall P more.

(** The events burn-wallet creation may emit for a configuration and a
    recipient: backoffs, clients for the chain's RPC and factory, owner
    checks and [createSingleWallet(1, mintRecipient)] on that factory, and
    waits for receipts. *)
Definition burn_event (cfg : JsLookup ChainConfig) (mintRecipient : string)
    (e : Event) : Prop :=
  match e with
  | EvSleep _ => True
  | EvConnect r f => r = cfg_rpc cfg /\ f = cfg_factory cfg
  | EvOwner f => f = cfg_factory cfg
  | EvCreateBurn f domain recipient =>
      f = cfg_factory cfg /\ domain = 1%Z /\ recipient = mintRecipient
  | EvWait => True
  | _ => False
  end.

(** The events transfer-wallet creation may emit for a destination. *)
Definition transfer_event (penv : ProcessEnv) (destinationAddress : string)
    (e : Event) : Prop :=
  let cfg := AVALANCHE_TRANSFER_CONFIG penv in
  match e with
  | EvSleep _ => True
  | EvConnect r f => r = Some (rpc cfg) /\ f = Some (factory cfg)
  | EvOwner f => f = Some (factory cfg)
  | EvCreateTransfer f d => f = Some (factory cfg) /\ d = destinationAddress
  | EvWait => True
  | EvQueryFilter f d fromBlock =>
      f = Some (factory cfg)
      /\ ((d = Some destinationAddress /\ fromBlock = (-50)%Z)
          \/ (d = None /\ fromBlock = (-20)%Z))
  | _ => False
  end.

(** Every creation transaction in the trace comes right after an
    [owner()] call, on the same factory, that reported the signer. *)
Definition event_factory (e : Event) : option string :=
  match e with
  | EvCreateBurn f _ _ => f
  | EvCreateTransfer f _ => f
  | _ => None
  end.

Definition owner_checked (penv : ProcessEnv) (env : Env) (tr : Trace) : Prop :=
  forall before e after,
    tr = before ++ e :: after ->
    is_submission e = true ->
    exists history owner,
      before = history ++ [EvOwner (event_factory e)]
      /\ env_owner env (event_factory e) history = Ok owner
      /\ owner_mismatch penv owner = false.

(** A computation that keeps a property of the trace. *)
Definition keeps {A} (I : Trace -> Prop) (c : M A) : Prop :=
  forall tr, I tr -> I (snd (c tr)).

(** The wallet [w] is read off the receipt fetched last: the run ends with
    that [tx.wait()], and [w] is the wallet of the first log of the receipt
    that parses as [WalletCreated]. *)
Definition from_last_receipt (env : Env) (final : Trace) (w : string) : Prop :=
  exists history receipt parsed,
    final = history ++ [EvWait]
    /\ env_wait env history = Ok receipt
    /\ find is_WalletCreated (logs receipt) = Some (Some parsed)
    /\ log_name parsed = "WalletCreated"%string
    /\ log_wallet parsed = w.

(** From every history the computation appends events whose delays add up
    to at most [ms]. *)
Definition waits_at_most {A} (ms : Z) (c : M A) : Prop :=
  forall tr, exists more, snd (c tr) = tr ++ more /\ (slept more <= ms)%Z.

(** ** isRetryableNetworkError (server.js 203-227) *)

(** What the classifier reads of the value it is given: [err.message] and
    [err.code], each possibly absent.  A code is kept as the text that
    [String(err.code)] makes of it. *)
Record ErrorLike : Type := mkErrorLike {
  err_message : option string;
  err_code : option string
}.

(** [value ? value : ''] for a possibly absent string. *)
Definition or_empty (v : option string) : string :=
  if falsy v then EmptyString else show v.

Definition isRetryableNetworkError (err : option ErrorLike) : bool :=
  let message :=
    toLowerCase (match err with Some e => or_empty (err_message e) | None => EmptyString end) in
  let code := match err with Some e => or_empty (err_code e) | None => EmptyString end in
  (* Common transient/network conditions *)
  includes message "timeout" ||
  includes message "timed out" ||
  includes message "network error" ||
  includes message "getaddrinfo" ||
  includes message "enotfound" ||
  includes message "dns" ||
  includes message "socket hang up" ||
  includes message "econnreset" ||
  includes message "etimedout" ||
  includes message "failed to detect network" ||
  includes message "cannot start up" ||
  includes message "503" ||
  includes message "rate limit" ||
  includes message "too many requests" ||
  String.eqb code "NETWORK_ERROR" ||
  String.eqb code "ENOTFOUND" ||
  String.eqb code "SERVER_ERROR" ||
  String.eqb code "TIMEOUT".

(** ** The client of the batch route: createWalletAll (Web/lib/api.ts 18-81) *)

(** [s.split(separator)] for a non-empty separator: the pieces between the
    occurrences of the separator, found from left to right.  [skip] counts
    the characters of a found separator still to be passed over, [current]
    is the piece being read. *)
Fixpoint split_from (separator : string) (skip : nat) (current : string) (s : string)
  : list string :=
  match s with
  | EmptyString => [current]
  | String c s' =>
      match skip with
      | S skip' => split_from separator skip' current s'
      | O =>
          if String.prefix separator s
          then current :: split_from separator (String.length separator - 1) EmptyString s'
          else split_from separator 0 (current ++ String c EmptyString) s'
      end
  end.

Definition split (s separator : string) : list string :=
  split_from separator 0 EmptyString s.










(** * Part V: the contracts behind the factories (unnamed/part_001)       *)

(** ** Solidity values and transactions *)

(** An [address], a [bytes32] and the unsigned integers are numbers within
    their range. *)
Definition address : Type := Z.

Definition uint256_max : Z := 2 ^ 256 - 1.

(** The events the contracts declare and emit. *)
Inductive SolEvent : Type :=
| TransferWalletCreated (wallet destination : address)
    (* AvaxSepoliaTransferWalletFactory: event WalletCreated(wallet, destination) *)
| DestinationChanged (oldDestination newDestination : address)
| USDCTransferredWithFee (to : address) (amount : Z) (feeAddress : address) (feeAmount : Z)
| BurnWalletCreated (wallet : address) (destinationDomain mintRecipient : Z)
    (* BaseSepoliaWalletFactory: event WalletCreated(wallet, destinationDomain, mintRecipient) *)
| USDCBurned (amount destinationDomain mintRecipient : Z)
| USDCReceived (from : address) (amount : Z).

(** What a call does to the world outside the contract's own storage, in the
    order in which it does it. *)
Inductive Effect : Type :=
| SafeTransfer (token to : address) (value : Z)
    (* IERC20(token).safeTransfer(to, value) *)
| Approve (token spender : address) (value : Z)
    (* IERC20(token).approve(spender, value) *)
| DepositForBurn (messenger : address) (amount destinationDomain mintRecipient : Z)
    (burnToken : address) (destinationCaller maxFee minFinalityThreshold : Z)
    (* ITokenMessenger(messenger).depositForBurn(...) *)
| NewTransferOnlyWallet (wallet initialDestination _factory : address)
    (* new TransferOnlyWallet(initialDestination, _factory), deployed at [wallet] *)
| NewBurnOnlyWallet (wallet : address) (_destinationDomain _mintRecipient : Z)
    (_factory : address)
    (* new BurnOnlyWallet(_destinationDomain, _mintRecipient, _factory) *)
| EmergencyBurnAll (wallet : address)
    (* BurnOnlyWallet(wallet).emergencyBurnAll() *)
| SendValue (to : address) (value : Z)
    (* payable(to).call{value: value}("") *)
| Emit (e : SolEvent).

(** How a call ends: with a value, or reverted by a failed [require], by the
    custom error of a modifier, or by a panic of checked arithmetic.  A call
    that reverts leaves the storage and the world as they were. *)
Inductive Tx (A : Type) : Type :=
| Success (a : A)
| Revert (reason : string)
| Panic (code : Z).
Arguments Success {A} a.
Arguments Revert {A} reason.
Arguments Panic {A} code.

(** What a call sees of the chain: its sender, the address of the contract
    it runs in, the balance that [IERC20(token).balanceOf(address(this))]
    reports (a query that always answers), the contract's own balance of
    native currency, and what the other contracts answer.
    [call_reverts made e] is [None] when the call [e] into another contract,
    after the effects [made] so far in this transaction, goes through, and
    the revert data of that contract when it does not (a token that is
    paused or has blacklisted an address, a transfer that returns [false]
    and makes SafeERC20 revert).  The other contracts are taken not to call
    back into this one. *)
Record Context : Type := mkContext {
  msg_sender : address;
  this : address;
  balanceOf_this : address -> Z;
  this_balance : Z;
  call_reverts : list Effect -> Effect -> option string
}.

(** A function of a contract with storage [S]: from the storage and the
    effects so far to a result, the storage and the effects after it. *)
Definition Sol (S A : Type) : Type := S -> list Effect -> Tx (A * S * list Effect).

Definition sol_ret {S A} (a : A) : Sol S A := fun s log => Success (a, s, log).

Definition sol_bind {S A B} (c : Sol S A) (k : A -> Sol S B) : Sol S B :=
  fun s log =>
    match c s log with
    | Success (a, s', log') => k a s' log'
    | Revert reason => Revert reason
    | Panic code => Panic code
    end.

Declare Scope sol_scope.
Delimit Scope sol_scope with sol.
Notation "x <- c ;; k" := (sol_bind c (fun x => k))
  (at level 61, c at next level, right associativity) : sol_scope.
Notation "c ;; k" := (sol_bind c (fun _ => k))
  (at level 61, right associativity) : sol_scope.
Open Scope sol_scope.

(** [require(condition, reason)] *)
Definition require {S} (condition : bool) (reason : string) : Sol S unit :=
  fun s log => if condition then Success (tt, s, log) else Revert reason.

(** An [emit], a deployment whose constructor calls no other contract, or
    a payment whose success the code tests itself: it is recorded. *)
Definition perform {S} (e : Effect) : Sol S unit :=
  fun s log => Success (tt, s, log ++ [e]).

(** A call into another contract, or a deployment whose constructor makes
    one: it is recorded when it goes through, and its revert is the revert of
    the whole call. *)
Definition external_call {S} (ctx : Context) (e : Effect) : Sol S unit :=
  fun s log =>
    match call_reverts ctx log e with
    | None => Success (tt, s, log ++ [e])
    | Some reason => Revert reason
    end.

Definition sload {S} : Sol S S := fun s log => Success (s, s, log).

Definition sstore {S} (s' : S) : Sol S unit := fun _ log => Success (tt, s', log).

(** The result of a [pure] function, whose checked arithmetic can panic. *)
Definition pure_call {S A} (r : Tx A) : Sol S A :=
  fun s log =>
    match r with
    | Success a => Success (a, s, log)
    | Revert reason => Revert reason
    | Panic code => Panic code
    end.

(** [a - b] on unsigned integers: Solidity 0.8 panics with code 0x11 when the
    result would be negative. *)
Definition checked_sub (a b : Z) : Tx Z :=
  if (a <? b)%Z then Panic 0x11 else Success (a - b)%Z.

(** [mapping(address => bool)] with every entry [false] at first. *)
Definition Mapping : Type := address -> bool.

Definition mapping_set (m : Mapping) (key : address) (value : bool) : Mapping :=
  fun k => if (k =? key)%Z then value else m k.

(** ** TransferOnlyWallet (part_001 98-205) *)

Module TransferOnlyWallet.

Record Storage : Type := mkStorage {
  factory : address;       (* immutable *)
  destination : address
}.

Definition USDC : address := 0x5425890298aed601595a70AB815c96711a31Bc65%Z.

Definition FEE_ADDRESS : address := 0xd5A3259cc15C588EdAF23FaFB9620910580189f4%Z.

(** [modifier onlyDestination] *)
Definition onlyDestination (ctx : Context) : Sol Storage unit :=
  self <- sload ;;
  require (msg_sender ctx =? destination self)%Z "Only destination can call".

(** The constructor: the storage of the new wallet. *)
Definition constructor (initialDestination _factory : address) : Tx Storage :=
  if (initialDestination =? 0)%Z then Revert "Invalid destination"
  else Success (mkStorage _factory initialDestination).

Definition calculateFeeSplit (amount : Z) : Tx (Z * Z) :=
  let feeAmount := (amount / 100)%Z in (* 1% *)
  match checked_sub amount feeAmount with (* 99% *)
  | Success destinationAmount => Success (feeAmount, destinationAmount)
  | Revert reason => Revert reason
  | Panic code => Panic code
  end.

(** The part that [transferUSDC] and [transferAllUSDC] share word for word:
    the split and the two transfers. *)
Definition transfer_with_fee (ctx : Context) (amount : Z) : Sol Storage unit :=
  amounts <- pure_call (calculateFeeSplit amount) ;;
  let '(feeAmount, destinationAmount) := amounts in
  (* Transfer 1% to fee address *)
  (if (feeAmount >? 0)%Z
   then external_call ctx (SafeTransfer USDC FEE_ADDRESS feeAmount)
   else sol_ret tt) ;;
  (* Transfer 99% to destination *)
  self <- sload ;;
  (if (destinationAmount >? 0)%Z
   then external_call ctx (SafeTransfer USDC (destination self) destinationAmount)
   else sol_ret tt) ;;
  perform (Emit (USDCTransferredWithFee (destination self) destinationAmount
                                        FEE_ADDRESS feeAmount)).

Definition transferUSDC (ctx : Context) (amount : Z) : Sol Storage unit :=
  require (amount >? 0)%Z "Amount must be > 0" ;;
  require (balanceOf_this ctx USDC >=? amount)%Z "Insufficient USDC balance" ;;
  transfer_with_fee ctx amount.

Definition transferAllUSDC (ctx : Context) : Sol Storage unit :=
  let balance := balanceOf_this ctx USDC in
  require (balance >? 0)%Z "No USDC to transfer" ;;
  transfer_with_fee ctx balance.

Definition setDestination (ctx : Context) (newDestination : address) : Sol Storage unit :=
  onlyDestination ctx ;;
  require (negb (newDestination =? 0)%Z) "Invalid destination" ;;
  self <- sload ;;
  let old := destination self in
  sstore (mkStorage (factory self) newDestination) ;;
  perform (Emit (DestinationChanged old newDestination)).

Definition getConfig : Sol Storage (address * address) :=
  self <- sload ;;
  sol_ret (destination self, factory self).

(** The calls a wallet accepts. *)
Inductive Call : Type :=
| CallTransferUSDC (amount : Z)
| CallTransferAllUSDC
| CallSetDestination (newDestination : address)
| CallGetConfig.

Definition dispatch (ctx : Context) (call : Call) : Sol Storage unit :=
  match call with
  | CallTransferUSDC amount => transferUSDC ctx amount
  | CallTransferAllUSDC => transferAllUSDC ctx
  | CallSetDestination newDestination => setDestination ctx newDestination
  | CallGetConfig => getConfig ;; sol_ret tt
  end.

End TransferOnlyWallet.

(** ** Transactions on a contract *)

(** One transaction: what it leaves of the storage and what it did to the
    world; a reverted one leaves the storage and does nothing. *)
Definition transact {S A} (c : Sol S A) (s : S) : S * list Effect :=
  match c s [] with
  | Success (_, s', log) => (s', log)
  | _ => (s, [])
  end.

(** A history of transactions, each with the context it ran in: the storage
    at the end and everything done on the way. *)
Fixpoint history {S Call} (dispatch : Context -> Call -> Sol S unit)
    (txs : list (Context * Call)) (s : S) : S * list Effect :=
  match txs with
  | [] => (s, [])
  | (ctx, call) :: rest =>
      let '(s1, log1) := transact (dispatch ctx call) s in
      let '(s2, log2) := history dispatch rest s1 in
      (s2, log1 ++ log2)
  end.

(** ** AvaxSepoliaTransferWalletFactory (part_001 13-92) *)

Module AvaxSepoliaTransferWalletFactory.

Record Storage : Type := mkStorage {
  owner : address;                 (* Ownable *)
  isDeployedWallet : Mapping;
  deployedWallets : list address
}.

Definition USDC : address := 0x5425890298aed601595a70AB815c96711a31Bc65%Z.

(** [constructor() Ownable(msg.sender) {}] *)
Definition constructor (ctx : Context) : Storage :=
  mkStorage (msg_sender ctx) (fun _ => false) [].

(** [modifier onlyOwner] of Ownable *)
Definition onlyOwner (ctx : Context) : Sol Storage unit :=
  self <- sload ;;
  require (owner self =? msg_sender ctx)%Z "OwnableUnauthorizedAccount".

Section Deployment.
(** The address at which the chain deploys the contract that this factory
    creates when it has created [n] before. *)
Variable create_address : nat -> address.

(** [new TransferOnlyWallet(destination, address(this))]: the constructor
    runs, and its revert is the revert of the call. *)
Definition new_TransferOnlyWallet (ctx : Context) (initialDestination : address)
  : Sol Storage address :=
  _ <- pure_call (TransferOnlyWallet.constructor initialDestination (this ctx)) ;;
  self <- sload ;;
  let wallet := create_address (length (deployedWallets self)) in
  perform (NewTransferOnlyWallet wallet initialDestination (this ctx)) ;;
  sol_ret wallet.

Definition _createWallet (ctx : Context) (destination : address) : Sol Storage address :=
  require (negb (destination =? 0)%Z) "Invalid destination" ;;
  walletAddress <- new_TransferOnlyWallet ctx destination ;;
  self <- sload ;;
  sstore (mkStorage (owner self)
                    (mapping_set (isDeployedWallet self) walletAddress true)
                    (deployedWallets self)) ;;
  self <- sload ;;
  sstore (mkStorage (owner self) (isDeployedWallet self)
                    (deployedWallets self ++ [walletAddress])) ;;
  perform (Emit (TransferWalletCreated walletAddress destination)) ;;
  sol_ret walletAddress.

Definition createSingleWallet (ctx : Context) (destination : address)
  : Sol Storage address :=
  _createWallet ctx destination.

(** The [for] loop of [createMultipleWallets], from the destinations still
    to serve. *)
Fixpoint create_each (ctx : Context) (destinations : list address)
  : Sol Storage (list address) :=
  match destinations with
  | [] => sol_ret []
  | destination :: rest =>
      walletAddress <- _createWallet ctx destination ;;
      walletAddresses <- create_each ctx rest ;;
      sol_ret (walletAddress :: walletAddresses)
  end.

Definition createMultipleWallets (ctx : Context) (destinations : list address)
  : Sol Storage (list address) :=
  require (0 <? length destinations) "Empty destinations" ;;
  create_each ctx destinations.

Definition getAllDeployedWallets : Sol Storage (list address) :=
  self <- sload ;; sol_ret (deployedWallets self).

Definition getWalletCount : Sol Storage Z :=
  self <- sload ;; sol_ret (Z.of_nat (length (deployedWallets self))).

Definition isWallet (wallet : address) : Sol Storage bool :=
  self <- sload ;; sol_ret (isDeployedWallet self wallet).

(** [call_succeeds] is whether the owner's account accepts the payment. *)
Definition withdrawETH (ctx : Context) (call_succeeds : bool) : Sol Storage unit :=
  onlyOwner ctx ;;
  let balance := this_balance ctx in
  require (balance >? 0)%Z "No ETH to withdraw" ;;
  self <- sload ;;
  perform (SendValue (owner self) balance) ;;
  require call_succeeds "ETH withdrawal failed".

Definition withdrawERC20 (ctx : Context) (token : address) : Sol Storage unit :=
  onlyOwner ctx ;;
  let balance := balanceOf_this ctx token in
  require (balance >? 0)%Z "No tokens to withdraw" ;;
  self <- sload ;;
  external_call ctx (SafeTransfer token (owner self) balance).

(** The calls the factory accepts. *)
Inductive Call : Type :=
| CallCreateSingleWallet (destination : address)
| CallCreateMultipleWallets (destinations : list address)
| CallGetAllDeployedWallets
| CallGetWalletCount
| CallIsWallet (wallet : address)
| CallWithdrawETH (call_succeeds : bool)
| CallWithdrawERC20 (token : address).

Definition dispatch (ctx : Context) (call : Call) : Sol Storage unit :=
  match call with
  | CallCreateSingleWallet destination => createSingleWallet ctx destination ;; sol_ret tt
  | CallCreateMultipleWallets destinations =>
      createMultipleWallets ctx destinations ;; sol_ret tt
  | CallGetAllDeployedWallets => getAllDeployedWallets ;; sol_ret tt
  | CallGetWalletCount => getWalletCount ;; sol_ret tt
  | CallIsWallet wallet => isWallet wallet ;; sol_ret tt
  | CallWithdrawETH call_succeeds => withdrawETH ctx call_succeeds
  | CallWithdrawERC20 token => withdrawERC20 ctx token
  end.

End Deployment.

End AvaxSepoliaTransferWalletFactory.

(** ** BurnOnlyWallet (part_001 390-549) *)

Module BurnOnlyWallet.

(** The wallet has no storage that changes: three immutables. *)
Record Storage : Type := mkStorage {
  factory : address;
  DESTINATION_DOMAIN : Z;
  MINT_RECIPIENT : Z
}.

Definition TOKEN_MESSENGER : address := 0x8FE6B999Dc680CcFDD5Bf7EB0974218be2542DAA%Z.

Definition USDC : address := 0x036CbD53842c5426634e7929541eC2318f3dCF7e%Z.

Definition MAX_FEE : Z := 500.

Definition MIN_FINALITY_THRESHOLD : Z := 1000.

(** [modifier onlyFactory] *)
Definition onlyFactory (ctx : Context) : Sol Storage unit :=
  self <- sload ;;
  require (msg_sender ctx =? factory self)%Z "Only factory can call".

(** The constructor: the new wallet's immutables, and the approval it gives
    while it is deployed. *)
Definition constructor (_destinationDomain _mintRecipient : Z) (_factory : address)
  : Storage * list Effect :=
  (mkStorage _factory _destinationDomain _mintRecipient,
   (* Pre-approve TokenMessenger to spend USDC *)
   [Approve USDC TOKEN_MESSENGER uint256_max]).

(** The call of [depositForBurn] that every burning function makes, with
    its hardcoded parameters, and the event after it. *)
Definition deposit_for_burn (ctx : Context) (amount : Z) : Sol Storage unit :=
  self <- sload ;;
  external_call ctx (DepositForBurn TOKEN_MESSENGER
             amount
             (DESTINATION_DOMAIN self)
             (MINT_RECIPIENT self)
             USDC
             0 (* destinationCaller (0x0) *)
             MAX_FEE
             MIN_FINALITY_THRESHOLD) ;;
  perform (Emit (USDCBurned amount (DESTINATION_DOMAIN self) (MINT_RECIPIENT self))).

Definition burnUSDC (ctx : Context) (amount : Z) : Sol Storage unit :=
  require (amount >? 0)%Z "Amount must be greater than 0" ;;
  require (balanceOf_this ctx USDC >=? amount)%Z "Insufficient USDC balance" ;;
  deposit_for_burn ctx amount.

Definition burnAllUSDC (ctx : Context) : Sol Storage unit :=
  let balance := balanceOf_this ctx USDC in
  require (balance >? 0)%Z "No USDC to burn" ;;
  deposit_for_burn ctx balance.

(** [onERC20Received(token, amount, data)]; the selector it returns is left
    out. *)
Definition onERC20Received (ctx : Context) (token : address) (amount : Z)
  : Sol Storage unit :=
  require (token =? USDC)%Z "Only USDC allowed" ;;
  require (amount >? 0)%Z "Amount must be greater than 0" ;;
  perform (Emit (USDCReceived (msg_sender ctx) amount)) ;;
  (* Automatically burn to hardcoded destination *)
  deposit_for_burn ctx amount.

Definition emergencyBurnAll (ctx : Context) : Sol Storage unit :=
  onlyFactory ctx ;;
  let balance := balanceOf_this ctx USDC in
  if (balance >? 0)%Z then deposit_for_burn ctx balance else sol_ret tt.

Definition getConfig : Sol Storage (Z * Z * address) :=
  self <- sload ;;
  sol_ret (DESTINATION_DOMAIN self, MINT_RECIPIENT self, factory self).

Definition getUSDCBalance (ctx : Context) : Sol Storage Z :=
  sol_ret (balanceOf_this ctx USDC).

(** The calls a wallet accepts. *)
Inductive Call : Type :=
| CallBurnUSDC (amount : Z)
| CallBurnAllUSDC
| CallOnERC20Received (token : address) (amount : Z)
| CallEmergencyBurnAll
| CallGetConfig
| CallGetUSDCBalance.

Definition dispatch (ctx : Context) (call : Call) : Sol Storage unit :=
  match call with
  | CallBurnUSDC amount => burnUSDC ctx amount
  | CallBurnAllUSDC => burnAllUSDC ctx
  | CallOnERC20Received token amount => onERC20Received ctx token amount
  | CallEmergencyBurnAll => emergencyBurnAll ctx
  | CallGetConfig => getConfig ;; sol_ret tt
  | CallGetUSDCBalance => getUSDCBalance ctx ;; sol_ret tt
  end.

End BurnOnlyWallet.

(** ** BaseSepoliaWalletFactory (part_001 232-384) *)

Module BaseSepoliaWalletFactory.

Record Storage : Type := mkStorage {
  owner : address;                 (* Ownable *)
  isDeployedWallet : Mapping;
  deployedWallets : list address
}.

(** [constructor() Ownable(msg.sender) {}] *)
Definition constructor (ctx : Context) : Storage :=
  mkStorage (msg_sender ctx) (fun _ => false) [].

(** [modifier onlyOwner] of Ownable *)
Definition onlyOwner (ctx : Context) : Sol Storage unit :=
  self <- sload ;;
  require (owner self =? msg_sender ctx)%Z "OwnableUnauthorizedAccount".

Section Deployment.
(** The address at which the chain deploys the contract that this factory
    creates when it has created [n] before. *)
Variable create_address : nat -> address.

Definition createBurnWallet (ctx : Context) (destinationDomain mintRecipient : Z)
  : Sol Storage address :=
  require (destinationDomain =? 1)%Z "destinationDomain must be 1" ;;
  require (negb (mintRecipient =? 0)%Z) "Invalid mint recipient" ;;
  (* Create new wallet contract *)
  self <- sload ;;
  let walletAddress := create_address (length (deployedWallets self)) in
  external_call ctx
    (NewBurnOnlyWallet walletAddress destinationDomain mintRecipient (this ctx)) ;;
  (* Track the deployed wallet *)
  sstore (mkStorage (owner self)
                    (mapping_set (isDeployedWallet self) walletAddress true)
                    (deployedWallets self)) ;;
  self <- sload ;;
  sstore (mkStorage (owner self) (isDeployedWallet self)
                    (deployedWallets self ++ [walletAddress])) ;;
  perform (Emit (BurnWalletCreated walletAddress destinationDomain mintRecipient)) ;;
  sol_ret walletAddress.

Definition createSingleWallet (ctx : Context) (destinationDomain mintRecipient : Z)
  : Sol Storage address :=
  createBurnWallet ctx destinationDomain mintRecipient.

(** The [for] loop of [createMultipleWallets] over [domains[i]] and
    [recipients[i]], from index [i] on; an index beyond [recipients] panics
    with code 0x32. *)
Fixpoint create_each (ctx : Context) (domains recipients : list Z)
  : Sol Storage (list address) :=
  match domains with
  | [] => sol_ret []
  | domain :: domains' =>
      match recipients with
      | [] => fun _ _ => Panic 0x32
      | recipient :: recipients' =>
          walletAddress <- createBurnWallet ctx domain recipient ;;
          walletAddresses <- create_each ctx domains' recipients' ;;
          sol_ret (walletAddress :: walletAddresses)
      end
  end.

Definition createMultipleWallets (ctx : Context) (domains recipients : list Z)
  : Sol Storage (list address) :=
  require (length domains =? length recipients) "Arrays length mismatch" ;;
  require (0 <? length domains) "Empty arrays" ;;
  create_each ctx domains recipients.

Definition getAllDeployedWallets : Sol Storage (list address) :=
  self <- sload ;; sol_ret (deployedWallets self).

Definition getWalletCount : Sol Storage Z :=
  self <- sload ;; sol_ret (Z.of_nat (length (deployedWallets self))).

Definition isWallet (wallet : address) : Sol Storage bool :=
  self <- sload ;; sol_ret (isDeployedWallet self wallet).

Definition emergencyBurnFromWallet (ctx : Context) (walletAddress : address)
  : Sol Storage unit :=
  onlyOwner ctx ;;
  self <- sload ;;
  require (isDeployedWallet self walletAddress) "Not a deployed wallet" ;;
  external_call ctx (EmergencyBurnAll walletAddress).

(** The [for] loop of [emergencyBurnFromAllWallets]. *)
Fixpoint burn_each (ctx : Context) (wallets : list address) : Sol Storage unit :=
  match wallets with
  | [] => sol_ret tt
  | wallet :: rest => external_call ctx (EmergencyBurnAll wallet) ;; burn_each ctx rest
  end.

Definition emergencyBurnFromAllWallets (ctx : Context) : Sol Storage unit :=
  onlyOwner ctx ;;
  self <- sload ;;
  burn_each ctx (deployedWallets self).

Definition withdrawETH (ctx : Context) (call_succeeds : bool) : Sol Storage unit :=
  onlyOwner ctx ;;
  let balance := this_balance ctx in
  require (balance >? 0)%Z "No ETH to withdraw" ;;
  self <- sload ;;
  perform (SendValue (owner self) balance) ;;
  require call_succeeds "ETH withdrawal failed".

Definition withdrawERC20 (ctx : Context) (token : address) : Sol Storage unit :=
  onlyOwner ctx ;;
  let balance := balanceOf_this ctx token in
  require (balance >? 0)%Z "No tokens to withdraw" ;;
  self <- sload ;;
  external_call ctx (SafeTransfer token (owner self) balance).

(** The calls the factory accepts. *)
Inductive Call : Type :=
| CallCreateSingleWallet (destinationDomain mintRecipient : Z)
| CallCreateMultipleWallets (domains recipients : list Z)
| CallGetAllDeployedWallets
| CallGetWalletCount
| CallIsWallet (wallet : address)
| CallEmergencyBurnFromWallet (walletAddress : address)
| CallEmergencyBurnFromAllWallets
| CallWithdrawETH (call_succeeds : bool)
| CallWithdrawERC20 (token : address).

Definition dispatch (ctx : Context) (call : Call) : Sol Storage unit :=
  match call with
  | CallCreateSingleWallet destinationDomain mintRecipient =>
      createSingleWallet ctx destinationDomain mintRecipient ;; sol_ret tt
  | CallCreateMultipleWallets domains recipients =>
      createMultipleWallets ctx domains recipients ;; sol_ret tt
  | CallGetAllDeployedWallets => getAllDeployedWallets ;; sol_ret tt
  | CallGetWalletCount => getWalletCount ;; sol_ret tt
  | CallIsWallet wallet => isWallet wallet ;; sol_ret tt
  | CallEmergencyBurnFromWallet walletAddress => emergencyBurnFromWallet ctx walletAddress
  | CallEmergencyBurnFromAllWallets => emergencyBurnFromAllWallets ctx
  | CallWithdrawETH call_succeeds => withdrawETH ctx call_succeeds
  | CallWithdrawERC20 token => withdrawERC20 ctx token
  end.

End Deployment.

End BaseSepoliaWalletFactory.

Close Scope sol_scope.

(** ** Vocabulary: reading what transactions did *)

Definition transfer_value (e : Effect) : Z :=
  match e with SafeTransfer _ _ value => value | _ => 0%Z end.

(** The sum of all token transfers made. *)
Definition transferred (log : list Effect) : Z := sumZ (map transfer_value log).

(** The wallets deployed, in order. *)
Definition deployed (log : list Effect) : list address :=
  flat_map (fun e => match e with
                     | NewTransferOnlyWallet wallet _ _ => [wallet]
                     | NewBurnOnlyWallet wallet _ _ _ => [wallet]
                     | _ => []
                     end) log.

(** The wallets named in [WalletCreated] events, in order. *)
Definition announced (log : list Effect) : list address :=
  flat_map (fun e => match e with
                     | Emit (TransferWalletCreated wallet _) => [wallet]
                     | Emit (BurnWalletCreated wallet _ _) => [wallet]
                     | _ => []
                     end) log.

(** What a transfer-only wallet may do: pay USDC to the fee address or to
    [payee], and emit events. *)
Definition pays_only (payee : address -> Prop) (e : Effect) : Prop :=
  match e with
  | SafeTransfer token to value =>
      token = TransferOnlyWallet.USDC
      /\ (to = TransferOnlyWallet.FEE_ADDRESS \/ payee to) /\ (0 < value)%Z
  | Emit _ => True
  | _ => False
  end.

(** Every token transfer among [done], made after the calls [made], was
    accepted by the token when it was made. *)
Fixpoint transfers_accepted (ctx : Context) (made done : list Effect) : Prop :=
  match done with
  | [] => True
  | e :: rest =>
      match e with
      | SafeTransfer _ _ _ => call_reverts ctx made e = None
      | _ => True
      end
      /\ transfers_accepted ctx (made ++ [e]) rest
  end.

(** What a burn-only wallet with the given immutables may do: burn a
    positive amount of USDC to its own domain and recipient with the
    hardcoded parameters, and emit events. *)
Definition burns_only (self : BurnOnlyWallet.Storage) (e : Effect) : Prop :=
  match e with
  | DepositForBurn messenger amount destinationDomain mintRecipient burnToken
                   destinationCaller maxFee minFinalityThreshold =>
      messenger = BurnOnlyWallet.TOKEN_MESSENGER
      /\ (0 < amount)%Z
      /\ destinationDomain = BurnOnlyWallet.DESTINATION_DOMAIN self
      /\ mintRecipient = BurnOnlyWallet.MINT_RECIPIENT self
      /\ burnToken = BurnOnlyWallet.USDC
      /\ destinationCaller = 0%Z /\ maxFee = 500%Z /\ minFinalityThreshold = 1000%Z
  | Emit _ => True
  | _ => False
  end.

(** A contract function keeps a relation between the storage and everything
    done so far ([before] by earlier transactions, [log] by this one) when it
    goes through. *)
Definition sol_keeps {S A} (R : S -> list Effect -> Prop) (c : Sol S A) : Prop :=
  forall s before log,
    R s (before ++ log) ->
    match c s log with
    | Success (_, s', log') => R s' (before ++ log')
    | _ => True
    end.

(** The books of a factory are in order: the mapping marks exactly the
    listed wallets, the list holds the addresses the chain gave out, in
    order, and these are the wallets deployed and the wallets announced in
    [WalletCreated] events. *)
Definition registry_in_order (create_address : nat -> address)
    (isDeployedWallet : Mapping) (deployedWallets : list address)
    (log : list Effect) : Prop :=
  (forall wallet, isDeployedWallet wallet = true <-> In wallet deployedWallets)
  /\ deployedWallets = map create_address (seq 0 (length deployedWallets))
  /\ deployed log = deployedWallets
  /\ announced log = deployedWallets.

(** Every wallet was deployed for a destination, or for domain 1 and a mint
    recipient, that is not zero; an emergency burn is only asked of a wallet
    on the list. *)
Definition well_deployed (deployedWallets : list address) (e : Effect) : Prop :=
  match e with
  | NewTransferOnlyWallet _ initialDestination _ => initialDestination <> 0%Z
  | NewBurnOnlyWallet _ destinationDomain mintRecipient _ =>
      destinationDomain = 1%Z /\ mintRecipient <> 0%Z
  | EmergencyBurnAll wallet => In wallet deployedWallets
  | _ => True
  end.

Definition transfer_factory_in_order (create_address : nat -> address)
    (s : AvaxSepoliaTransferWalletFactory.Storage) (log : list Effect) : Prop :=
  registry_in_order create_address
    (AvaxSepoliaTransferWalletFactory.isDeployedWallet s)
    (AvaxSepoliaTransferWalletFactory.deployedWallets s) log
  /\ Forall (well_deployed (AvaxSepoliaTransferWalletFactory.deployedWallets s)) log.

Definition burn_factory_in_order (create_address : nat -> address)
    (s : BaseSepoliaWalletFactory.Storage) (log : list Effect) : Prop :=
  registry_in_order create_address
    (BaseSepoliaWalletFactory.isDeployedWallet s)
    (BaseSepoliaWalletFactory.deployedWallets s) log
  /\ Forall (well_deployed (BaseSepoliaWalletFactory.deployedWallets s)) log.

(** * Part VI: the bridge and the database (server.js 92-115, 423-879)   *)

(** ** A wider record of interactions *)

(** A value of a JSON request body or of a database row. *)
Inductive Json : Type :=
| JNull
| JBool (b : bool)
| JNumber (x : Number)
| JString (s : string)
| JComposite (text : string).   (* an array or an object, as its JSON text *)

(** The statements sent to the database; the text in [UpdateUser] and
    [UpdateRequest] is the [fields.join(', ')] of the statement. *)
Inductive Sql : Type :=
| SelectUser
    (* SELECT * FROM monomausers WHERE email = $1 *)
| UserExists
    (* SELECT 1 FROM monomausers WHERE email = $1 *)
| UpdateUser (assignments : string)
    (* UPDATE monomausers SET ${assignments}, updated_at = CURRENT_TIMESTAMP
       WHERE email = $1 RETURNING * *)
| InsertUser
    (* INSERT INTO monomausers (email, smartwallets, account, chains, destined_address)
       VALUES ($1, $2, $3, $4, $5) RETURNING * *)
| InsertRequest
    (* INSERT INTO monomarequests (payid, email, smartwallets, amount, status, hash,
       descriptions) VALUES (COALESCE($1, CONCAT('REQ', ...)), $2, $3, $4, $5, $6, $7)
       RETURNING * *)
| SelectRequest
    (* SELECT * FROM monomarequests WHERE payid = $1 *)
| SelectRequestsOfEmail
    (* SELECT * FROM monomarequests WHERE email = $1 ORDER BY created_at DESC *)
| RequestExists
    (* SELECT 1 FROM monomarequests WHERE payid = $1 *)
| UpdateRequest (assignments : string).
    (* UPDATE monomarequests SET ${assignments}, updated_at = CURRENT_TIMESTAMP
       WHERE payid = $1 RETURNING * *)

(** The routes below do what Part I does (they sleep, connect and poll) and
    more. *)
Inductive Step : Type :=
| Narrow (e : Event)
    (* an interaction of Part I *)
| StBurnUSDC (walletAddress amount : string)
    (* await contract.burnUSDC(amount), on the contract at walletAddress *)
| StReceiveMessage (message attestation : option string)
    (* await contract.receiveMessage(message, attestation) *)
| StReceipt
    (* await tx.wait(), read for receipt.gasUsed *)
| StSdkTransfer (smartWalletAddress : string) (amount : Z) (sourceChain : string)
    (* await sdk.transferUSDCWithSmartWallet({ smartWalletAddress, amount, sourceChain,
       userAddress: smartWalletAddress, privateKey, onStep }) *)
| StQuery (statement : Sql) (values : list Json).
    (* await pool.query(statement, values) *)

(** What [sdk.transferUSDCWithSmartWallet] resolves to, as far as the route
    reads it; a field the SDK leaves out is [None]. *)
Record SdkTransfer : Type := mkSdkTransfer {
  sdk_burnTxHash : option string;
  sdk_mintTxHash : option string;
  sdk_totalTime : option string;
  sdk_gasUsed : option string
}.

Definition History := list Step.

(** The world of these routes: the environment of Part I as it stands after
    a history, the hash of the transaction that a submission returns, the
    [gasUsed.toString()] of a receipt, what the SDK resolves to and the rows
    the database returns.  Every answer may depend on all that happened
    before. *)
Record World : Type := mkWorld {
  world_env : History -> Env;
  world_burnUSDC : string -> string -> History -> Answer string;
  world_receiveMessage : option string -> option string -> History -> Answer string;
  world_receipt : History -> Answer string;
  world_sdkTransfer : string -> Z -> string -> History -> Answer SdkTransfer;
  world_query : Sql -> list Json -> History -> Answer (list Json)   (* result.rows *)
}.

(** ** Configuration (server.js 92-115) *)

Record BurnConfig : Type := mkBurnConfig {
  burn_rpc : string;
  burn_label : string;
  burn_chainId : Z
}.

Definition BURN_CONFIGS (ETHEREUM_RPC_URL : string) (penv : ProcessEnv)
  : list (string * BurnConfig) :=
  [ ("eth"%string, mkBurnConfig ETHEREUM_RPC_URL "ETH Sepolia" 0);
    ("base"%string, mkBurnConfig (BASE_RPC_URL penv) "Base Sepolia" 6);
    ("avalanche"%string, mkBurnConfig (AVALANCHE_RPC_URL penv) "Avalanche Fuji" 1) ].

Definition messageTransmitter : string := "0xE737e5cEBEEBa77EFE34D4aa090756590b1CE275".

(** [cfg.rpc] and [cfg.chainId] of a looked-up value; the functions and the
    prototype object that can be inherited have no such properties. *)
Definition burn_cfg_rpc (cfg : JsLookup BurnConfig) : option string :=
  match cfg with OwnProperty c => Some (burn_rpc c) | _ => None end.

Definition burn_cfg_chainId (cfg : JsLookup BurnConfig) : option Z :=
  match cfg with OwnProperty c => Some (burn_chainId c) | _ => None end.

(** The chain id as the poller of Part I takes it.  An undefined one, which
    the poller's URL spells "undefined", is given as -1: no configuration
    has that id, so the polls for it stay apart from all others. *)
Definition chain_id_code (chainId : option Z) : Z := default (-1)%Z chainId.

(** What [mintOnArbitrum] and [burnUSDCOnChain] return. *)
Record MintResult : Type := mkMintResult {
  mint_chain : string;
  mint_transactionHash : string;
  mint_gasUsed : string
}.

Record BurnResult : Type := mkBurnResult {
  result_chain : string;
  result_transactionHash : string;
  result_gasUsed : string;
  result_walletAddress : string;
  result_amountBurned : string;
  result_attestation : option string;
  result_arbitrumMint : MintResult
}.

(** The [walletAddress] and [amount] fields of a request body; a field that
    is absent is [None]. *)
Record BurnBody : Type := mkBurnBody {
  body_walletAddress : option string;
  body_amount : option string
}.

Inductive BurnReply : Type :=
| BurnJson (result : BurnResult)              (* res.json(result) *)
| BurnError (status : Z) (error : string).    (* res.status(status).json({ error }) *)

(** ** The same asynchronous steps over the wider record *)

Module Wide.

Definition W (A : Type) : Type := History -> Outcome A * History.

Definition ret {A} (a : A) : W A := fun h => (Returned a, h).

Definition throw {A} (t : Thrown) : W A := fun h => (Threw t, h).

Definition throwError {A} (msg : string) : W A :=
  throw (ThrownError (mkError msg)).

Definition out_of_fuel {A} : W A := fun h => (OutOfFuel, h).

Definition bind {A B} (c : W A) (k : A -> W B) : W B :=
  fun h =>
    match c h with
    | (Returned a, h') => k a h'
    | (Threw t, h') => (Threw t, h')
    | (OutOfFuel, h') => (OutOfFuel, h')
    end.

Definition try_catch {A} (body : W A) (handler : Thrown -> W A) : W A :=
  fun h =>
    match body h with
    | (Threw t, h') => handler t h'
    | other => other
    end.

(** One awaited interaction of the wider kind. *)
Definition call {A} (s : Step) (answer : History -> Answer A) : W A :=
  fun h =>
    match answer h with
    | Ok a => (Returned a, h ++ [s])
    | Fail err => (Threw (ThrownError err), h ++ [s])
    end.

(** A computation of Part I, run in the environment as it stands: what it
    does is entered in the history as it happened. *)
Definition narrow {A} (world : World) (c : Env -> M A) : W A :=
  fun h =>
    let '(outcome, tr) := c (world_env world h) [] in
    (outcome, h ++ map Narrow tr).

Definition message_of {A} (err : Thrown) (k : string -> W A) : W A :=
  match err with
  | ThrownError e => k (message e)
  | ThrownUndefined =>
      throwError "Cannot read properties of undefined (reading 'message')"
  end.

End Wide.

Declare Scope wide_scope.
Delimit Scope wide_scope with wide.
Notation "x <- c ;; k" := (Wide.bind c (fun x => k))
  (at level 61, c at next level, right associativity) : wide_scope.
Notation "c ;; k" := (Wide.bind c (fun _ => k))
  (at level 61, right associativity) : wide_scope.
Open Scope wide_scope.

(** ** runWithRetries (server.js 131-146), for an action of the wider kind *)

Section WideRetryExecutor.
Context {T : Type}.
Variable world : World.
Variable action : Wide.W T.
Variables maxAttempts baseDelayMs : Z.

Fixpoint wide_retry_loop (fuel : nat) (attempt : Z) (lastErr : Thrown) : Wide.W T :=
  if (attempt <? maxAttempts)%Z then
    match fuel with
    | O => Wide.out_of_fuel
    | S fuel' =>
        let attempt := (attempt + 1)%Z in
        Wide.try_catch action (fun err =>
          let lastErr := err in
          if (attempt >=? maxAttempts)%Z then Wide.throw lastErr
          else
            let delay := (baseDelayMs * attempt)%Z in
            Wide.narrow world (fun _ => sleep delay) ;;
            wide_retry_loop fuel' attempt lastErr)
    end
  else Wide.throw lastErr.

End WideRetryExecutor.

Definition wide_runWithRetries {T} (world : World) (action : Wide.W T)
    (opts : RetryOptions) : Wide.W T :=
  let maxAttempts := default 3%Z (opt_maxAttempts opts) in
  let baseDelayMs := default 1000%Z (opt_baseDelayMs opts) in
  let attempt := 0%Z in
  let lastErr := ThrownUndefined in
  wide_retry_loop world action maxAttempts baseDelayMs (Z.to_nat maxAttempts)
                  attempt lastErr.

(** ** mintOnArbitrum, burnUSDCOnChain and the route (server.js 423-485, 690-708) *)

Section Bridge.
Variable ETHEREUM_RPC_URL : string.
Variable penv : ProcessEnv.
Variable world : World.

Definition mintOnArbitrum (attestation message : option string) : Wide.W MintResult :=
  Wide.narrow world (fun env =>
    connect env (Some (ARBITRUM_RPC_URL penv)) (Some messageTransmitter)) ;;
  tx_hash <- Wide.call (StReceiveMessage message attestation)
                       (world_receiveMessage world message attestation) ;;
  gasUsed <- Wide.call StReceipt (world_receipt world) ;;
  Wide.ret (mkMintResult "arbitrum" tx_hash gasUsed).

Definition burnUSDCOnChain (chainKey walletAddress amount : string)
  : Wide.W BurnResult :=
  let cfg := js_get (BURN_CONFIGS ETHEREUM_RPC_URL penv) chainKey in
  if js_not cfg then
    Wide.throwError ("Unsupported chain " ++ chainKey ++ ". Use eth, base, avalanche.")
  else
    Wide.narrow world (fun env => connect env (burn_cfg_rpc cfg) (Some walletAddress)) ;;
    tx_hash <- Wide.call (StBurnUSDC walletAddress amount)
                         (world_burnUSDC world walletAddress amount) ;;
    gasUsed <- Wide.call StReceipt (world_receipt world) ;;
    (* Fetch attestation and mint on Arbitrum *)
    attestationData <- Wide.narrow world (fun env =>
      fetchAttestation env (chain_id_code (burn_cfg_chainId cfg)) tx_hash) ;;
    mintResult <- mintOnArbitrum (msg_attestation attestationData)
                                 (msg_message attestationData) ;;
    Wide.ret (mkBurnResult chainKey tx_hash gasUsed walletAddress amount
                           (msg_attestation attestationData) mintResult).

(** The handler of [POST /api/burn-usdc/:chain], from the route parameter
    and the request body to the response sent. *)
Definition burn_usdc (chainParam : string) (body : BurnBody) : Wide.W BurnReply :=
  Wide.try_catch
    (let chain := toLowerCase (or_empty (Some chainParam)) in
     let walletAddress := body_walletAddress body in
     let amount := body_amount body in
     if falsy walletAddress || falsy amount then
       Wide.ret (BurnError 400 "walletAddress and amount are required")
     else
       let handler := burnUSDCOnChain chain (show walletAddress) (show amount) in
       result <- wide_runWithRetries world handler (mkOptions (Some 5%Z) (Some 1000%Z)) ;;
       Wide.ret (BurnJson result))
    (fun error =>
       Wide.message_of error (fun msg =>
         Wide.ret (BurnError 500 (or_internal_error msg)))).

End Bridge.

(** ** POST /api/transfer-usdc (server.js 761-879) *)

(** The [walletAddress], [chain] and [amount] fields of a request body. *)
Record TransferBody : Type := mkTransferBody {
  transfer_walletAddress : option string;
  transfer_chain : option string;
  transfer_amount_text : option string
}.

(** The object the handler returns on success ([success: true] is left out). *)
Record TransferResult : Type := mkTransferResult {
  sourceChain : string;
  destinationChain : string;
  transferred_walletAddress : string;
  transferred_amount : string;
  burnTxHash : option string;
  mintTxHash : option string;
  totalTime : option string;
  transfer_gasUsed : option string;
  explorer_burn : string;
  explorer_mint : string
}.

Inductive TransferReply : Type :=
| TransferJson (result : TransferResult)         (* res.json(result) *)
| TransferError (status : Z) (error : string).   (* res.status(status).json({ error, ... }) *)

Definition validChains : list string := ["base"; "arbitrum"]%string.

(** The [error] of a response that rejects a request. *)
Definition error_of (response : Response) : string :=
  match body response with
  | JsonError error => error
  | TextBody text => text
  end.

Section TransferRoute.
Variable world : World.

(** The [handler] closure handed to [runWithRetries]. *)
Definition transfer_handler (walletAddress chain amount : string) (amountBigInt : Z)
  : Wide.W TransferResult :=
  result <- Wide.call (StSdkTransfer walletAddress amountBigInt (toLowerCase chain))
                      (world_sdkTransfer world walletAddress amountBigInt
                                         (toLowerCase chain)) ;;
  Wide.ret
    (mkTransferResult chain "avalanche" walletAddress amount
       (sdk_burnTxHash result) (sdk_mintTxHash result)
       (sdk_totalTime result) (sdk_gasUsed result)
       ("https://"
        ++ (if String.eqb chain "base" then "sepolia.basescan.org"
            else "sepolia.arbiscan.io")
        ++ "/tx/" ++ show (sdk_burnTxHash result))
       ("https://testnet.snowtrace.io/tx/" ++ show (sdk_mintTxHash result)))%string.

Definition transfer_usdc (body : TransferBody) : Wide.W TransferReply :=
  Wide.try_catch
    (let walletAddress := transfer_walletAddress body in
     let chain := transfer_chain body in
     let amount := transfer_amount_text body in
     (* Validate required fields *)
     if falsy walletAddress || falsy chain || falsy amount then
       Wide.ret (TransferError 400 "walletAddress, chain, and amount are required")
     (* Validate chain *)
     else if negb (existsb (String.eqb (toLowerCase (show chain))) validChains) then
       Wide.ret (TransferError 400 "Invalid chain. Supported chains: base, arbitrum")
     else
       (* Validate and convert amount *)
       converted <- Wide.narrow world (fun _ => transfer_amount (show amount)) ;;
       match converted with
       | inr response => Wide.ret (TransferError (status response) (error_of response))
       | inl amountBigInt =>
           let handler :=
             transfer_handler (show walletAddress) (show chain) (show amount)
                              amountBigInt in
           result <- wide_runWithRetries world handler
                       (mkOptions (Some 3%Z) (Some 2000%Z)) ;;
           Wide.ret (TransferJson result)
       end)
    (fun error =>
       Wide.message_of error (fun msg =>
         Wide.ret (TransferError 500 (or_internal_error msg)))).

End TransferRoute.

(** ** The database routes (server.js 494-686) *)

(** [!!value] for a possibly undefined JSON value. *)
Definition truthy (v : option Json) : bool :=
  match v with
  | None => false
  | Some JNull => false
  | Some (JBool b) => b
  | Some (JNumber x) =>
      negb (match x with S754_zero _ => true | _ => false end || isNaN x)
  | Some (JString s) => negb (String.eqb s "")
  | Some (JComposite _) => true
  end.

(** [value || null] *)
Definition or_null (v : option Json) : Json :=
  if truthy v then default JNull v else JNull.

(** [value === true] *)
Definition is_true (v : option Json) : bool :=
  match v with Some (JBool true) => true | _ => false end.

(** The decimal text of a counter, as a template literal prints it. *)
Fixpoint decimal_digits (fuel : nat) (n : Z) (acc : string) : string :=
  match fuel with
  | O => acc
  | S fuel' =>
      let acc := String (ascii_of_nat (48 + Z.to_nat (n mod 10))) acc in
      if (n <? 10)%Z then acc else decimal_digits fuel' (n / 10) acc
  end.

Definition decimal_text (n : Z) : string := decimal_digits (S (Z.to_nat n)) n "".

(** What a handler returns and a route sends: a status and a body. *)
Inductive DbBody : Type :=
| BodyError (error : string)                            (* { error } *)
| BodyUser (user : option Json)                         (* { user: result.rows[0] } *)
| BodyRequest (request : option Json)                   (* { request: result.rows[0] } *)
| BodyRequests (count : nat) (requests : list Json).    (* { count, requests } *)

Record DbReply : Type := mkDbReply { db_status : Z; db_body : DbBody }.

(** The statement that every field of an update repeats:
    [if (value !== undefined) { fields.push(`column = $${++n}`); values.push(value); }]
    on the [fields], the [values] and the counter [n]. *)
Definition push_field (column : string) (value : option Json)
    (state : list string * list Json * Z) : list string * list Json * Z :=
  let '(fields, values, n) := state in
  match value with
  | Some v =>
      let n := (n + 1)%Z in
      (fields ++ [column ++ " = $" ++ decimal_text n]%string, values ++ [v], n)
  | None => state
  end.

Record UserBody : Type := mkUserBody {
  user_email : option Json;
  user_smartwallets : option Json;
  user_account : option Json;
  user_chains : option Json;
  user_destinedAddress : option Json
}.

Record RequestBody : Type := mkRequestBody {
  request_payid : option Json;
  request_email : option Json;
  request_smartwallets : option Json;
  request_amount : option Json;
  request_status : option Json;
  request_hash : option Json;
  request_descriptions : option Json
}.

(** [fields], [values] and [n] after the four statements of an update of a
    user, and after the three of an update of a request. *)
Definition user_updates (key : Json) (body : UserBody)
  : list string * list Json * Z :=
  let state := ([], [key], 1%Z) in
  let state := push_field "smartwallets" (user_smartwallets body) state in
  let state := push_field "account" (user_account body) state in
  let state := push_field "chains" (user_chains body) state in
  push_field "destined_address" (user_destinedAddress body) state.

Definition request_updates (key : Json) (body : RequestBody)
  : list string * list Json * Z :=
  let state := ([], [key], 1%Z) in
  let state := push_field "status" (request_status body) state in
  let state := push_field "hash" (request_hash body) state in
  push_field "descriptions" (request_descriptions body) state.

Section Database.
Variable world : World.

Definition query (statement : Sql) (values : list Json) : Wide.W (list Json) :=
  Wide.call (StQuery statement values) (world_query world statement values).

(** [await runWithRetries(handler, { maxAttempts: 5, baseDelayMs: 500 })],
    whose outcome the route sends. *)
Definition retried (handler : Wide.W DbReply) : Wide.W DbReply :=
  outcome <- wide_runWithRetries world handler (mkOptions (Some 5%Z) (Some 500%Z)) ;;
  Wide.ret outcome.

(** The [catch (err)] of every route. *)
Definition internal_error (err : Thrown) : Wide.W DbReply :=
  Wide.ret (mkDbReply 500 (BodyError "internal error")).

Definition not_found : DbReply := mkDbReply 404 (BodyError "not found").

Definition no_fields : DbReply := mkDbReply 400 (BodyError "no fields to update").

(** The update that the upsert and the PATCH of a user share. *)
Definition update_user (key : Json) (body : UserBody) : Wide.W DbReply :=
  let '(fields, values, _) := user_updates key body in
  if length fields =? 0 then Wide.ret no_fields
  else
    result <- query (UpdateUser (String.concat ", " fields)) values ;;
    Wide.ret (mkDbReply 200 (BodyUser (hd_error result))).

(** POST /api/monomausers *)
Definition post_user (body : UserBody) : Wide.W DbReply :=
  Wide.try_catch
    (let email := user_email body in
     if negb (truthy email) then
       Wide.ret (mkDbReply 400 (BodyError "email is required"))
     else
       let email := default JNull email in
       retried
         (existing <- query SelectUser [email] ;;
          if 0 <? length existing then update_user email body
          else
            result <- query InsertUser
                        [email; or_null (user_smartwallets body);
                         JBool (is_true (user_account body));
                         or_null (user_chains body);
                         or_null (user_destinedAddress body)] ;;
            Wide.ret (mkDbReply 201 (BodyUser (hd_error result)))))
    internal_error.

(** POST /api/monomarequests *)
Definition post_request (body : RequestBody) : Wide.W DbReply :=
  Wide.try_catch
    (let email := request_email body in
     let amount := request_amount body in
     if negb (truthy email) || negb (truthy amount) then
       Wide.ret (mkDbReply 400 (BodyError "email and amount are required"))
     else
       retried
         (let id := or_null (request_payid body) in
          result <- query InsertRequest
                      [id; default JNull email; or_null (request_smartwallets body);
                       default JNull amount; or_null (request_status body);
                       or_null (request_hash body);
                       or_null (request_descriptions body)] ;;
          Wide.ret (mkDbReply 201 (BodyRequest (hd_error result)))))
    internal_error.

(** GET /api/monomarequests/:payid *)
Definition get_request (payid : string) : Wide.W DbReply :=
  Wide.try_catch
    (retried
       (result <- query SelectRequest [JString payid] ;;
        if length result =? 0 then Wide.ret not_found
        else Wide.ret (mkDbReply 200 (BodyRequest (hd_error result)))))
    internal_error.

(** GET /api/monomarequests/mail/:email *)
Definition get_requests_of (email : string) : Wide.W DbReply :=
  Wide.try_catch
    (retried
       (result <- query SelectRequestsOfEmail [JString email] ;;
        Wide.ret (mkDbReply 200 (BodyRequests (length result) result))))
    internal_error.

(** PATCH /api/monomarequests/:payid *)
Definition patch_request (payid : string) (body : RequestBody) : Wide.W DbReply :=
  Wide.try_catch
    (retried
       (rows <- query RequestExists [JString payid] ;;
        if length rows =? 0 then Wide.ret not_found
        else
          let '(fields, values, _) := request_updates (JString payid) body in
          if length fields =? 0 then Wide.ret no_fields
          else
            result <- query (UpdateRequest (String.concat ", " fields)) values ;;
            Wide.ret (mkDbReply 200 (BodyRequest (hd_error result)))))
    internal_error.

(** GET /api/monomausers/:email *)
Definition get_user (email : string) : Wide.W DbReply :=
  Wide.try_catch
    (retried
       (result <- query SelectUser [JString email] ;;
        if length result =? 0 then Wide.ret not_found
        else Wide.ret (mkDbReply 200 (BodyUser (hd_error result)))))
    internal_error.

(** PATCH /api/monomausers/:email *)
Definition patch_user (email : string) (body : UserBody) : Wide.W DbReply :=
  Wide.try_catch
    (retried
       (rows <- query UserExists [JString email] ;;
        if length rows =? 0 then Wide.ret not_found
        else update_user (JString email) body))
    internal_error.

(** The requests the database routes serve. *)
Inductive DbRequest : Type :=
| PostUser (body : UserBody)
| PostRequest (body : RequestBody)
| GetRequest (payid : string)
| GetRequestsOf (email : string)
| PatchRequest (payid : string) (body : RequestBody)
| GetUser (email : string)
| PatchUser (email : string) (body : UserBody).

Definition serve (request : DbRequest) : Wide.W DbReply :=
  match request with
  | PostUser body => post_user body
  | PostRequest body => post_request body
  | GetRequest payid => get_request payid
  | GetRequestsOf email => get_requests_of email
  | PatchRequest payid body => patch_request payid body
  | GetUser email => get_user email
  | PatchUser email body => patch_user email body
  end.

End Database.

Close Scope wide_scope.

(** ** Vocabulary: reading a history of the bridge *)

Definition is_burn (s : Step) : bool :=
  match s with StBurnUSDC _ _ => true | _ => false end.

Definition is_mint (s : Step) : bool :=
  match s with StReceiveMessage _ _ => true | _ => false end.

(** The burns and the mints submitted. *)
Definition burns (h : History) : nat := length (filter is_burn h).
Definition mints (h : History) : nat := length (filter is_mint h).

(** The interactions of Part I among the steps. *)
Definition narrow_events (h : History) : Trace :=
  flat_map (fun s => match s with Narrow e => [e] | _ => [] end) h.

(** A world in which burning works and the attestation never comes: every
    connection for the burn, every burn and every receipt goes through, and
    no poll for the chain finds a complete first entry, whatever happened
    before. *)
Definition burns_unattested (world : World) (cfg : BurnConfig)
    (walletAddress amount : string) : Prop :=
  (forall h, env_connect (world_env world h) (Some (burn_rpc cfg)) (Some walletAddress) []
             = Ok tt)
  /\ (forall h, exists tx_hash, world_burnUSDC world walletAddress amount h = Ok tx_hash)
  /\ (forall h, exists gasUsed, world_receipt world h = Ok gasUsed)
  /\ (forall h tx_hash i,
        poll_ready (world_env world h) (burn_chainId cfg) tx_hash i = None).

(** ** A scenario for the bridge *)

(** Burns go through with a fixed hash, receipts arrive, and the service
    keeps answering with a pending message. *)
Definition stuck_attestation : World :=
  mkWorld
    (fun _ => mkEnv (fun _ _ _ => Ok tt) (fun _ _ => network_error)
                    (fun _ _ _ _ => network_error) (fun _ _ _ => network_error)
                    (fun _ => network_error) (fun _ _ _ _ => network_error)
                    (fun _ _ _ => Ok (mkData (Some [pending_message]))))
    (fun _ _ _ => Ok "0xb0b"%string)
    (fun _ _ _ => network_error)
    (fun _ => Ok "21000"%string)
    (fun _ _ _ _ => network_error)
    (fun _ _ _ => network_error).

(** From every history the computation settles, only adds to the history,
    and submits at most [b] burns and no more mints than burns. *)
Definition wide_behaves {A} (b : nat) (c : Wide.W A) : Prop :=
  forall h,
    settled (fst (c h))
    /\ exists more, snd (c h) = h ++ more /\ mints more <= burns more <= b.

(** Burns and mints go through, and the service has the attestation ready at
    the first poll. *)
Definition bridge_works : World :=
  mkWorld
    (fun _ => mkEnv (fun _ _ _ => Ok tt) (fun _ _ => network_error)
                    (fun _ _ _ _ => network_error) (fun _ _ _ => network_error)
                    (fun _ => network_error) (fun _ _ _ _ => network_error)
                    (fun _ _ _ => Ok (mkData (Some [complete_message]))))
    (fun _ _ _ => Ok "0xb0b"%string)
    (fun _ _ _ => Ok "0xa4b"%string)
    (fun _ => Ok "21000"%string)
    (fun _ _ _ _ => network_error)
    (fun _ _ _ => network_error).

(** ** Vocabulary: the updates of the database routes *)

(** The columns an update can set, with what the request body gives for
    each. *)
Definition user_columns (body : UserBody) : list (string * option Json) :=
  [ ("smartwallets", user_smartwallets body); ("account", user_account body);
    ("chains", user_chains body); ("destined_address", user_destinedAddress body) ]%string.

Definition request_columns (body : RequestBody) : list (string * option Json) :=
  [ ("status", request_status body); ("hash", request_hash body);
    ("descriptions", request_descriptions body) ]%string.

(** The columns that the body defines, in order, with their values. *)
Definition provided (columns : list (string * option Json)) : list (string * Json) :=
  flat_map (fun cv => match snd cv with Some v => [(fst cv, v)] | None => [] end) columns.

(** [column = $k] for each column in turn, [k] counting on from [n + 1]. *)
Fixpoint assignments (n : Z) (given : list (string * Json)) : list string :=
  match given with
  | [] => []
  | (column, _) :: rest =>
      (column ++ " = $" ++ decimal_text (n + 1))%string :: assignments (n + 1) rest
  end.

(** The statement of one field after the other. *)
Definition push_fields (columns : list (string * option Json))
    (state : list string * list Json * Z) : list string * list Json * Z :=
  fold_left (fun state cv => push_field (fst cv) (snd cv) state) columns state.

(** The value that the database gets for the placeholder [$k] of a
    statement: parameters are numbered from 1. *)
Definition parameter (values : list Json) (k : nat) : option Json :=
  match k with
  | O => None
  | S k' => nth_error values k'
  end.

Definition is_query (s : Step) : bool :=
  match s with StQuery _ _ => true | _ => false end.

(** The queries sent to the database. *)
Definition queries (h : History) : nat := length (filter is_query h).

(** A handler of a database route: from every history it settles, only adds
    to the history, sends at most [q] queries and nothing else, and what it
    returns has one of the statuses 200, 201, 400 and 404. *)
Definition db_behaves (q : nat) (c : Wide.W DbReply) : Prop :=
  forall h, exists outcome more,
    c h = (outcome, h ++ more)
    /\ settled outcome
    /\ queries more <= q
    /\ narrow_events more = []
    /\ forall reply, outcome = Returned reply ->
                     In (db_status reply) [200; 201; 400; 404]%Z.

(** The first query of a route for a request, when the request gets that
    far. *)
Definition first_query (request : DbRequest) : option (Sql * list Json) :=
  match request with
  | PostUser body =>
      if truthy (user_email body)
      then Some (SelectUser, [default JNull (user_email body)]) else None
  | PostRequest body =>
      if truthy (request_email body) && truthy (request_amount body)
      then Some (InsertRequest,
                 [or_null (request_payid body); default JNull (request_email body);
                  or_null (request_smartwallets body);
                  default JNull (request_amount body);
                  or_null (request_status body); or_null (request_hash body);
                  or_null (request_descriptions body)])
      else None
  | GetRequest payid => Some (SelectRequest, [JString payid])
  | GetRequestsOf email => Some (SelectRequestsOfEmail, [JString email])
  | PatchRequest payid _ => Some (RequestExists, [JString payid])
  | GetUser email => Some (SelectUser, [JString email])
  | PatchUser email _ => Some (UserExists, [JString email])
  end.

(** A database that fails every query. *)
Definition database_down (world : World) : Prop :=
  forall statement values h, exists e, world_query world statement values h = Fail e.

(** ** Vocabulary: the transfer route *)

Definition is_sdk_transfer (s : Step) : bool :=
  match s with StSdkTransfer _ _ _ => true | _ => false end.

(** The transfers asked of the SDK. *)
Definition sdk_transfers (h : History) : nat := length (filter is_sdk_transfer h).

(** What the transfer route may do for a wallet: ask the SDK for a transfer
    from that wallet on a valid chain, and wait. *)
Definition transfer_step (walletAddress : string) (s : Step) : Prop :=
  match s with
  | StSdkTransfer smartWalletAddress _ sourceChain =>
      smartWalletAddress = walletAddress /\ In sourceChain validChains
  | Narrow (EvSleep _) => True
  | _ => False
  end.

(** The SDK carries out every transfer at once. *)
Definition sdk_works : World :=
  mkWorld
    (fun _ => offline)
    (fun _ _ _ => network_error)
    (fun _ _ _ => network_error)
    (fun _ => network_error)
    (fun _ _ _ _ => Ok (mkSdkTransfer (Some "0xb0b"%string) (Some "0xa4a"%string)
                                      (Some "42"%string) (Some "21000"%string)))
    (fun _ _ _ => network_error).
(* ===================================================================== *)
(** * Part VII: properties of the retry wrapper, poller and provisioner  *)
(* ===================================================================== *)

(** ** Traces *)

Lemma delays_app (tr1 tr2 : Trace) : delays (tr1 ++ tr2) = delays tr1 ++ delays tr2.
Proof. unfold delays. apply flat_map_app. Qed.

Lemma sumZ_app (l1 l2 : list Z) : sumZ (l1 ++ l2) = (sumZ l1 + sumZ l2)%Z.
Proof. induction l1 as [|x l1 IH]; simpl; [reflexivity | rewrite IH; lia]. Qed.

Lemma invocations_app (tr1 tr2 : Trace) :
  invocations (tr1 ++ tr2) = invocations tr1 + invocations tr2.
Proof. unfold invocations. rewrite filter_app, length_app. reflexivity. Qed.

Lemma invocations_retry_events base a k : invocations (retry_events base a k) = S k.
Proof.
  revert a. induction k as [|k IH]; intros a; [reflexivity|].
  change (invocations (retry_events base a (S k)))
    with (S (invocations (retry_events base (a + 1) k))).
  now rewrite IH.
Qed.

Lemma delays_retry_events base a k :
  delays (retry_events base a k)
  = map (fun i => (base * (a + Z.of_nat i))%Z) (seq 1 k).
Proof.
  revert a. induction k as [|k IH]; intros a; [reflexivity|].
  change (delays (retry_events base a (S k)))
    with ((base * (a + 1))%Z :: delays (retry_events base (a + 1) k)).
  rewrite IH. simpl seq. simpl map. f_equal.
  rewrite <- (seq_shift k 1), map_map. apply map_ext. intros i. f_equal. lia.
Qed.

Lemma sumZ_linear_backoff base k : sumZ (linear_backoff base k) = (base * triangle k)%Z.
Proof.
  unfold linear_backoff. induction k as [|k IH]; [simpl; lia|].
  rewrite seq_S, map_app, sumZ_app, IH.
  cbn [map sumZ fold_right triangle]. replace (1 + k) with (S k) by reflexivity. lia.
Qed.

Lemma triangle_closed_form k : (2 * triangle k = Z.of_nat k * (Z.of_nat k + 1))%Z.
Proof. induction k as [|k IH]; [reflexivity|]. cbn [triangle]. lia. Qed.

(** In a safe configuration every delay of the backoff is a safe integer. *)
Lemma linear_backoff_safe (maxAttempts baseDelayMs : Z) (k : nat) :
  safe_configuration maxAttempts baseDelayMs ->
  (Z.of_nat k < maxAttempts)%Z ->
  Forall safe_integer (linear_backoff baseDelayMs k).
Proof.
  intros (_ & _ & Hproduct) Hk. unfold linear_backoff.
  apply Forall_forall. intros d Hd. apply in_map_iff in Hd.
  destruct Hd as (i & <- & Hi). apply in_seq in Hi.
  unfold safe_integer in *. nia.
Qed.

(** ** RetryExecutor *)

Section RetryFacts.
Context {T : Type}.
Variable script : nat -> Outcome T.
Variables maxAttempts baseDelayMs : Z.

#[local] Abbreviation loop := (retry_loop (scripted script) maxAttempts baseDelayMs).

(** An invocation that fails before the last attempt: backoff, then the
    loop again. *)
Lemma retry_loop_retries (fuel : nat) (attempt : Z) (lastErr t : Thrown) (tr : Trace) :
  (attempt + 1 < maxAttempts)%Z ->
  script (invocations tr) = Threw t ->
  loop (S fuel) attempt lastErr tr
  = loop fuel (attempt + 1)%Z t
      (tr ++ [EvInvoke; EvSleep (baseDelayMs * (attempt + 1))]).
Proof.
  intros Hlt Ht. cbn [retry_loop].
  destruct (Z.ltb_spec attempt maxAttempts) as [_|?]; [|lia].
  unfold try_catch at 1. unfold scripted at 1. rewrite Ht.
  destruct (Z.geb_spec (attempt + 1) maxAttempts) as [?|_]; [lia|].
  unfold bind, sleep, emit. rewrite <- app_assoc. reflexivity.
Qed.

(** The last invocation of a run ends the loop with its own outcome. *)
Lemma retry_loop_last (fuel : nat) (attempt : Z) (lastErr : Thrown) (tr : Trace) :
  (attempt < maxAttempts)%Z ->
  (forall t, script (invocations tr) = Threw t -> (attempt + 1 >= maxAttempts)%Z) ->
  script (invocations tr) <> OutOfFuel ->
  loop (S fuel) attempt lastErr tr = (script (invocations tr), tr ++ [EvInvoke]).
Proof.
  intros Hlt Hlast Hfuel. cbn [retry_loop].
  destruct (Z.ltb_spec attempt maxAttempts) as [_|?]; [|lia].
  unfold try_catch, scripted.
  destruct (script (invocations tr)) as [v|t|] eqn:E; [reflexivity| |now contradiction Hfuel].
  specialize (Hlast t eq_refl).
  destruct (Z.geb_spec (attempt + 1) maxAttempts) as [_|?]; [reflexivity | lia].
Qed.

Lemma invocations_after_retry (tr : Trace) (ms : Z) (i : nat) :
  invocations (tr ++ [EvInvoke; EvSleep ms]) + i = invocations tr + S i.
Proof. rewrite invocations_app. cbn. lia. Qed.

(** [k] failures, then an invocation that succeeds. *)
Lemma retry_loop_succeeds (k : nat) :
  forall fuel attempt lastErr tr v,
    (attempt + Z.of_nat k < maxAttempts)%Z ->
    k < fuel ->
    (forall i, i < k -> exists t, script (invocations tr + i) = Threw t) ->
    script (invocations tr + k) = Returned v ->
    loop fuel attempt lastErr tr
    = (Returned v, tr ++ retry_events baseDelayMs attempt k).
Proof.
  induction k as [|k IH]; intros fuel attempt lastErr tr v Hlt Hfuel Hfail Hok;
    (destruct fuel as [|fuel]; [lia|]).
  - rewrite Nat.add_0_r in Hok.
    rewrite retry_loop_last; rewrite ?Hok; try lia; try discriminate. reflexivity.
  - destruct (Hfail 0 ltac:(lia)) as [t Ht]. rewrite Nat.add_0_r in Ht.
    rewrite (retry_loop_retries fuel attempt lastErr t tr) by (lia || exact Ht).
    rewrite (IH fuel (attempt + 1)%Z t _ v); try lia.
    + rewrite <- app_assoc. reflexivity.
    + intros i Hi. rewrite invocations_after_retry. apply Hfail. lia.
    + rewrite invocations_after_retry. exact Hok.
Qed.

(** [k] failures, then a failing invocation that is the last one allowed. *)
Lemma retry_loop_exhausts (k : nat) :
  forall fuel attempt lastErr tr t,
    (attempt + Z.of_nat k + 1 = maxAttempts)%Z ->
    k < fuel ->
    (forall i, i < k -> exists t', script (invocations tr + i) = Threw t') ->
    script (invocations tr + k) = Threw t ->
    loop fuel attempt lastErr tr
    = (Threw t, tr ++ retry_events baseDelayMs attempt k).
Proof.
  induction k as [|k IH]; intros fuel attempt lastErr tr t Hlt Hfuel Hfail Hlast;
    (destruct fuel as [|fuel]; [lia|]).
  - rewrite Nat.add_0_r in Hlast.
    rewrite retry_loop_last; rewrite ?Hlast; try lia; try discriminate. reflexivity.
  - destruct (Hfail 0 ltac:(lia)) as [t0 Ht0]. rewrite Nat.add_0_r in Ht0.
    rewrite (retry_loop_retries fuel attempt lastErr t0 tr) by (lia || exact Ht0).
    rewrite (IH fuel (attempt + 1)%Z t0 _ t); try lia.
    + rewrite <- app_assoc. reflexivity.
    + intros i Hi. rewrite invocations_after_retry. apply Hfail. lia.
    + rewrite invocations_after_retry. exact Hlast.
Qed.

(** With nothing to attempt the loop body never runs. *)
Lemma retry_loop_skipped (action : M T) fuel attempt lastErr tr :
  (maxAttempts <= attempt)%Z ->
  retry_loop action maxAttempts baseDelayMs fuel attempt lastErr tr = (Threw lastErr, tr).
Proof.
  intros H. destruct fuel; cbn [retry_loop];
    destruct (Z.ltb_spec attempt maxAttempts); try lia; reflexivity.
Qed.
End RetryFacts.

(** On Numbers the product [baseDelayMs * attempt] is the exact one while it
    is a safe integer, and no longer beyond: at [baseDelayMs = 2^53 - 1] the
    delay before the third retry is 27021597764222972, one less than the
    product of the integers. *)
Lemma backoff_delay_beyond_safe_integers :
  backoff_delay 1000 3 = number_of_integer 3000
  /\ backoff_delay 1500 5 = number_of_integer 7500
  /\ backoff_delay 3002399751580330 3 = number_of_integer 9007199254740990
  /\ backoff_delay MAX_SAFE_INTEGER 3 = number_of_integer 27021597764222972
  /\ (MAX_SAFE_INTEGER * 3 = 27021597764222973)%Z.
Proof. repeat split; vm_compute; reflexivity. Qed.

(** C1 (as amended): for every scripted action and every configuration of
    integers that is safe ([maxAttempts], [baseDelayMs] and their product are
    safe integers, so that the source computes every delay exactly),
    (a) if the action fails exactly [k < maxAttempts] times (with whatever it
    throws) and then succeeds, [runWithRetries] returns the success value
    after [k + 1] invocations, the delays slept are [baseDelayMs * 1], ...,
    [baseDelayMs * k] and their total is [baseDelayMs * (1 + ... + k)];
    (b) if [maxAttempts >= 1] and the action fails on every invocation, it is
    invoked exactly [maxAttempts] times and the failure of the last
    invocation is re-raised unmodified. *)
Theorem runWithRetries_linear_backoff {T} (script : nat -> Outcome T)
    (maxAttempts baseDelayMs : Z) :
  safe_configuration maxAttempts baseDelayMs ->
  let run := retryWith (scripted script) maxAttempts baseDelayMs [] in
  (forall (k : nat) (v : T),
      (Z.of_nat k < maxAttempts)%Z ->
      (forall i, i < k -> exists t, script i = Threw t) ->
      script k = Returned v ->
      fst run = Returned v
      /\ snd run = retry_events baseDelayMs 0 k
      /\ invocations (snd run) = S k
      /\ delays (snd run) = linear_backoff baseDelayMs k
      /\ Forall safe_integer (delays (snd run))
      /\ slept (snd run) = (baseDelayMs * triangle k)%Z)
  /\
  (forall errs : nat -> Thrown,
      (1 <= maxAttempts)%Z ->
      (forall i, script i = Threw (errs i)) ->
      fst run = Threw (errs (Z.to_nat maxAttempts - 1))
      /\ Z.of_nat (invocations (snd run)) = maxAttempts
      /\ delays (snd run) = linear_backoff baseDelayMs (Z.to_nat maxAttempts - 1)
      /\ Forall safe_integer (delays (snd run))).
Proof.
  intros Hsafe run. subst run. unfold retryWith, runWithRetries.
  cbn [default opt_maxAttempts opt_baseDelayMs].
  split.
  - intros k v Hk Hfail Hok.
    rewrite (retry_loop_succeeds script maxAttempts baseDelayMs k _ 0%Z _ [] v);
      [ | lia | lia | intros i Hi; apply Hfail; exact Hi | exact Hok ].
    cbn [fst snd app].
    assert (Hdelays : delays (retry_events baseDelayMs 0 k) = linear_backoff baseDelayMs k)
      by (rewrite delays_retry_events; reflexivity).
    split; [reflexivity|]. split; [reflexivity|].
    split; [apply invocations_retry_events|].
    split; [exact Hdelays|]. split.
    + rewrite Hdelays. apply (linear_backoff_safe maxAttempts); [exact Hsafe | lia].
    + unfold slept. rewrite Hdelays. apply sumZ_linear_backoff.
  - intros errs Hmax Hall.
    set (k := Z.to_nat maxAttempts - 1).
    rewrite (retry_loop_exhausts script maxAttempts baseDelayMs k _ 0%Z _ [] (errs k));
      [ | lia | lia | intros i _; eexists; apply Hall | apply Hall ].
    cbn [fst snd app].
    assert (Hdelays : delays (retry_events baseDelayMs 0 k) = linear_backoff baseDelayMs k)
      by (rewrite delays_retry_events; reflexivity).
    split; [reflexivity|]. split; [rewrite invocations_retry_events; lia|].
    split; [exact Hdelays|].
    rewrite Hdelays. apply (linear_backoff_safe maxAttempts); [exact Hsafe | lia].
Qed.

Lemma runWithRetries_linear_backoff_witness :
  let script2 := fun i : nat =>
    if i <? 2 then Threw (ThrownError (mkError "ECONNRESET")) else Returned 7%Z in
  let boom := fun i : nat => @Threw Z (ThrownError (mkError "boom")) in
  (fst (retryWith (scripted script2) 5 500 []) = Returned 7%Z
   /\ slept (snd (retryWith (scripted script2) 5 500 [])) = 1500%Z)
  /\ (fst (retryWith (scripted boom) 3 1000 []) = Threw (ThrownError (mkError "boom"))
      /\ Z.of_nat (invocations (snd (retryWith (scripted boom) 3 1000 []))) = 3%Z).
Proof.
  intros script2 boom. split.
  - destruct (runWithRetries_linear_backoff script2 5 500) as [Hok _].
    + unfold safe_configuration, safe_integer, MAX_SAFE_INTEGER. lia.
    + destruct (Hok 2 7%Z) as (Hr & _ & _ & _ & _ & Hs).
      * lia.
      * intros i Hi. exists (ThrownError (mkError "ECONNRESET")).
        unfold script2. destruct (Nat.ltb_spec i 2); [reflexivity | lia].
      * reflexivity.
      * split; [exact Hr | exact Hs].
  - destruct (runWithRetries_linear_backoff boom 3 1000) as [_ Hex].
    + unfold safe_configuration, safe_integer, MAX_SAFE_INTEGER. lia.
    + destruct (Hex (fun _ => ThrownError (mkError "boom"))) as (Hr & Hn & _).
      * lia.
      * intros i. reflexivity.
      * split; [exact Hr | exact Hn].
Defined.

(** C1 as stated fails for a configuration with [maxAttempts = 0]: the
    action fails on every invocation, yet what [runWithRetries] raises is
    [undefined], which is none of the action's failures. *)
Lemma runWithRetries_every_configuration_counterexample :
  let boom := fun i : nat => @Threw Z (ThrownError (mkError "boom")) in
  (forall i, exists t, boom i = Threw t)
  /\ fst (retryWith (scripted boom) 0 1000 []) = Threw ThrownUndefined
  /\ ~ (exists i, fst (retryWith (scripted boom) 0 1000 []) = boom i).
Proof.
  intros boom. split; [|split].
  - intros i. eexists. reflexivity.
  - reflexivity.
  - intros [i Hi]. vm_compute in Hi. discriminate Hi.
Qed.

(** C10: with [maxAttempts <= 0] the action is never invoked (the trace is
    left as it was, whatever the action would do) and the value thrown is
    [undefined], the never-assigned [lastErr]. *)
Theorem runWithRetries_no_attempts {T} (action : M T) (maxAttempts baseDelayMs : Z)
    (tr : Trace) :
  (maxAttempts <= 0)%Z ->
  retryWith action maxAttempts baseDelayMs tr = (Threw ThrownUndefined, tr)
  /\ forall script : nat -> Outcome T,
       invocations (snd (retryWith (scripted script) maxAttempts baseDelayMs [])) = 0.
Proof.
  intros H. unfold retryWith, runWithRetries. cbn [default opt_maxAttempts opt_baseDelayMs].
  split.
  - apply retry_loop_skipped. exact H.
  - intros script. rewrite retry_loop_skipped by exact H. reflexivity.
Qed.

Lemma runWithRetries_no_attempts_witness :
  retryWith (scripted (fun _ => Returned 1%Z)) (-2) 1000 [] = (Threw ThrownUndefined, []).
Proof.
  apply (runWithRetries_no_attempts (scripted (fun _ => Returned 1%Z)) (-2) 1000 []). lia.
Defined.

(** ** AttestationPoller *)

Section PollerFacts.
Variable env : Env.
Variable chainId : Z.
Variable transactionHash : string.

#[local] Abbreviation loop := (fetch_loop env chainId transactionHash).
#[local] Abbreviation events := (poll_events chainId transactionHash).
#[local] Abbreviation answer := (poll_answer env chainId transactionHash).
#[local] Abbreviation ready := (poll_ready env chainId transactionHash).

(** One iteration of the polling loop. *)
Lemma fetch_loop_step (fuel : nat) (attempts : Z) (tr : Trace) :
  (attempts < 10)%Z ->
  loop (S fuel) attempts tr
  = let tr1 := tr ++ [EvSleep (if (attempts + 1 =? 1)%Z then 10000 else 5000)%Z] in
    let tr2 := tr1 ++ [EvFetch chainId transactionHash] in
    match env_fetch env chainId transactionHash tr1 with
    | Ok data =>
        match ready_attestation data with
        | Some result => (Returned result, tr2)
        | None => loop fuel (attempts + 1)%Z tr2
        end
    | Fail e =>
        if (attempts + 1 >=? 10)%Z then (Threw (ThrownError e), tr2)
        else loop fuel (attempts + 1)%Z tr2
    end.
Proof.
  intros Hlt. cbn [fetch_loop].
  destruct (Z.ltb_spec attempts 10) as [_|?]; [|lia].
  cbv zeta. unfold bind at 1. unfold try_catch at 1. unfold bind at 1.
  destruct (attempts + 1 =? 1)%Z;
    unfold sleep, emit, bind, call;
    (destruct (env_fetch env chainId transactionHash _) as [data|e];
     [ unfold ret; destruct (ready_attestation data); reflexivity
     | cbn [message_of]; destruct (attempts + 1 >=? 10)%Z; reflexivity ]).
Qed.

Lemma poll_step_trace (a : nat) :
  (events a ++ [EvSleep (if (Z.of_nat a + 1 =? 1)%Z then 10000 else 5000)%Z])
    ++ [EvFetch chainId transactionHash]
  = events (S a).
Proof.
  cbn [poll_events]. rewrite <- app_assoc. do 3 f_equal.
  unfold poll_delay. destruct a as [|a]; [reflexivity|].
  destruct (Z.eqb_spec (Z.of_nat (S a) + 1) 1) as [?|_]; [lia | reflexivity].
Qed.

Lemma poll_step_answer (a : nat) :
  env_fetch env chainId transactionHash
    (events a ++ [EvSleep (if (Z.of_nat a + 1 =? 1)%Z then 10000 else 5000)%Z])
  = answer (S a).
Proof.
  unfold poll_answer. replace (S a - 1) with a by lia. do 3 f_equal.
  unfold poll_delay. destruct a as [|a]; [reflexivity|].
  destruct (Z.eqb_spec (Z.of_nat (S a) + 1) 1) as [?|_]; [lia | reflexivity].
Qed.

(** After [a] fruitless polls, [d] more fruitless ones and then a ready one. *)
Lemma fetch_loop_ready (d : nat) :
  forall (a fuel : nat) (m : Message),
    a + S d <= 10 ->
    d < fuel ->
    (forall j, a < j < a + S d -> ready j = None) ->
    ready (a + S d) = Some m ->
    loop fuel (Z.of_nat a) (events a) = (Returned m, events (a + S d)).
Proof.
  induction d as [|d IH]; intros a fuel m Hle Hfuel Hnone Hready;
    (destruct fuel as [|fuel]; [lia|]);
    rewrite fetch_loop_step by lia; cbv zeta;
    rewrite poll_step_answer, poll_step_trace.
  - replace (a + 1) with (S a) in Hready by lia. unfold poll_ready in Hready.
    destruct (answer (S a)) as [data|e]; [|discriminate].
    rewrite Hready. replace (a + 1) with (S a) by lia. reflexivity.
  - pose proof (Hnone (S a) ltac:(lia)) as Hn. unfold poll_ready in Hn.
    replace (Z.of_nat a + 1)%Z with (Z.of_nat (S a)) by lia.
    replace (a + S (S d)) with (S a + S d) in * by lia.
    destruct (answer (S a)) as [data|e].
    + rewrite Hn. apply IH; try lia; [|exact Hready].
      intros j Hj. apply Hnone. lia.
    + destruct (Z.geb_spec (Z.of_nat (S a)) 10) as [?|_]; [lia|].
      apply IH; try lia; [|exact Hready].
      intros j Hj. apply Hnone. lia.
Qed.

(** After [a] fruitless polls, the remaining [n] are fruitless too. *)
Lemma fetch_loop_exhausted (n : nat) :
  forall (a fuel : nat),
    a + n = 10 ->
    n <= fuel ->
    (forall j, a < j <= 10 -> ready j = None) ->
    loop fuel (Z.of_nat a) (events a)
    = (Threw (ThrownError
         (match n with
          | O => mkError "Failed to fetch attestation after maximum attempts"
          | S _ => exhaustion_error (answer 10)
          end)), events 10).
Proof.
  induction n as [|n IH]; intros a fuel Ha Hfuel Hnone.
  - assert (a = 10) by lia. subst a.
    destruct fuel; reflexivity.
  - destruct fuel as [|fuel]; [lia|].
    rewrite fetch_loop_step by lia. cbv zeta.
    rewrite poll_step_answer, poll_step_trace.
    pose proof (Hnone (S a) ltac:(lia)) as Hn. unfold poll_ready in Hn.
    replace (Z.of_nat a + 1)%Z with (Z.of_nat (S a)) by lia.
    destruct n as [|n].
    + assert (a = 9) by lia. subst a.
      destruct (answer 10) as [data|e] eqn:E.
      * rewrite Hn. cbn [exhaustion_error]. destruct fuel; reflexivity.
      * reflexivity.
    + destruct (answer (S a)) as [data|e].
      * rewrite Hn. apply (IH (S a) fuel); try lia. intros j Hj. apply Hnone. lia.
      * destruct (Z.geb_spec (Z.of_nat (S a)) 10) as [?|_]; [lia|].
        apply (IH (S a) fuel); try lia. intros j Hj. apply Hnone. lia.
Qed.

Lemma ready_dec (n : nat) :
  (exists i, 1 <= i <= n /\ ready i <> None)
  \/ (forall j, 1 <= j <= n -> ready j = None).
Proof.
  induction n as [|n [[i [Hi Hr]]|Hnone]].
  - right. intros j Hj. lia.
  - left. exists i. split; [lia | exact Hr].
  - destruct (ready (S n)) as [m|] eqn:E.
    + left. exists (S n). split; [lia | rewrite E; discriminate].
    + right. intros j Hj. assert (j = S n \/ j <= n) as [->|Hle] by lia;
        [exact E | apply Hnone; lia].
Qed.

(** The first poll that is ready, when one is. *)
Lemma least_ready (n : nat) :
  (exists i, 1 <= i <= n /\ ready i <> None) ->
  exists i m, 1 <= i <= n /\ ready i = Some m
              /\ forall j, 1 <= j < i -> ready j = None.
Proof.
  induction n as [|n IH]; intros [i [Hi Hr]]; [lia|].
  destruct (ready_dec n) as [Hsome|Hnone].
  - destruct (IH Hsome) as (i' & m & Hi' & Hm & Hleast).
    exists i', m. repeat split; try lia; assumption.
  - destruct (ready (S n)) as [m|] eqn:E.
    + exists (S n), m. repeat split; try lia; [exact E|].
      intros j Hj. apply Hnone. lia.
    + exfalso. assert (i = S n \/ i <= n) as [->|Hle] by lia.
      * apply Hr. exact E.
      * apply Hr. apply Hnone. lia.
Qed.

End PollerFacts.

Lemma delays_poll_events (chainId : Z) (transactionHash : string) (n : nat) :
  delays (poll_events chainId transactionHash (S n)) = 10000%Z :: repeat 5000%Z n.
Proof.
  induction n as [|n IH]; [reflexivity|].
  change (poll_events chainId transactionHash (S (S n)))
    with (poll_events chainId transactionHash (S n)
          ++ [EvSleep (poll_delay (S (S n))); EvFetch chainId transactionHash]).
  rewrite delays_app, IH. cbn [delays flat_map sleep_ms app poll_delay Nat.eqb].
  change (10000%Z :: repeat 5000%Z n ++ [5000%Z])
    with ((10000%Z :: repeat 5000%Z n) ++ [5000%Z]).
  rewrite <- app_comm_cons. f_equal.
  change [5000%Z] with (repeat 5000%Z 1). rewrite <- repeat_app.
  replace (n + 1) with (S n) by lia. reflexivity.
Qed.

(** C2 (as amended): [fetchAttestation] returns successfully if and only if
    one of at most 10 polls answers with a document whose FIRST message entry
    has status "complete" and a non-empty attestation; it then returns that
    entry of the first such poll, having waited 10s before the first poll and
    5s before each later one.  Every other answer, a thrown error included,
    lets polling continue.  When none of the 10 polls is ready it raises the
    timeout failure if the tenth poll answered, and the tenth poll's own
    error if that poll threw. *)
Theorem fetchAttestation_polls (env : Env) (chainId : Z) (transactionHash : string) :
  let run := fetchAttestation env chainId transactionHash [] in
  let ready := poll_ready env chainId transactionHash in
  ((exists m, fst run = Returned m) <-> (exists i, 1 <= i <= 10 /\ ready i <> None))
  /\ (forall i m,
        1 <= i <= 10 ->
        (forall j, 1 <= j < i -> ready j = None) ->
        ready i = Some m ->
        run = (Returned m, poll_events chainId transactionHash i)
        /\ delays (snd run) = 10000%Z :: repeat 5000%Z (i - 1))
  /\ ((forall i, 1 <= i <= 10 -> ready i = None) ->
        run = (Threw (ThrownError
                 (exhaustion_error (poll_answer env chainId transactionHash 10))),
               poll_events chainId transactionHash 10)
        /\ delays (snd run) = 10000%Z :: repeat 5000%Z 9).
Proof.
  intros run ready.
  assert (Hfound : forall i m,
             1 <= i <= 10 -> (forall j, 1 <= j < i -> ready j = None) ->
             ready i = Some m ->
             run = (Returned m, poll_events chainId transactionHash i)).
  { intros i m Hi Hleast Hm. destruct i as [|d]; [lia|].
    apply (fetch_loop_ready env chainId transactionHash d 0 10 m); try lia.
    - intros j Hj. apply Hleast. lia.
    - exact Hm. }
  assert (Hnone : (forall i, 1 <= i <= 10 -> ready i = None) ->
            run = (Threw (ThrownError
                     (exhaustion_error (poll_answer env chainId transactionHash 10))),
                   poll_events chainId transactionHash 10)).
  { intros Hall.
    apply (fetch_loop_exhausted env chainId transactionHash 10 0 10); try lia.
    intros j Hj. apply Hall. lia. }
  split; [|split].
  - split.
    + intros [m Hm].
      destruct (ready_dec env chainId transactionHash 10) as [Hex|Hall]; [exact Hex|].
      rewrite (Hnone Hall) in Hm. discriminate Hm.
    + intros Hex.
      destruct (least_ready env chainId transactionHash 10 Hex) as (i & m & Hi & Hm & Hleast).
      exists m. rewrite (Hfound i m Hi Hleast Hm). reflexivity.
  - intros i m Hi Hleast Hm. rewrite (Hfound i m Hi Hleast Hm). split; [reflexivity|].
    cbn [snd]. destruct i as [|n]; [lia|].
    rewrite delays_poll_events. replace (S n - 1) with n by lia. reflexivity.
  - intros Hall. rewrite (Hnone Hall). split; [reflexivity|].
    cbn [snd]. apply (delays_poll_events chainId transactionHash 9).
Qed.

Lemma fetchAttestation_polls_witness :
  fetchAttestation (attestation_service complete_on_third) 6 "0xb0b" []
  = (Returned complete_message, poll_events 6 "0xb0b" 3)
  /\ fst (fetchAttestation offline 6 "0xb0b" [])
     = Threw (ThrownError (mkError "network error")).
Proof.
  split.
  - apply (fetchAttestation_polls (attestation_service complete_on_third) 6 "0xb0b").
    + lia.
    + intros j Hj. assert (j = 1 \/ j = 2) as [->| ->] by lia; reflexivity.
    + reflexivity.
  - destruct (fetchAttestation_polls offline 6 "0xb0b") as (_ & _ & Hnone).
    destruct Hnone as [Hrun _].
    + intros i _. reflexivity.
    + rewrite Hrun. reflexivity.
Defined.

(** C2 as stated fails twice.  A service whose every answer carries a
    complete entry with an attestation, but in second position, is never
    taken as ready: the call ends in the timeout failure.  And when the
    polls throw, what is raised after the tenth is that poll's error, not
    the timeout failure. *)
Lemma fetchAttestation_some_entry_counterexample :
  ((forall i, some_entry_complete
                (poll_answer (attestation_service complete_in_second_entry) 6 "0xb0b" i)
              = true)
   /\ fst (fetchAttestation (attestation_service complete_in_second_entry) 6 "0xb0b" [])
      = Threw (ThrownError
                 (mkError "Failed to fetch attestation after maximum attempts")))
  /\
  ((forall i, some_entry_complete (poll_answer offline 6 "0xb0b" i) = false)
   /\ fst (fetchAttestation offline 6 "0xb0b" [])
      <> Threw (ThrownError
                  (mkError "Failed to fetch attestation after maximum attempts"))).
Proof.
  split; split.
  - intros i. reflexivity.
  - vm_compute. reflexivity.
  - intros i. reflexivity.
  - vm_compute. discriminate.
Qed.

(** ** WalletProvisioner: ownership *)

Lemma owner_calls_app (tr1 tr2 : Trace) :
  owner_calls (tr1 ++ tr2) = owner_calls tr1 + owner_calls tr2.
Proof. unfold owner_calls. rewrite filter_app, length_app. reflexivity. Qed.

Lemma submissions_app (tr1 tr2 : Trace) :
  submissions (tr1 ++ tr2) = submissions tr1 + submissions tr2.
Proof. unfold submissions. rewrite filter_app, length_app. reflexivity. Qed.

Section OwnershipFacts.
Variable penv : ProcessEnv.
Variable env : Env.

(** An attempt on a factory that reports an owner other than the signer. *)
Lemma burn_attempt_mismatch (cfg : JsLookup ChainConfig) (mintRecipient : string)
    (tr : Trace) (owner : string) :
  env_connect env (cfg_rpc cfg) (cfg_factory cfg) tr = Ok tt ->
  env_owner env (cfg_factory cfg) (tr ++ [EvConnect (cfg_rpc cfg) (cfg_factory cfg)])
  = Ok owner ->
  owner_mismatch penv owner = true ->
  burn_attempt penv env cfg mintRecipient tr
  = (Threw not_factory_owner,
     tr ++ [EvConnect (cfg_rpc cfg) (cfg_factory cfg); EvOwner (cfg_factory cfg)]).
Proof.
  intros Hc Ho Hm. unfold burn_attempt, connect, bind, call.
  rewrite Hc, Ho, Hm. rewrite <- app_assoc. reflexivity.
Qed.

Lemma transfer_attempt_mismatch (cfg : ChainConfig) (destinationAddress : string)
    (tr : Trace) (owner : string) :
  env_connect env (Some (rpc cfg)) (Some (factory cfg)) tr = Ok tt ->
  env_owner env (Some (factory cfg))
    (tr ++ [EvConnect (Some (rpc cfg)) (Some (factory cfg))]) = Ok owner ->
  owner_mismatch penv owner = true ->
  transfer_attempt penv env cfg destinationAddress tr
  = (Threw not_factory_owner,
     tr ++ [EvConnect (Some (rpc cfg)) (Some (factory cfg));
            EvOwner (Some (factory cfg))]).
Proof.
  intros Hc Ho Hm. unfold transfer_attempt, connect, bind, call.
  rewrite Hc, Ho, Hm. rewrite <- app_assoc. reflexivity.
Qed.

Lemma burn_loop_mismatch (cfg : JsLookup ChainConfig) (mintRecipient : string) (k : nat) :
  persistent_mismatch penv env (cfg_rpc cfg) (cfg_factory cfg) ->
  forall (fuel : nat) (attempts : Z) (tr : Trace),
    (attempts + Z.of_nat k + 1 = 6)%Z ->
    k < fuel ->
    burn_loop penv env cfg mintRecipient fuel attempts tr
    = (Threw not_factory_owner,
       tr ++ failed_attempts
               [EvConnect (cfg_rpc cfg) (cfg_factory cfg); EvOwner (cfg_factory cfg)]
               1500 attempts k).
Proof.
  intros [Hc Ho]. induction k as [|k IH]; intros fuel attempts tr Ha Hfuel;
    (destruct fuel as [|fuel]; [lia|]); cbn [burn_loop];
    (destruct (Z.ltb_spec attempts 6) as [_|?]; [|lia]);
    unfold try_catch at 1;
    destruct (Ho (tr ++ [EvConnect (cfg_rpc cfg) (cfg_factory cfg)])) as (owner & Hown & Hmis);
    rewrite (burn_attempt_mismatch cfg mintRecipient tr owner (Hc tr) Hown Hmis);
    cbn [message_of not_factory_owner].
  - destruct (Z.geb_spec (attempts + 1) 6) as [_|?]; [reflexivity | lia].
  - destruct (Z.geb_spec (attempts + 1) 6) as [?|_]; [lia|].
    unfold bind at 1. unfold sleep, emit.
    rewrite IH by lia. cbn [failed_attempts]. rewrite <- !app_assoc. reflexivity.
Qed.

Lemma lookup_events_nothing (cfg : ChainConfig) (destination : option string)
    (fromBlock : Z) (tr : Trace) :
  env_connect env (Some (rpc cfg)) (Some (factory cfg)) tr = Ok tt ->
  nothing_found env (Some (factory cfg)) destination fromBlock ->
  lookup_events env cfg destination fromBlock tr
  = (Returned None,
     tr ++ [EvConnect (Some (rpc cfg)) (Some (factory cfg));
            EvQueryFilter (Some (factory cfg)) destination fromBlock]).
Proof.
  intros Hc Hq. unfold lookup_events, try_catch, connect, bind, call.
  rewrite Hc.
  specialize (Hq (tr ++ [EvConnect (Some (rpc cfg)) (Some (factory cfg))])).
  destruct (env_queryFilter env _ _ _ _) as [evs|e].
  - subst evs. rewrite <- app_assoc. reflexivity.
  - rewrite <- app_assoc. reflexivity.
Qed.

Lemma transfer_loop_mismatch (cfg : ChainConfig) (destinationAddress : string) (k : nat) :
  persistent_mismatch penv env (Some (rpc cfg)) (Some (factory cfg)) ->
  forall (fuel : nat) (attempts : Z) (tr : Trace),
    (attempts + Z.of_nat k + 1 = 3)%Z ->
    k < fuel ->
    transfer_loop penv env cfg destinationAddress fuel attempts tr
    = (Threw not_factory_owner,
       tr ++ failed_attempts
               [EvConnect (Some (rpc cfg)) (Some (factory cfg));
                EvOwner (Some (factory cfg))]
               3000 attempts k).
Proof.
  intros [Hc Ho]. induction k as [|k IH]; intros fuel attempts tr Ha Hfuel;
    (destruct fuel as [|fuel]; [lia|]); cbn [transfer_loop];
    (destruct (Z.ltb_spec attempts 3) as [_|?]; [|lia]);
    unfold try_catch at 1;
    destruct (Ho (tr ++ [EvConnect (Some (rpc cfg)) (Some (factory cfg))]))
      as (owner & Hown & Hmis);
    rewrite (transfer_attempt_mismatch cfg destinationAddress tr owner (Hc tr) Hown Hmis);
    cbn [message_of not_factory_owner message];
    unfold bind at 1; unfold already_known_recovery;
    change (includes "Not factory owner" "already known") with false;
    cbv iota; unfold ret at 1.
  - destruct (Z.geb_spec (attempts + 1) 3) as [_|?]; [reflexivity | lia].
  - destruct (Z.geb_spec (attempts + 1) 3) as [?|_]; [lia|].
    unfold bind at 1. unfold sleep, emit.
    rewrite IH by lia. cbn [failed_attempts]. rewrite <- !app_assoc. reflexivity.
Qed.

End OwnershipFacts.

(** C3 (as amended): an ownership mismatch is handled like any other failure
    of an attempt.  When the factory reports a foreign owner at every
    attempt, burn-wallet creation checks the owner 6 times, with backoffs of
    1500ms * attempt in between, and transfer-wallet creation (whose event
    pre-check found nothing) 3 times, with backoffs of 3000ms * attempt;
    only then does the call fail with "Not factory owner".  No creation
    transaction is submitted. *)
Theorem ownership_mismatch_retried (penv : ProcessEnv) (env : Env) :
  (forall (chainKey mintRecipient : string) (cfg : ChainConfig),
      js_get (CHAIN_CONFIGS penv) chainKey = OwnProperty cfg ->
      persistent_mismatch penv env (Some (rpc cfg)) (Some (factory cfg)) ->
      let run := createWalletOnChain penv env chainKey mintRecipient [] in
      fst run = Threw not_factory_owner
      /\ owner_calls (snd run) = 6
      /\ delays (snd run) = [1500; 3000; 4500; 6000; 7500]%Z
      /\ submissions (snd run) = 0)
  /\
  (forall (destinationAddress : string),
      let cfg := AVALANCHE_TRANSFER_CONFIG penv in
      persistent_mismatch penv env (Some (rpc cfg)) (Some (factory cfg)) ->
      nothing_found env (Some (factory cfg)) (Some destinationAddress) (-50) ->
      let run := createAvalancheTransferWallet penv env destinationAddress [] in
      fst run = Threw not_factory_owner
      /\ owner_calls (snd run) = 3
      /\ delays (snd run) = [3000; 6000]%Z
      /\ submissions (snd run) = 0).
Proof.
  split.
  - intros chainKey mintRecipient cfg Hcfg Hmis run. subst run.
    unfold createWalletOnChain. rewrite Hcfg. cbn [js_not].
    rewrite (burn_loop_mismatch penv env (OwnProperty cfg) mintRecipient 5 Hmis 6 0%Z [])
      by lia.
    cbn [fst snd]. repeat split; reflexivity.
  - intros destinationAddress cfg Hmis Hnone run.
    assert (Hrun : run = (Threw not_factory_owner,
                          [EvConnect (Some (rpc cfg)) (Some (factory cfg));
                           EvQueryFilter (Some (factory cfg)) (Some destinationAddress) (-50)]
                          ++ failed_attempts
                               [EvConnect (Some (rpc cfg)) (Some (factory cfg));
                                EvOwner (Some (factory cfg))] 3000 0 2)).
    { subst run. unfold createAvalancheTransferWallet. fold cfg. unfold bind.
      rewrite (lookup_events_nothing env cfg (Some destinationAddress) (-50) []
                 (proj1 Hmis []) Hnone).
      apply (transfer_loop_mismatch penv env cfg destinationAddress 2 Hmis 3 0%Z); lia. }
    rewrite Hrun. cbn [fst snd]. repeat split; reflexivity.
Qed.

Lemma ownership_mismatch_retried_witness :
  fst (createWalletOnChain deployment foreign_factories "base" "0x00a7a1" [])
  = Threw not_factory_owner
  /\ fst (createAvalancheTransferWallet deployment foreign_factories "0xde57" [])
     = Threw not_factory_owner.
Proof.
  destruct (ownership_mismatch_retried deployment foreign_factories) as [Hburn Htransfer].
  split.
  - apply (Hburn "base"%string "0x00a7a1"%string
                 (mkChain "https://base.example" "0xBA5EFAC7" "Base Sepolia")).
    + reflexivity.
    + split; intros tr; [reflexivity|].
      exists "0x50meb0dyE15e"%string. split; reflexivity.
  - apply (Htransfer "0xde57"%string).
    + split; intros tr; [reflexivity|].
      exists "0x50meb0dyE15e"%string. split; reflexivity.
    + intros tr. reflexivity.
Defined.

(** C3 as stated fails: with a factory owned by somebody else the call does
    not stop at the first mismatch.  [owner()] is asked again on every one of
    the 6 (burn wallet) or 3 (transfer wallet) attempts, after backoffs of
    22.5s, respectively 9s, in total. *)
Lemma ownership_fail_fast_counterexample :
  (forall tr, exists owner,
      env_owner foreign_factories (Some "0xBA5EFAC7"%string) tr = Ok owner
      /\ owner_mismatch deployment owner = true)
  /\ owner_calls (snd (createWalletOnChain deployment foreign_factories
                         "base" "0x00a7a1" [])) = 6
  /\ slept (snd (createWalletOnChain deployment foreign_factories
                   "base" "0x00a7a1" [])) = 22500%Z
  /\ owner_calls (snd (createAvalancheTransferWallet deployment foreign_factories
                         "0xde57" [])) = 3
  /\ slept (snd (createAvalancheTransferWallet deployment foreign_factories
                   "0xde57" [])) = 9000%Z.
Proof.
  split.
  - intros tr. exists "0x50meb0dyE15e"%string. split; reflexivity.
  - repeat split; vm_compute; reflexivity.
Qed.

(** ** Invariants of the monad: runs settle, traces only grow *)

Lemma behaves_weaken {A} (n m : nat) (c : M A) :
  n <= m -> behaves n c -> behaves m c.
Proof.
  intros Hle Hc tr. destruct (Hc tr) as (Hs & more & Hm & Hn).
  split; [exact Hs|]. exists more. split; [exact Hm | lia].
Qed.

Lemma behaves_ret {A} (a : A) : behaves 0 (ret a).
Proof.
  intros tr. split; [exact I|]. exists []. rewrite app_nil_r. split; reflexivity.
Qed.

Lemma behaves_throw {A} (e : JsError) : behaves 0 (@throw A (ThrownError e)).
Proof.
  intros tr. split; [exact I|]. exists []. rewrite app_nil_r. split; reflexivity.
Qed.

Lemma behaves_throwError {A} (msg : string) : behaves 0 (@throwError A msg).
Proof. apply behaves_throw. Qed.

Lemma behaves_emit (e : Event) : is_submission e = false -> behaves 0 (emit e).
Proof.
  intros He tr. split; [exact I|]. exists [e]. split; [reflexivity|].
  unfold submissions. cbn [filter]. rewrite He. reflexivity.
Qed.

Lemma behaves_sleep (ms : Z) : behaves 0 (sleep ms).
Proof. apply behaves_emit. reflexivity. Qed.

Lemma behaves_call {A} (e : Event) (answer : Trace -> Answer A) :
  behaves (if is_submission e then 1 else 0) (call e answer).
Proof.
  intros tr. unfold call.
  assert (Hn : submissions [e] <= (if is_submission e then 1 else 0)).
  { unfold submissions. cbn [filter]. destruct (is_submission e); cbn; lia. }
  destruct (answer tr); (split; [exact I|]); exists [e]; (split; [reflexivity | exact Hn]).
Qed.

Lemma behaves_bind {A B} (n m : nat) (c : M A) (k : A -> M B) :
  behaves n c -> (forall a, behaves m (k a)) -> behaves (n + m) (bind c k).
Proof.
  intros Hc Hk tr. unfold bind.
  destruct (Hc tr) as (Hs & more & Hm & Hn).
  destruct (c tr) as [[a|[|e]|] tr1]; cbn [fst snd] in *; try contradiction.
  - destruct (Hk a tr1) as (Hs' & more' & Hm' & Hn').
    split; [exact Hs'|]. exists (more ++ more').
    rewrite Hm', Hm, <- app_assoc, submissions_app. split; [reflexivity | lia].
  - split; [exact I|]. exists more. split; [exact Hm | lia].
Qed.

Lemma behaves_try_catch {A} (n m : nat) (body : M A) (handler : Thrown -> M A) :
  behaves n body ->
  (forall e, behaves m (handler (ThrownError e))) ->
  behaves (n + m) (try_catch body handler).
Proof.
  intros Hb Hh tr. unfold try_catch.
  destruct (Hb tr) as (Hs & more & Hm & Hn).
  destruct (body tr) as [[a|[|e]|] tr1]; cbn [fst snd] in *; try contradiction.
  - split; [exact I|]. exists more. split; [exact Hm | lia].
  - destruct (Hh e tr1) as (Hs' & more' & Hm' & Hn').
    split; [exact Hs'|]. exists (more ++ more').
    rewrite Hm', Hm, <- app_assoc, submissions_app. split; [reflexivity | lia].
Qed.

Create HintDb behaves.
#[local] Hint Resolve behaves_ret behaves_throw behaves_throwError behaves_sleep : behaves.

(** A step that touches nothing, under whatever bound. *)
Ltac behaves_leaf :=
  first [ solve [auto with behaves]
        | apply (behaves_weaken 0); [lia | solve [auto with behaves]] ].

Lemma begins_with_call {A} (e : Event) (answer : Trace -> Answer A) :
  begins_with e (call e answer).
Proof.
  intros tr. exists []. unfold call. destruct (answer tr); reflexivity.
Qed.

Lemma begins_with_bind {A B} (e : Event) (n : nat) (c : M A) (k : A -> M B) :
  begins_with e c -> (forall a, behaves n (k a)) -> begins_with e (bind c k).
Proof.
  intros Hc Hk tr. unfold bind. destruct (Hc tr) as (more & Hm).
  destruct (c tr) as [[a|t|] tr1]; cbn [snd] in *; try (exists more; exact Hm).
  destruct (Hk a tr1) as (_ & more' & Hm' & _).
  exists (more ++ more'). rewrite Hm', Hm, <- app_assoc. reflexivity.
Qed.

Lemma begins_with_try_catch {A} (e : Event) (n m : nat) (body : M A)
    (handler : Thrown -> M A) :
  begins_with e body -> behaves n body ->
  (forall err, behaves m (handler (ThrownError err))) ->
  begins_with e (try_catch body handler).
Proof.
  intros Hb Hs Hh tr. unfold try_catch.
  destruct (Hb tr) as (more & Hm). destruct (Hs tr) as (Hset & _).
  destruct (body tr) as [[a|[|err]|] tr1]; cbn [fst snd] in *;
    try contradiction; try (exists more; exact Hm).
  destruct (Hh err tr1) as (_ & more' & Hm' & _).
  exists (more ++ more'). rewrite Hm', Hm, <- app_assoc. reflexivity.
Qed.

Section ProvisionerInvariants.
Variable penv : ProcessEnv.
Variable env : Env.

Lemma behaves_connect (rpc factory : option string) :
  behaves 0 (connect env rpc factory).
Proof. apply (behaves_call (EvConnect rpc factory)). Qed.

Lemma behaves_wallet_of_receipt (receipt : Receipt) :
  behaves 0 (wallet_of_receipt receipt).
Proof.
  unfold wallet_of_receipt.
  destruct (find is_WalletCreated (logs receipt)) as [[parsed|]|];
    first [apply behaves_ret | apply behaves_throwError].
Qed.

Lemma behaves_burn_attempt (cfg : JsLookup ChainConfig) (mintRecipient : string) :
  behaves 1 (burn_attempt penv env cfg mintRecipient).
Proof.
  unfold burn_attempt.
  apply (behaves_bind 0 1); [apply behaves_connect | intros _].
  apply (behaves_bind 0 1); [apply (behaves_call (EvOwner _)) | intros owner].
  destruct (owner_mismatch penv owner).
  - behaves_leaf.
  - apply (behaves_bind 1 0); [apply (behaves_call (EvCreateBurn _ _ _)) | intros _].
    apply (behaves_bind 0 0); [apply (behaves_call EvWait) | intros receipt].
    apply behaves_wallet_of_receipt.
Qed.

Lemma behaves_transfer_attempt (cfg : ChainConfig) (destinationAddress : string) :
  behaves 1 (transfer_attempt penv env cfg destinationAddress).
Proof.
  unfold transfer_attempt.
  apply (behaves_bind 0 1); [apply behaves_connect | intros _].
  apply (behaves_bind 0 1); [apply (behaves_call (EvOwner _)) | intros owner].
  destruct (owner_mismatch penv owner).
  - behaves_leaf.
  - apply (behaves_bind 1 0); [apply (behaves_call (EvCreateTransfer _ _)) | intros _].
    apply (behaves_bind 0 0); [apply (behaves_call EvWait) | intros receipt].
    apply behaves_wallet_of_receipt.
Qed.

Lemma behaves_lookup_events (cfg : ChainConfig) (destination : option string)
    (fromBlock : Z) :
  behaves 0 (lookup_events env cfg destination fromBlock).
Proof.
  unfold lookup_events.
  apply (behaves_try_catch 0 0); [|intros e; apply behaves_ret].
  apply (behaves_bind 0 0); [apply behaves_connect | intros _].
  apply (behaves_bind 0 0); [apply (behaves_call (EvQueryFilter _ _ _)) | intros events].
  apply behaves_ret.
Qed.

Lemma behaves_already_known_recovery (cfg : ChainConfig) (msg : string) :
  behaves 0 (already_known_recovery env cfg msg).
Proof.
  unfold already_known_recovery. destruct (includes msg "already known").
  - apply (behaves_bind 0 0); [apply behaves_sleep | intros _].
    apply behaves_lookup_events.
  - apply behaves_ret.
Qed.

(** With [n] attempts left and fuel for them, the burn loop settles and
    submits at most [n] transactions. *)
Lemma behaves_burn_loop (cfg : JsLookup ChainConfig) (mintRecipient : string) (n : nat) :
  forall (fuel : nat) (attempts : Z),
    (6 - attempts <= Z.of_nat n)%Z ->
    n <= fuel ->
    behaves n (burn_loop penv env cfg mintRecipient fuel attempts).
Proof.
  induction n as [|n IH]; intros fuel attempts Ha Hfuel.
  - destruct fuel; cbn [burn_loop];
      (destruct (Z.ltb_spec attempts 6) as [?|_]; [lia | apply behaves_ret]).
  - destruct fuel as [|fuel]; [lia|]. cbn [burn_loop].
    destruct (Z.ltb_spec attempts 6) as [Hlt|_];
      [|behaves_leaf].
    apply (behaves_try_catch 1 n); [apply behaves_burn_attempt | intros e].
    cbn [message_of].
    destruct (attempts + 1 >=? 6)%Z.
    + behaves_leaf.
    + apply (behaves_bind 0 n); [apply behaves_sleep | intros _].
      apply IH; lia.
Qed.

Lemma behaves_transfer_loop (cfg : ChainConfig) (destinationAddress : string) (n : nat) :
  forall (fuel : nat) (attempts : Z),
    (3 - attempts <= Z.of_nat n)%Z ->
    n <= fuel ->
    behaves n (transfer_loop penv env cfg destinationAddress fuel attempts).
Proof.
  induction n as [|n IH]; intros fuel attempts Ha Hfuel.
  - destruct fuel; cbn [transfer_loop];
      (destruct (Z.ltb_spec attempts 3) as [?|_]; [lia | apply behaves_ret]).
  - destruct fuel as [|fuel]; [lia|]. cbn [transfer_loop].
    destruct (Z.ltb_spec attempts 3) as [Hlt|_];
      [|behaves_leaf].
    apply (behaves_try_catch 1 n); [apply behaves_transfer_attempt | intros e].
    cbn [message_of].
    apply (behaves_bind 0 n); [apply behaves_already_known_recovery | intros recovered].
    destruct recovered as [walletAddress|].
    + behaves_leaf.
    + destruct (attempts + 1 >=? 3)%Z.
      * behaves_leaf.
      * apply (behaves_bind 0 n); [apply behaves_sleep | intros _].
        apply IH; lia.
Qed.

(** An iteration of the burn loop starts by constructing its client. *)
Lemma begins_with_burn_loop (cfg : JsLookup ChainConfig) (mintRecipient : string)
    (fuel : nat) (attempts : Z) :
  (attempts < 6)%Z -> (6 - attempts <= Z.of_nat (S fuel))%Z ->
  begins_with (EvConnect (cfg_rpc cfg) (cfg_factory cfg))
              (burn_loop penv env cfg mintRecipient (S fuel) attempts).
Proof.
  intros Hlt Hfuel. cbn [burn_loop].
  destruct (Z.ltb_spec attempts 6) as [_|?]; [|lia].
  apply (begins_with_try_catch _ 1 fuel).
  - unfold burn_attempt.
    apply (begins_with_bind _ 1); [apply begins_with_call | intros _].
    apply (behaves_bind 0 1); [apply (behaves_call (EvOwner _)) | intros owner].
    destruct (owner_mismatch penv owner).
    + behaves_leaf.
    + apply (behaves_bind 1 0); [apply (behaves_call (EvCreateBurn _ _ _)) | intros _].
      apply (behaves_bind 0 0); [apply (behaves_call EvWait) | intros receipt].
      apply behaves_wallet_of_receipt.
  - apply behaves_burn_attempt.
  - intros err. cbn [message_of]. destruct (attempts + 1 >=? 6)%Z.
    + behaves_leaf.
    + apply (behaves_bind 0 fuel); [apply behaves_sleep | intros _].
      apply behaves_burn_loop; lia.
Qed.

(** Burn-wallet creation always ends, with a value or an [Error], after at
    most 6 submissions. *)
Lemma behaves_createWalletOnChain (chainKey mintRecipient : string) :
  behaves 6 (createWalletOnChain penv env chainKey mintRecipient).
Proof.
  unfold createWalletOnChain. destruct (js_not _).
  - behaves_leaf.
  - apply behaves_burn_loop; lia.
Qed.

(** Transfer-wallet creation always ends, with a value or an [Error], after
    at most 3 submissions. *)
Lemma behaves_createAvalancheTransferWallet (destinationAddress : string) :
  behaves 3 (createAvalancheTransferWallet penv env destinationAddress).
Proof.
  unfold createAvalancheTransferWallet.
  apply (behaves_bind 0 3); [apply behaves_lookup_events | intros existing].
  destruct existing as [walletAddress|].
  - behaves_leaf.
  - apply behaves_transfer_loop; lia.
Qed.

End ProvisionerInvariants.

(** ** WalletProvisioner: unsupported chains *)

(** A key that names no property at all is rejected before anything is
    constructed or called. *)
Lemma createWalletOnChain_unsupported (penv : ProcessEnv) (env : Env)
    (chainKey mintRecipient : string) (tr : Trace) :
  js_get (CHAIN_CONFIGS penv) chainKey = NoProperty ->
  createWalletOnChain penv env chainKey mintRecipient tr
  = (Threw (unsupported_chain chainKey), tr).
Proof.
  intros H. unfold createWalletOnChain. rewrite H. reflexivity.
Qed.

(** The keys that are rejected are those that are neither configured nor
    inherited. *)
Lemma js_get_NoProperty (penv : ProcessEnv) (chainKey : string) :
  js_get (CHAIN_CONFIGS penv) chainKey = NoProperty
  <-> configured penv chainKey = false
      /\ existsb (String.eqb chainKey) Object_prototype_names = false.
Proof.
  unfold js_get, configured. cbn [CHAIN_CONFIGS find existsb fst snd].
  destruct (String.eqb "arbitrum" chainKey);
    [split; [discriminate | intros [H _]; discriminate H]|].
  destruct (String.eqb "base" chainKey);
    [split; [discriminate | intros [H _]; discriminate H]|].
  destruct (String.eqb "avalanche" chainKey);
    [split; [discriminate | intros [H _]; discriminate H]|].
  cbn [orb].
  destruct (existsb (String.eqb chainKey) Object_prototype_names).
  - split; [discriminate | intros [_ H]; discriminate H].
  - split; [intros _; split; reflexivity | reflexivity].
Qed.

(** C8 at the chain key "constructor": it is not a configured chain, but
    [CHAIN_CONFIGS["constructor"]] is the inherited [Object] function, which
    is truthy, so the guard does not fire.  The call enters the 6-attempt
    loop with an undefined RPC URL and factory address: in every environment
    it goes on to construct a client, and where the constructors reject the
    missing address it fails only after 6 attempts and 22.5s of backoff, with
    their error instead of "Unsupported chain". *)
Theorem createWalletOnChain_inherited_key :
  (forall penv, configured penv "constructor" = false)
  /\ (forall penv env mintRecipient tr,
         createWalletOnChain penv env "constructor" mintRecipient tr
         = burn_loop penv env InheritedProperty mintRecipient 6 0 tr)
  /\ (forall penv env mintRecipient,
         exists more,
           snd (createWalletOnChain penv env "constructor" mintRecipient [])
           = EvConnect None None :: more)
  /\ (let run := createWalletOnChain deployment strict_constructors
                   "constructor" "0x00a7a1" [] in
      fst run = Threw (ThrownError (mkError "invalid value for Contract target"))
      /\ fst run <> Threw (unsupported_chain "constructor")
      /\ snd run = failed_attempts [EvConnect None None] 1500 0 5
      /\ slept (snd run) = 22500%Z).
Proof.
  split; [|split; [|split]].
  - intros penv. reflexivity.
  - intros penv env mintRecipient tr. reflexivity.
  - intros penv env mintRecipient.
    change (createWalletOnChain penv env "constructor" mintRecipient [])
      with (burn_loop penv env InheritedProperty mintRecipient 6 0 []).
    apply (begins_with_burn_loop penv env InheritedProperty mintRecipient 5 0); lia.
  - cbv zeta. repeat split; try (vm_compute; reflexivity).
    vm_compute. discriminate.
Qed.

(** ** WalletProvisioner: transfer wallets *)

Section TransferFacts.
Variable penv : ProcessEnv.
Variable env : Env.

#[local] Abbreviation cfg := (AVALANCHE_TRANSFER_CONFIG penv).
#[local] Abbreviation r := (Some (rpc (AVALANCHE_TRANSFER_CONFIG penv))).
#[local] Abbreviation f := (Some (factory (AVALANCHE_TRANSFER_CONFIG penv))).

Lemma lookup_events_found (destination : option string) (fromBlock : Z)
    (tr : Trace) (events : list EventLog) (w : string) :
  env_connect env r f tr = Ok tt ->
  env_queryFilter env f destination fromBlock (tr ++ [EvConnect r f]) = Ok events ->
  latest_wallet events = Some w ->
  lookup_events env cfg destination fromBlock tr
  = (Returned (Some w), tr ++ [EvConnect r f; EvQueryFilter f destination fromBlock]).
Proof.
  intros Hc Hq Hw. unfold lookup_events, try_catch, connect, bind, call.
  rewrite Hc, Hq. unfold ret. rewrite Hw, <- app_assoc. reflexivity.
Qed.

(** A lookup that returns a wallet has asked exactly its own filter, and the
    wallet is that of the last event of the answer. *)
Lemma lookup_events_inv (destination : option string) (fromBlock : Z)
    (tr tr' : Trace) (w : string) :
  lookup_events env cfg destination fromBlock tr = (Returned (Some w), tr') ->
  tr' = tr ++ [EvConnect r f; EvQueryFilter f destination fromBlock]
  /\ exists events,
       env_queryFilter env f destination fromBlock (tr ++ [EvConnect r f]) = Ok events
       /\ latest_wallet events = Some w.
Proof.
  unfold lookup_events, try_catch, connect, bind, call, ret.
  destruct (env_connect env r f tr) as [[]|e]; [|discriminate].
  destruct (env_queryFilter env f destination fromBlock _) as [events|e];
    [|discriminate].
  intros H. injection H as Hw Htr. split.
  - rewrite <- Htr, <- app_assoc. reflexivity.
  - exists events. split; [reflexivity | exact Hw].
Qed.

Lemma transfer_attempt_rejected (destinationAddress : string) (tr : Trace)
    (owner : string) (e : JsError) :
  env_connect env r f tr = Ok tt ->
  env_owner env f (tr ++ [EvConnect r f]) = Ok owner ->
  owner_mismatch penv owner = false ->
  env_createTransfer env f destinationAddress (tr ++ [EvConnect r f; EvOwner f]) = Fail e ->
  transfer_attempt penv env cfg destinationAddress tr
  = (Threw (ThrownError e),
     tr ++ [EvConnect r f; EvOwner f; EvCreateTransfer f destinationAddress]).
Proof.
  intros Hc Ho Hm Hs. unfold transfer_attempt, connect, bind, call.
  rewrite Hc, Ho, Hm. rewrite <- app_assoc. cbn [app]. rewrite Hs.
  rewrite <- app_assoc. reflexivity.
Qed.

(** An attempt, at any point of the loop, whose submission is rejected as
    already known and whose event scan then finds something. *)
Lemma transfer_loop_already_known (destinationAddress : string) (fuel : nat)
    (attempts : Z) (tr : Trace) (owner : string) (e : JsError)
    (events : list EventLog) (w : string) :
  (attempts < 3)%Z ->
  env_connect env r f tr = Ok tt ->
  env_owner env f (tr ++ [EvConnect r f]) = Ok owner ->
  owner_mismatch penv owner = false ->
  env_createTransfer env f destinationAddress (tr ++ [EvConnect r f; EvOwner f]) = Fail e ->
  includes (message e) "already known" = true ->
  let waited := tr ++ [EvConnect r f; EvOwner f; EvCreateTransfer f destinationAddress;
                       EvSleep 10000] in
  env_connect env r f waited = Ok tt ->
  env_queryFilter env f None (-20) (waited ++ [EvConnect r f]) = Ok events ->
  latest_wallet events = Some w ->
  transfer_loop penv env cfg destinationAddress (S fuel) attempts tr
  = (Returned (Some w), waited ++ [EvConnect r f; EvQueryFilter f None (-20)]).
Proof.
  intros Hlt Hc Ho Hm Hs Hak waited Hc2 Hq Hw. cbn [transfer_loop].
  destruct (Z.ltb_spec attempts 3) as [_|?]; [|lia].
  unfold try_catch at 1.
  rewrite (transfer_attempt_rejected destinationAddress tr owner e Hc Ho Hm Hs).
  cbn [message_of]. unfold bind at 1. unfold already_known_recovery. rewrite Hak.
  unfold bind at 1. unfold sleep, emit.
  replace ((tr ++ [EvConnect r f; EvOwner f; EvCreateTransfer f destinationAddress])
           ++ [EvSleep 10000]) with waited
    by (unfold waited; rewrite <- app_assoc; reflexivity).
  rewrite (lookup_events_found None (-20) waited events w Hc2 Hq Hw).
  reflexivity.
Qed.

End TransferFacts.

(** C7: when, in an attempt of [createAvalancheTransferWallet], the
    submission of the creation transaction fails with an error whose message
    contains "already known", the provisioner waits 10 seconds, queries the
    [WalletCreated] events of the last 20 blocks and, when there is one,
    returns the wallet of the latest: nothing is raised, nothing is
    resubmitted and no backoff follows.  This holds at whichever attempt and
    after whatever history ([transfer_loop]), and so for the first attempt of
    a call whose pre-check found no wallet. *)
Theorem already_known_recovers_wallet (penv : ProcessEnv) (env : Env)
    (destinationAddress : string) :
  let cfg := AVALANCHE_TRANSFER_CONFIG penv in
  let r := Some (rpc cfg) in
  let f := Some (factory cfg) in
  forall (attempts : Z) (tr : Trace) (owner : string) (e : JsError)
         (events : list EventLog) (w : string),
    (0 <= attempts < 3)%Z ->
    env_connect env r f tr = Ok tt ->
    env_owner env f (tr ++ [EvConnect r f]) = Ok owner ->
    owner_mismatch penv owner = false ->
    env_createTransfer env f destinationAddress (tr ++ [EvConnect r f; EvOwner f])
    = Fail e ->
    includes (message e) "already known" = true ->
    let waited := tr ++ [EvConnect r f; EvOwner f;
                         EvCreateTransfer f destinationAddress; EvSleep 10000] in
    let final := waited ++ [EvConnect r f; EvQueryFilter f None (-20)] in
    env_connect env r f waited = Ok tt ->
    env_queryFilter env f None (-20) (waited ++ [EvConnect r f]) = Ok events ->
    latest_wallet events = Some w ->
    transfer_loop penv env cfg destinationAddress (Z.to_nat (3 - attempts)) attempts tr
    = (Returned (Some w), final)
    /\ submissions final = submissions tr + 1
    /\ (lookup_events env cfg (Some destinationAddress) (-50) [] = (Returned None, tr) ->
        attempts = 0%Z ->
        createAvalancheTransferWallet penv env destinationAddress []
        = (Returned (Some w), final)).
Proof.
  intros cfg r f attempts tr owner e events w Ha Hc Ho Hm Hs Hak waited final Hc2 Hq Hw.
  assert (Hloop : forall fuel,
             transfer_loop penv env cfg destinationAddress (S fuel) attempts tr
             = (Returned (Some w), final)).
  { intros fuel.
    apply (transfer_loop_already_known penv env destinationAddress fuel attempts tr
             owner e events w); try assumption; lia. }
  split; [|split].
  - replace (Z.to_nat (3 - attempts)) with (S (Z.to_nat (2 - attempts))) by lia.
    apply Hloop.
  - unfold final, waited. rewrite !submissions_app. cbn. lia.
  - intros Hpre ->. unfold createAvalancheTransferWallet, bind.
    fold cfg. rewrite Hpre. apply (Hloop 2).
Qed.

Lemma already_known_recovers_wallet_witness :
  fst (createAvalancheTransferWallet deployment shared_factory "0xde57" [])
  = Returned (Some "0x07be4a11e7"%string).
Proof.
  pose proof (already_known_recovers_wallet deployment shared_factory "0xde57"
                0%Z
                [EvConnect (Some "https://avalanche.example"%string) (Some "0x7FAC7"%string);
                 EvQueryFilter (Some "0x7FAC7"%string) (Some "0xde57"%string) (-50)]
                "0x0PE4A704"%string
                (mkError "could not coalesce error (error: already known)")
                foreign_events "0x07be4a11e7"%string) as H.
  cbv zeta in H.
  destruct H as (_ & _ & Hcall);
    [ lia | reflexivity | reflexivity | reflexivity | reflexivity | reflexivity
    | reflexivity | reflexivity | reflexivity | ].
  rewrite Hcall; reflexivity.
Defined.

(** The wallet picked from an answer is that of its last event. *)
Lemma latest_wallet_last (older : list EventLog) (latestEvent : EventLog) :
  latest_wallet (older ++ [latestEvent]) = Some (args_wallet latestEvent).
Proof. unfold latest_wallet. rewrite rev_app_distr. reflexivity. Qed.

Lemma latest_wallet_inv (events : list EventLog) (w : string) :
  latest_wallet events = Some w ->
  exists older latestEvent,
    events = older ++ [latestEvent] /\ args_wallet latestEvent = w.
Proof.
  unfold latest_wallet. destruct (rev events) as [|ev rest] eqn:E; [discriminate|].
  intros H. injection H as <-. exists (rev rest), ev. split; [|reflexivity].
  rewrite <- (rev_involutive events), E. reflexivity.
Qed.

(** C9: the scan of the "already known" branch asks for [WalletCreated]
    events of the last 20 blocks with no destination filter, and the wallet
    it hands back is that of the most recent event, the last of the answer,
    whatever the destination of that event and whatever the events before
    it: (1) when the answer is [older ++ [latestEvent]] the branch returns
    the wallet of [latestEvent], and (2) whenever the branch returns a
    wallet, the answer to that very query ended with an event for that
    wallet.  (3) The pre-check asks with the destination as filter, over 50
    blocks, and returns the wallet of the last event too; with a node that
    honours filters that event is for the destination asked.  (4) On a
    factory that other users use as well, and with such a node, a call for
    destination 0xde57 goes through the "already known" branch; the scan
    sees three events, of which the second is for the wallet 0xde57a11e7
    created for 0xde57, and the call returns the wallet of the last,
    0x07be4a11e7, created for destination 0x07be4. *)
Theorem recovery_ignores_destination :
  (forall (penv : ProcessEnv) (env : Env) (msg : string) (tr : Trace)
          (older : list EventLog) (latestEvent : EventLog),
      let cfg := AVALANCHE_TRANSFER_CONFIG penv in
      let r := Some (rpc cfg) in
      let f := Some (factory cfg) in
      includes msg "already known" = true ->
      env_connect env r f (tr ++ [EvSleep 10000]) = Ok tt ->
      env_queryFilter env f None (-20) (tr ++ [EvSleep 10000; EvConnect r f])
      = Ok (older ++ [latestEvent]) ->
      already_known_recovery env cfg msg tr
      = (Returned (Some (args_wallet latestEvent)),
         tr ++ [EvSleep 10000; EvConnect r f; EvQueryFilter f None (-20)]))
  /\
  (forall (penv : ProcessEnv) (env : Env) (msg : string) (tr tr' : Trace) (w : string),
      let cfg := AVALANCHE_TRANSFER_CONFIG penv in
      let r := Some (rpc cfg) in
      let f := Some (factory cfg) in
      already_known_recovery env cfg msg tr = (Returned (Some w), tr') ->
      tr' = tr ++ [EvSleep 10000; EvConnect r f; EvQueryFilter f None (-20)]
      /\ exists older latestEvent,
           env_queryFilter env f None (-20) (tr ++ [EvSleep 10000; EvConnect r f])
           = Ok (older ++ [latestEvent])
           /\ args_wallet latestEvent = w)
  /\
  (forall (penv : ProcessEnv) (env : Env) (destinationAddress : string)
          (older : list EventLog) (latestEvent : EventLog),
      let cfg := AVALANCHE_TRANSFER_CONFIG penv in
      let r := Some (rpc cfg) in
      let f := Some (factory cfg) in
      honours_filter env ->
      env_connect env r f [] = Ok tt ->
      env_queryFilter env f (Some destinationAddress) (-50) [EvConnect r f]
      = Ok (older ++ [latestEvent]) ->
      createAvalancheTransferWallet penv env destinationAddress []
      = (Returned (Some (args_wallet latestEvent)),
         [EvConnect r f; EvQueryFilter f (Some destinationAddress) (-50)])
      /\ args_destination latestEvent = destinationAddress)
  /\
  (let run := createAvalancheTransferWallet deployment busy_factory "0xde57" [] in
   let f := Some (factory (AVALANCHE_TRANSFER_CONFIG deployment)) in
   honours_filter busy_factory
   /\ fst run = Returned (Some "0x07be4a11e7"%string)
   /\ (exists scanned,
         snd run = scanned ++ [EvQueryFilter f None (-20)]
         /\ env_queryFilter busy_factory f None (-20) scanned
            = Ok [ mkEvent "0xa11cea11e7" "0xa11ce";
                   mkEvent "0xde57a11e7" "0xde57";
                   mkEvent "0x07be4a11e7" "0x07be4" ])
   /\ submissions (snd run) = 1).
Proof.
  split; [|split; [|split]].
  - intros penv env msg tr older latestEvent. cbv zeta. intros Hak Hc Hq.
    unfold already_known_recovery. rewrite Hak.
    unfold bind at 1. unfold sleep, emit.
    rewrite (lookup_events_found penv env None (-20) (tr ++ [EvSleep 10000])
               (older ++ [latestEvent]) (args_wallet latestEvent)).
    + rewrite <- app_assoc. reflexivity.
    + exact Hc.
    + rewrite <- app_assoc. exact Hq.
    + apply latest_wallet_last.
  - intros penv env msg tr tr' w cfg r f. unfold already_known_recovery.
    destruct (includes msg "already known"); [|discriminate].
    unfold bind at 1. unfold sleep, emit. intros H.
    apply lookup_events_inv in H. destruct H as (Htr & events & Hq & Hw).
    split.
    + rewrite Htr, <- app_assoc. reflexivity.
    + destruct (latest_wallet_inv events w Hw) as (older & latestEvent & -> & Hev).
      exists older, latestEvent. rewrite <- app_assoc in Hq. split; assumption.
  - intros penv env destinationAddress older latestEvent. cbv zeta. intros Hf Hc Hq. split.
    + unfold createAvalancheTransferWallet, bind.
      rewrite (lookup_events_found penv env (Some destinationAddress) (-50) []
                 (older ++ [latestEvent]) (args_wallet latestEvent) Hc Hq
                 (latest_wallet_last older latestEvent)).
      reflexivity.
    + pose proof (Hf _ _ _ _ _ Hq) as Hall.
      apply Forall_app in Hall. destruct Hall as [_ Hlast].
      inversion Hlast. assumption.
  - cbv zeta. split; [|split; [|split]].
    + intros factory d fromBlock tr events H.
      assert (Hsome : exists chain, events = query_events chain (Some d)).
      { unfold busy_factory in H. cbn [env_queryFilter] in H.
        destruct (submissions tr);
          [exists events_before_submission | exists events_after_submission];
          congruence. }
      destruct Hsome as [chain ->].
      unfold query_events. apply Forall_forall. intros ev Hin.
      apply filter_In in Hin. destruct Hin as [_ Heq].
      apply String.eqb_eq. exact Heq.
    + vm_compute. reflexivity.
    + exists [EvConnect (Some "https://avalanche.example"%string) (Some "0x7FAC7"%string);
              EvQueryFilter (Some "0x7FAC7"%string) (Some "0xde57"%string) (-50);
              EvConnect (Some "https://avalanche.example"%string) (Some "0x7FAC7"%string);
              EvOwner (Some "0x7FAC7"%string);
              EvCreateTransfer (Some "0x7FAC7"%string) "0xde57";
              EvSleep 10000;
              EvConnect (Some "https://avalanche.example"%string) (Some "0x7FAC7"%string)].
      split; vm_compute; reflexivity.
    + vm_compute. reflexivity.
Qed.

Lemma recovery_ignores_destination_witness :
  already_known_recovery busy_factory (AVALANCHE_TRANSFER_CONFIG deployment)
    "could not coalesce error (error: already known)"
    [EvCreateTransfer (Some "0x7FAC7"%string) "0xde57"]
  = (Returned (Some "0x07be4a11e7"%string),
     [EvCreateTransfer (Some "0x7FAC7"%string) "0xde57"]
     ++ [EvSleep 10000;
         EvConnect (Some "https://avalanche.example"%string) (Some "0x7FAC7"%string);
         EvQueryFilter (Some "0x7FAC7"%string) None (-20)]).
Proof.
  destruct recovery_ignores_destination as [Hrec _].
  apply (Hrec deployment busy_factory
              "could not coalesce error (error: already known)"%string
              [EvCreateTransfer (Some "0x7FAC7"%string) "0xde57"]
              [mkEvent "0xa11cea11e7" "0xa11ce"; mkEvent "0xde57a11e7" "0xde57"]
              (mkEvent "0x07be4a11e7" "0x07be4"));
    reflexivity.
Defined.

(** C5 (as amended): when a first call of [createAvalancheTransferWallet]
    has returned a wallet and, at the time of a second call for the same
    destination, the pre-check (events of the last 50 blocks, filtered by
    destination) answers with that wallet's event as the most recent one,
    the second call returns the same address and submits no creation
    transaction: it only constructs a client and queries the events.  The
    first call has submitted at most 3, one per attempt. *)
Theorem transfer_wallet_second_call (penv : ProcessEnv) (env : Env)
    (destinationAddress : string) (w : string) (tr1 : Trace) (events : list EventLog) :
  let cfg := AVALANCHE_TRANSFER_CONFIG penv in
  let r := Some (rpc cfg) in
  let f := Some (factory cfg) in
  let precheck := [EvConnect r f; EvQueryFilter f (Some destinationAddress) (-50)] in
  createAvalancheTransferWallet penv env destinationAddress [] = (Returned (Some w), tr1) ->
  env_connect env r f tr1 = Ok tt ->
  env_queryFilter env f (Some destinationAddress) (-50) (tr1 ++ [EvConnect r f]) = Ok events ->
  latest_wallet events = Some w ->
  call_twice (createAvalancheTransferWallet penv env destinationAddress)
  = (Returned (Some w), Returned (Some w), tr1 ++ precheck)
  /\ submissions (tr1 ++ precheck) = submissions tr1
  /\ submissions tr1 <= 3.
Proof.
  cbv zeta. intros Hfirst Hc Hq Hw. split; [|split].
  - unfold call_twice. rewrite Hfirst. cbn [fst snd].
    unfold createAvalancheTransferWallet at 1 2, bind.
    rewrite (lookup_events_found penv env (Some destinationAddress) (-50) tr1
               events w Hc Hq Hw).
    reflexivity.
  - rewrite submissions_app. cbn. lia.
  - destruct (behaves_createAvalancheTransferWallet penv env destinationAddress [])
      as (_ & more & Hm & Hn).
    rewrite Hfirst in Hm. cbn [snd app] in Hm. subst tr1. exact Hn.
Qed.

Lemma transfer_wallet_second_call_witness :
  fst (call_twice (createAvalancheTransferWallet deployment flaky_receipts "0xde57"))
  = (Returned (Some "0x5ec0"%string), Returned (Some "0x5ec0"%string)).
Proof.
  pose proof (transfer_wallet_second_call deployment flaky_receipts "0xde57"
                "0x5ec0"%string
                (snd (createAvalancheTransferWallet deployment flaky_receipts "0xde57" []))
                [mkEvent "0xf125" "0xde57"; mkEvent "0x5ec0" "0xde57"]) as H.
  cbv zeta in H.
  destruct H as (Htwice & _ & _);
    [ vm_compute; reflexivity | reflexivity | vm_compute; reflexivity | reflexivity | ].
  rewrite Htwice. reflexivity.
Defined.

(** C5 as stated fails twice.  With a node that loses the first receipt, the
    first call submits two creation transactions before it returns wallet
    0x5ec0; the second call finds that wallet's event and returns the same
    address, but more than one transaction was submitted.  And when somebody
    else creates a wallet for the same destination between the calls, the
    first call's event is still in the window, yet the second call returns
    the other, more recent wallet. *)
Lemma transfer_wallet_idempotent_counterexample :
  (let '(first, second, tr) :=
     call_twice (createAvalancheTransferWallet deployment flaky_receipts "0xde57") in
   first = Returned (Some "0x5ec0"%string)
   /\ second = Returned (Some "0x5ec0"%string)
   /\ submissions tr = 2)
  /\
  (let '(first, second, tr) :=
     call_twice (createAvalancheTransferWallet deployment third_party "0xde57") in
   first = Returned (Some "0xf125"%string)
   /\ env_queryFilter third_party (Some "0x7FAC7"%string) (Some "0xde57"%string) (-50)
        (snd (createAvalancheTransferWallet deployment third_party "0xde57" [])
         ++ [EvConnect (Some "https://avalanche.example"%string) (Some "0x7FAC7"%string)])
      = Ok [mkEvent "0xf125" "0xde57"; mkEvent "0x07be" "0xde57"]
   /\ second = Returned (Some "0x07be"%string)
   /\ submissions tr = 1).
Proof.
  split; vm_compute; repeat split; reflexivity.
Qed.

(** ** Batch provisioning *)

(** One round of the loop over the chains. *)
Lemma create_burn_wallets_step (penv : ProcessEnv) (env : Env) (chain : string)
    (rest : list string) (avalancheBytes32 : string) (lines : list string) (tr : Trace) :
  create_burn_wallets penv env (chain :: rest) avalancheBytes32 lines tr
  = let attempt := createWalletOnChain penv env chain avalancheBytes32 tr in
    create_burn_wallets penv env rest avalancheBytes32
      (lines ++ created chain (fst attempt)) (snd attempt).
Proof.
  cbn [create_burn_wallets]. cbv zeta. unfold bind at 1. unfold try_catch, bind at 1.
  destruct (behaves_createWalletOnChain penv env chain avalancheBytes32 tr) as [Hs _].
  destruct (createWalletOnChain penv env chain avalancheBytes32 tr) as [[addr|[|e]|] tr1];
    cbn [fst snd settled created message_of] in *; try contradiction.
  - reflexivity.
  - unfold ret at 1. rewrite app_nil_r. reflexivity.
Qed.

(** Padding touches nothing outside: it returns or throws on the spot. *)
Lemma zeroPadValue_cases (data : option string) (len : nat) :
  (exists v, zeroPadValue data len = ret v)
  \/ (exists msg, zeroPadValue data len = throwError msg).
Proof.
  unfold zeroPadValue.
  destruct data as [s|]; [|right; eexists; reflexivity].
  destruct (strip_0x s) as [digits|]; [|right; eexists; reflexivity].
  destruct (all_hex digits && Nat.even (String.length digits));
    [ destruct (2 * len <? String.length digits) | ];
    first [ left; eexists; reflexivity | right; eexists; reflexivity ].
Qed.

(** C6: in [POST /api/create-wallet-all], called with a destination,
    (a) when the creation of the Avalanche transfer wallet fails, the answer
    is status 500 with the error "Failed to create Avalanche transfer wallet"
    and nothing further is attempted: the trace ends where that creation
    ended;
    (b) when it returns an address (which ethers pads to 32 bytes), burn
    wallets are created on arbitrum and then, whatever happened on arbitrum,
    on base; the answer is status 200 with the line of the transfer wallet
    followed by one line for each chain whose creation returned, and none for
    a chain whose creation failed.  The handler itself never throws. *)
Theorem create_wallet_all_isolates_failures (penv : ProcessEnv) (env : Env)
    (avalancheDestination : string) :
  falsy (Some avalancheDestination) = false ->
  let transfer := createAvalancheTransferWallet penv env avalancheDestination [] in
  let batch := create_wallet_all penv env (Some avalancheDestination) [] in
  (forall t, fst transfer = Threw t ->
     batch = (Returned (mkResponse 500
                          (JsonError "Failed to create Avalanche transfer wallet")),
              snd transfer))
  /\
  (forall avalancheAddress avalancheBytes32,
     fst transfer = Returned avalancheAddress ->
     zeroPadValue avalancheAddress 32 (snd transfer)
     = (Returned avalancheBytes32, snd transfer) ->
     let arbitrum := createWalletOnChain penv env "arbitrum" avalancheBytes32
                       (snd transfer) in
     let base := createWalletOnChain penv env "base" avalancheBytes32 (snd arbitrum) in
     batch = (Returned (mkResponse 200
                          (TextBody (String.concat newline
                             (("AVALANCHE: " ++ show avalancheAddress)%string
                              :: created "arbitrum" (fst arbitrum)
                              ++ created "base" (fst base))))),
              snd base))
  /\ (exists response tr, batch = (Returned response, tr)).
Proof.
  intros Hdest transfer batch.
  assert (Hbatch : batch
    = match fst transfer with
      | Returned avalancheAddress =>
          match zeroPadValue avalancheAddress 32 (snd transfer) with
          | (Returned avalancheBytes32, tr2) =>
              let arbitrum := createWalletOnChain penv env "arbitrum" avalancheBytes32 tr2 in
              let base := createWalletOnChain penv env "base" avalancheBytes32
                            (snd arbitrum) in
              (Returned (mkResponse 200
                           (TextBody (String.concat newline
                              (("AVALANCHE: " ++ show avalancheAddress)%string
                               :: created "arbitrum" (fst arbitrum)
                               ++ created "base" (fst base))))),
               snd base)
          | (Threw (ThrownError e), tr2) =>
              (Returned (mkResponse 500 (JsonError (or_internal_error (message e)))), tr2)
          | other => (Threw ThrownUndefined, snd other)
          end
      | _ => (Returned (mkResponse 500
                          (JsonError "Failed to create Avalanche transfer wallet")),
              snd transfer)
      end).
  { subst batch. unfold create_wallet_all. rewrite Hdest.
    unfold try_catch at 1. unfold bind at 1. unfold try_catch at 1. unfold bind at 1.
    cbn [show default].
    destruct (behaves_createAvalancheTransferWallet penv env avalancheDestination [])
      as [Hs _].
    fold transfer in Hs |- *.
    destruct transfer as [[avalancheAddress|[|e]|] tr1];
      cbn [fst snd settled message_of] in *; try contradiction; [|reflexivity].
    unfold ret at 1. cbn [app]. unfold bind at 1.
    destruct (zeroPadValue_cases avalancheAddress 32) as [[v Hv]|[msg Hv]];
      rewrite Hv; [|reflexivity].
    unfold ret at 1 2.
unfold bind at 1.
    rewrite !create_burn_wallets_step. cbv zeta. cbn [create_burn_wallets].
    unfold ret. rewrite <- app_assoc. reflexivity. }
  split; [|split].
  - intros t Ht. rewrite Hbatch, Ht. reflexivity.
  - intros avalancheAddress avalancheBytes32 Ha Hpad. cbv zeta.
    rewrite Hbatch, Ha, Hpad. reflexivity.
  - rewrite Hbatch.
    destruct (fst transfer) as [avalancheAddress| |]; try (eexists; eexists; reflexivity).
    destruct (zeroPadValue_cases avalancheAddress 32) as [[v Hv]|[msg Hv]];
      rewrite Hv; eexists; eexists; reflexivity.
Qed.

Lemma create_wallet_all_isolates_failures_witness :
  fst (create_wallet_all deployment base_down (Some "0xde57"%string) [])
  = Returned (mkResponse 200
      (TextBody ("AVALANCHE: 0xA7A1a7a1a7a1a7a1a7a1a7a1a7a1a7a1a7a1a7a1" ++ newline
                 ++ "ARBITRUM: 0xa4b1a4b1a4b1a4b1a4b1a4b1a4b1a4b1a4b1a4b1")%string))
  /\ fst (create_wallet_all deployment foreign_factories (Some "0xde57"%string) [])
     = Returned (mkResponse 500 (JsonError "Failed to create Avalanche transfer wallet")).
Proof.
  split.
  - destruct (create_wallet_all_isolates_failures deployment base_down "0xde57")
      as (_ & Hok & _); [reflexivity|].
    cbv zeta in Hok.
    rewrite (Hok (Some "0xA7A1a7a1a7a1a7a1a7a1a7a1a7a1a7a1a7a1a7a1"%string)
                 "0x000000000000000000000000a7a1a7a1a7a1a7a1a7a1a7a1a7a1a7a1a7a1a7a1"%string);
      vm_compute; reflexivity.
  - destruct (create_wallet_all_isolates_failures deployment foreign_factories "0xde57")
      as (Hfail & _ & _); [reflexivity|].
    cbv zeta in Hfail.
    rewrite (Hfail not_factory_owner); vm_compute; reflexivity.
Defined.

(** ** Amounts *)

Example parseFloat_half : parseFloat "0.5" = S754_finite false 4503599627370496 (-53).
Proof. vm_compute. reflexivity. Qed.

Example test_burn_amount_thousandth : test_burn_amount "0.001" [] = (Returned 1000%Z, []).
Proof. vm_compute. reflexivity. Qed.

Example test_burn_amount_units : test_burn_amount "1000" [] = (Returned 1000%Z, []).
Proof. vm_compute. reflexivity. Qed.

Example transfer_amount_zero :
  transfer_amount "0" []
  = (Returned (inr (mkResponse 400 (JsonError "Amount must be greater than 0"))), []).
Proof. vm_compute. reflexivity. Qed.

Example transfer_amount_garbage :
  transfer_amount "12abc" [] = (Returned (inr invalid_amount_format), []).
Proof. vm_compute. reflexivity. Qed.

(** *** Integer-string amounts are cast as they are *)

Lemma decimal_digit_facts (c : ascii) :
  is_decimal_digit c = true ->
  digit_in 10 c = Some (Z.of_nat (nat_of_ascii c) - 48)%Z
  /\ is_whitespace c = false
  /\ Ascii.eqb c "-" = false /\ Ascii.eqb c "+" = false
  /\ c <> "."%char /\ c <> "x"%char /\ c <> "X"%char /\ c <> "o"%char
  /\ c <> "O"%char /\ c <> "b"%char /\ c <> "B"%char.
Proof.
  destruct c as [[] [] [] [] [] [] [] []]; intros H; try discriminate H;
    repeat split; try reflexivity; discriminate.
Qed.

Lemma includes_dot_decimal (s : string) :
  all_decimal s = true -> includes s "." = false.
Proof.
  induction s as [|c s IH]; intros H; [reflexivity|].
  cbn [all_decimal] in H. apply andb_true_iff in H. destruct H as [Hc Hs].
  cbn [includes String.prefix].
  destruct (ascii_dec "." c) as [Heq|_].
  - apply decimal_digit_facts in Hc. destruct Hc as (_ & _ & _ & _ & Hdot & _).
    exfalso. apply Hdot. symmetry. exact Heq.
  - apply IH. exact Hs.
Qed.

Lemma trim_start_digit (s : string) : starts_with_digit s = true -> trim_start s = s.
Proof.
  destruct s as [|c s]; [discriminate|]. cbn [starts_with_digit trim_start]. intros Hc.
  apply decimal_digit_facts in Hc. destruct Hc as (_ & Hw & _). rewrite Hw. reflexivity.
Qed.

Lemma string_rev_digits (s acc : string) :
  all_decimal s = true ->
  starts_with_digit acc = true \/ s <> EmptyString ->
  starts_with_digit (string_rev s acc) = true.
Proof.
  revert acc. induction s as [|c s IH]; intros acc Hs Hor.
  - destruct Hor as [Hacc|Hne]; [exact Hacc | now contradiction Hne].
  - cbn [all_decimal] in Hs. apply andb_true_iff in Hs. destruct Hs as [Hc Hs].
    cbn [string_rev]. apply IH; [exact Hs|]. left. exact Hc.
Qed.

Lemma string_rev_rev (s a b : string) :
  string_rev (string_rev s a) b = string_rev a (s ++ b).
Proof.
  revert a b. induction s as [|c s IH]; intros a b; [reflexivity|].
  cbn [string_rev]. rewrite IH. reflexivity.
Qed.

Lemma append_empty (s : string) : (s ++ "")%string = s.
Proof. induction s as [|c s IH]; [reflexivity|]. cbn. rewrite IH. reflexivity. Qed.

Lemma trim_decimal (s : string) :
  s <> EmptyString -> all_decimal s = true -> trim s = s.
Proof.
  intros Hne Hs. unfold trim.
  assert (Hstart : starts_with_digit s = true).
  { destruct s as [|c s]; [now contradiction Hne|].
    cbn [all_decimal] in Hs. apply andb_true_iff in Hs. apply Hs. }
  rewrite (trim_start_digit s Hstart).
  rewrite (trim_start_digit (string_rev s ""));
    [|apply string_rev_digits; [exact Hs | right; exact Hne]].
  rewrite string_rev_rev. cbn [string_rev]. apply append_empty.
Qed.

Lemma prefix_radix_decimal (k : ascii) (s : string) :
  (forall c, is_decimal_digit c = true -> c <> k) ->
  all_decimal s = true ->
  String.prefix (String "0" (String k "")) s = false.
Proof.
  intros Hk Hs. destruct s as [|c [|d s]]; try reflexivity.
  - cbn [String.prefix]. destruct (ascii_dec "0" c); reflexivity.
  - cbn [all_decimal] in Hs. apply andb_true_iff in Hs. destruct Hs as [_ Hs].
    apply andb_true_iff in Hs. destruct Hs as [Hd _].
    cbn [String.prefix]. destruct (ascii_dec "0" c); [|reflexivity].
    destruct (ascii_dec k d) as [Heq|_]; [|reflexivity].
    exfalso. apply (Hk d Hd). symmetry. exact Heq.
Qed.

Lemma read_digits_decimal (s : string) :
  forall acc count,
    all_decimal s = true ->
    read_digits 10 s acc count
    = (decimal_value_from acc s, (count + Z.of_nat (String.length s))%Z, EmptyString).
Proof.
  induction s as [|c s IH]; intros acc count Hs.
  - cbn. rewrite Z.add_0_r. reflexivity.
  - cbn [all_decimal] in Hs. apply andb_true_iff in Hs. destruct Hs as [Hc Hs].
    cbn [read_digits decimal_value_from String.length].
    destruct (decimal_digit_facts c Hc) as (Hd & _). rewrite Hd.
    rewrite IH by exact Hs. do 2 f_equal. lia.
Qed.

(** For an amount that is a non-empty run of decimal digits, [BigInt(amount)]
    is the integer it denotes. *)
Lemma BigInt_of_decimal_string (s : string) (tr : Trace) :
  s <> EmptyString -> all_decimal s = true ->
  BigInt_of_string s tr = (Returned (decimal_value s), tr).
Proof.
  intros Hne Hs. unfold BigInt_of_string. rewrite (trim_decimal s Hne Hs).
  destruct (String.eqb_spec s "") as [->|_]; [now contradiction Hne|].
  rewrite !prefix_radix_decimal;
    try exact Hs;
    try (intros c Hc; apply decimal_digit_facts in Hc; tauto).
  cbn [orb].
  assert (Hsign : read_sign s = (false, s)).
  { destruct s as [|c s]; [now contradiction Hne|].
    cbn [all_decimal] in Hs. apply andb_true_iff in Hs. destruct Hs as [Hc _].
    apply decimal_digit_facts in Hc. destruct Hc as (_ & _ & Hm & Hp & _).
    cbn [read_sign]. rewrite Hm, Hp. reflexivity. }
  rewrite Hsign. unfold read_integer. rewrite read_digits_decimal by exact Hs.
  assert (Hlen : (0 <? 0 + Z.of_nat (String.length s))%Z = true).
  { destruct s as [|c s]; [now contradiction Hne|]. cbn [String.length].
    apply Z.ltb_lt. lia. }
  rewrite Hlen. reflexivity.
Qed.

(** The integer-string half of C4: both handlers cast such an amount to the
    integer it denotes; the transfer handler goes on only when it is
    positive. *)
Lemma integer_amount_is_cast (s : string) (tr : Trace) :
  s <> EmptyString -> all_decimal s = true ->
  test_burn_amount s tr = (Returned (decimal_value s), tr)
  /\ ((0 < decimal_value s)%Z ->
      transfer_amount s tr = (Returned (inl (decimal_value s)), tr)).
Proof.
  intros Hne Hs. split.
  - unfold test_burn_amount. rewrite (includes_dot_decimal s Hs).
    apply BigInt_of_decimal_string; assumption.
  - intros Hpos. unfold transfer_amount, try_catch, bind.
    rewrite (includes_dot_decimal s Hs).
    rewrite (BigInt_of_decimal_string s tr Hne Hs).
    destruct (Z.leb_spec (decimal_value s) 0) as [?|_]; [lia | reflexivity].
Qed.

(** C4 at the amount "1.001": the spec's conversion is
    [floor(1.001 * 1_000_000) = 1001000], but the Number nearest to 1.001
    times 1000000 rounds to 1000999.9999999999, whose floor is 1000999: both
    handlers hand one unit less to the SDK. *)
Theorem decimal_amount_loses_a_unit :
  exact_units "1" "001" = 1001000%Z
  /\ includes "1.001" "." = true
  /\ test_burn_amount "1.001" [] = (Returned 1000999%Z, [])
  /\ transfer_amount "1.001" [] = (Returned (inl 1000999%Z), []).
Proof. repeat split; vm_compute; reflexivity. Qed.

(** ** Fuel *)

(** [runWithRetries] gives its loop enough fuel: it runs out only if the
    action does. *)
Lemma retry_loop_fuel {T} (action : M T) (maxAttempts baseDelayMs : Z) (n : nat) :
  (forall tr, fst (action tr) <> OutOfFuel) ->
  forall (fuel : nat) (attempt : Z) (lastErr : Thrown) (tr : Trace),
    (maxAttempts - attempt <= Z.of_nat n)%Z ->
    n <= fuel ->
    fst (retry_loop action maxAttempts baseDelayMs fuel attempt lastErr tr) <> OutOfFuel.
Proof.
  intros Haction. induction n as [|n IH]; intros fuel attempt lastErr tr Hn Hfuel.
  - rewrite retry_loop_skipped by lia. discriminate.
  - destruct (Z.ltb_spec attempt maxAttempts) as [Hlt|Hge];
      [|rewrite retry_loop_skipped by lia; discriminate].
    destruct fuel as [|fuel]; [lia|]. cbn [retry_loop].
    destruct (Z.ltb_spec attempt maxAttempts) as [_|?]; [|lia].
    unfold try_catch. specialize (Haction tr).
    destruct (action tr) as [[v|t|] tr1]; cbn [fst] in *;
      [discriminate | | now contradiction Haction].
    destruct (attempt + 1 >=? maxAttempts)%Z; [discriminate|].
    unfold bind, sleep, emit. apply IH; lia.
Qed.

Lemma runWithRetries_total {T} (action : M T) (opts : RetryOptions) :
  (forall tr, fst (action tr) <> OutOfFuel) ->
  forall tr, fst (runWithRetries action opts tr) <> OutOfFuel.
Proof.
  intros Haction tr. unfold runWithRetries.
  apply (retry_loop_fuel action _ _ (Z.to_nat (default 3%Z (opt_maxAttempts opts))));
    [exact Haction | lia | lia].
Qed.

(** ** A creation that returns, returns an address *)

Section ReturnedAddresses.
Variable penv : ProcessEnv.
Variable env : Env.

Lemma returns_address_bind {A} (c : M A) (k : A -> M (option string)) :
  (forall a, returns_address (k a)) -> returns_address (bind c k).
Proof.
  intros Hk tr. unfold bind. destruct (c tr) as [[a|t|] tr1]; cbn [fst];
    [apply Hk | discriminate | discriminate].
Qed.

Lemma returns_address_try_catch (body : M (option string))
    (handler : Thrown -> M (option string)) :
  returns_address body -> (forall t, returns_address (handler t)) ->
  returns_address (try_catch body handler).
Proof.
  intros Hb Hh tr. unfold try_catch. specialize (Hb tr).
  destruct (body tr) as [[a|t|] tr1]; cbn [fst] in *;
    [exact Hb | apply Hh | discriminate].
Qed.

Lemma returns_address_wallet_of_receipt (receipt : Receipt) :
  returns_address (wallet_of_receipt receipt).
Proof.
  intros tr. unfold wallet_of_receipt.
  destruct (find is_WalletCreated (logs receipt)) as [[parsed|]|]; discriminate.
Qed.

Lemma returns_address_burn_attempt (cfg : JsLookup ChainConfig) (mintRecipient : string) :
  returns_address (burn_attempt penv env cfg mintRecipient).
Proof.
  unfold burn_attempt.
  apply returns_address_bind; intros _.
  apply returns_address_bind; intros owner.
  destruct (owner_mismatch penv owner); [intros tr; discriminate|].
  apply returns_address_bind; intros _.
  apply returns_address_bind; intros receipt.
  apply returns_address_wallet_of_receipt.
Qed.

Lemma returns_address_burn_loop (cfg : JsLookup ChainConfig) (mintRecipient : string)
    (fuel : nat) :
  forall attempts, (attempts < 6)%Z ->
    returns_address (burn_loop penv env cfg mintRecipient fuel attempts).
Proof.
  induction fuel as [|fuel IH]; intros attempts Hlt; cbn [burn_loop];
    (destruct (Z.ltb_spec attempts 6) as [_|?]; [|lia]).
  - intros tr. discriminate.
  - apply returns_address_try_catch; [apply returns_address_burn_attempt|].
    intros [|e]; cbn [message_of]; [intros tr; discriminate|].
    destruct (Z.geb_spec (attempts + 1) 6) as [_|Hnext]; [intros tr; discriminate|].
    apply returns_address_bind; intros _. apply IH. lia.
Qed.

(** [createWalletOnChain] never returns [undefined]. *)
Lemma createWalletOnChain_returns_address (chainKey mintRecipient : string) :
  returns_address (createWalletOnChain penv env chainKey mintRecipient).
Proof.
  unfold createWalletOnChain. destruct (js_not _); [intros tr; discriminate|].
  apply returns_address_burn_loop. lia.
Qed.

Lemma returns_address_transfer_attempt (cfg : ChainConfig) (destinationAddress : string) :
  returns_address (transfer_attempt penv env cfg destinationAddress).
Proof.
  unfold transfer_attempt.
  apply returns_address_bind; intros _.
  apply returns_address_bind; intros owner.
  destruct (owner_mismatch penv owner); [intros tr; discriminate|].
  apply returns_address_bind; intros _.
  apply returns_address_bind; intros receipt.
  apply returns_address_wallet_of_receipt.
Qed.

Lemma returns_address_transfer_loop (cfg : ChainConfig) (destinationAddress : string)
    (fuel : nat) :
  forall attempts, (attempts < 3)%Z ->
    returns_address (transfer_loop penv env cfg destinationAddress fuel attempts).
Proof.
  induction fuel as [|fuel IH]; intros attempts Hlt; cbn [transfer_loop];
    (destruct (Z.ltb_spec attempts 3) as [_|?]; [|lia]).
  - intros tr. discriminate.
  - apply returns_address_try_catch; [apply returns_address_transfer_attempt|].
    intros [|e]; cbn [message_of]; [intros tr; discriminate|].
    apply returns_address_bind; intros [walletAddress|]; [intros tr; discriminate|].
    destruct (Z.geb_spec (attempts + 1) 3) as [_|Hnext]; [intros tr; discriminate|].
    apply returns_address_bind; intros _. apply IH. lia.
Qed.

(** [createAvalancheTransferWallet] never returns [undefined]. *)
Lemma createAvalancheTransferWallet_returns_address (destinationAddress : string) :
  returns_address (createAvalancheTransferWallet penv env destinationAddress).
Proof.
  unfold createAvalancheTransferWallet.
  apply returns_address_bind; intros [walletAddress|]; [intros tr; discriminate|].
  apply returns_address_transfer_loop. lia.
Qed.

End ReturnedAddresses.

(* ===================================================================== *)
(** * Part VIII: more on the provisioner, its route and its client      *)
(* ===================================================================== *)

(** ** What a run may emit *)

Lemma emits_weaken {A} (P Q : Event -> Prop) (c : M A) :
  (forall e, P e -> Q e) -> emits P c -> emits Q c.
Proof.
  intros HPQ Hc tr. destruct (Hc tr) as (more & Hm & HP).
  exists more. split; [exact Hm|]. eapply Forall_impl; [exact HPQ | exact HP].
Qed.

Lemma emits_ret {A} (P : Event -> Prop) (a : A) : emits P (ret a).
Proof. intros tr. exists []. rewrite app_nil_r. split; [reflexivity | constructor]. Qed.

Lemma emits_throw {A} (P : Event -> Prop) (t : Thrown) : emits P (@throw A t).
Proof. intros tr. exists []. rewrite app_nil_r. split; [reflexivity | constructor]. Qed.

Lemma emits_call {A} (P : Event -> Prop) (e : Event) (answer : Trace -> Answer A) :
  P e -> emits P (call e answer).
Proof.
  intros He tr. exists [e]. unfold call.
  destruct (answer tr); (split; [reflexivity | repeat constructor; exact He]).
Qed.

Lemma emits_sleep (P : Event -> Prop) (ms : Z) : P (EvSleep ms) -> emits P (sleep ms).
Proof. intros He tr. exists [EvSleep ms]. split; [reflexivity | repeat constructor; exact He]. Qed.

Lemma emits_bind {A B} (P : Event -> Prop) (c : M A) (k : A -> M B) :
  emits P c -> (forall a, emits P (k a)) -> emits P (bind c k).
Proof.
  intros Hc Hk tr. unfold bind. destruct (Hc tr) as (more & Hm & HP).
  destruct (c tr) as [[a|t|] tr1]; cbn [snd] in *; try (exists more; split; assumption).
  destruct (Hk a tr1) as (more' & Hm' & HP').
  exists (more ++ more'). rewrite Hm', Hm, <- app_assoc. split; [reflexivity|].
  apply Forall_app. split; assumption.
Qed.

Lemma emits_try_catch {A} (P : Event -> Prop) (body : M A) (handler : Thrown -> M A) :
  emits P body -> (forall t, emits P (handler t)) -> emits P (try_catch body handler).
Proof.
  intros Hb Hh tr. unfold try_catch. destruct (Hb tr) as (more & Hm & HP).
  destruct (body tr) as [[a|t|] tr1]; cbn [snd] in *; try (exists more; split; assumption).
  destruct (Hh t tr1) as (more' & Hm' & HP').
  exists (more ++ more'). rewrite Hm', Hm, <- app_assoc. split; [reflexivity|].
  apply Forall_app. split; assumption.
Qed.

Lemma emits_message_of {A} (P : Event -> Prop) (err : Thrown) (k : string -> M A) :
  (forall msg, emits P (k msg)) -> emits P (message_of err k).
Proof. intros Hk. destruct err; cbn [message_of]; [apply emits_throw | apply Hk]. Qed.

Create HintDb emits.
#[local] Hint Resolve emits_ret emits_throw : emits.

Section EmittedEvents.
Variable penv : ProcessEnv.
Variable env : Env.

Lemma emits_wallet_of_receipt (P : Event -> Prop) (receipt : Receipt) :
  emits P (wallet_of_receipt receipt).
Proof.
  unfold wallet_of_receipt.
  destruct (find is_WalletCreated (logs receipt)) as [[parsed|]|];
    first [apply emits_ret | apply emits_throw].
Qed.

Lemma emits_burn_attempt (cfg : JsLookup ChainConfig) (mintRecipient : string) :
  emits (burn_event cfg mintRecipient) (burn_attempt penv env cfg mintRecipient).
Proof.
  unfold burn_attempt, connect.
  apply emits_bind; [apply emits_call; split; reflexivity | intros _].
  apply emits_bind; [apply emits_call; reflexivity | intros owner].
  destruct (owner_mismatch penv owner); [apply emits_throw|].
  apply emits_bind; [apply emits_call; repeat split | intros _].
  apply emits_bind; [apply emits_call; exact I | intros receipt].
  apply emits_wallet_of_receipt.
Qed.

Lemma emits_burn_loop (cfg : JsLookup ChainConfig) (mintRecipient : string) (fuel : nat) :
  forall attempts,
    emits (burn_event cfg mintRecipient)
          (burn_loop penv env cfg mintRecipient fuel attempts).
Proof.
  induction fuel as [|fuel IH]; intros attempts; cbn [burn_loop];
    (destruct (attempts <? 6)%Z; [|apply emits_ret]).
  - intros tr. exists []. rewrite app_nil_r. split; [reflexivity | constructor].
  - apply emits_try_catch; [apply emits_burn_attempt | intros t].
    apply emits_message_of. intros _.
    destruct (attempts + 1 >=? 6)%Z; [apply emits_throw|].
    apply emits_bind; [apply emits_sleep; exact I | intros _]. apply IH.
Qed.

Lemma emits_lookup_events (P : Event -> Prop) (cfg : ChainConfig)
    (destination : option string) (fromBlock : Z) :
  P (EvConnect (Some (rpc cfg)) (Some (factory cfg))) ->
  P (EvQueryFilter (Some (factory cfg)) destination fromBlock) ->
  emits P (lookup_events env cfg destination fromBlock).
Proof.
  intros Hc Hq. unfold lookup_events, connect.
  apply emits_try_catch; [|intros t; apply emits_ret].
  apply emits_bind; [apply emits_call; exact Hc | intros _].
  apply emits_bind; [apply emits_call; exact Hq | intros events].
  apply emits_ret.
Qed.

Lemma emits_transfer_attempt (destinationAddress : string) :
  emits (transfer_event penv destinationAddress)
        (transfer_attempt penv env (AVALANCHE_TRANSFER_CONFIG penv) destinationAddress).
Proof.
  unfold transfer_attempt, connect.
  apply emits_bind; [apply emits_call; split; reflexivity | intros _].
  apply emits_bind; [apply emits_call; reflexivity | intros owner].
  destruct (owner_mismatch penv owner); [apply emits_throw|].
  apply emits_bind; [apply emits_call; split; reflexivity | intros _].
  apply emits_bind; [apply emits_call; exact I | intros receipt].
  apply emits_wallet_of_receipt.
Qed.

Lemma emits_transfer_loop (destinationAddress : string) (fuel : nat) :
  forall attempts,
    emits (transfer_event penv destinationAddress)
          (transfer_loop penv env (AVALANCHE_TRANSFER_CONFIG penv)
                         destinationAddress fuel attempts).
Proof.
  induction fuel as [|fuel IH]; intros attempts; cbn [transfer_loop];
    (destruct (attempts <? 3)%Z; [|apply emits_ret]).
  - intros tr. exists []. rewrite app_nil_r. split; [reflexivity | constructor].
  - apply emits_try_catch; [apply emits_transfer_attempt | intros t].
    apply emits_message_of. intros msg.
    apply emits_bind.
    + unfold already_known_recovery. destruct (includes msg "already known");
        [|apply emits_ret].
      apply emits_bind; [apply emits_sleep; exact I | intros _].
      apply emits_lookup_events; cbn; [split; reflexivity|].
      split; [reflexivity | right; split; reflexivity].
    + intros [walletAddress|]; [apply emits_ret|].
      destruct (attempts + 1 >=? 3)%Z; [apply emits_throw|].
      apply emits_bind; [apply emits_sleep; exact I | intros _]. apply IH.
Qed.

End EmittedEvents.

(** X1: whatever the nodes answer, burn-wallet creation for a configured
    chain talks only to that chain's RPC endpoint and factory, and the only
    transaction it ever submits is [createSingleWallet(1, mintRecipient)]:
    the fixed destination domain 1 and the recipient it was given.  It never
    queries events and never polls the attestation service. *)
Theorem createWalletOnChain_only_its_factory (penv : ProcessEnv) (env : Env)
    (chainKey mintRecipient : string) :
  emits (burn_event (js_get (CHAIN_CONFIGS penv) chainKey) mintRecipient)
        (createWalletOnChain penv env chainKey mintRecipient).
Proof.
  unfold createWalletOnChain. destruct (js_not _); [apply emits_throw|].
  apply emits_burn_loop.
Qed.

(** X2: whatever the nodes answer, transfer-wallet creation talks only to
    the Avalanche transfer factory; the only transaction it ever submits is
    [createSingleWallet(destinationAddress)], and its only event queries are
    the pre-check (its destination, 50 blocks) and the recovery scan (no
    filter, 20 blocks). *)
Theorem createAvalancheTransferWallet_only_its_factory (penv : ProcessEnv) (env : Env)
    (destinationAddress : string) :
  emits (transfer_event penv destinationAddress)
        (createAvalancheTransferWallet penv env destinationAddress).
Proof.
  unfold createAvalancheTransferWallet.
  apply emits_bind.
  - apply emits_lookup_events; cbn; [split; reflexivity|].
    split; [reflexivity | left; split; reflexivity].
  - intros [walletAddress|]; [apply emits_ret | apply emits_transfer_loop].
Qed.

(** ** No submission without an owner check *)

Lemma keeps_ret {A} (I : Trace -> Prop) (a : A) : keeps I (ret a).
Proof. intros tr H. exact H. Qed.

Lemma keeps_throw {A} (I : Trace -> Prop) (t : Thrown) : keeps I (@throw A t).
Proof. intros tr H. exact H. Qed.

Lemma keeps_bind {A B} (I : Trace -> Prop) (c : M A) (k : A -> M B) :
  keeps I c -> (forall a, keeps I (k a)) -> keeps I (bind c k).
Proof.
  intros Hc Hk tr H. unfold bind. specialize (Hc tr H).
  destruct (c tr) as [[a|t|] tr1]; cbn [snd] in *; try exact Hc.
  apply Hk. exact Hc.
Qed.

Lemma keeps_try_catch {A} (I : Trace -> Prop) (body : M A) (handler : Thrown -> M A) :
  keeps I body -> (forall t, keeps I (handler t)) -> keeps I (try_catch body handler).
Proof.
  intros Hb Hh tr H. unfold try_catch. specialize (Hb tr H).
  destruct (body tr) as [[a|t|] tr1]; cbn [snd] in *; try exact Hb.
  apply Hh. exact Hb.
Qed.

Lemma keeps_message_of {A} (I : Trace -> Prop) (err : Thrown) (k : string -> M A) :
  (forall msg, keeps I (k msg)) -> keeps I (message_of err k).
Proof. intros Hk. destruct err; cbn [message_of]; [apply keeps_throw | apply Hk]. Qed.

Section OwnerChecked.
Variable penv : ProcessEnv.
Variable env : Env.

#[local] Abbreviation checked := (owner_checked penv env).

Lemma owner_checked_nil : checked [].
Proof. intros before e after H. destruct before; discriminate H. Qed.

(** One more event: fine if it is no submission, or if the trace ends with
    the owner check that allows it. *)
Lemma owner_checked_step (tr : Trace) (e : Event) :
  checked tr ->
  (is_submission e = true ->
   exists history owner,
     tr = history ++ [EvOwner (event_factory e)]
     /\ env_owner env (event_factory e) history = Ok owner
     /\ owner_mismatch penv owner = false) ->
  checked (tr ++ [e]).
Proof.
  intros Htr He before x after Heq Hx.
  destruct after as [|l after _] using rev_ind.
  - apply app_inj_tail in Heq. destruct Heq as [<- <-]. apply He. exact Hx.
  - change (before ++ x :: after ++ [l]) with (before ++ (x :: after) ++ [l]) in Heq.
    rewrite app_assoc in Heq. apply app_inj_tail in Heq. destruct Heq as [Heq _].
    apply (Htr before x after Heq Hx).
Qed.

Lemma owner_checked_quiet (tr : Trace) (e : Event) :
  checked tr -> is_submission e = false -> checked (tr ++ [e]).
Proof.
  intros Htr He. apply owner_checked_step; [exact Htr|].
  intros H. rewrite He in H. discriminate H.
Qed.

Lemma keeps_checked_call {A} (e : Event) (answer : Trace -> Answer A) :
  is_submission e = false -> keeps checked (call e answer).
Proof.
  intros He tr H. unfold call.
  destruct (answer tr); cbn [snd]; apply owner_checked_quiet; assumption.
Qed.

Lemma keeps_checked_sleep (ms : Z) : keeps checked (sleep ms).
Proof. intros tr H. apply owner_checked_quiet; [exact H | reflexivity]. Qed.

Lemma keeps_checked_wallet_of_receipt (receipt : Receipt) :
  keeps checked (wallet_of_receipt receipt).
Proof.
  unfold wallet_of_receipt.
  destruct (find is_WalletCreated (logs receipt)) as [[parsed|]|];
    first [apply keeps_ret | apply keeps_throw].
Qed.

(** What follows the construction of the client in an attempt, for either
    factory: the owner check, and the submission only if it passes. *)
Lemma keeps_checked_guarded (f : option string) (submission : Event)
    (answer : Trace -> Answer unit) :
  event_factory submission = f ->
  is_submission submission = true ->
  keeps checked
    (owner <- call (EvOwner f) (env_owner env f) ;;
     if owner_mismatch penv owner then throwError "Not factory owner"
     else
       (call submission answer ;;
        receipt <- call EvWait (env_wait env) ;;
        wallet_of_receipt receipt)).
Proof.
  intros Hf Hs tr Htr. unfold bind at 1. unfold call at 1.
  destruct (env_owner env f tr) as [owner|e] eqn:Eowner; cbn [snd];
    [|apply owner_checked_quiet; [exact Htr | reflexivity]].
  assert (Howner : checked (tr ++ [EvOwner f]))
    by (apply owner_checked_quiet; [exact Htr | reflexivity]).
  destruct (owner_mismatch penv owner) eqn:Emis; [exact Howner|].
  assert (Hsub : checked ((tr ++ [EvOwner f]) ++ [submission])).
  { apply owner_checked_step; [exact Howner|]. intros _.
    exists tr, owner. rewrite Hf. repeat split; assumption. }
  unfold bind at 1. unfold call at 1.
  destruct (answer (tr ++ [EvOwner f])) as [[]|e]; cbn [snd]; [|exact Hsub].
  apply (keeps_bind checked (call EvWait (env_wait env)));
    [ apply keeps_checked_call; reflexivity
    | intros receipt; apply keeps_checked_wallet_of_receipt
    | exact Hsub ].
Qed.

Lemma keeps_checked_burn_attempt (cfg : JsLookup ChainConfig) (mintRecipient : string) :
  keeps checked (burn_attempt penv env cfg mintRecipient).
Proof.
  unfold burn_attempt, connect.
  apply keeps_bind; [apply keeps_checked_call; reflexivity | intros _].
  apply keeps_checked_guarded; reflexivity.
Qed.

Lemma keeps_checked_transfer_attempt (cfg : ChainConfig) (destinationAddress : string) :
  keeps checked (transfer_attempt penv env cfg destinationAddress).
Proof.
  unfold transfer_attempt, connect.
  apply keeps_bind; [apply keeps_checked_call; reflexivity | intros _].
  apply keeps_checked_guarded; reflexivity.
Qed.

Lemma keeps_checked_burn_loop (cfg : JsLookup ChainConfig) (mintRecipient : string)
    (fuel : nat) :
  forall attempts, keeps checked (burn_loop penv env cfg mintRecipient fuel attempts).
Proof.
  induction fuel as [|fuel IH]; intros attempts; cbn [burn_loop];
    (destruct (attempts <? 6)%Z; [|apply keeps_ret]).
  - intros tr H. exact H.
  - apply keeps_try_catch; [apply keeps_checked_burn_attempt | intros t].
    apply keeps_message_of. intros _.
    destruct (attempts + 1 >=? 6)%Z; [apply keeps_throw|].
    apply keeps_bind; [apply keeps_checked_sleep | intros _]. apply IH.
Qed.

Lemma keeps_checked_lookup_events (cfg : ChainConfig) (destination : option string)
    (fromBlock : Z) :
  keeps checked (lookup_events env cfg destination fromBlock).
Proof.
  unfold lookup_events, connect.
  apply keeps_try_catch; [|intros t; apply keeps_ret].
  apply keeps_bind; [apply keeps_checked_call; reflexivity | intros _].
  apply keeps_bind; [apply keeps_checked_call; reflexivity | intros events].
  apply keeps_ret.
Qed.

Lemma keeps_checked_transfer_loop (cfg : ChainConfig) (destinationAddress : string)
    (fuel : nat) :
  forall attempts,
    keeps checked (transfer_loop penv env cfg destinationAddress fuel attempts).
Proof.
  induction fuel as [|fuel IH]; intros attempts; cbn [transfer_loop];
    (destruct (attempts <? 3)%Z; [|apply keeps_ret]).
  - intros tr H. exact H.
  - apply keeps_try_catch; [apply keeps_checked_transfer_attempt | intros t].
    apply keeps_message_of. intros msg.
    apply keeps_bind.
    + unfold already_known_recovery. destruct (includes msg "already known");
        [|apply keeps_ret].
      apply keeps_bind; [apply keeps_checked_sleep | intros _].
      apply keeps_checked_lookup_events.
    + intros [walletAddress|]; [apply keeps_ret|].
      destruct (attempts + 1 >=? 3)%Z; [apply keeps_throw|].
      apply keeps_bind; [apply keeps_checked_sleep | intros _]. apply IH.
Qed.

End OwnerChecked.

(** X3: neither creation function ever submits a creation transaction
    unless the call just before it, in the same attempt, was [owner()] on the
    same factory and reported the signer's address (compared without regard
    to letter case).  This holds in every environment, for every attempt of a
    run started on any history that has the property, the empty one
    included. *)
Theorem submissions_follow_owner_check (penv : ProcessEnv) (env : Env) :
  (forall chainKey mintRecipient,
      keeps (owner_checked penv env)
            (createWalletOnChain penv env chainKey mintRecipient))
  /\ (forall destinationAddress,
         keeps (owner_checked penv env)
               (createAvalancheTransferWallet penv env destinationAddress))
  /\ owner_checked penv env [].
Proof.
  split; [|split].
  - intros chainKey mintRecipient. unfold createWalletOnChain.
    destruct (js_not _); [apply keeps_throw | apply keeps_checked_burn_loop].
  - intros destinationAddress. unfold createAvalancheTransferWallet.
    apply keeps_bind; [apply keeps_checked_lookup_events|].
    intros [walletAddress|]; [apply keeps_ret | apply keeps_checked_transfer_loop].
  - apply owner_checked_nil.
Qed.

Lemma submissions_follow_owner_check_witness :
  owner_checked deployment base_down
    (snd (createWalletOnChain deployment base_down "arbitrum" "0x00a7a1" []))
  /\ submissions (snd (createWalletOnChain deployment base_down "arbitrum" "0x00a7a1" []))
     = 1.
Proof.
  destruct (submissions_follow_owner_check deployment base_down) as (Hburn & _ & Hnil).
  split; [|reflexivity].
  apply (Hburn "arbitrum"%string "0x00a7a1"%string []). exact Hnil.
Defined.

(** ** Where a returned address comes from *)

Section Provenance.
Variable penv : ProcessEnv.
Variable env : Env.

Lemma wallet_of_receipt_inv (receipt : Receipt) (tr tr' : Trace) (o : option string) :
  wallet_of_receipt receipt tr = (Returned o, tr') ->
  tr' = tr
  /\ exists parsed,
       find is_WalletCreated (logs receipt) = Some (Some parsed)
       /\ log_name parsed = "WalletCreated"%string
       /\ o = Some (log_wallet parsed).
Proof.
  unfold wallet_of_receipt.
  destruct (find is_WalletCreated (logs receipt)) as [[parsed|]|] eqn:E;
    try discriminate.
  intros H. injection H as <- <-. split; [reflexivity|].
  exists parsed. repeat split.
  apply find_some in E. destruct E as [_ E]. cbn in E. apply String.eqb_eq. exact E.
Qed.

Lemma burn_attempt_returned (cfg : JsLookup ChainConfig) (mintRecipient : string)
    (tr tr' : Trace) (o : option string) :
  burn_attempt penv env cfg mintRecipient tr = (Returned o, tr') ->
  exists w, o = Some w /\ from_last_receipt env tr' w.
Proof.
  unfold burn_attempt, connect, bind, call.
  destruct (env_connect env _ _ tr) as [[]|e]; [|discriminate].
  destruct (env_owner env _ _) as [owner|e]; [|discriminate].
  destruct (owner_mismatch penv owner); [discriminate|].
  destruct (env_createBurn env _ _ _ _) as [[]|e]; [|discriminate].
  destruct (env_wait env _) as [receipt|e] eqn:Ewait; [|discriminate].
  intros H. apply wallet_of_receipt_inv in H. destruct H as (-> & parsed & Hfind & Hname & ->).
  exists (log_wallet parsed). split; [reflexivity|].
  eexists _, receipt, parsed. repeat split; [exact Ewait | exact Hfind | exact Hname].
Qed.

Lemma burn_loop_returned (cfg : JsLookup ChainConfig) (mintRecipient : string)
    (fuel : nat) :
  forall attempts tr tr' w,
    burn_loop penv env cfg mintRecipient fuel attempts tr = (Returned (Some w), tr') ->
    from_last_receipt env tr' w.
Proof.
  induction fuel as [|fuel IH]; intros attempts tr tr' w; cbn [burn_loop];
    (destruct (attempts <? 6)%Z; [|discriminate]); [discriminate|].
  unfold try_catch.
  destruct (burn_attempt penv env cfg mintRecipient tr) as [[o|t|] tr1] eqn:E.
  - intros H. injection H as -> ->.
    apply burn_attempt_returned in E. destruct E as (w' & Hw & Hfrom).
    injection Hw as <-. exact Hfrom.
  - destruct t as [|e]; cbn [message_of]; [discriminate|].
    destruct (attempts + 1 >=? 6)%Z; [discriminate|].
    unfold bind at 1. unfold sleep, emit. apply IH.
  - discriminate.
Qed.

End Provenance.

(** X4: when burn-wallet creation returns an address, that address is the
    [wallet] argument of the first log that parses as [WalletCreated] in the
    receipt of the transaction it submitted last, and fetching that receipt
    is the last thing the call did (no backoff follows a success). *)
Theorem createWalletOnChain_returns_logged_wallet (penv : ProcessEnv) (env : Env)
    (chainKey mintRecipient : string) (tr tr' : Trace) (w : string) :
  createWalletOnChain penv env chainKey mintRecipient tr = (Returned (Some w), tr') ->
  from_last_receipt env tr' w.
Proof.
  unfold createWalletOnChain. destruct (js_not _); [discriminate|].
  apply burn_loop_returned.
Qed.

Lemma createWalletOnChain_returns_logged_wallet_witness :
  from_last_receipt base_down
    (snd (createWalletOnChain deployment base_down "arbitrum" "0x00a7a1" []))
    "0xA7A1a7a1a7a1a7a1a7a1a7a1a7a1a7a1a7a1a7a1".
Proof.
  apply (createWalletOnChain_returns_logged_wallet deployment base_down
           "arbitrum" "0x00a7a1" []).
  vm_compute. reflexivity.
Defined.

(** ** How long a creation can wait *)

Lemma slept_app (tr1 tr2 : Trace) : slept (tr1 ++ tr2) = (slept tr1 + slept tr2)%Z.
Proof. unfold slept. rewrite delays_app, sumZ_app. reflexivity. Qed.

Lemma waits_weaken {A} (n m : Z) (c : M A) :
  (n <= m)%Z -> waits_at_most n c -> waits_at_most m c.
Proof.
  intros Hle Hc tr. destruct (Hc tr) as (more & Hm & Hn).
  exists more. split; [exact Hm | lia].
Qed.

Lemma waits_ret {A} (a : A) : waits_at_most 0 (ret a).
Proof. intros tr. exists []. rewrite app_nil_r. split; [reflexivity | cbn; lia]. Qed.

Lemma waits_throw {A} (t : Thrown) : waits_at_most 0 (@throw A t).
Proof. intros tr. exists []. rewrite app_nil_r. split; [reflexivity | cbn; lia]. Qed.

Lemma waits_sleep (ms : Z) : waits_at_most ms (sleep ms).
Proof. intros tr. exists [EvSleep ms]. split; [reflexivity | cbn; lia]. Qed.

Lemma waits_call {A} (e : Event) (answer : Trace -> Answer A) :
  sleep_ms e = [] -> waits_at_most 0 (call e answer).
Proof.
  intros He tr. exists [e]. unfold call.
  destruct (answer tr); (split; [reflexivity|]);
    unfold slept, delays; cbn [flat_map]; rewrite He; cbn; lia.
Qed.

Lemma waits_bind {A B} (n m : Z) (c : M A) (k : A -> M B) :
  (0 <= m)%Z ->
  waits_at_most n c -> (forall a, waits_at_most m (k a)) ->
  waits_at_most (n + m) (bind c k).
Proof.
  intros Hm0 Hc Hk tr. unfold bind. destruct (Hc tr) as (more & Hm & Hn).
  destruct (c tr) as [[a|t|] tr1]; cbn [snd] in *;
    try (exists more; split; [exact Hm | lia]).
  destruct (Hk a tr1) as (more' & Hm' & Hn').
  exists (more ++ more'). rewrite Hm', Hm, <- app_assoc, slept_app.
  split; [reflexivity | lia].
Qed.

Lemma waits_try_catch {A} (n m : Z) (body : M A) (handler : Thrown -> M A) :
  (0 <= m)%Z ->
  waits_at_most n body -> (forall t, waits_at_most m (handler t)) ->
  waits_at_most (n + m) (try_catch body handler).
Proof.
  intros Hm0 Hb Hh tr. unfold try_catch. destruct (Hb tr) as (more & Hm & Hn).
  destruct (body tr) as [[a|t|] tr1]; cbn [snd] in *;
    try (exists more; split; [exact Hm | lia]).
  destruct (Hh t tr1) as (more' & Hm' & Hn').
  exists (more ++ more'). rewrite Hm', Hm, <- app_assoc, slept_app.
  split; [reflexivity | lia].
Qed.

Lemma waits_message_of {A} (n : Z) (err : Thrown) (k : string -> M A) :
  (0 <= n)%Z ->
  (forall msg, waits_at_most n (k msg)) -> waits_at_most n (message_of err k).
Proof.
  intros Hn Hk. destruct err; cbn [message_of]; [|apply Hk].
  apply (waits_weaken 0); [exact Hn | apply waits_throw].
Qed.

Ltac waits_leaf :=
  first [ apply waits_ret | apply waits_throw
        | apply (waits_weaken 0); [lia | first [apply waits_ret | apply waits_throw]] ].

Section WaitingTime.
Variable penv : ProcessEnv.
Variable env : Env.

Lemma waits_wallet_of_receipt (receipt : Receipt) :
  waits_at_most 0 (wallet_of_receipt receipt).
Proof.
  unfold wallet_of_receipt.
  destruct (find is_WalletCreated (logs receipt)) as [[parsed|]|]; waits_leaf.
Qed.

Lemma waits_burn_attempt (cfg : JsLookup ChainConfig) (mintRecipient : string) :
  waits_at_most 0 (burn_attempt penv env cfg mintRecipient).
Proof.
  unfold burn_attempt, connect.
  apply (waits_bind 0 0); [lia | apply waits_call; reflexivity | intros _].
  apply (waits_bind 0 0); [lia | apply waits_call; reflexivity | intros owner].
  destruct (owner_mismatch penv owner); [waits_leaf|].
  apply (waits_bind 0 0); [lia | apply waits_call; reflexivity | intros _].
  apply (waits_bind 0 0); [lia | apply waits_call; reflexivity | intros receipt].
  apply waits_wallet_of_receipt.
Qed.

Lemma waits_transfer_attempt (cfg : ChainConfig) (destinationAddress : string) :
  waits_at_most 0 (transfer_attempt penv env cfg destinationAddress).
Proof.
  unfold transfer_attempt, connect.
  apply (waits_bind 0 0); [lia | apply waits_call; reflexivity | intros _].
  apply (waits_bind 0 0); [lia | apply waits_call; reflexivity | intros owner].
  destruct (owner_mismatch penv owner); [waits_leaf|].
  apply (waits_bind 0 0); [lia | apply waits_call; reflexivity | intros _].
  apply (waits_bind 0 0); [lia | apply waits_call; reflexivity | intros receipt].
  apply waits_wallet_of_receipt.
Qed.

Lemma waits_lookup_events (cfg : ChainConfig) (destination : option string)
    (fromBlock : Z) :
  waits_at_most 0 (lookup_events env cfg destination fromBlock).
Proof.
  unfold lookup_events, connect.
  apply (waits_try_catch 0 0); [lia | | intros t; apply waits_ret].
  apply (waits_bind 0 0); [lia | apply waits_call; reflexivity | intros _].
  apply (waits_bind 0 0); [lia | apply waits_call; reflexivity | intros events].
  apply waits_ret.
Qed.

(** From attempt number [attempts] on, the burn loop backs off for at most
    1500ms * (attempts + 1) + ... + 1500ms * 5. *)
Lemma waits_burn_loop (cfg : JsLookup ChainConfig) (mintRecipient : string)
    (fuel : nat) :
  forall attempts,
    (0 <= attempts)%Z ->
    waits_at_most (Z.max 0 (750 * (30 - attempts * (attempts + 1))))
                  (burn_loop penv env cfg mintRecipient fuel attempts).
Proof.
  induction fuel as [|fuel IH]; intros attempts Ha; cbn [burn_loop];
    (destruct (Z.ltb_spec attempts 6) as [Hlt|Hge]; [|waits_leaf]).
  - intros tr. exists []. rewrite app_nil_r. split; [reflexivity | cbn; lia].
  - set (budget := Z.max 0 (750 * (30 - attempts * (attempts + 1)))).
    replace budget with (0 + budget)%Z by lia.
    apply waits_try_catch; [subst budget; lia | apply waits_burn_attempt | intros t].
    apply waits_message_of; [subst budget; lia | intros _].
    destruct (Z.geb_spec (attempts + 1) 6) as [_|Hnext]; [subst budget; waits_leaf|].
    apply (waits_weaken
             (1500 * (attempts + 1)
              + Z.max 0 (750 * (30 - (attempts + 1) * (attempts + 1 + 1)))));
      [subst budget; nia|].
    apply waits_bind; [lia | apply waits_sleep | intros _]. apply IH. lia.
Qed.

(** From attempt number [attempts] on, the transfer loop waits at most 10s
    per attempt for a transaction already known, and backs off for at most
    3000ms * (attempts + 1) + ... + 3000ms * 2. *)
Lemma waits_transfer_loop (cfg : ChainConfig) (destinationAddress : string)
    (fuel : nat) :
  forall attempts,
    (0 <= attempts)%Z ->
    waits_at_most
      (Z.max 0 (10000 * (3 - attempts) + 1500 * (6 - attempts * (attempts + 1))))
      (transfer_loop penv env cfg destinationAddress fuel attempts).
Proof.
  induction fuel as [|fuel IH]; intros attempts Ha; cbn [transfer_loop];
    (destruct (Z.ltb_spec attempts 3) as [Hlt|Hge]; [|waits_leaf]).
  - intros tr. exists []. rewrite app_nil_r. split; [reflexivity | cbn; lia].
  - set (budget := Z.max 0 (10000 * (3 - attempts)
                            + 1500 * (6 - attempts * (attempts + 1)))).
    replace budget with (0 + budget)%Z by lia.
    apply waits_try_catch; [subst budget; lia | apply waits_transfer_attempt | intros t].
    apply waits_message_of; [subst budget; lia | intros msg].
    assert (Hrecovery : waits_at_most 10000 (already_known_recovery env cfg msg)).
    { unfold already_known_recovery. destruct (includes msg "already known");
        [|waits_leaf].
      replace 10000%Z with (10000 + 0)%Z by lia.
      apply waits_bind; [lia | apply waits_sleep | intros _].
      apply waits_lookup_events. }
    destruct (Z.geb_spec (attempts + 1) 3) as [Hlast|Hnext].
    + apply (waits_weaken (10000 + 0));
        [assert (attempts = 2)%Z as -> by lia; subst budget; cbn; lia|].
      apply waits_bind; [lia | exact Hrecovery | intros recovered].
      destruct recovered as [walletAddress|]; waits_leaf.
    + set (rest := Z.max 0 (10000 * (3 - (attempts + 1))
                            + 1500 * (6 - (attempts + 1) * (attempts + 1 + 1)))).
      apply (waits_weaken (10000 + (3000 * (attempts + 1) + rest))).
      { assert (attempts = 0 \/ attempts = 1)%Z as [-> | ->] by lia;
          subst budget rest; cbn; lia. }
      apply waits_bind; [subst rest; lia | exact Hrecovery | intros recovered].
      destruct recovered as [walletAddress|]; [subst rest; waits_leaf|].
      apply waits_bind; [subst rest; lia | apply waits_sleep | intros _].
      apply IH. lia.
Qed.

End WaitingTime.

(** X5: in every environment burn-wallet creation ends with a value or an
    [Error] after at most 6 submitted transactions and at most 22.5s of
    waiting in total; transfer-wallet creation after at most 3 submitted
    transactions and at most 39s of waiting in total.  Both bounds on the
    waiting are reached: with no node in reach the burn-wallet creation backs
    off 1.5s, 3s, 4.5s, 6s and 7.5s after its first five attempts; and where
    every submission is rejected as already known and no event ever shows,
    the transfer-wallet creation waits 10s after each of its three rejected
    submissions and backs off 3s and 6s between the attempts. *)
Theorem creation_is_bounded (penv : ProcessEnv) (env : Env) :
  (forall chainKey mintRecipient,
      behaves 6 (createWalletOnChain penv env chainKey mintRecipient)
      /\ waits_at_most 22500 (createWalletOnChain penv env chainKey mintRecipient))
  /\ (forall destinationAddress,
         behaves 3 (createAvalancheTransferWallet penv env destinationAddress)
         /\ waits_at_most 39000
              (createAvalancheTransferWallet penv env destinationAddress))
  /\ delays (snd (createWalletOnChain deployment offline "base" "0x00a7a1" []))
     = [1500; 3000; 4500; 6000; 7500]%Z
  /\ delays (snd (createAvalancheTransferWallet deployment never_mined "0xde57" []))
     = [10000; 3000; 10000; 6000; 10000]%Z.
Proof.
  split; [|split; [|split]].
  - intros chainKey mintRecipient. split; [apply behaves_createWalletOnChain|].
    unfold createWalletOnChain. destruct (js_not _); [waits_leaf|].
    apply (waits_burn_loop penv env _ mintRecipient 6 0). lia.
  - intros destinationAddress.
    split; [apply behaves_createAvalancheTransferWallet|].
    unfold createAvalancheTransferWallet.
    replace 39000%Z with (0 + 39000)%Z by lia.
    apply waits_bind; [lia | apply waits_lookup_events | intros existing].
    destruct existing as [walletAddress|]; [waits_leaf|].
    apply (waits_transfer_loop penv env _ destinationAddress 3 0). lia.
  - vm_compute. reflexivity.
  - vm_compute. reflexivity.
Qed.

(** ** POST /api/create-wallet/:chain *)

Lemma lower_ascii_ascii (c : ascii) :
  (nat_of_ascii c <? 128) = true -> (nat_of_ascii (lower_ascii c) <? 128) = true.
Proof. destruct c as [[] [] [] [] [] [] [] []]; intros H; try reflexivity; discriminate H. Qed.

Lemma upper_ascii_ascii (c : ascii) :
  (nat_of_ascii c <? 128) = true -> (nat_of_ascii (upper_ascii c) <? 128) = true.
Proof. destruct c as [[] [] [] [] [] [] [] []]; intros H; try reflexivity; discriminate H. Qed.

(** Changing the case of ASCII text leaves ASCII text. *)
Lemma ascii_only_toLowerCase (s : string) :
  ascii_only s = true -> ascii_only (toLowerCase s) = true.
Proof.
  unfold toLowerCase. induction s as [|c s IH]; [reflexivity|].
  cbn [ascii_only map_string]. intros H. apply andb_true_iff in H. destruct H as [Hc Hs].
  rewrite (lower_ascii_ascii c Hc), (IH Hs). reflexivity.
Qed.

Lemma ascii_only_toUpperCase (s : string) :
  ascii_only s = true -> ascii_only (toUpperCase s) = true.
Proof.
  unfold toUpperCase. induction s as [|c s IH]; [reflexivity|].
  cbn [ascii_only map_string]. intros H. apply andb_true_iff in H. destruct H as [Hc Hs].
  rewrite (upper_ascii_ascii c Hc), (IH Hs). reflexivity.
Qed.

(** What the route leaves behind is what the creation function left. *)
Lemma create_wallet_trace (penv : ProcessEnv) (env : Env) (chainParam : string)
    (body : CreateWalletBody) (tr : Trace) :
  toLowerCase chainParam <> "avalanche"%string ->
  falsy (body_mintRecipient body) = false ->
  snd (create_wallet penv env chainParam body tr)
  = snd (createWalletOnChain penv env (toLowerCase chainParam)
           (show (body_mintRecipient body)) tr).
Proof.
  intros Hav Hm. unfold create_wallet.
  destruct (String.eqb_spec (toLowerCase chainParam) "avalanche") as [Heq|_];
    [now contradiction Hav|].
  rewrite Hm. unfold try_catch, bind.
  destruct (createWalletOnChain penv env (toLowerCase chainParam)
              (show (body_mintRecipient body)) tr) as [[address|[|e]|] tr1];
    reflexivity.
Qed.

(** X6: the single-chain route always answers and never throws, in every
    environment, for a chain parameter of ASCII text.  A request without the
    field its chain needs ([destination] for avalanche, [mintRecipient]
    otherwise) gets status 400, and a chain that names no property of
    [CHAIN_CONFIGS] at all, neither its own nor one inherited from
    [Object.prototype], gets status 500 with the "Unsupported chain" message,
    in both cases without any node being contacted.  A chain that names an
    inherited property ("constructor", say) is not a configured chain but is
    not turned away either: the route goes on to construct a client with an
    undefined URL and address.  The chain is matched without regard to letter
    case, and a status 200 answer is the text
    "<CHAIN IN UPPER CASE>: <address>" for an address that the creation
    function returned. *)
Theorem create_wallet_route (penv : ProcessEnv) (env : Env) (chainParam : string)
    (body : CreateWalletBody) (tr : Trace) :
  ascii_only chainParam = true ->
  let chain := toLowerCase chainParam in
  let run := create_wallet penv env chainParam body tr in
  (exists response, fst run = Returned response
                    /\ (status response = 200 \/ status response = 400
                        \/ status response = 500)%Z)
  /\ (chain = "avalanche"%string -> falsy (body_destination body) = true ->
      run = (Returned (mkResponse 400
               (JsonError "destination is required (address) for Avalanche")), tr))
  /\ (chain <> "avalanche"%string -> falsy (body_mintRecipient body) = true ->
      run = (Returned (mkResponse 400 (JsonError "mintRecipient is required (bytes32)")),
             tr))
  /\ (chain <> "avalanche"%string -> falsy (body_mintRecipient body) = false ->
      js_get (CHAIN_CONFIGS penv) chain = NoProperty ->
      run = (Returned (mkResponse 500
               (JsonError ("Unsupported chain " ++ chain ++ ". Use eth, base, avalanche."))),
             tr))
  /\ (falsy (body_mintRecipient body) = false ->
      js_get (CHAIN_CONFIGS penv) chain = InheritedProperty ->
      configured penv chain = false
      /\ exists more, snd run = tr ++ EvConnect None None :: more)
  /\ (forall text, fst run = Returned (mkResponse 200 (TextBody text)) ->
      ascii_only (toUpperCase chain) = true
      /\ exists address,
        text = (toUpperCase chain ++ ": " ++ address)%string
        /\ (chain = "avalanche"%string ->
            fst (createAvalancheTransferWallet penv env (show (body_destination body)) tr)
            = Returned (Some address))
        /\ (chain <> "avalanche"%string ->
            fst (createWalletOnChain penv env chain (show (body_mintRecipient body)) tr)
            = Returned (Some address))).
Proof.
  intros Hascii chain run.
  assert (Hupper : ascii_only (toUpperCase chain) = true)
    by (apply ascii_only_toUpperCase, ascii_only_toLowerCase; exact Hascii).
  assert (Hinherited :
            falsy (body_mintRecipient body) = false ->
            js_get (CHAIN_CONFIGS penv) chain = InheritedProperty ->
            configured penv chain = false
            /\ exists more, snd run = tr ++ EvConnect None None :: more).
  { intros Hm Hcfg.
    assert (Hnot : configured penv chain = false).
    { revert Hcfg. unfold js_get, configured.
      cbn [CHAIN_CONFIGS find existsb fst snd].
      destruct (String.eqb "arbitrum" chain); [discriminate|].
      destruct (String.eqb "base" chain); [discriminate|].
      destruct (String.eqb "avalanche" chain); [discriminate|]. reflexivity. }
    split; [exact Hnot|].
    assert (Hav : chain <> "avalanche"%string)
      by (intros Heq; rewrite Heq in Hnot; discriminate Hnot).
    subst run. rewrite (create_wallet_trace penv env chainParam body tr Hav Hm).
    fold chain. unfold createWalletOnChain. rewrite Hcfg. cbn [js_not].
    apply (begins_with_burn_loop penv env InheritedProperty
             (show (body_mintRecipient body)) 5 0); lia. }
  subst run. unfold create_wallet. fold chain.
  destruct (String.eqb_spec chain "avalanche") as [Hav|Hav].
  - (* the transfer wallet *)
    destruct (falsy (body_destination body)) eqn:Hd.
    + unfold try_catch, ret. cbn [fst snd status].
      split; [|split; [|split; [|split; [|split]]]].
      * eexists. split; [reflexivity | tauto].
      * reflexivity.
      * intros Hne. now contradiction Hne.
      * intros Hne. now contradiction Hne.
      * intros _ Hcfg. rewrite Hav in Hcfg. discriminate Hcfg.
      * intros text H. discriminate H.
    + unfold try_catch, bind.
      destruct (behaves_createAvalancheTransferWallet penv env
                  (show (body_destination body)) tr) as [Hs _].
      pose proof (createAvalancheTransferWallet_returns_address penv env
                    (show (body_destination body)) tr) as Haddr.
      destruct (createAvalancheTransferWallet penv env (show (body_destination body)) tr)
        as [[[address|]|[|e]|] tr1]; cbn [fst snd settled message_of] in *;
        try contradiction; try (now contradiction Haddr); unfold ret; cbn [fst snd status];
        (split; [|split; [|split; [|split; [|split]]]]);
        try (eexists; split; [reflexivity | tauto]);
        try (intros _ Hfalse; discriminate Hfalse);
        try (intros Hne; now contradiction Hne);
        try (intros _ Hcfg; rewrite Hav in Hcfg; discriminate Hcfg).
      * intros text H. injection H as <-. split; [exact Hupper|]. exists address.
        split; [reflexivity|]. split; [reflexivity|].
        intros Hne. now contradiction Hne.
      * intros text H. discriminate H.
  - (* a burn wallet *)
    destruct (falsy (body_mintRecipient body)) eqn:Hm.
    + unfold try_catch, ret. cbn [fst snd status].
      split; [|split; [|split; [|split; [|split]]]].
      * eexists. split; [reflexivity | tauto].
      * intros Heq. now contradiction Hav.
      * reflexivity.
      * intros _ Hfalse. discriminate Hfalse.
      * intros Hfalse. discriminate Hfalse.
      * intros text H. discriminate H.
    + specialize (Hinherited eq_refl).
      unfold create_wallet in Hinherited. fold chain in Hinherited.
      destruct (String.eqb_spec chain "avalanche") as [Heq|_];
        [now contradiction Hav|].
      rewrite Hm in Hinherited.
      unfold try_catch, bind in *.
      destruct (behaves_createWalletOnChain penv env chain
                  (show (body_mintRecipient body)) tr) as [Hs _].
      pose proof (createWalletOnChain_returns_address penv env chain
                    (show (body_mintRecipient body)) tr) as Haddr.
      pose proof (createWalletOnChain_unsupported penv env chain
                    (show (body_mintRecipient body)) tr) as Hunsupported.
      destruct (createWalletOnChain penv env chain (show (body_mintRecipient body)) tr)
        as [[[address|]|[|e]|] tr1]; cbn [fst snd settled message_of] in *;
        try contradiction; try (now contradiction Haddr); unfold ret in *;
        cbn [fst snd status] in *;
        (split; [|split; [|split; [|split; [|split]]]]);
        try (eexists; split; [reflexivity | tauto]);
        try (intros Heq; now contradiction Hav);
        try (intros _ Hfalse; discriminate Hfalse);
        try (intros _; exact Hinherited).
      * intros _ _ Hno. specialize (Hunsupported Hno). discriminate Hunsupported.
      * intros text H. injection H as <-. split; [exact Hupper|]. exists address.
        split; [reflexivity|]. split; [|reflexivity].
        intros Heq. now contradiction Hav.
      * intros _ _ Hno. specialize (Hunsupported Hno).
        injection Hunsupported as -> ->. reflexivity.
      * intros text H. discriminate H.
Qed.

Lemma create_wallet_route_witness :
  create_wallet deployment base_down "Arbitrum"
    (mkCreateWalletBody None (Some "0x00a7a1"%string)) []
  = create_wallet deployment base_down "arbitrum"
      (mkCreateWalletBody None (Some "0x00a7a1"%string)) []
  /\ create_wallet deployment base_down "eth"
       (mkCreateWalletBody None (Some "0x00a7a1"%string)) []
     = (Returned (mkResponse 500
          (JsonError "Unsupported chain eth. Use eth, base, avalanche.")), [])
  /\ create_wallet deployment base_down "AVALANCHE" (mkCreateWalletBody None None) []
     = (Returned (mkResponse 400
          (JsonError "destination is required (address) for Avalanche")), [])
  /\ (exists more,
        snd (create_wallet deployment base_down "Constructor"
               (mkCreateWalletBody None (Some "0x00a7a1"%string)) [])
        = [] ++ EvConnect None None :: more).
Proof.
  split; [reflexivity|]. split; [|split].
  - apply (create_wallet_route deployment base_down "eth"
             (mkCreateWalletBody None (Some "0x00a7a1"%string)) []);
      [reflexivity | discriminate | reflexivity | reflexivity].
  - apply (create_wallet_route deployment base_down "AVALANCHE"
             (mkCreateWalletBody None None) []); reflexivity.
  - apply (create_wallet_route deployment base_down "Constructor"
             (mkCreateWalletBody None (Some "0x00a7a1"%string)) []); reflexivity.
Defined.

(** ** isRetryableNetworkError *)

Lemma map_string_app (f : ascii -> ascii) (a b : string) :
  map_string f (a ++ b) = (map_string f a ++ map_string f b)%string.
Proof. induction a as [|c a IH]; [reflexivity|]. cbn. rewrite IH. reflexivity. Qed.

Lemma lower_upper_ascii (c : ascii) : lower_ascii (upper_ascii c) = lower_ascii c.
Proof. destruct c as [[] [] [] [] [] [] [] []]; reflexivity. Qed.

Lemma toLowerCase_toUpperCase (s : string) : toLowerCase (toUpperCase s) = toLowerCase s.
Proof.
  induction s as [|c s IH]; [reflexivity|].
  unfold toLowerCase, toUpperCase in *. cbn [map_string].
  rewrite lower_upper_ascii, IH. reflexivity.
Qed.

Lemma prefix_append (n m s : string) :
  String.prefix n m = true -> String.prefix n (m ++ s) = true.
Proof.
  revert m. induction n as [|c n IH]; intros m H;
    [destruct (m ++ s)%string; reflexivity|].
  destruct m as [|d m]; [discriminate H|]. cbn [String.prefix append] in *.
  destruct (ascii_dec c d); [apply IH; exact H | discriminate H].
Qed.

Lemma includes_append_r (m s n : string) :
  includes m n = true -> includes (m ++ s) n = true.
Proof.
  induction m as [|c m IH]; intros H.
  - cbn [includes] in H. rewrite orb_false_r in H.
    destruct n as [|d n]; [|discriminate H].
    destruct s; reflexivity.
  - cbn [includes] in H. apply orb_true_iff in H.
    change ((String c m ++ s)%string) with (String c (m ++ s)).
    cbn [includes]. apply orb_true_iff. destruct H as [H|H].
    + left. apply (prefix_append n (String c m) s). exact H.
    + right. apply IH. exact H.
Qed.

Lemma includes_append_l (p m n : string) :
  includes m n = true -> includes (p ++ m) n = true.
Proof.
  intros H. induction p as [|c p IH]; [exact H|].
  change ((String c p ++ m)%string) with (String c (p ++ m)).
  cbn [includes]. rewrite IH. apply orb_true_r.
Qed.

(** A phrase found in a message is found in any text around it. *)
Lemma includes_wrapped (p m s n : string) :
  includes m n = true -> includes (p ++ m ++ s) n = true.
Proof. intros H. apply includes_append_l, includes_append_r. exact H. Qed.

Lemma or_empty_Some (x : string) : or_empty (Some x) = x.
Proof. unfold or_empty. cbn [falsy show default]. destruct x; reflexivity. Qed.

(** Carries a disjunction of tests over to the same disjunction of other
    tests, one test at a time. *)
Ltac orb_chain H carry :=
  lazymatch type of H with
  | (_ || _)%bool = true =>
      apply orb_true_iff in H; apply orb_true_iff; destruct H as [H|H];
      [left; orb_chain H carry | right; carry H]
  | _ => carry H
  end.

(** X7: on messages of ASCII text the classifier of transient errors looks
    at the message without regard to letter case, and an error it finds
    retryable stays retryable when its message is wrapped in more ASCII text
    (as libraries do when they rethrow): for every ASCII message [m], code,
    ASCII prefix and ASCII suffix, retryable(m) implies
    retryable(prefix ++ m ++ suffix), and retryable(upper-case m) =
    retryable(m). *)
Theorem isRetryableNetworkError_wrapping (m : string) (code : option string) :
  ascii_only m = true ->
  (forall p s,
      ascii_only p = true -> ascii_only s = true ->
      isRetryableNetworkError (Some (mkErrorLike (Some m) code)) = true ->
      isRetryableNetworkError (Some (mkErrorLike (Some (p ++ m ++ s)%string) code)) = true)
  /\ ascii_only (toUpperCase m) = true
  /\ isRetryableNetworkError (Some (mkErrorLike (Some (toUpperCase m)) code))
     = isRetryableNetworkError (Some (mkErrorLike (Some m) code)).
Proof.
  intros Hascii. split; [|split].
  - intros p s _ _. unfold isRetryableNetworkError.
    cbn [err_message err_code]. rewrite !or_empty_Some.
    unfold toLowerCase. rewrite !map_string_app.
    intros H.
    orb_chain H ltac:(fun H => first [exact H | apply includes_wrapped; exact H]).
  - apply ascii_only_toUpperCase. exact Hascii.
  - unfold isRetryableNetworkError. cbn [err_message err_code].
    rewrite !or_empty_Some, toLowerCase_toUpperCase. reflexivity.
Qed.

Lemma isRetryableNetworkError_wrapping_witness :
  isRetryableNetworkError
    (Some (mkErrorLike (Some "could not coalesce error (Request Timeout) after 3 tries"%string)
                       None)) = true.
Proof.
  apply (proj1 (isRetryableNetworkError_wrapping "Timeout" None eq_refl)
           "could not coalesce error (Request "%string ") after 3 tries"%string);
    reflexivity.
Defined.

(** ** The client of the batch route *)
































(* ===================================================================== *)
(** * Part IX: properties of the contracts                                *)

(** Runs a contract function on symbolic storage. *)
Ltac sol_run :=
  unfold sol_bind, require, perform, external_call, sload, sstore, sol_ret, pure_call in *.

(** ** TransferOnlyWallet *)

Lemma fee_split_arith (amount : Z) :
  (0 <= amount)%Z ->
  (0 <= amount / 100 /\ amount / 100 <= amount
   /\ 100 * (amount / 100) <= amount < 100 * (amount / 100) + 100)%Z.
Proof.
  intros H. pose proof (Z.div_mod amount 100 ltac:(lia)) as Hd.
  pose proof (Z.mod_pos_bound amount 100 ltac:(lia)) as Hm. lia.
Qed.

Lemma calculateFeeSplit_value (amount : Z) :
  (0 <= amount)%Z ->
  TransferOnlyWallet.calculateFeeSplit amount
  = Success ((amount / 100)%Z, (amount - amount / 100)%Z).
Proof.
  intros H. unfold TransferOnlyWallet.calculateFeeSplit, checked_sub.
  destruct (fee_split_arith amount H) as (_ & Hle & _).
  destruct (Z.ltb_spec amount (amount / 100)); [lia | reflexivity].
Qed.

(** X9: the fee split of a transfer-only wallet never fails and loses
    nothing: for every amount a uint256 can hold, [calculateFeeSplit] returns
    the fee [amount / 100] (rounded down) and the rest, the two add up to the
    amount, the destination's part is at least 99% of it, is positive when the
    amount is, and an amount below 100 units pays no fee at all. *)
Theorem calculateFeeSplit_conserves (amount : Z) :
  (0 <= amount <= uint256_max)%Z ->
  exists feeAmount destinationAmount,
    TransferOnlyWallet.calculateFeeSplit amount = Success (feeAmount, destinationAmount)
    /\ (feeAmount + destinationAmount = amount)%Z
    /\ (0 <= feeAmount)%Z
    /\ (100 * feeAmount <= amount < 100 * feeAmount + 100)%Z
    /\ (99 * amount <= 100 * destinationAmount)%Z
    /\ (destinationAmount <= uint256_max)%Z
    /\ (0 < amount -> 0 < destinationAmount)%Z
    /\ (amount < 100 -> feeAmount = 0)%Z.
Proof.
  intros [H0 Hmax]. exists (amount / 100)%Z, (amount - amount / 100)%Z.
  destruct (fee_split_arith amount H0) as (Hf & Hle & Hlo & Hhi).
  split; [apply calculateFeeSplit_value; exact H0|].
  repeat split; lia.
Qed.

Lemma calculateFeeSplit_conserves_witness :
  exists feeAmount destinationAmount,
    TransferOnlyWallet.calculateFeeSplit 99 = Success (feeAmount, destinationAmount)
    /\ (feeAmount + destinationAmount = 99)%Z
    /\ (0 <= feeAmount)%Z
    /\ (100 * feeAmount <= 99 < 100 * feeAmount + 100)%Z
    /\ (99 * 99 <= 100 * destinationAmount)%Z
    /\ (destinationAmount <= uint256_max)%Z
    /\ (0 < 99 -> 0 < destinationAmount)%Z
    /\ (99 < 100 -> feeAmount = 0)%Z.
Proof.
  apply (calculateFeeSplit_conserves 99). unfold uint256_max. split; [lia|].
  vm_compute. discriminate.
Defined.

(** What the shared part of the two transfer functions does with a positive
    amount: the fee when there is one, the rest to the destination, the
    event; a transfer that the token refuses reverts the call. *)
Lemma transfer_with_fee_run (ctx : Context) (self : TransferOnlyWallet.Storage)
    (log : list Effect) (amount : Z) :
  (0 < amount)%Z ->
  let fee := SafeTransfer TransferOnlyWallet.USDC TransferOnlyWallet.FEE_ADDRESS
                          (amount / 100) in
  let rest := SafeTransfer TransferOnlyWallet.USDC (TransferOnlyWallet.destination self)
                           (amount - amount / 100) in
  let fees := if (amount / 100 >? 0)%Z then [fee] else [] in
  TransferOnlyWallet.transfer_with_fee ctx amount self log
  = match (if (amount / 100 >? 0)%Z then call_reverts ctx log fee else None) with
    | Some reason => Revert reason
    | None =>
        match call_reverts ctx (log ++ fees) rest with
        | Some reason => Revert reason
        | None =>
            Success (tt, self,
                     log ++ fees
                     ++ [rest;
                         Emit (USDCTransferredWithFee (TransferOnlyWallet.destination self)
                                 (amount - amount / 100)
                                 TransferOnlyWallet.FEE_ADDRESS (amount / 100))])
        end
    end.
Proof.
  intros Hpos fee rest fees. subst fee rest fees.
  unfold TransferOnlyWallet.transfer_with_fee.
  unfold sol_bind at 1, pure_call. rewrite calculateFeeSplit_value by lia.
  destruct (fee_split_arith amount ltac:(lia)) as (Hf & Hle & Hlo & Hhi).
  assert (Hdest : (amount - amount / 100 >? 0)%Z = true) by (apply Z.gtb_lt; lia).
  sol_run. rewrite Hdest.
  destruct (amount / 100 >? 0)%Z.
  - destruct (call_reverts ctx log _) as [reason|]; [reflexivity|].
    destruct (call_reverts ctx (log ++ _) _) as [reason|]; [reflexivity|].
    rewrite <- !app_assoc. reflexivity.
  - rewrite app_nil_r.
    destruct (call_reverts ctx log _) as [reason|]; [reflexivity|].
    rewrite <- !app_assoc. reflexivity.
Qed.

Lemma transferred_app (a b : list Effect) :
  transferred (a ++ b) = (transferred a + transferred b)%Z.
Proof. unfold transferred. rewrite map_app. apply sumZ_app. Qed.

(** How a transfer of a positive amount ends: paid in full, to the fee
    address and the destination only, with every transfer accepted by the
    token; or reverted by the token, which refused one of these payments. *)
Lemma transfer_with_fee_outcome (ctx : Context) (self : TransferOnlyWallet.Storage)
    (log : list Effect) (amount : Z) :
  (0 < amount)%Z ->
  match TransferOnlyWallet.transfer_with_fee ctx amount self log with
  | Success (_, self', log') =>
      self' = self
      /\ exists done, log' = log ++ done /\ transferred done = amount
                      /\ Forall (pays_only (eq (TransferOnlyWallet.destination self))) done
                      /\ transfers_accepted ctx log done
  | Revert reason =>
      exists paid payment,
        transfers_accepted ctx log paid
        /\ call_reverts ctx (log ++ paid) payment = Some reason
        /\ Forall (pays_only (eq (TransferOnlyWallet.destination self))) (paid ++ [payment])
        /\ (transferred (paid ++ [payment]) <= amount)%Z
  | Panic _ => False
  end.
Proof.
  intros Hpos. rewrite (transfer_with_fee_run ctx self log amount Hpos). cbv zeta.
  set (destination := TransferOnlyWallet.destination self).
  destruct (fee_split_arith amount ltac:(lia)) as (Hf & Hle & Hlo & Hhi).
  assert (Hdest : pays_only (eq destination)
                    (SafeTransfer TransferOnlyWallet.USDC destination (amount - amount / 100)))
    by (cbn; split; [reflexivity | split; [right; reflexivity | lia]]).
  assert (Hfees : (0 < amount / 100)%Z ->
                  pays_only (eq destination)
                    (SafeTransfer TransferOnlyWallet.USDC TransferOnlyWallet.FEE_ADDRESS
                                  (amount / 100)))
    by (intros; cbn; split; [reflexivity | split; [left; reflexivity | lia]]).
  destruct (Z.gtb_spec (amount / 100) 0) as [Hfee|Hfee].
  - destruct (call_reverts ctx log _) as [reason|] eqn:Hfirst.
    + exists [], (SafeTransfer TransferOnlyWallet.USDC TransferOnlyWallet.FEE_ADDRESS
                               (amount / 100)).
      rewrite app_nil_r. cbn [app]. split; [exact I|]. split; [exact Hfirst|].
      split; [constructor; [apply Hfees; exact Hfee | constructor]|].
      unfold transferred. cbn. lia.
    + destruct (call_reverts ctx (log ++ _) _) as [reason|] eqn:Hsecond.
      * exists [SafeTransfer TransferOnlyWallet.USDC TransferOnlyWallet.FEE_ADDRESS
                             (amount / 100)],
               (SafeTransfer TransferOnlyWallet.USDC destination (amount - amount / 100)).
        cbn [app transfers_accepted]. split; [split; [exact Hfirst | exact I]|].
        split; [exact Hsecond|].
        split; [constructor; [apply Hfees; exact Hfee | constructor; [exact Hdest | constructor]]|].
        unfold transferred. cbn. lia.
      * split; [reflexivity|]. eexists. split; [reflexivity|]. cbn [app transfers_accepted].
        split; [unfold transferred; cbn; lia|].
        split; [constructor; [apply Hfees; exact Hfee
                             | constructor; [exact Hdest | constructor; [exact I | constructor]]]|].
        split; [exact Hfirst|]. split; [exact Hsecond|]. split; [exact I | exact I].
  - cbn [app]. destruct (call_reverts ctx (log ++ []) _) as [reason|] eqn:Hsecond.
    + exists [], (SafeTransfer TransferOnlyWallet.USDC destination (amount - amount / 100)).
      cbn [app]. split; [exact I|]. split; [exact Hsecond|].
      split; [constructor; [exact Hdest | constructor]|].
      unfold transferred. cbn. lia.
    + split; [reflexivity|]. eexists. split; [reflexivity|]. cbn [app transfers_accepted].
      rewrite app_nil_r in Hsecond.
      split; [unfold transferred; cbn; lia|].
      split; [constructor; [exact Hdest | constructor; [exact I | constructor]]|].
      split; [exact Hsecond|]. split; [exact I | exact I].
Qed.

(** X10: what the two transfer functions of a transfer-only wallet do, for
    whoever calls them.  [transferUSDC(amount)] reverts for amount 0, for an
    amount above the wallet's USDC balance and, with the token's own reason,
    when the token refuses one of the wallet's payments; otherwise it leaves
    the storage as it is and pays out exactly [amount]: every transfer is of
    USDC, is positive, goes to the fee address or to the wallet's
    destination, and was accepted by the token.  [transferAllUSDC()] reverts
    on an empty balance or on a payment refused by the token, and otherwise
    pays out the whole balance in the same way.  Neither can panic. *)
Theorem transfer_wallet_pays_in_full (ctx : Context)
    (self : TransferOnlyWallet.Storage) (log : list Effect) :
  let balance := balanceOf_this ctx TransferOnlyWallet.USDC in
  let destination := TransferOnlyWallet.destination self in
  let refused (amount : Z) (reason : string) :=
    exists paid payment,
      transfers_accepted ctx log paid
      /\ call_reverts ctx (log ++ paid) payment = Some reason
      /\ Forall (pays_only (eq destination)) (paid ++ [payment])
      /\ (transferred (paid ++ [payment]) <= amount)%Z in
  (0 <= balance <= uint256_max)%Z ->
  (forall amount, (0 <= amount <= uint256_max)%Z ->
     match TransferOnlyWallet.transferUSDC ctx amount self log with
     | Success (_, self', log') =>
         (0 < amount <= balance)%Z /\ self' = self
         /\ exists done, log' = log ++ done /\ transferred done = amount
                         /\ Forall (pays_only (eq destination)) done
                         /\ transfers_accepted ctx log done
     | Revert reason =>
         (amount = 0%Z /\ reason = "Amount must be > 0"%string)
         \/ ((balance < amount)%Z /\ reason = "Insufficient USDC balance"%string)
         \/ ((0 < amount <= balance)%Z /\ refused amount reason)
     | Panic _ => False
     end)
  /\ match TransferOnlyWallet.transferAllUSDC ctx self log with
     | Success (_, self', log') =>
         (0 < balance)%Z /\ self' = self
         /\ exists done, log' = log ++ done /\ transferred done = balance
                         /\ Forall (pays_only (eq destination)) done
                         /\ transfers_accepted ctx log done
     | Revert reason =>
         (balance = 0%Z /\ reason = "No USDC to transfer"%string)
         \/ ((0 < balance)%Z /\ refused balance reason)
     | Panic _ => False
     end.
Proof.
  intros balance destination refused Hbalance. split.
  - intros amount Hamount. unfold TransferOnlyWallet.transferUSDC.
    unfold sol_bind at 1, require at 1.
    destruct (Z.gtb_spec amount 0) as [Hpos|Hzero]; [|left; split; [lia | reflexivity]].
    unfold sol_bind at 1, require at 1. fold balance.
    destruct (Z.geb_spec balance amount) as [Henough|Hshort];
      [|right; left; split; [lia | reflexivity]].
    pose proof (transfer_with_fee_outcome ctx self log amount Hpos) as H.
    destruct (TransferOnlyWallet.transfer_with_fee ctx amount self log)
      as [[[[] self'] log']|reason|code].
    + destruct H as [Hself Hdone]. split; [lia|]. split; [exact Hself | exact Hdone].
    + right. right. split; [lia | exact H].
    + exact H.
  - unfold TransferOnlyWallet.transferAllUSDC. cbv zeta. fold balance.
    unfold sol_bind at 1, require at 1.
    destruct (Z.gtb_spec balance 0) as [Hpos|Hzero]; [|left; split; [lia | reflexivity]].
    pose proof (transfer_with_fee_outcome ctx self log balance Hpos) as H.
    destruct (TransferOnlyWallet.transfer_with_fee ctx balance self log)
      as [[[[] self'] log']|reason|code].
    + destruct H as [Hself Hdone]. split; [lia|]. split; [exact Hself | exact Hdone].
    + right. split; [lia | exact H].
    + exact H.
Qed.

Lemma transfer_wallet_pays_in_full_witness :
  let ctx := mkContext 7%Z 8%Z (fun _ => 250%Z) 0%Z (fun _ _ => None) in
  let self := TransferOnlyWallet.mkStorage 1%Z 2%Z in
  match TransferOnlyWallet.transferAllUSDC ctx self [] with
  | Success (_, self', log') =>
      (0 < 250)%Z /\ self' = self
      /\ exists done, log' = [] ++ done /\ transferred done = 250%Z
                      /\ Forall (pays_only (eq 2%Z)) done
                      /\ transfers_accepted ctx [] done
  | Revert reason =>
      (250%Z = 0%Z /\ reason = "No USDC to transfer"%string)
      \/ ((0 < 250)%Z
          /\ exists paid payment,
               transfers_accepted ctx [] paid
               /\ call_reverts ctx ([] ++ paid) payment = Some reason
               /\ Forall (pays_only (eq 2%Z)) (paid ++ [payment])
               /\ (transferred (paid ++ [payment]) <= 250)%Z)
  | Panic _ => False
  end.
Proof.
  intros ctx self.
  apply (transfer_wallet_pays_in_full ctx self []).
  cbn. unfold uint256_max. split; [lia|]. vm_compute. discriminate.
Defined.

(** A token that has blacklisted the destination: the fee is accepted, the
    payment to the destination is refused, and the whole call reverts with
    the token's reason, the fee included. *)
Lemma transfer_refused_by_token :
  let blacklisted (made : list Effect) (e : Effect) :=
    match e with
    | SafeTransfer _ 2%Z _ => Some "Blacklistable: account is blacklisted"%string
    | _ => None
    end in
  let ctx := mkContext 7%Z 8%Z (fun _ => 250%Z) 0%Z blacklisted in
  TransferOnlyWallet.transferUSDC ctx 200 (TransferOnlyWallet.mkStorage 1%Z 2%Z) []
  = Revert "Blacklistable: account is blacklisted"
  /\ transact (TransferOnlyWallet.transferUSDC ctx 200) (TransferOnlyWallet.mkStorage 1%Z 2%Z)
     = (TransferOnlyWallet.mkStorage 1%Z 2%Z, []).
Proof. split; reflexivity. Qed.

(** ** Histories of transactions *)

(** What every admitted transaction preserves holds after any history of
    them. *)
Lemma history_inv {S Call : Type} (dispatch : Context -> Call -> Sol S unit)
    (admitted : Context * Call -> Prop) (R : S -> list Effect -> Prop) :
  (forall ctx call s log,
      admitted (ctx, call) -> R s log ->
      R (fst (transact (dispatch ctx call) s))
        (log ++ snd (transact (dispatch ctx call) s))) ->
  forall txs s log,
    Forall admitted txs -> R s log ->
    R (fst (history dispatch txs s)) (log ++ snd (history dispatch txs s)).
Proof.
  intros Hstep txs. induction txs as [|[ctx call] txs IH]; intros s log Hadm HR.
  - cbn. rewrite app_nil_r. exact HR.
  - inversion Hadm as [|? ? Hhead Htail]; subst.
    cbn [history]. specialize (Hstep ctx call s log Hhead HR).
    destruct (transact (dispatch ctx call) s) as [s1 log1]. cbn [fst snd] in Hstep.
    specialize (IH s1 (log ++ log1) Htail Hstep).
    destruct (history dispatch txs s1) as [s2 log2]. cbn [fst snd] in *.
    rewrite app_assoc. exact IH.
Qed.

Lemma pays_only_weaken (P Q : address -> Prop) (e : Effect) :
  (forall a, P a -> Q a) -> pays_only P e -> pays_only Q e.
Proof.
  intros HPQ. destruct e; cbn; try tauto.
  intros (Ht & [Hfee|Hp] & Hv); repeat split; auto.
Qed.

(** One transaction on a transfer-only wallet: it pays only the fee address
    and the destination of the moment, and only a call of the destination
    itself changes the storage, to another destination that is not zero. *)
Lemma transfer_wallet_step (ctx : Context) (call : TransferOnlyWallet.Call)
    (s : TransferOnlyWallet.Storage) :
  exists s' done,
    transact (TransferOnlyWallet.dispatch ctx call) s = (s', done)
    /\ (s' = s
        \/ (msg_sender ctx = TransferOnlyWallet.destination s
            /\ TransferOnlyWallet.factory s' = TransferOnlyWallet.factory s
            /\ TransferOnlyWallet.destination s' <> 0%Z))
    /\ Forall (pays_only (eq (TransferOnlyWallet.destination s))) done.
Proof.
  assert (Hnothing : exists s' done,
             (s, @nil Effect) = (s', done)
             /\ (s' = s
                 \/ (msg_sender ctx = TransferOnlyWallet.destination s
                     /\ TransferOnlyWallet.factory s' = TransferOnlyWallet.factory s
                     /\ TransferOnlyWallet.destination s' <> 0%Z))
             /\ Forall (pays_only (eq (TransferOnlyWallet.destination s))) done)
    by (exists s, []; split; [reflexivity | split; [left; reflexivity | constructor]]).
  destruct call as [amount| |newDestination|]; unfold transact;
    cbn [TransferOnlyWallet.dispatch].
  - unfold TransferOnlyWallet.transferUSDC. unfold sol_bind at 1, require at 1.
    destruct (Z.gtb_spec amount 0) as [Hpos|_]; [|exact Hnothing].
    unfold sol_bind at 1, require at 1.
    destruct (balanceOf_this ctx TransferOnlyWallet.USDC >=? amount)%Z; [|exact Hnothing].
    pose proof (transfer_with_fee_outcome ctx s [] amount Hpos) as H.
    destruct (TransferOnlyWallet.transfer_with_fee ctx amount s [])
      as [[[[] s'] log']|reason|code]; [|exact Hnothing|contradiction].
    destruct H as (-> & done & -> & _ & Hpaid & _). cbn [app].
    exists s, done. split; [reflexivity|]. split; [left; reflexivity | exact Hpaid].
  - unfold TransferOnlyWallet.transferAllUSDC. cbv zeta.
    unfold sol_bind at 1, require at 1.
    destruct (Z.gtb_spec (balanceOf_this ctx TransferOnlyWallet.USDC) 0) as [Hpos|_];
      [|exact Hnothing].
    pose proof (transfer_with_fee_outcome ctx s [] _ Hpos) as H.
    destruct (TransferOnlyWallet.transfer_with_fee ctx _ s [])
      as [[[[] s'] log']|reason|code]; [|exact Hnothing|contradiction].
    destruct H as (-> & done & -> & _ & Hpaid & _). cbn [app].
    exists s, done. split; [reflexivity|]. split; [left; reflexivity | exact Hpaid].
  - unfold TransferOnlyWallet.setDestination, TransferOnlyWallet.onlyDestination. sol_run.
    destruct (Z.eqb_spec (msg_sender ctx) (TransferOnlyWallet.destination s)) as [Hsender|_];
      [|exact Hnothing].
    destruct (Z.eqb_spec newDestination 0) as [_|Hnew]; cbn [negb app]; [exact Hnothing|].
    eexists. eexists. split; [reflexivity|].
    split; [right; repeat split; [exact Hsender | exact Hnew]|].
    repeat constructor.
  - unfold TransferOnlyWallet.getConfig. sol_run. exact Hnothing.
Qed.

(** X11: a transfer-only wallet keeps its destination.  From its deployment
    on, through any history of calls by anyone with any balances, the
    destination is never the zero address, the factory reference never
    changes, and every payment the wallet makes is a positive amount of USDC
    to the fee address or to an address that is not zero; and as long as no
    call comes from the first destination, the destination stays what it was
    and nobody else is paid. *)
Theorem transfer_wallet_keeps_destination (initialDestination _factory : address)
    (s0 : TransferOnlyWallet.Storage)
    (txs : list (Context * TransferOnlyWallet.Call)) :
  TransferOnlyWallet.constructor initialDestination _factory = Success s0 ->
  let run := history TransferOnlyWallet.dispatch txs s0 in
  TransferOnlyWallet.destination (fst run) <> 0%Z
  /\ TransferOnlyWallet.factory (fst run) = _factory
  /\ Forall (pays_only (fun to => to <> 0%Z)) (snd run)
  /\ (Forall (fun tx => msg_sender (fst tx) <> initialDestination) txs ->
      TransferOnlyWallet.destination (fst run) = initialDestination
      /\ Forall (pays_only (eq initialDestination)) (snd run)).
Proof.
  unfold TransferOnlyWallet.constructor.
  destruct (Z.eqb_spec initialDestination 0) as [|Hnonzero]; [discriminate|].
  intros Hs0. injection Hs0 as <-. cbv zeta.
  pose (R1 := fun (s : TransferOnlyWallet.Storage) (log : list Effect) =>
                TransferOnlyWallet.destination s <> 0%Z
                /\ TransferOnlyWallet.factory s = _factory
                /\ Forall (pays_only (fun to => to <> 0%Z)) log).
  pose (R2 := fun (s : TransferOnlyWallet.Storage) (log : list Effect) =>
                TransferOnlyWallet.destination s = initialDestination
                /\ Forall (pays_only (eq initialDestination)) log).
  assert (H1 : R1 (fst (history TransferOnlyWallet.dispatch txs
                          (TransferOnlyWallet.mkStorage _factory initialDestination)))
                  ([] ++ snd (history TransferOnlyWallet.dispatch txs
                          (TransferOnlyWallet.mkStorage _factory initialDestination)))).
  { apply (history_inv TransferOnlyWallet.dispatch (fun _ => True) R1).
    - intros ctx call s log _ (Hd & Hf & Hlog).
      destruct (transfer_wallet_step ctx call s) as (s' & done & -> & Hs & Hpaid).
      unfold R1. cbn [fst snd]. repeat split.
      + destruct Hs as [-> | (_ & _ & Hnew)]; assumption.
      + destruct Hs as [-> | (_ & Hsame & _)]; congruence.
      + apply Forall_app. split; [exact Hlog|].
        eapply Forall_impl; [|exact Hpaid]. intros e.
        apply pays_only_weaken. intros a <-. exact Hd.
    - apply Forall_forall. intros; exact I.
    - unfold R1. cbn. repeat split; [exact Hnonzero | constructor]. }
  destruct H1 as (Hd & Hf & Hlog). cbn [app] in Hlog.
  split; [exact Hd|]. split; [exact Hf|]. split; [exact Hlog|].
  intros Hothers.
  apply (history_inv TransferOnlyWallet.dispatch
           (fun tx => msg_sender (fst tx) <> initialDestination) R2
           ltac:(intros ctx call s log Hsender (Hsame & Hpaid0); cbn [fst] in Hsender;
                 destruct (transfer_wallet_step ctx call s) as (s' & done & -> & Hs & Hpaid);
                 unfold R2; cbn [fst snd]; split;
                 [ destruct Hs as [-> | (Hs & _)]; [exact Hsame | congruence]
                 | apply Forall_app; split; [exact Hpaid0 | rewrite <- Hsame; exact Hpaid] ])
           txs _ [] Hothers).
  unfold R2. cbn. split; [reflexivity | constructor].
Qed.

Lemma transfer_wallet_keeps_destination_witness :
  TransferOnlyWallet.destination
    (fst (history TransferOnlyWallet.dispatch
            [(mkContext 9%Z 8%Z (fun _ => 250%Z) 0%Z (fun _ _ => None),
              TransferOnlyWallet.CallSetDestination 9%Z);
             (mkContext 9%Z 8%Z (fun _ => 250%Z) 0%Z (fun _ _ => None),
              TransferOnlyWallet.CallTransferAllUSDC)]
            (TransferOnlyWallet.mkStorage 1%Z 2%Z))) = 2%Z.
Proof.
  apply (transfer_wallet_keeps_destination 2%Z 1%Z (TransferOnlyWallet.mkStorage 1%Z 2%Z)
           [(mkContext 9%Z 8%Z (fun _ => 250%Z) 0%Z (fun _ _ => None),
             TransferOnlyWallet.CallSetDestination 9%Z);
            (mkContext 9%Z 8%Z (fun _ => 250%Z) 0%Z (fun _ _ => None),
             TransferOnlyWallet.CallTransferAllUSDC)]);
    [reflexivity|].
  repeat constructor; cbn; discriminate.
Defined.


(** ** The factories *)

Lemma sol_keeps_ret {S A} (R : S -> list Effect -> Prop) (a : A) :
  sol_keeps R (sol_ret a).
Proof. intros s before log H. exact H. Qed.

Lemma sol_keeps_bind {S A B} (R : S -> list Effect -> Prop)
    (c : Sol S A) (k : A -> Sol S B) :
  sol_keeps R c -> (forall a, sol_keeps R (k a)) -> sol_keeps R (sol_bind c k).
Proof.
  intros Hc Hk s before log H. unfold sol_bind. specialize (Hc s before log H).
  destruct (c s log) as [[[a s1] log1]| |]; [|exact I|exact I].
  apply (Hk a s1 before log1 Hc).
Qed.

Lemma sol_keeps_require {S} (R : S -> list Effect -> Prop) (condition : bool)
    (reason : string) :
  sol_keeps R (require condition reason).
Proof. intros s before log H. unfold require. destruct condition; [exact H | exact I]. Qed.

Lemma sol_keeps_sload {S A} (R : S -> list Effect -> Prop) (k : S -> Sol S A) :
  (forall s0, sol_keeps (fun s log => s = s0 /\ R s log) (k s0)) ->
  sol_keeps R (sol_bind sload k).
Proof.
  intros Hk s before log H. unfold sol_bind, sload.
  specialize (Hk s s before log (conj eq_refl H)).
  destruct (k s s log) as [[[a s1] log1]| |]; [|exact I|exact I]. apply Hk.
Qed.

Lemma transact_keeps {S A} (R : S -> list Effect -> Prop) (c : Sol S A)
    (s : S) (log : list Effect) :
  sol_keeps R c -> R s log ->
  R (fst (transact c s)) (log ++ snd (transact c s)).
Proof.
  intros Hc H. unfold transact. specialize (Hc s log []). rewrite app_nil_r in Hc.
  specialize (Hc H). destruct (c s []) as [[[a s1] log1]| |]; cbn [fst snd];
    [exact Hc | rewrite app_nil_r; exact H | rewrite app_nil_r; exact H].
Qed.

Lemma deployed_app (a b : list Effect) : deployed (a ++ b) = deployed a ++ deployed b.
Proof. unfold deployed. apply flat_map_app. Qed.

Lemma announced_app (a b : list Effect) : announced (a ++ b) = announced a ++ announced b.
Proof. unfold announced. apply flat_map_app. Qed.

(** The books stay in order when the next wallet is entered. *)
Lemma registry_in_order_next (create_address : nat -> address)
    (isDeployedWallet : Mapping) (deployedWallets : list address)
    (log created : list Effect) :
  let wallet := create_address (length deployedWallets) in
  registry_in_order create_address isDeployedWallet deployedWallets log ->
  deployed created = [wallet] ->
  announced created = [wallet] ->
  registry_in_order create_address (mapping_set isDeployedWallet wallet true)
    (deployedWallets ++ [wallet]) (log ++ created).
Proof.
  intros wallet (Hmap & Hlist & Hdep & Hann) Hd Ha. unfold registry_in_order.
  split; [|split; [|split]].
  - intros w. unfold mapping_set. rewrite in_app_iff. cbn [In].
    destruct (Z.eqb_spec w wallet) as [->|Hne].
    + split; [intros _; right; left; reflexivity | reflexivity].
    + rewrite Hmap. split; [intros H; left; exact H|].
      intros [H|[H|[]]]; [exact H | now contradiction Hne].
  - rewrite length_app. cbn [length]. rewrite Nat.add_1_r, seq_S, map_app.
    cbn [map Nat.add]. rewrite <- Hlist. reflexivity.
  - rewrite deployed_app, Hdep, Hd. reflexivity.
  - rewrite announced_app, Hann, Ha. reflexivity.
Qed.

(** The books are not touched by effects that deploy and announce nothing. *)
Lemma registry_in_order_quiet (create_address : nat -> address)
    (isDeployedWallet : Mapping) (deployedWallets : list address)
    (log more : list Effect) :
  registry_in_order create_address isDeployedWallet deployedWallets log ->
  deployed more = [] -> announced more = [] ->
  registry_in_order create_address isDeployedWallet deployedWallets (log ++ more).
Proof.
  intros (Hmap & Hlist & Hdep & Hann) Hd Ha. unfold registry_in_order.
  rewrite deployed_app, announced_app, Hd, Ha, !app_nil_r. tauto.
Qed.

Lemma well_deployed_grows (wallets more : list address) (e : Effect) :
  well_deployed wallets e -> well_deployed (wallets ++ more) e.
Proof.
  destruct e; cbn; try tauto. intros H. apply in_or_app. left. exact H.
Qed.

Section TransferFactory.
Variable create_address : nat -> address.

#[local] Abbreviation in_order := (transfer_factory_in_order create_address).

Lemma transfer_factory_quiet (s : AvaxSepoliaTransferWalletFactory.Storage)
    (before log : list Effect) (e : Effect) :
  in_order s (before ++ log) ->
  deployed [e] = [] -> announced [e] = [] ->
  well_deployed (AvaxSepoliaTransferWalletFactory.deployedWallets s) e ->
  in_order s (before ++ log ++ [e]).
Proof.
  intros [Hreg Hwell] Hd Ha He. rewrite app_assoc. split.
  - apply registry_in_order_quiet; assumption.
  - apply Forall_app. split; [exact Hwell | constructor; [exact He | constructor]].
Qed.

Lemma keeps_createWallet (ctx : Context) (destination : address) :
  sol_keeps in_order
    (AvaxSepoliaTransferWalletFactory._createWallet create_address ctx destination).
Proof.
  intros s before log [Hreg Hwell].
  unfold AvaxSepoliaTransferWalletFactory._createWallet,
    AvaxSepoliaTransferWalletFactory.new_TransferOnlyWallet,
    TransferOnlyWallet.constructor.
  sol_run. destruct (Z.eqb_spec destination 0) as [_|Hnonzero]; cbn [negb]; [exact I|].
  cbn [AvaxSepoliaTransferWalletFactory.owner
       AvaxSepoliaTransferWalletFactory.isDeployedWallet
       AvaxSepoliaTransferWalletFactory.deployedWallets].
  rewrite <- app_assoc. cbn [app]. rewrite app_assoc. split.
  - cbn [AvaxSepoliaTransferWalletFactory.isDeployedWallet
         AvaxSepoliaTransferWalletFactory.deployedWallets].
    apply registry_in_order_next; [exact Hreg | reflexivity | reflexivity].
  - cbn [AvaxSepoliaTransferWalletFactory.deployedWallets].
    apply Forall_app. split.
    + eapply Forall_impl; [|exact Hwell]. intros e. apply well_deployed_grows.
    + repeat constructor. exact Hnonzero.
Qed.

Lemma keeps_create_each (ctx : Context) (destinations : list address) :
  sol_keeps in_order
    (AvaxSepoliaTransferWalletFactory.create_each create_address ctx destinations).
Proof.
  induction destinations as [|destination rest IH];
    cbn [AvaxSepoliaTransferWalletFactory.create_each].
  - apply sol_keeps_ret.
  - apply sol_keeps_bind; [apply keeps_createWallet|]. intros w.
    apply sol_keeps_bind; [exact IH|]. intros ws. apply sol_keeps_ret.
Qed.

Lemma keeps_transfer_factory_dispatch (ctx : Context)
    (call : AvaxSepoliaTransferWalletFactory.Call) :
  sol_keeps in_order (AvaxSepoliaTransferWalletFactory.dispatch create_address ctx call).
Proof.
  destruct call as [destination|destinations| | |wallet|call_succeeds|token];
    cbn [AvaxSepoliaTransferWalletFactory.dispatch].
  - apply sol_keeps_bind; [apply keeps_createWallet | intros; apply sol_keeps_ret].
  - apply sol_keeps_bind; [|intros; apply sol_keeps_ret].
    apply sol_keeps_bind; [apply sol_keeps_require | intros; apply keeps_create_each].
  - intros s before log H. unfold AvaxSepoliaTransferWalletFactory.getAllDeployedWallets.
    sol_run. exact H.
  - intros s before log H. unfold AvaxSepoliaTransferWalletFactory.getWalletCount.
    sol_run. exact H.
  - intros s before log H. unfold AvaxSepoliaTransferWalletFactory.isWallet.
    sol_run. exact H.
  - intros s before log H.
    unfold AvaxSepoliaTransferWalletFactory.withdrawETH,
      AvaxSepoliaTransferWalletFactory.onlyOwner.
    sol_run.
    destruct (AvaxSepoliaTransferWalletFactory.owner s =? msg_sender ctx)%Z; [|exact I].
    destruct (this_balance ctx >? 0)%Z; [|exact I].
    destruct call_succeeds; [|exact I].
    apply transfer_factory_quiet; [exact H | reflexivity | reflexivity | exact I].
  - intros s before log H.
    unfold AvaxSepoliaTransferWalletFactory.withdrawERC20,
      AvaxSepoliaTransferWalletFactory.onlyOwner.
    sol_run.
    destruct (AvaxSepoliaTransferWalletFactory.owner s =? msg_sender ctx)%Z; [|exact I].
    destruct (balanceOf_this ctx token >? 0)%Z; [|exact I].
    destruct (call_reverts ctx log _); [exact I|].
    apply transfer_factory_quiet; [exact H | reflexivity | reflexivity | exact I].
Qed.

End TransferFactory.

(** X12: the books of the transfer-wallet factory are always in order.  From
    its deployment on, through any history of calls by anyone (reverted ones
    included), a wallet is marked in [isDeployedWallet] exactly when it is in
    [deployedWallets]; the list holds, in order, the addresses at which the
    chain deployed the factory's wallets, and these are exactly the wallets
    named in its [WalletCreated] events; and no wallet was ever deployed for
    the zero destination. *)
Theorem transfer_factory_registry (create_address : nat -> address) (deployer : Context)
    (txs : list (Context * AvaxSepoliaTransferWalletFactory.Call)) :
  let run := history (AvaxSepoliaTransferWalletFactory.dispatch create_address) txs
               (AvaxSepoliaTransferWalletFactory.constructor deployer) in
  let wallets := AvaxSepoliaTransferWalletFactory.deployedWallets (fst run) in
  (forall wallet,
      AvaxSepoliaTransferWalletFactory.isDeployedWallet (fst run) wallet = true
      <-> In wallet wallets)
  /\ wallets = map create_address (seq 0 (length wallets))
  /\ deployed (snd run) = wallets
  /\ announced (snd run) = wallets
  /\ Forall (well_deployed wallets) (snd run).
Proof.
  cbv zeta.
  pose proof (history_inv (AvaxSepoliaTransferWalletFactory.dispatch create_address)
                (fun _ => True) (transfer_factory_in_order create_address)) as H.
  specialize (H (fun ctx call s log _ HR =>
                   transact_keeps _ _ s log
                     (keeps_transfer_factory_dispatch create_address ctx call) HR)).
  specialize (H txs (AvaxSepoliaTransferWalletFactory.constructor deployer) []).
  destruct H as [(Hmap & Hlist & Hdep & Hann) Hwell].
  - apply Forall_forall. intros; exact I.
  - split; [|constructor]. repeat split; try reflexivity; cbn; [discriminate | tauto].
  - cbn [app] in *. repeat split; try assumption; apply Hmap.
Qed.

Lemma createWallet_run (create_address : nat -> address) (ctx : Context)
    (destination : address) (s : AvaxSepoliaTransferWalletFactory.Storage)
    (log : list Effect) :
  AvaxSepoliaTransferWalletFactory._createWallet create_address ctx destination s log
  = if (destination =? 0)%Z then Revert "Invalid destination"
    else
      let wallet :=
        create_address (length (AvaxSepoliaTransferWalletFactory.deployedWallets s)) in
      Success (wallet,
               AvaxSepoliaTransferWalletFactory.mkStorage
                 (AvaxSepoliaTransferWalletFactory.owner s)
                 (mapping_set (AvaxSepoliaTransferWalletFactory.isDeployedWallet s)
                              wallet true)
                 (AvaxSepoliaTransferWalletFactory.deployedWallets s ++ [wallet]),
               log ++ [NewTransferOnlyWallet wallet destination (this ctx);
                       Emit (TransferWalletCreated wallet destination)]).
Proof.
  unfold AvaxSepoliaTransferWalletFactory._createWallet,
    AvaxSepoliaTransferWalletFactory.new_TransferOnlyWallet,
    TransferOnlyWallet.constructor.
  sol_run. destruct (destination =? 0)%Z; cbn [negb]; [reflexivity|].
  cbv zeta. rewrite <- app_assoc. reflexivity.
Qed.

Lemma create_each_spec (create_address : nat -> address) (ctx : Context)
    (destinations : list address) :
  forall (s : AvaxSepoliaTransferWalletFactory.Storage) (log : list Effect),
    match AvaxSepoliaTransferWalletFactory.create_each create_address ctx destinations
            s log with
    | Success (walletAddresses, s', _) =>
        ~ In 0%Z destinations
        /\ walletAddresses
           = map create_address
               (seq (length (AvaxSepoliaTransferWalletFactory.deployedWallets s))
                    (length destinations))
        /\ AvaxSepoliaTransferWalletFactory.deployedWallets s'
           = AvaxSepoliaTransferWalletFactory.deployedWallets s ++ walletAddresses
    | Revert reason => In 0%Z destinations /\ reason = "Invalid destination"%string
    | Panic _ => False
    end.
Proof.
  induction destinations as [|destination rest IH]; intros s log.
  - cbn. rewrite app_nil_r. repeat split; tauto.
  - cbn [AvaxSepoliaTransferWalletFactory.create_each]. unfold sol_bind at 1.
    rewrite createWallet_run.
    destruct (Z.eqb_spec destination 0) as [->|Hnonzero];
      [split; [left; reflexivity | reflexivity]|].
    cbv zeta. unfold sol_bind at 1.
    match goal with |- context [AvaxSepoliaTransferWalletFactory.create_each _ _ _ ?s1 ?l1] =>
      specialize (IH s1 l1);
      destruct (AvaxSepoliaTransferWalletFactory.create_each create_address ctx rest s1 l1)
        as [[[ws s2] log2]|reason|code]
    end.
    + unfold sol_ret. destruct IH as (Hrest & Hws & Hlist).
      cbn [AvaxSepoliaTransferWalletFactory.deployedWallets] in *.
      rewrite length_app in Hws. cbn [length] in Hws. rewrite Nat.add_1_r in Hws.
      split; [|split].
      * cbn [In]. intros [H|H]; [congruence | exact (Hrest H)].
      * cbn [length seq map]. rewrite Hws. reflexivity.
      * rewrite Hlist, <- app_assoc. reflexivity.
    + destruct IH as [Hin ->]. split; [right; exact Hin | reflexivity].
    + exact IH.
Qed.

(** X13: a batch of transfer wallets is created as a whole or not at all.
    [createMultipleWallets] reverts on an empty list and, wherever it stands
    in the list, on a zero destination, and a revert leaves no wallet behind;
    otherwise it returns one address for each destination, in order: the
    next addresses of the chain, which it appends to [deployedWallets].  It
    cannot panic. *)
Theorem createMultipleWallets_all_or_nothing (create_address : nat -> address)
    (ctx : Context) (destinations : list address)
    (s : AvaxSepoliaTransferWalletFactory.Storage) :
  let call :=
    AvaxSepoliaTransferWalletFactory.createMultipleWallets create_address ctx destinations in
  match call s [] with
  | Success (walletAddresses, s', _) =>
      destinations <> [] /\ ~ In 0%Z destinations
      /\ walletAddresses
         = map create_address
             (seq (length (AvaxSepoliaTransferWalletFactory.deployedWallets s))
                  (length destinations))
      /\ AvaxSepoliaTransferWalletFactory.deployedWallets s'
         = AvaxSepoliaTransferWalletFactory.deployedWallets s ++ walletAddresses
  | Revert reason =>
      transact call s = (s, [])
      /\ ((destinations = [] /\ reason = "Empty destinations"%string)
          \/ (In 0%Z destinations /\ reason = "Invalid destination"%string))
  | Panic _ => False
  end.
Proof.
  cbv zeta. unfold transact.
  unfold AvaxSepoliaTransferWalletFactory.createMultipleWallets.
  unfold sol_bind, require.
  destruct destinations as [|destination rest];
    [cbn; split; [reflexivity | left; split; reflexivity]|].
  cbn [length Nat.ltb Nat.leb].
  pose proof (create_each_spec create_address ctx (destination :: rest) s []) as H.
  destruct (AvaxSepoliaTransferWalletFactory.create_each create_address ctx
              (destination :: rest) s []) as [[[ws s2] log2]|reason|code].
  - destruct H as (Hnone & Hws & Hlist). repeat split; try assumption. discriminate.
  - split; [reflexivity | right; exact H].
  - exact H.
Qed.

Section BurnFactory.
Variable create_address : nat -> address.

#[local] Abbreviation burn_in_order := (burn_factory_in_order create_address).

Lemma burn_factory_quiet (s : BaseSepoliaWalletFactory.Storage)
    (before log more : list Effect) :
  burn_in_order s (before ++ log) ->
  deployed more = [] -> announced more = [] ->
  Forall (well_deployed (BaseSepoliaWalletFactory.deployedWallets s)) more ->
  burn_in_order s (before ++ log ++ more).
Proof.
  intros [Hreg Hwell] Hd Ha He. rewrite app_assoc. split.
  - apply registry_in_order_quiet; assumption.
  - apply Forall_app. split; assumption.
Qed.

Lemma keeps_createBurnWallet (ctx : Context) (destinationDomain mintRecipient : Z) :
  sol_keeps burn_in_order
    (BaseSepoliaWalletFactory.createBurnWallet create_address ctx
       destinationDomain mintRecipient).
Proof.
  intros s before log [Hreg Hwell].
  unfold BaseSepoliaWalletFactory.createBurnWallet. sol_run.
  destruct (Z.eqb_spec destinationDomain 1) as [Hdomain|_]; [|exact I].
  destruct (Z.eqb_spec mintRecipient 0) as [_|Hnonzero]; cbn [negb]; [exact I|].
  destruct (call_reverts ctx log _); [exact I|].
  cbn [BaseSepoliaWalletFactory.owner BaseSepoliaWalletFactory.isDeployedWallet
       BaseSepoliaWalletFactory.deployedWallets].
  rewrite <- app_assoc. cbn [app]. rewrite app_assoc. split.
  - cbn [BaseSepoliaWalletFactory.isDeployedWallet BaseSepoliaWalletFactory.deployedWallets].
    apply registry_in_order_next; [exact Hreg | reflexivity | reflexivity].
  - cbn [BaseSepoliaWalletFactory.deployedWallets].
    apply Forall_app. split.
    + eapply Forall_impl; [|exact Hwell]. intros e. apply well_deployed_grows.
    + repeat constructor; assumption.
Qed.

Lemma keeps_burn_create_each (ctx : Context) (domains : list Z) :
  forall recipients,
    sol_keeps burn_in_order
      (BaseSepoliaWalletFactory.create_each create_address ctx domains recipients).
Proof.
  induction domains as [|domain domains IH]; intros recipients;
    cbn [BaseSepoliaWalletFactory.create_each].
  - apply sol_keeps_ret.
  - destruct recipients as [|recipient recipients]; [intros s before log _; exact I|].
    apply sol_keeps_bind; [apply keeps_createBurnWallet|]. intros w.
    apply sol_keeps_bind; [apply IH|]. intros ws. apply sol_keeps_ret.
Qed.

Lemma burn_each_run (ctx : Context) (wallets : list address)
    (s : BaseSepoliaWalletFactory.Storage) (log : list Effect) :
  match BaseSepoliaWalletFactory.burn_each ctx wallets s log with
  | Success (_, s', log') => s' = s /\ log' = log ++ map EmergencyBurnAll wallets
  | Revert _ => True
  | Panic _ => False
  end.
Proof.
  revert log. induction wallets as [|wallet rest IH]; intros log;
    cbn [BaseSepoliaWalletFactory.burn_each map].
  - unfold sol_ret. rewrite app_nil_r. split; reflexivity.
  - unfold sol_bind, external_call.
    destruct (call_reverts ctx log (EmergencyBurnAll wallet)); [exact I|].
    specialize (IH (log ++ [EmergencyBurnAll wallet])).
    destruct (BaseSepoliaWalletFactory.burn_each ctx rest s (log ++ [EmergencyBurnAll wallet]))
      as [[[[] s'] log']|reason|code]; [|exact I|exact IH].
    destruct IH as [-> ->]. rewrite <- app_assoc. split; reflexivity.
Qed.

Lemma emergency_burns_quiet (wallets : list address) :
  deployed (map EmergencyBurnAll wallets) = []
  /\ announced (map EmergencyBurnAll wallets) = [].
Proof. induction wallets as [|w ws [Hd Ha]]; split; cbn; auto. Qed.

Lemma keeps_burn_factory_dispatch (ctx : Context) (call : BaseSepoliaWalletFactory.Call) :
  sol_keeps burn_in_order (BaseSepoliaWalletFactory.dispatch create_address ctx call).
Proof.
  destruct call as [domain recipient|domains recipients| | |wallet|wallet|
                    |call_succeeds|token];
    cbn [BaseSepoliaWalletFactory.dispatch].
  - apply sol_keeps_bind; [apply keeps_createBurnWallet | intros; apply sol_keeps_ret].
  - apply sol_keeps_bind; [|intros; apply sol_keeps_ret].
    apply sol_keeps_bind; [apply sol_keeps_require | intros].
    apply sol_keeps_bind; [apply sol_keeps_require | intros; apply keeps_burn_create_each].
  - intros s before log H. unfold BaseSepoliaWalletFactory.getAllDeployedWallets.
    sol_run. exact H.
  - intros s before log H. unfold BaseSepoliaWalletFactory.getWalletCount.
    sol_run. exact H.
  - intros s before log H. unfold BaseSepoliaWalletFactory.isWallet. sol_run. exact H.
  - intros s before log H.
    unfold BaseSepoliaWalletFactory.emergencyBurnFromWallet,
      BaseSepoliaWalletFactory.onlyOwner.
    sol_run.
    destruct (BaseSepoliaWalletFactory.owner s =? msg_sender ctx)%Z; [|exact I].
    destruct (BaseSepoliaWalletFactory.isDeployedWallet s wallet) eqn:Hlisted; [|exact I].
    destruct (call_reverts ctx log _); [exact I|].
    apply burn_factory_quiet; [exact H | reflexivity | reflexivity |].
    constructor; [|constructor]. cbn. apply (proj1 H). exact Hlisted.
  - intros s before log H.
    unfold BaseSepoliaWalletFactory.emergencyBurnFromAllWallets,
      BaseSepoliaWalletFactory.onlyOwner.
    unfold sol_bind at 1 2. unfold sload at 1, require at 1.
    destruct (BaseSepoliaWalletFactory.owner s =? msg_sender ctx)%Z; [|exact I].
    unfold sol_bind, sload.
    pose proof (burn_each_run ctx (BaseSepoliaWalletFactory.deployedWallets s) s log) as Hrun.
    destruct (BaseSepoliaWalletFactory.burn_each ctx
                (BaseSepoliaWalletFactory.deployedWallets s) s log)
      as [[[[] s'] log']|reason|code]; [|exact I|exact I].
    destruct Hrun as [-> ->].
    apply burn_factory_quiet;
      [exact H | apply emergency_burns_quiet | apply emergency_burns_quiet |].
    apply Forall_forall. intros e He. apply in_map_iff in He.
    destruct He as (w & <- & Hw). exact Hw.
  - intros s before log H.
    unfold BaseSepoliaWalletFactory.withdrawETH, BaseSepoliaWalletFactory.onlyOwner.
    sol_run.
    destruct (BaseSepoliaWalletFactory.owner s =? msg_sender ctx)%Z; [|exact I].
    destruct (this_balance ctx >? 0)%Z; [|exact I].
    destruct call_succeeds; [|exact I].
    apply burn_factory_quiet; [exact H | reflexivity | reflexivity | repeat constructor].
  - intros s before log H.
    unfold BaseSepoliaWalletFactory.withdrawERC20, BaseSepoliaWalletFactory.onlyOwner.
    sol_run.
    destruct (BaseSepoliaWalletFactory.owner s =? msg_sender ctx)%Z; [|exact I].
    destruct (balanceOf_this ctx token >? 0)%Z; [|exact I].
    destruct (call_reverts ctx log _); [exact I|].
    apply burn_factory_quiet; [exact H | reflexivity | reflexivity | repeat constructor].
Qed.

End BurnFactory.

(** X14: the books of the burn-wallet factory are always in order, and it
    deploys wallets for domain 1 only.  From its deployment on, through any
    history of calls by anyone, a wallet is marked in [isDeployedWallet]
    exactly when it is in [deployedWallets]; the list holds, in order, the
    addresses at which the chain deployed the factory's wallets, and these
    are exactly the wallets named in its [WalletCreated] events; every wallet
    was deployed with destination domain 1 and a mint recipient that is not
    zero; and an emergency burn was only ever asked of a wallet on the
    list. *)
Theorem burn_factory_registry (create_address : nat -> address) (deployer : Context)
    (txs : list (Context * BaseSepoliaWalletFactory.Call)) :
  let run := history (BaseSepoliaWalletFactory.dispatch create_address) txs
               (BaseSepoliaWalletFactory.constructor deployer) in
  let wallets := BaseSepoliaWalletFactory.deployedWallets (fst run) in
  (forall wallet,
      BaseSepoliaWalletFactory.isDeployedWallet (fst run) wallet = true
      <-> In wallet wallets)
  /\ wallets = map create_address (seq 0 (length wallets))
  /\ deployed (snd run) = wallets
  /\ announced (snd run) = wallets
  /\ Forall (well_deployed wallets) (snd run).
Proof.
  cbv zeta.
  pose proof (history_inv (BaseSepoliaWalletFactory.dispatch create_address)
                (fun _ => True) (burn_factory_in_order create_address)) as H.
  specialize (H (fun ctx call s log _ HR =>
                   transact_keeps _ _ s log
                     (keeps_burn_factory_dispatch create_address ctx call) HR)).
  specialize (H txs (BaseSepoliaWalletFactory.constructor deployer) []).
  destruct H as [(Hmap & Hlist & Hdep & Hann) Hwell].
  - apply Forall_forall. intros; exact I.
  - split; [|constructor]. repeat split; try reflexivity; cbn; [discriminate | tauto].
  - cbn [app] in *. repeat split; try assumption; apply Hmap.
Qed.

(** ** BurnOnlyWallet *)

Lemma deposit_for_burn_run (ctx : Context) (self : BurnOnlyWallet.Storage)
    (log : list Effect) (amount : Z) :
  let burn := DepositForBurn BurnOnlyWallet.TOKEN_MESSENGER amount
                (BurnOnlyWallet.DESTINATION_DOMAIN self)
                (BurnOnlyWallet.MINT_RECIPIENT self)
                BurnOnlyWallet.USDC 0 BurnOnlyWallet.MAX_FEE
                BurnOnlyWallet.MIN_FINALITY_THRESHOLD in
  BurnOnlyWallet.deposit_for_burn ctx amount self log
  = match call_reverts ctx log burn with
    | Some reason => Revert reason
    | None =>
        Success (tt, self,
                 log ++ [burn;
                         Emit (USDCBurned amount (BurnOnlyWallet.DESTINATION_DOMAIN self)
                                 (BurnOnlyWallet.MINT_RECIPIENT self))])
    end.
Proof.
  cbv zeta. unfold BurnOnlyWallet.deposit_for_burn. sol_run.
  destruct (call_reverts ctx log _); [reflexivity|].
  rewrite <- app_assoc. reflexivity.
Qed.

Lemma burn_wallet_step (ctx : Context) (call : BurnOnlyWallet.Call)
    (s : BurnOnlyWallet.Storage) :
  exists done,
    transact (BurnOnlyWallet.dispatch ctx call) s = (s, done)
    /\ Forall (burns_only s) done.
Proof.
  assert (Hnothing : exists done, (s, @nil Effect) = (s, done) /\ Forall (burns_only s) done)
    by (exists []; split; [reflexivity | constructor]).
  assert (Hburn : forall amount, (0 < amount)%Z ->
            Forall (burns_only s)
              [DepositForBurn BurnOnlyWallet.TOKEN_MESSENGER amount
                 (BurnOnlyWallet.DESTINATION_DOMAIN s) (BurnOnlyWallet.MINT_RECIPIENT s)
                 BurnOnlyWallet.USDC 0 BurnOnlyWallet.MAX_FEE
                 BurnOnlyWallet.MIN_FINALITY_THRESHOLD;
               Emit (USDCBurned amount (BurnOnlyWallet.DESTINATION_DOMAIN s)
                       (BurnOnlyWallet.MINT_RECIPIENT s))]).
  { intros amount Hpos. constructor; [|constructor; [exact I | constructor]].
    cbn. repeat split; try reflexivity. exact Hpos. }
  destruct call as [amount| |token amount| | |]; unfold transact;
    cbn [BurnOnlyWallet.dispatch].
  - unfold BurnOnlyWallet.burnUSDC. unfold sol_bind at 1, require at 1.
    destruct (Z.gtb_spec amount 0) as [Hpos|_]; [|exact Hnothing].
    unfold sol_bind at 1, require at 1.
    destruct (balanceOf_this ctx BurnOnlyWallet.USDC >=? amount)%Z; [|exact Hnothing].
    rewrite deposit_for_burn_run. cbv zeta.
    destruct (call_reverts ctx _ _); [exact Hnothing|].
    cbn [app]. eexists. split; [reflexivity|].
    apply Hburn. exact Hpos.
  - unfold BurnOnlyWallet.burnAllUSDC. cbv zeta. unfold sol_bind at 1, require at 1.
    destruct (Z.gtb_spec (balanceOf_this ctx BurnOnlyWallet.USDC) 0) as [Hpos|_];
      [|exact Hnothing].
    rewrite deposit_for_burn_run. cbv zeta.
    destruct (call_reverts ctx _ _); [exact Hnothing|].
    cbn [app]. eexists. split; [reflexivity|].
    apply Hburn. exact Hpos.
  - unfold BurnOnlyWallet.onERC20Received. unfold sol_bind at 1, require at 1.
    destruct (token =? BurnOnlyWallet.USDC)%Z; [|exact Hnothing].
    unfold sol_bind at 1, require at 1.
    destruct (Z.gtb_spec amount 0) as [Hpos|_]; [|exact Hnothing].
    unfold sol_bind at 1, perform at 1.
    rewrite deposit_for_burn_run. cbv zeta.
    destruct (call_reverts ctx _ _); [exact Hnothing|].
    cbn [app]. eexists. split; [reflexivity|].
    constructor; [exact I|]. apply Hburn. exact Hpos.
  - unfold BurnOnlyWallet.emergencyBurnAll, BurnOnlyWallet.onlyFactory.
    unfold sol_bind at 1 2. unfold sload at 1, require at 1.
    destruct (msg_sender ctx =? BurnOnlyWallet.factory s)%Z; [|exact Hnothing].
    cbv zeta.
    destruct (Z.gtb_spec (balanceOf_this ctx BurnOnlyWallet.USDC) 0) as [Hpos|_];
      [|unfold sol_ret; exact Hnothing].
    rewrite deposit_for_burn_run. cbv zeta.
    destruct (call_reverts ctx _ _); [exact Hnothing|].
    cbn [app]. eexists. split; [reflexivity|].
    apply Hburn. exact Hpos.
  - unfold BurnOnlyWallet.getConfig. sol_run. exact Hnothing.
  - unfold BurnOnlyWallet.getUSDCBalance. sol_run. exact Hnothing.
Qed.

(** X15: a burn-only wallet can only burn, and only to where it was made
    for.  Its deployment gives the token messenger an unlimited USDC
    allowance; after that, through any history of calls by anyone with any
    balances, its three immutables stay as deployed and the only thing it
    does to the world, besides emitting events, is [depositForBurn] of a
    positive amount of USDC to its own destination domain and mint recipient,
    with no destination caller, maximal fee 500 and finality threshold 1000:
    it never transfers a token and never approves anyone else. *)
Theorem burn_wallet_only_burns (_destinationDomain _mintRecipient : Z) (_factory : address)
    (txs : list (Context * BurnOnlyWallet.Call)) :
  let deployment := BurnOnlyWallet.constructor _destinationDomain _mintRecipient _factory in
  let run := history BurnOnlyWallet.dispatch txs (fst deployment) in
  snd deployment = [Approve BurnOnlyWallet.USDC BurnOnlyWallet.TOKEN_MESSENGER uint256_max]
  /\ fst run = BurnOnlyWallet.mkStorage _factory _destinationDomain _mintRecipient
  /\ Forall (burns_only
               (BurnOnlyWallet.mkStorage _factory _destinationDomain _mintRecipient))
            (snd run).
Proof.
  cbv zeta. cbn [BurnOnlyWallet.constructor fst snd]. split; [reflexivity|].
  set (s0 := BurnOnlyWallet.mkStorage _factory _destinationDomain _mintRecipient).
  apply (history_inv BurnOnlyWallet.dispatch (fun _ => True)
           (fun s log => s = s0 /\ Forall (burns_only s0) log)
           ltac:(intros ctx call s log _ [-> Hlog];
                 destruct (burn_wallet_step ctx call s0) as (done & -> & Hdone);
                 cbn [fst snd]; split;
                 [reflexivity | apply Forall_app; split; assumption])
           txs s0 []).
  - apply Forall_forall. intros; exact I.
  - split; [reflexivity | constructor].
Qed.

(** * Part X: properties of the bridge                                    *)

Lemma burns_app (a b : History) : burns (a ++ b) = burns a + burns b.
Proof. unfold burns. rewrite filter_app, length_app. reflexivity. Qed.

Lemma mints_app (a b : History) : mints (a ++ b) = mints a + mints b.
Proof. unfold mints. rewrite filter_app, length_app. reflexivity. Qed.

Lemma narrow_events_app (a b : History) :
  narrow_events (a ++ b) = narrow_events a ++ narrow_events b.
Proof. unfold narrow_events. apply flat_map_app. Qed.

Lemma narrow_events_map (tr : Trace) : narrow_events (map Narrow tr) = tr.
Proof. induction tr as [|e tr IH]; [reflexivity|]. cbn. f_equal. exact IH. Qed.

Lemma burns_map_Narrow (tr : Trace) : burns (map Narrow tr) = 0.
Proof. induction tr as [|e tr IH]; [reflexivity | exact IH]. Qed.

Lemma mints_map_Narrow (tr : Trace) : mints (map Narrow tr) = 0.
Proof. induction tr as [|e tr IH]; [reflexivity | exact IH]. Qed.

(** The poller, asked of a service that is never ready, gives up after ten
    polls and 55 seconds. *)
Lemma fetchAttestation_never_ready (env : Env) (chainId : Z) (transactionHash : string) :
  (forall i, poll_ready env chainId transactionHash i = None) ->
  fetchAttestation env chainId transactionHash []
  = (Threw (ThrownError (exhaustion_error (poll_answer env chainId transactionHash 10))),
     poll_events chainId transactionHash 10)
  /\ slept (poll_events chainId transactionHash 10) = 55000%Z.
Proof.
  intros Hnever. split.
  - exact (fetch_loop_exhausted env chainId transactionHash 10 0 10 eq_refl (le_n 10)
             (fun j _ => Hnever j)).
  - unfold slept. rewrite (delays_poll_events chainId transactionHash 9). reflexivity.
Qed.

Section WideRetryFacts.
Context {T : Type}.
Variable world : World.
Variable action : Wide.W T.
Variables maxAttempts baseDelayMs : Z.

#[local] Abbreviation wloop := (wide_retry_loop world action maxAttempts baseDelayMs).

(** An attempt that throws before the last one is followed by the wait and
    the next attempt. *)
Lemma wide_retry_again (fuel : nat) (attempt : Z) (lastErr t : Thrown) (h h1 : History) :
  action h = (Threw t, h1) ->
  (attempt + 1 < maxAttempts)%Z ->
  wloop (S fuel) attempt lastErr h
  = wloop fuel (attempt + 1)%Z t
      (h1 ++ [Narrow (EvSleep (baseDelayMs * (attempt + 1)))]).
Proof.
  intros Hact Hlt. cbn [wide_retry_loop].
  destruct (Z.ltb_spec attempt maxAttempts); [|lia].
  unfold Wide.try_catch. rewrite Hact.
  destruct (Z.geb_spec (attempt + 1) maxAttempts); [lia|].
  unfold Wide.bind, Wide.narrow, sleep, emit. reflexivity.
Qed.

(** The last attempt's error is the error of the whole. *)
Lemma wide_retry_last (fuel : nat) (attempt : Z) (lastErr t : Thrown) (h h1 : History) :
  action h = (Threw t, h1) ->
  (attempt < maxAttempts <= attempt + 1)%Z ->
  wloop (S fuel) attempt lastErr h = (Threw t, h1).
Proof.
  intros Hact Hlt. cbn [wide_retry_loop].
  destruct (Z.ltb_spec attempt maxAttempts); [|lia].
  unfold Wide.try_catch. rewrite Hact.
  destruct (Z.geb_spec (attempt + 1) maxAttempts); [reflexivity | lia].
Qed.

(** An attempt that returns ends the loop. *)
Lemma wide_retry_returns (fuel : nat) (attempt : Z) (lastErr : Thrown) (r : T)
    (h h1 : History) :
  action h = (Returned r, h1) ->
  (attempt < maxAttempts)%Z ->
  wloop (S fuel) attempt lastErr h = (Returned r, h1).
Proof.
  intros Hact Hlt. cbn [wide_retry_loop].
  destruct (Z.ltb_spec attempt maxAttempts); [|lia].
  unfold Wide.try_catch. rewrite Hact. reflexivity.
Qed.

End WideRetryFacts.

Section BridgeFacts.
Variable ETHEREUM_RPC_URL : string.
Variable penv : ProcessEnv.
Variable world : World.

#[local] Abbreviation burn_on := (burnUSDCOnChain ETHEREUM_RPC_URL penv world).

(** One attempt in a world where the attestation never comes: the burn is
    submitted and confirmed, ten polls and 55 seconds pass, and the poller's
    failure is the attempt's. *)
Lemma burn_attempt_unattested (chainKey walletAddress amount : string) (cfg : BurnConfig)
    (h : History) :
  js_get (BURN_CONFIGS ETHEREUM_RPC_URL penv) chainKey = OwnProperty cfg ->
  burns_unattested world cfg walletAddress amount ->
  exists e steps,
    burn_on chainKey walletAddress amount h = (Threw (ThrownError e), h ++ steps)
    /\ burns steps = 1 /\ mints steps = 0
    /\ slept (narrow_events steps) = 55000%Z.
Proof.
  intros Hchain (Hconnect & Hburn & Hreceipt & Hnever).
  unfold burnUSDCOnChain. cbv zeta. rewrite Hchain.
  cbn [js_not burn_cfg_rpc burn_cfg_chainId chain_id_code default].
  unfold Wide.bind at 1, Wide.narrow at 1, connect, call. rewrite Hconnect. cbn [map app].
  set (h1 := h ++ [Narrow (EvConnect (Some (burn_rpc cfg)) (Some walletAddress))]).
  destruct (Hburn h1) as [tx_hash Hhash].
  unfold Wide.bind at 1, Wide.call at 1. rewrite Hhash.
  set (h2 := h1 ++ [StBurnUSDC walletAddress amount]).
  destruct (Hreceipt h2) as [gasUsed Hgas].
  unfold Wide.bind at 1, Wide.call at 1. rewrite Hgas.
  set (h3 := h2 ++ [StReceipt]).
  destruct (fetchAttestation_never_ready (world_env world h3) (burn_chainId cfg) tx_hash
              (fun i => Hnever h3 tx_hash i)) as [Hpoll Hslept].
  unfold Wide.bind at 1, Wide.narrow at 1. rewrite Hpoll.
  eexists. eexists. split.
  - subst h3 h2 h1. rewrite <- !app_assoc. cbn [app]. reflexivity.
  - split; [|split].
    + change (burns (?a :: ?b :: ?c :: ?d)) with (1 + burns d).
      rewrite burns_map_Narrow. reflexivity.
    + change (mints (?a :: ?b :: ?c :: ?d)) with (mints d). apply mints_map_Narrow.
    + change (narrow_events (?a :: ?b :: ?c :: map Narrow ?tr))
        with (EvConnect (Some (burn_rpc cfg)) (Some walletAddress)
              :: narrow_events (map Narrow tr)).
      rewrite narrow_events_map. unfold slept in *. cbn [delays flat_map sleep_ms app].
      exact Hslept.
Qed.

End BridgeFacts.

(** X17: every retry of the burn route burns again.  In a world where the
    burn itself works (the connection, the submission and the receipt go
    through) but the attestation service never shows a complete first entry,
    a request for a configured chain submits the burn five times, once for
    each attempt of the retry wrapper, never gets to mint, and answers 500
    after 285 seconds of waiting (55 seconds of polling in each attempt and
    1, 2, 3 and 4 seconds between the attempts). *)
Theorem burn_route_burns_again (ETHEREUM_RPC_URL : string) (penv : ProcessEnv)
    (world : World) (chainParam : string) (body : BurnBody) (cfg : BurnConfig)
    (h : History) :
  falsy (body_walletAddress body) || falsy (body_amount body) = false ->
  js_get (BURN_CONFIGS ETHEREUM_RPC_URL penv) (toLowerCase chainParam) = OwnProperty cfg ->
  burns_unattested world cfg (show (body_walletAddress body)) (show (body_amount body)) ->
  exists error more,
    burn_usdc ETHEREUM_RPC_URL penv world chainParam body h
    = (Returned (BurnError 500 error), h ++ more)
    /\ burns more = 5 /\ mints more = 0
    /\ slept (narrow_events more) = 285000%Z.
Proof.
  intros Hgiven Hchain Hworld.
  set (walletAddress := show (body_walletAddress body)) in *.
  set (amount := show (body_amount body)) in *.
  set (action := burnUSDCOnChain ETHEREUM_RPC_URL penv world (toLowerCase chainParam)
                   walletAddress amount).
  assert (Hattempt : forall h0, exists e steps,
             action h0 = (Threw (ThrownError e), h0 ++ steps)
             /\ burns steps = 1 /\ mints steps = 0
             /\ slept (narrow_events steps) = 55000%Z)
    by (intros h0; exact (burn_attempt_unattested ETHEREUM_RPC_URL penv world _ _ _ cfg h0
                            Hchain Hworld)).
  assert (Hloop : exists e more,
             wide_retry_loop world action 5 1000 5 0 ThrownUndefined h
             = (Threw (ThrownError e), h ++ more)
             /\ burns more = 5 /\ mints more = 0
             /\ slept (narrow_events more) = 285000%Z).
  { destruct (Hattempt h) as (e1 & s1 & H1 & B1 & M1 & S1).
    rewrite (wide_retry_again world action 5 1000 4 0 _ _ _ _ H1) by lia.
    destruct (Hattempt ((h ++ s1) ++ [Narrow (EvSleep (1000 * (0 + 1)))]))
      as (e2 & s2 & H2 & B2 & M2 & S2).
    rewrite (wide_retry_again world action 5 1000 3 _ _ _ _ _ H2) by lia.
    destruct (Hattempt ((((h ++ s1) ++ [Narrow (EvSleep (1000 * (0 + 1)))]) ++ s2)
                        ++ [Narrow (EvSleep (1000 * (0 + 1 + 1)))]))
      as (e3 & s3 & H3 & B3 & M3 & S3).
    rewrite (wide_retry_again world action 5 1000 2 _ _ _ _ _ H3) by lia.
    destruct (Hattempt ((((((h ++ s1) ++ [Narrow (EvSleep (1000 * (0 + 1)))]) ++ s2)
                          ++ [Narrow (EvSleep (1000 * (0 + 1 + 1)))]) ++ s3)
                        ++ [Narrow (EvSleep (1000 * (0 + 1 + 1 + 1)))]))
      as (e4 & s4 & H4 & B4 & M4 & S4).
    rewrite (wide_retry_again world action 5 1000 1 _ _ _ _ _ H4) by lia.
    destruct (Hattempt ((((((((h ++ s1) ++ [Narrow (EvSleep (1000 * (0 + 1)))]) ++ s2)
                            ++ [Narrow (EvSleep (1000 * (0 + 1 + 1)))]) ++ s3)
                          ++ [Narrow (EvSleep (1000 * (0 + 1 + 1 + 1)))]) ++ s4)
                        ++ [Narrow (EvSleep (1000 * (0 + 1 + 1 + 1 + 1)))]))
      as (e5 & s5 & H5 & B5 & M5 & S5).
    rewrite (wide_retry_last world action 5 1000 0 _ _ _ _ _ H5) by lia.
    exists e5. eexists. split; [rewrite <- !app_assoc; reflexivity|].
    split; [|split].
    - rewrite !burns_app, B1, B2, B3, B4, B5. reflexivity.
    - rewrite !mints_app, M1, M2, M3, M4, M5. reflexivity.
    - rewrite !narrow_events_app, !slept_app, S1, S2, S3, S4, S5. reflexivity. }
  destruct Hloop as (e & more & Hrun & Hcounts).
  exists (or_internal_error (message e)), more. split; [|exact Hcounts].
  unfold burn_usdc. cbv zeta. rewrite Hgiven, or_empty_Some.
  fold walletAddress amount action.
  unfold wide_runWithRetries. cbn [default opt_maxAttempts opt_baseDelayMs].
  change (Z.to_nat 5) with 5%nat.
  unfold Wide.try_catch, Wide.bind. rewrite Hrun. reflexivity.
Qed.

Lemma burn_route_burns_again_witness :
  exists error more,
    burn_usdc "https://rpc.sepolia.example" deployment stuck_attestation "base"
      (mkBurnBody (Some "0xa11ce"%string) (Some "1000000"%string)) []
    = (Returned (BurnError 500 error), [] ++ more)
    /\ burns more = 5 /\ mints more = 0
    /\ slept (narrow_events more) = 285000%Z.
Proof.
  apply (burn_route_burns_again "https://rpc.sepolia.example" deployment
           stuck_attestation "base"
           (mkBurnBody (Some "0xa11ce"%string) (Some "1000000"%string))
           (mkBurnConfig (BASE_RPC_URL deployment) "Base Sepolia" 6) []);
    [reflexivity | reflexivity |].
  repeat split; intros; try reflexivity; eexists; reflexivity.
Defined.

(** The poller either returns the first entry that a poll found complete,
    or gives up with an error after ten polls. *)
Lemma fetchAttestation_outcome (env : Env) (chainId : Z) (transactionHash : string) :
  (exists m i,
      fetchAttestation env chainId transactionHash []
      = (Returned m, poll_events chainId transactionHash i)
      /\ poll_ready env chainId transactionHash i = Some m)
  \/ (exists e,
        fetchAttestation env chainId transactionHash []
        = (Threw (ThrownError e), poll_events chainId transactionHash 10)).
Proof.
  destruct (ready_dec env chainId transactionHash 10) as [Hsome|Hnone].
  - left. destruct (least_ready env chainId transactionHash 10 Hsome)
      as (i & m & Hi & Hm & Hleast).
    exists m, i. split; [|exact Hm].
    destruct i as [|d]; [lia|].
    apply (fetch_loop_ready env chainId transactionHash d 0 10 m); try lia.
    + intros j Hj. apply Hleast. lia.
    + exact Hm.
  - right. eexists.
    apply (fetch_loop_exhausted env chainId transactionHash 10 0 10 eq_refl (le_n 10)).
    intros j Hj. apply Hnone. lia.
Qed.

Lemma poll_ready_complete (env : Env) (chainId : Z) (transactionHash : string)
    (i : nat) (m : Message) :
  poll_ready env chainId transactionHash i = Some m -> entry_complete m = true.
Proof.
  unfold poll_ready. destruct (poll_answer env chainId transactionHash i) as [data|e];
    [|discriminate].
  unfold ready_attestation, entry_complete.
  destruct (messages data) as [[|first rest]|]; try discriminate.
  destruct (msg_attestation first) as [attestation|] eqn:Ha; [|discriminate].
  destruct (msg_status first) as [status|] eqn:Hs; [|discriminate].
  destruct (negb (attestation =? "")%string && (status =? "complete")%string) eqn:Hc;
    [|discriminate].
  intros H. injection H as <-. rewrite Ha, Hs. exact Hc.
Qed.

Section BridgeBounds.
Variable ETHEREUM_RPC_URL : string.
Variable penv : ProcessEnv.
Variable world : World.

(** Closes a goal about a run that has ended, once the steps done are
    known. *)
Ltac wide_done :=
  eexists; eexists; split; [rewrite <- ?app_assoc; reflexivity|];
  split; [exact I|];
  rewrite ?burns_app, ?mints_app, ?burns_map_Narrow, ?mints_map_Narrow;
  cbn; lia.

Lemma wide_behaves_burnUSDCOnChain (chainKey walletAddress amount : string) :
  wide_behaves 1 (burnUSDCOnChain ETHEREUM_RPC_URL penv world chainKey walletAddress amount).
Proof.
  intros h.
  assert (H : exists o more,
             burnUSDCOnChain ETHEREUM_RPC_URL penv world chainKey walletAddress amount h
             = (o, h ++ more)
             /\ settled o /\ mints more <= burns more <= 1).
  { unfold burnUSDCOnChain. cbv zeta.
    destruct (js_not (js_get (BURN_CONFIGS ETHEREUM_RPC_URL penv) chainKey)).
    { eexists. exists []. rewrite app_nil_r.
      split; [reflexivity | split; [exact I | cbn; lia]]. }
    set (cfg := js_get (BURN_CONFIGS ETHEREUM_RPC_URL penv) chainKey).
    unfold Wide.bind at 1, Wide.narrow at 1, connect, call.
    destruct (env_connect (world_env world h) (burn_cfg_rpc cfg) (Some walletAddress) [])
      as [[]|e]; cbn [app map]; [|wide_done].
    unfold Wide.bind at 1, Wide.call at 1.
    destruct (world_burnUSDC world walletAddress amount _) as [tx_hash|e]; [|wide_done].
    unfold Wide.bind at 1, Wide.call at 1.
    destruct (world_receipt world _) as [gasUsed|e]; [|wide_done].
    unfold Wide.bind at 1, Wide.narrow at 1.
    match goal with |- context [fetchAttestation ?env ?id ?hash []] =>
      destruct (fetchAttestation_outcome env id hash) as [(m & i & -> & _)|(e & ->)]
    end; [|wide_done].
    unfold mintOnArbitrum.
    unfold Wide.bind at 1 2, Wide.narrow at 1, connect, call.
    destruct (env_connect (world_env world _) _ _ []) as [[]|e]; cbn [app map];
      [|wide_done].
    unfold Wide.bind at 1, Wide.call at 1.
    destruct (world_receiveMessage world _ _ _) as [mint_hash|e]; [|wide_done].
    unfold Wide.bind at 1, Wide.call at 1.
    destruct (world_receipt world _) as [mint_gas|e]; [|wide_done].
    unfold Wide.bind, Wide.ret. wide_done. }
  destruct H as (o & more & -> & Hs & Hc). cbn [fst snd].
  split; [exact Hs | exists more; split; [reflexivity | exact Hc]].
Qed.

(** Closes a goal about the first step of a run that has ended. *)
Ltac wide_first := eexists; eexists; rewrite <- ?app_assoc; reflexivity.

(** With anything at all under the chain key, the handler begins by
    constructing a client for the wallet. *)
Lemma burnUSDCOnChain_connects (chainKey walletAddress amount : string) (h : History) :
  js_not (js_get (BURN_CONFIGS ETHEREUM_RPC_URL penv) chainKey) = false ->
  exists more,
    snd (burnUSDCOnChain ETHEREUM_RPC_URL penv world chainKey walletAddress amount h)
    = h ++ Narrow (EvConnect
                     (burn_cfg_rpc (js_get (BURN_CONFIGS ETHEREUM_RPC_URL penv) chainKey))
                     (Some walletAddress)) :: more.
Proof.
  intros Hcfg.
  assert (H : exists o more,
             burnUSDCOnChain ETHEREUM_RPC_URL penv world chainKey walletAddress amount h
             = (o, h ++ Narrow (EvConnect
                     (burn_cfg_rpc (js_get (BURN_CONFIGS ETHEREUM_RPC_URL penv) chainKey))
                     (Some walletAddress)) :: more)).
  { unfold burnUSDCOnChain. cbv zeta. rewrite Hcfg.
    set (cfg := js_get (BURN_CONFIGS ETHEREUM_RPC_URL penv) chainKey).
    unfold Wide.bind at 1, Wide.narrow at 1, connect, call.
    destruct (env_connect (world_env world h) (burn_cfg_rpc cfg) (Some walletAddress) [])
      as [[]|e]; cbn [app map]; [|wide_first].
    unfold Wide.bind at 1, Wide.call at 1.
    destruct (world_burnUSDC world walletAddress amount _) as [tx_hash|e]; [|wide_first].
    unfold Wide.bind at 1, Wide.call at 1.
    destruct (world_receipt world _) as [gasUsed|e]; [|wide_first].
    unfold Wide.bind at 1, Wide.narrow at 1.
    match goal with |- context [fetchAttestation ?env ?id ?hash []] =>
      destruct (fetchAttestation env id hash []) as [[m|t|] polled]
    end; [|wide_first|wide_first].
    unfold mintOnArbitrum.
    unfold Wide.bind at 1 2, Wide.narrow at 1, connect, call.
    destruct (env_connect (world_env world _) _ _ []) as [[]|e]; cbn [app map];
      [|wide_first].
    unfold Wide.bind at 1, Wide.call at 1.
    destruct (world_receiveMessage world _ _ _) as [mint_hash|e]; [|wide_first].
    unfold Wide.bind at 1, Wide.call at 1.
    destruct (world_receipt world _) as [mint_gas|e]; [|wide_first].
    unfold Wide.bind, Wide.ret. wide_first. }
  destruct H as (o & more & ->). exists more. reflexivity.
Qed.

Lemma wide_behaves_retry {T} (action : Wide.W T) (maxAttempts baseDelayMs : Z) :
  wide_behaves 1 action ->
  forall (fuel : nat) (attempt : Z) (lastErr : Thrown) (h : History),
    (attempt < maxAttempts)%Z ->
    (Z.to_nat (maxAttempts - attempt) <= fuel) ->
    let run := wide_retry_loop world action maxAttempts baseDelayMs fuel attempt lastErr h in
    settled (fst run)
    /\ exists more, snd run = h ++ more
                    /\ mints more <= burns more <= Z.to_nat (maxAttempts - attempt).
Proof.
  intros Haction fuel. induction fuel as [|fuel IH]; intros attempt lastErr h Hlt Hfuel;
    [lia|].
  cbv zeta. cbn [wide_retry_loop].
  destruct (Z.ltb_spec attempt maxAttempts); [|lia].
  unfold Wide.try_catch.
  destruct (Haction h) as [Hsettled (steps & Hsteps & Hcount)].
  destruct (action h) as [[r|[|e]|] h1]; cbn [fst snd settled] in *; try contradiction.
  - split; [exact I|]. exists steps. split; [exact Hsteps|]. lia.
  - destruct (Z.geb_spec (attempt + 1) maxAttempts) as [Hlast|Hmore].
    + cbn [Wide.throw fst snd settled]. split; [exact I|].
      exists steps. split; [exact Hsteps|]. lia.
    + unfold Wide.bind, Wide.narrow, sleep, emit. cbn [map app].
      specialize (IH (attempt + 1)%Z (ThrownError e)
                     (h1 ++ [Narrow (EvSleep (baseDelayMs * (attempt + 1)))])
                     ltac:(lia) ltac:(lia)).
      cbv zeta in IH. destruct IH as [Hs (more & Hmore' & Hcount')].
      split; [exact Hs|].
      exists (steps ++ [Narrow (EvSleep (baseDelayMs * (attempt + 1)))] ++ more).
      split.
      * rewrite Hmore', Hsteps, <- !app_assoc. reflexivity.
      * rewrite !burns_app, !mints_app.
        change (burns [Narrow (EvSleep (baseDelayMs * (attempt + 1)))]) with 0.
        change (mints [Narrow (EvSleep (baseDelayMs * (attempt + 1)))]) with 0.
        lia.
Qed.

(** So does the route, when the request has its fields and the chain key
    finds anything at all. *)
Lemma burn_usdc_connects (chainParam : string) (body : BurnBody) (h : History) :
  falsy (body_walletAddress body) || falsy (body_amount body) = false ->
  js_not (js_get (BURN_CONFIGS ETHEREUM_RPC_URL penv) (toLowerCase chainParam)) = false ->
  exists more,
    snd (burn_usdc ETHEREUM_RPC_URL penv world chainParam body h)
    = h ++ Narrow (EvConnect
                     (burn_cfg_rpc (js_get (BURN_CONFIGS ETHEREUM_RPC_URL penv)
                                           (toLowerCase chainParam)))
                     (Some (show (body_walletAddress body)))) :: more.
Proof.
  intros Hgiven Hcfg. unfold burn_usdc. cbv zeta. rewrite Hgiven, or_empty_Some.
  set (handler := burnUSDCOnChain ETHEREUM_RPC_URL penv world (toLowerCase chainParam)
                    (show (body_walletAddress body)) (show (body_amount body))).
  assert (Hloop : exists more,
             snd (wide_runWithRetries world handler (mkOptions (Some 5%Z) (Some 1000%Z)) h)
             = h ++ Narrow (EvConnect
                     (burn_cfg_rpc (js_get (BURN_CONFIGS ETHEREUM_RPC_URL penv)
                                           (toLowerCase chainParam)))
                     (Some (show (body_walletAddress body)))) :: more).
  { unfold wide_runWithRetries. cbn [default opt_maxAttempts opt_baseDelayMs].
    change (wide_retry_loop world handler 5 1000 (Z.to_nat 5) 0 ThrownUndefined h)
      with (Wide.try_catch handler
              (fun err => Wide.bind (Wide.narrow world (fun _ => sleep 1000))
                            (fun _ => wide_retry_loop world handler 5 1000 4 1 err)) h).
    unfold Wide.try_catch.
    destruct (burnUSDCOnChain_connects (toLowerCase chainParam)
                (show (body_walletAddress body)) (show (body_amount body)) h Hcfg)
      as [first Hfirst].
    fold handler in Hfirst.
    destruct (handler h) as [[r|t|] h1] eqn:Hrun; cbn [snd] in Hfirst;
      [exists first; exact Hfirst | | exists first; exact Hfirst].
    unfold Wide.bind, Wide.narrow, sleep, emit. cbn [map app].
    destruct (wide_behaves_retry handler 5 1000
                (wide_behaves_burnUSDCOnChain _ _ _) 4 1%Z t
                (h1 ++ [Narrow (EvSleep 1000)]) ltac:(lia) ltac:(cbn; lia))
      as [_ (more & Hmore & _)].
    cbv zeta in Hmore. rewrite Hmore, Hfirst. rewrite <- !app_assoc. cbn [app].
    eexists. reflexivity. }
  destruct Hloop as [more Hmore].
  unfold Wide.try_catch, Wide.bind.
  destruct (wide_runWithRetries world handler (mkOptions (Some 5%Z) (Some 1000%Z)) h)
    as [[r|[|e]|] h1]; cbn [snd Wide.message_of] in *; exists more; exact Hmore.
Qed.

End BridgeBounds.

(** X16: asking the burn route for a chain, given in ASCII text, whose
    lower-cased name is no property of [BURN_CONFIGS] at all, neither its own
    nor one inherited from [Object.prototype] (arbitrum, say, or a misspelt
    name), costs ten seconds and touches no network: the lookup that fails is
    retried like a network error, five times with waits of 1, 2, 3 and 4
    seconds in between, before the route answers 500 with the message that
    names the chain; and a request that lacks the wallet address or the
    amount is answered 400 at once.  A name that [BURN_CONFIGS] inherits
    ("constructor", say) is not turned away: the lookup finds something and
    the first thing the route does is to construct a client for the wallet,
    with an undefined URL. *)
Theorem burn_route_unsupported_chain (ETHEREUM_RPC_URL : string) (penv : ProcessEnv)
    (world : World) (chainParam : string) (body : BurnBody) (h : History) :
  ascii_only chainParam = true ->
  (falsy (body_walletAddress body) || falsy (body_amount body) = true ->
   burn_usdc ETHEREUM_RPC_URL penv world chainParam body h
   = (Returned (BurnError 400 "walletAddress and amount are required"), h))
  /\ (falsy (body_walletAddress body) || falsy (body_amount body) = false ->
      js_get (BURN_CONFIGS ETHEREUM_RPC_URL penv) (toLowerCase chainParam) = NoProperty ->
      burn_usdc ETHEREUM_RPC_URL penv world chainParam body h
      = (Returned (BurnError 500
                     ("Unsupported chain " ++ toLowerCase chainParam
                      ++ ". Use eth, base, avalanche.")),
         h ++ map Narrow [EvSleep 1000; EvSleep 2000; EvSleep 3000; EvSleep 4000]))
  /\ (falsy (body_walletAddress body) || falsy (body_amount body) = false ->
      js_get (BURN_CONFIGS ETHEREUM_RPC_URL penv) (toLowerCase chainParam)
      = InheritedProperty ->
      exists more,
        snd (burn_usdc ETHEREUM_RPC_URL penv world chainParam body h)
        = h ++ Narrow (EvConnect None (Some (show (body_walletAddress body)))) :: more).
Proof.
  intros _. split; [|split].
  - intros Hmissing. unfold burn_usdc, Wide.try_catch. cbv zeta. rewrite Hmissing.
    reflexivity.
  - intros Hgiven Hchain. unfold burn_usdc. cbv zeta. rewrite Hgiven, or_empty_Some.
    unfold wide_runWithRetries, burnUSDCOnChain. cbv zeta. rewrite Hchain.
    cbn [js_not default opt_maxAttempts opt_baseDelayMs].
    change (Z.to_nat 5) with 5%nat.
    unfold Wide.try_catch, Wide.bind, Wide.narrow, Wide.throwError, Wide.throw, sleep, emit.
    cbn. rewrite <- !app_assoc. reflexivity.
  - intros Hgiven Hchain.
    destruct (burn_usdc_connects ETHEREUM_RPC_URL penv world chainParam body h Hgiven)
      as [more Hmore]; [rewrite Hchain; reflexivity|].
    rewrite Hchain in Hmore. exists more. exact Hmore.
Qed.

Lemma burn_route_unsupported_chain_witness :
  burn_usdc "https://rpc.sepolia.example" deployment stuck_attestation "Arbitrum"
    (mkBurnBody (Some "0xa11ce"%string) (Some "1000000"%string)) []
  = (Returned (BurnError 500 "Unsupported chain arbitrum. Use eth, base, avalanche."),
     map Narrow [EvSleep 1000; EvSleep 2000; EvSleep 3000; EvSleep 4000])
  /\ (exists more,
        snd (burn_usdc "https://rpc.sepolia.example" deployment stuck_attestation
               "Constructor"
               (mkBurnBody (Some "0xa11ce"%string) (Some "1000000"%string)) [])
        = [] ++ Narrow (EvConnect None (Some "0xa11ce"%string)) :: more).
Proof.
  split.
  - apply (burn_route_unsupported_chain "https://rpc.sepolia.example" deployment
             stuck_attestation "Arbitrum"
             (mkBurnBody (Some "0xa11ce"%string) (Some "1000000"%string)) []);
      reflexivity.
  - apply (burn_route_unsupported_chain "https://rpc.sepolia.example" deployment
             stuck_attestation "Constructor"
             (mkBurnBody (Some "0xa11ce"%string) (Some "1000000"%string)) []);
      reflexivity.
Defined.


(** X18: the burn route always answers, and is bounded, whatever the chains
    and the attestation service do.  For every world and every request,
    [POST /api/burn-usdc/:chain] ends with a response (it never throws and
    never hangs), having only added to the history: it submitted at most five
    burns and never more mints than burns; a response that is not the result
    of a burn has status 400 or 500. *)
Theorem burn_route_bounded (ETHEREUM_RPC_URL : string) (penv : ProcessEnv)
    (world : World) (chainParam : string) (body : BurnBody) (h : History) :
  exists reply more,
    burn_usdc ETHEREUM_RPC_URL penv world chainParam body h = (Returned reply, h ++ more)
    /\ mints more <= burns more <= 5
    /\ match reply with
       | BurnJson _ => True
       | BurnError status _ => status = 400%Z \/ status = 500%Z
       end.
Proof.
  unfold burn_usdc. cbv zeta.
  destruct (falsy (body_walletAddress body) || falsy (body_amount body)).
  { eexists. exists []. rewrite app_nil_r. cbn.
    split; [reflexivity | split; [lia | left; reflexivity]]. }
  unfold wide_runWithRetries. cbn [default opt_maxAttempts opt_baseDelayMs].
  pose proof (wide_behaves_retry world _ 5 1000
                (wide_behaves_burnUSDCOnChain ETHEREUM_RPC_URL penv world
                   (toLowerCase (or_empty (Some chainParam)))
                   (show (body_walletAddress body)) (show (body_amount body)))
                (Z.to_nat 5) 0 ThrownUndefined h ltac:(lia) ltac:(lia)) as H.
  cbv zeta in H. destruct H as [Hsettled (more & Hmore & Hcount)].
  unfold Wide.try_catch, Wide.bind.
  destruct (wide_retry_loop _ _ _ _ _ _ _ h) as [[r|[|e]|] h1];
    cbn [fst snd settled] in *; try contradiction; subst h1.
  - eexists. exists more. cbn. split; [reflexivity | split; [lia | exact I]].
  - eexists. exists more. cbn. split; [reflexivity | split; [lia | right; reflexivity]].
Qed.

(** What the retry wrapper returns, its last attempt returned. *)
Lemma wide_retry_returned {T} (world : World) (action : Wide.W T)
    (maxAttempts baseDelayMs : Z) (fuel : nat) :
  forall (attempt : Z) (lastErr : Thrown) (h h' : History) (r : T),
    wide_retry_loop world action maxAttempts baseDelayMs fuel attempt lastErr h
    = (Returned r, h') ->
    exists h0, action h0 = (Returned r, h').
Proof.
  induction fuel as [|fuel IH]; intros attempt lastErr h h' r; cbn [wide_retry_loop];
    destruct (attempt <? maxAttempts)%Z; try discriminate.
  unfold Wide.try_catch. destruct (action h) as [[r0|t|] h1] eqn:Hact; try discriminate.
  - intros H. injection H as <- <-. exists h. exact Hact.
  - destruct (attempt + 1 >=? maxAttempts)%Z; [discriminate|].
    unfold Wide.bind, Wide.narrow, sleep, emit. cbn [map app]. apply IH.
Qed.

(** A burn that returns did everything once, in order: it connected to the
    chain, burned, got the receipt, polled until the first entry was
    complete, connected to Arbitrum, submitted the mint with the message and
    the attestation of that entry, and got the receipt. *)
Lemma burnUSDCOnChain_returned (ETHEREUM_RPC_URL : string) (penv : ProcessEnv)
    (world : World) (chainKey walletAddress amount : string) (h h' : History)
    (r : BurnResult) :
  burnUSDCOnChain ETHEREUM_RPC_URL penv world chainKey walletAddress amount h
  = (Returned r, h') ->
  let cfg := js_get (BURN_CONFIGS ETHEREUM_RPC_URL penv) chainKey in
  let chainId := chain_id_code (burn_cfg_chainId cfg) in
  let burning := [Narrow (EvConnect (burn_cfg_rpc cfg) (Some walletAddress));
                  StBurnUSDC walletAddress amount; StReceipt] in
  exists (msg : Message) (i : nat),
    world_burnUSDC world walletAddress amount
      (h ++ [Narrow (EvConnect (burn_cfg_rpc cfg) (Some walletAddress))])
    = Ok (result_transactionHash r)
    /\ poll_ready (world_env world (h ++ burning)) chainId (result_transactionHash r) i
       = Some msg
    /\ h' = h ++ burning
              ++ map Narrow (poll_events chainId (result_transactionHash r) i)
              ++ [Narrow (EvConnect (Some (ARBITRUM_RPC_URL penv))
                                    (Some messageTransmitter));
                  StReceiveMessage (msg_message msg) (msg_attestation msg);
                  StReceipt]
    /\ result_attestation r = msg_attestation msg
    /\ result_chain r = chainKey
    /\ result_walletAddress r = walletAddress
    /\ result_amountBurned r = amount
    /\ mint_chain (result_arbitrumMint r) = "arbitrum"%string.
Proof.
  unfold burnUSDCOnChain. cbv zeta.
  destruct (js_not (js_get (BURN_CONFIGS ETHEREUM_RPC_URL penv) chainKey));
    [discriminate|].
  set (cfg := js_get (BURN_CONFIGS ETHEREUM_RPC_URL penv) chainKey).
  unfold Wide.bind at 1, Wide.narrow at 1, connect, call.
  destruct (env_connect (world_env world h) (burn_cfg_rpc cfg) (Some walletAddress) [])
    as [[]|e]; cbn [app map]; [|discriminate].
  unfold Wide.bind at 1, Wide.call at 1.
  destruct (world_burnUSDC world walletAddress amount _) as [tx_hash|e] eqn:Hburn;
    [|discriminate].
  unfold Wide.bind at 1, Wide.call at 1.
  destruct (world_receipt world _) as [gasUsed|e]; [|discriminate].
  unfold Wide.bind at 1, Wide.narrow at 1.
  match goal with |- context [fetchAttestation ?env ?id ?hash []] =>
    destruct (fetchAttestation_outcome env id hash) as [(m & i & -> & Hready)|(e & ->)]
  end; [|discriminate].
  unfold mintOnArbitrum.
  unfold Wide.bind at 1 2, Wide.narrow at 1, connect, call.
  destruct (env_connect (world_env world _) _ _ []) as [[]|e]; cbn [app map];
    [|discriminate].
  unfold Wide.bind at 1, Wide.call at 1.
  destruct (world_receiveMessage world _ _ _) as [mint_hash|e]; [|discriminate].
  unfold Wide.bind at 1, Wide.call at 1.
  destruct (world_receipt world _) as [mint_gas|e]; [|discriminate].
  unfold Wide.bind, Wide.ret. intros H. injection H as <- <-.
  cbn [result_transactionHash result_attestation result_chain result_walletAddress
       result_amountBurned result_arbitrumMint mint_chain].
  exists m, i. rewrite <- !app_assoc in Hready. cbn [app] in Hready.
  split; [reflexivity|]. split; [exact Hready|].
  split; [rewrite <- !app_assoc; reflexivity|].
  repeat split.
Qed.

(** X19: a 200 answer of the burn route reports a burn that was attested and
    handed in for minting.  When the route answers with a result, its last
    attempt did everything once and in order, and nothing came after it: it
    connected to the chain and submitted the burn of the requested amount
    from the requested wallet, whose transaction hash the result reports; it
    polled the attestation service for that chain and hash until the first
    entry was complete with an attestation; and it handed the message and the
    attestation of that entry, which the result reports, to the message
    transmitter on Arbitrum. *)
Theorem burn_route_success (ETHEREUM_RPC_URL : string) (penv : ProcessEnv)
    (world : World) (chainParam : string) (body : BurnBody) (h h' : History)
    (r : BurnResult) :
  burn_usdc ETHEREUM_RPC_URL penv world chainParam body h = (Returned (BurnJson r), h') ->
  let walletAddress := show (body_walletAddress body) in
  let amount := show (body_amount body) in
  let cfg := js_get (BURN_CONFIGS ETHEREUM_RPC_URL penv) (toLowerCase chainParam) in
  let chainId := chain_id_code (burn_cfg_chainId cfg) in
  let burning := [Narrow (EvConnect (burn_cfg_rpc cfg) (Some walletAddress));
                  StBurnUSDC walletAddress amount; StReceipt] in
  exists (h0 : History) (msg : Message) (i : nat),
    world_burnUSDC world walletAddress amount
      (h0 ++ [Narrow (EvConnect (burn_cfg_rpc cfg) (Some walletAddress))])
    = Ok (result_transactionHash r)
    /\ poll_ready (world_env world (h0 ++ burning)) chainId (result_transactionHash r) i
       = Some msg
    /\ entry_complete msg = true
    /\ h' = h0 ++ burning
               ++ map Narrow (poll_events chainId (result_transactionHash r) i)
               ++ [Narrow (EvConnect (Some (ARBITRUM_RPC_URL penv))
                                     (Some messageTransmitter));
                   StReceiveMessage (msg_message msg) (msg_attestation msg);
                   StReceipt]
    /\ result_attestation r = msg_attestation msg
    /\ result_chain r = toLowerCase chainParam
    /\ result_walletAddress r = walletAddress
    /\ result_amountBurned r = amount.
Proof.
  unfold burn_usdc. cbv zeta. rewrite or_empty_Some.
  destruct (falsy (body_walletAddress body) || falsy (body_amount body));
    [discriminate|].
  unfold wide_runWithRetries. cbn [default opt_maxAttempts opt_baseDelayMs].
  unfold Wide.try_catch, Wide.bind.
  destruct (wide_retry_loop _ _ _ _ _ _ _ h) as [[r0|[|e]|] h1] eqn:Hloop;
    cbn [Wide.ret Wide.message_of Wide.throwError Wide.throw]; try discriminate.
  intros H. injection H as <- <-.
  destruct (wide_retry_returned _ _ _ _ _ _ _ _ _ _ Hloop) as [h0 Hattempt].
  destruct (burnUSDCOnChain_returned _ _ _ _ _ _ _ _ _ Hattempt)
    as (msg & i & Hburn & Hready & Hshape & Hatt & Hchain & Hwallet & Hamount & _).
  exists h0, msg, i.
  split; [exact Hburn|]. split; [exact Hready|].
  split; [exact (poll_ready_complete _ _ _ _ _ Hready)|].
  split; [exact Hshape|]. repeat split; assumption.
Qed.

Lemma burn_route_success_witness :
  let r := mkBurnResult "base" "0xb0b" "21000" "0xa11ce" "1000000" (Some "0xa77e57"%string)
             (mkMintResult "arbitrum" "0xa4b" "21000") in
  let burning := [Narrow (EvConnect (Some "https://base.example"%string)
                                    (Some "0xa11ce"%string));
                  StBurnUSDC "0xa11ce" "1000000"; StReceipt] in
  let h' := burning
            ++ [Narrow (EvSleep 10000); Narrow (EvFetch 6 "0xb0b");
                Narrow (EvConnect (Some "https://arbitrum.example"%string)
                                  (Some messageTransmitter));
                StReceiveMessage (Some "0x00"%string) (Some "0xa77e57"%string);
                StReceipt] in
  exists (h0 : History) (msg : Message) (i : nat),
    world_burnUSDC bridge_works "0xa11ce" "1000000"
      (h0 ++ [Narrow (EvConnect (Some "https://base.example"%string)
                                (Some "0xa11ce"%string))])
    = Ok "0xb0b"%string
    /\ poll_ready (world_env bridge_works (h0 ++ burning)) 6 "0xb0b" i = Some msg
    /\ entry_complete msg = true
    /\ h' = h0 ++ burning
               ++ map Narrow (poll_events 6 "0xb0b" i)
               ++ [Narrow (EvConnect (Some "https://arbitrum.example"%string)
                                     (Some messageTransmitter));
                   StReceiveMessage (msg_message msg) (msg_attestation msg);
                   StReceipt]
    /\ result_attestation r = msg_attestation msg
    /\ result_chain r = "base"%string
    /\ result_walletAddress r = "0xa11ce"%string
    /\ result_amountBurned r = "1000000"%string.
Proof.
  intros r burning h'.
  apply (burn_route_success "https://rpc.sepolia.example" deployment bridge_works "Base"
           (mkBurnBody (Some "0xa11ce"%string) (Some "1000000"%string)) [] h' r).
  reflexivity.
Defined.

(** * Part XI: properties of the database routes                          *)

Lemma push_fields_spec (columns : list (string * option Json)) :
  forall (fields : list string) (values : list Json) (n : Z),
    push_fields columns (fields, values, n)
    = (fields ++ assignments n (provided columns),
       values ++ map snd (provided columns),
       (n + Z.of_nat (length (provided columns)))%Z).
Proof.
  unfold push_fields.
  induction columns as [|[column [v|]] rest IH]; intros fields values n;
    cbn [fold_left provided flat_map fst snd push_field app].
  - rewrite !app_nil_r, Z.add_0_r. reflexivity.
  - rewrite IH. fold (provided rest). cbn [assignments map length].
    rewrite <- !app_assoc. cbn [app]. f_equal. lia.
  - rewrite IH. reflexivity.
Qed.

Lemma nth_error_assignments (given : list (string * Json)) :
  forall (n : Z) (i : nat) (column : string) (v : Json),
    nth_error given i = Some (column, v) ->
    nth_error (assignments n given) i
    = Some (column ++ " = $" ++ decimal_text (n + 1 + Z.of_nat i))%string.
Proof.
  induction given as [|[c w] rest IH]; intros n i column v H; destruct i as [|i];
    cbn [nth_error assignments] in *; try discriminate.
  - injection H as -> _. rewrite Z.add_0_r. reflexivity.
  - rewrite (IH (n + 1)%Z i column v H).
    replace (n + 1 + Z.of_nat (S i))%Z with (n + 1 + 1 + Z.of_nat i)%Z by lia.
    reflexivity.
Qed.

Lemma decimal_text_digit (n : Z) :
  (0 <= n < 10)%Z -> decimal_text n = String (ascii_of_nat (48 + Z.to_nat n)) "".
Proof.
  intros H. unfold decimal_text. cbn [decimal_digits].
  rewrite Z.mod_small by lia. destruct (Z.ltb_spec n 10); [reflexivity | lia].
Qed.

(** X20: the parameters of an UPDATE line up with its placeholders, for
    every choice of fields.  In the update of a user (and likewise of a
    request), with the columns that the body defines taken in order, the i-th
    assignment of the SET clause (from 0) is [column = $k] with k = i + 2 in
    decimal, the value that the database gets for [$k] is the body's value for
    that column, [$1] gets the key of the WHERE clause, and there are exactly
    as many assignments as defined columns and one parameter more. *)
Theorem update_parameters_line_up (key : Json) :
  (forall body : UserBody,
      let '(fields, values, _) := user_updates key body in
      let given := provided (user_columns body) in
      length fields = length given
      /\ length values = S (length given)
      /\ parameter values 1 = Some key
      /\ forall i column v,
           nth_error given i = Some (column, v) ->
           nth_error fields i
           = Some (column ++ " = $" ++ String (ascii_of_nat (48 + (i + 2))) "")%string
           /\ parameter values (i + 2) = Some v)
  /\ (forall body : RequestBody,
        let '(fields, values, _) := request_updates key body in
        let given := provided (request_columns body) in
        length fields = length given
        /\ length values = S (length given)
        /\ parameter values 1 = Some key
        /\ forall i column v,
             nth_error given i = Some (column, v) ->
             nth_error fields i
             = Some (column ++ " = $" ++ String (ascii_of_nat (48 + (i + 2))) "")%string
             /\ parameter values (i + 2) = Some v).
Proof.
  assert (Hgeneric : forall columns,
             length columns <= 4 ->
             let '(fields, values, _) := push_fields columns ([], [key], 1%Z) in
             let given := provided columns in
             length fields = length given
             /\ length values = S (length given)
             /\ parameter values 1 = Some key
             /\ forall i column v,
                  nth_error given i = Some (column, v) ->
                  nth_error fields i
                  = Some (column ++ " = $" ++ String (ascii_of_nat (48 + (i + 2))) "")%string
                  /\ parameter values (i + 2) = Some v).
  { intros columns Hshort. rewrite push_fields_spec. cbn [app]. cbv zeta.
    assert (Hgiven : length (provided columns) <= 4).
    { clear key. revert Hshort. generalize 4.
      induction columns as [|[c [v|]] rest IH]; intros k Hk; cbn in *; [lia| |].
      - destruct k as [|k]; [lia|]. specialize (IH k ltac:(lia)).
        fold (provided rest). lia.
      - destruct k as [|k]; [lia|]. specialize (IH k ltac:(lia)).
        fold (provided rest). lia. }
    split; [|split; [|split]].
    - generalize 1%Z. induction (provided columns) as [|[c w] rest IH]; intros n;
        [reflexivity|]. cbn [assignments length]. f_equal.
      apply IH. cbn in Hgiven. lia.
    - cbn [length]. rewrite length_map. reflexivity.
    - reflexivity.
    - intros i column v Hi.
      assert (Hlt : i < 4).
      { assert (i < length (provided columns))
          by (apply nth_error_Some; rewrite Hi; discriminate).
        lia. }
      split.
      + rewrite (nth_error_assignments _ 1 i column v Hi).
        rewrite decimal_text_digit by lia.
        replace (Z.to_nat (1 + 1 + Z.of_nat i)) with (i + 2) by lia.
        reflexivity.
      + replace (i + 2) with (S (S i)) by lia. cbn [parameter nth_error].
        rewrite nth_error_map, Hi. reflexivity. }
  split; intros body.
  - exact (Hgeneric (user_columns body) (le_n 4)).
  - exact (Hgeneric (request_columns body) (le_S _ _ (le_n 3))).
Qed.

Lemma update_parameters_line_up_witness :
  let body := mkUserBody None None (Some (JBool true)) None (Some (JString "0xd35")) in
  let '(fields, values, _) := user_updates (JString "ada@example.org") body in
  nth_error fields 1 = Some "destined_address = $3"%string
  /\ parameter values 3 = Some (JString "0xd35").
Proof.
  exact (proj2 (proj2 (proj2
           (proj1 (update_parameters_line_up (JString "ada@example.org"))
                  (mkUserBody None None (Some (JBool true)) None (Some (JString "0xd35"))))))
           1 "destined_address"%string (JString "0xd35") eq_refl).
Defined.

Lemma queries_app (a b : History) : queries (a ++ b) = queries a + queries b.
Proof. unfold queries. rewrite filter_app, length_app. reflexivity. Qed.

Section DatabaseFacts.
Variable world : World.

(** Closes a goal about a handler that has ended, once its steps are known. *)
Ltac db_done :=
  eexists; eexists; split; [rewrite <- ?app_assoc; reflexivity|];
  split; [exact I|];
  split; [cbn; lia|];
  split; [reflexivity|];
  intros reply Hreply; first [discriminate Hreply | injection Hreply as <-; cbn; tauto].

Ltac db_query :=
  unfold Wide.bind at 1, query at 1, Wide.call at 1;
  match goal with
  | |- context [world_query world ?s ?v ?h] =>
      let rows := fresh "rows" in
      let e := fresh "e" in
      destruct (world_query world s v h) as [rows|e]; [|db_done]
  end.

Lemma db_behaves_ret (reply : DbReply) :
  In (db_status reply) [200; 201; 400; 404]%Z -> db_behaves 0 (Wide.ret reply).
Proof.
  intros Hstatus h. exists (Returned reply), []. rewrite app_nil_r.
  split; [reflexivity|]. split; [exact I|]. split; [cbn; lia|]. split; [reflexivity|].
  intros r H. injection H as <-. exact Hstatus.
Qed.

Lemma db_behaves_weaken (q q' : nat) (c : Wide.W DbReply) :
  q <= q' -> db_behaves q c -> db_behaves q' c.
Proof.
  intros Hle Hc h. destruct (Hc h) as (o & more & Hrun & Hs & Hq & Hn & Hgood).
  exists o, more. split; [exact Hrun|]. split; [exact Hs|]. split; [lia|].
  split; [exact Hn | exact Hgood].
Qed.

Lemma db_behaves_update_user (key : Json) (body : UserBody) :
  db_behaves 1 (update_user world key body).
Proof.
  intros h. unfold update_user.
  destruct (user_updates key body) as [[fields values] n].
  destruct (length fields =? 0).
  - apply (db_behaves_weaken 0 1); [lia|]. apply db_behaves_ret. cbn. tauto.
  - db_query. unfold Wide.ret. db_done.
Qed.

(** Runs a handler that behaves after a first query that went through. *)
Lemma db_behaves_after_query (statement : Sql) (values : list Json)
    (k : list Json -> Wide.W DbReply) :
  (forall rows, db_behaves 1 (k rows)) ->
  db_behaves 2 (Wide.bind (query world statement values) k).
Proof.
  intros Hk h. unfold Wide.bind, query, Wide.call.
  destruct (world_query world statement values h) as [rows|e].
  - destruct (Hk rows (h ++ [StQuery statement values]))
      as (o & more & Hrun & Hs & Hq & Hn & Hgood).
    rewrite Hrun. exists o, ([StQuery statement values] ++ more).
    split; [rewrite <- app_assoc; reflexivity|]. split; [exact Hs|].
    split; [rewrite queries_app; cbn; lia|].
    split; [rewrite narrow_events_app, Hn; reflexivity | exact Hgood].
  - db_done.
Qed.

(** The retry wrapper around a handler, as the routes call it: at most ten
    queries and five seconds of waiting. *)
Lemma db_retry_loop (action : Wide.W DbReply) :
  db_behaves 2 action ->
  forall (fuel : nat) (attempt : Z) (lastErr : Thrown) (h : History),
    (0 <= attempt < 5)%Z ->
    (Z.to_nat (5 - attempt) <= fuel) ->
    exists outcome more,
      wide_retry_loop world action 5 500 fuel attempt lastErr h = (outcome, h ++ more)
      /\ settled outcome
      /\ queries more <= 2 * Z.to_nat (5 - attempt)
      /\ (slept (narrow_events more) <= 250 * (20 - attempt * (attempt + 1)))%Z
      /\ forall reply, outcome = Returned reply ->
                       In (db_status reply) [200; 201; 400; 404]%Z.
Proof.
  intros Haction fuel. induction fuel as [|fuel IH]; intros attempt lastErr h Ha Hfuel;
    [lia|].
  cbn [wide_retry_loop]. destruct (Z.ltb_spec attempt 5); [|lia].
  unfold Wide.try_catch.
  destruct (Haction h) as (o & steps & Hrun & Hs & Hq & Hn & Hgood). rewrite Hrun.
  assert (Hsteps : slept (narrow_events steps) = 0%Z) by (rewrite Hn; reflexivity).
  destruct o as [r|[|e]|]; cbn [settled] in Hs; try contradiction.
  - exists (Returned r), steps. split; [reflexivity|]. split; [exact I|].
    split; [lia|]. split; [rewrite Hsteps; nia | exact Hgood].
  - destruct (Z.geb_spec (attempt + 1) 5) as [Hlast|Hmore].
    + exists (Threw (ThrownError e)), steps. cbn [Wide.throw].
      split; [reflexivity|]. split; [exact I|].
      split; [lia|]. split; [rewrite Hsteps; nia | discriminate].
    + unfold Wide.bind, Wide.narrow, sleep, emit. cbn [map app].
      destruct (IH (attempt + 1)%Z (ThrownError e)
                   ((h ++ steps) ++ [Narrow (EvSleep (500 * (attempt + 1)))])
                   ltac:(lia) ltac:(lia))
        as (o' & more & Hloop & Hs' & Hq' & Hw' & Hgood').
      rewrite Hloop.
      exists o', (steps ++ [Narrow (EvSleep (500 * (attempt + 1)))] ++ more).
      split; [rewrite <- !app_assoc; reflexivity|]. split; [exact Hs'|].
      split; [rewrite !queries_app; cbn [queries filter is_query length]; lia|].
      split; [|exact Hgood'].
      rewrite !narrow_events_app, !slept_app, Hsteps.
      change (slept (narrow_events [Narrow (EvSleep (500 * (attempt + 1)))]))
        with (500 * (attempt + 1) + 0)%Z.
      nia.
Qed.

(** A route that retries a handler and sends its outcome. *)
Lemma retried_route (handler : Wide.W DbReply) (h : History) :
  db_behaves 2 handler ->
  exists reply more,
    Wide.try_catch (retried world handler) (internal_error) h = (Returned reply, h ++ more)
    /\ queries more <= 10
    /\ (slept (narrow_events more) <= 5000)%Z
    /\ In (db_status reply) [200; 201; 400; 404; 500]%Z
    /\ (db_status reply = 500%Z -> db_body reply = BodyError "internal error").
Proof.
  intros Hhandler. unfold retried, wide_runWithRetries.
  cbn [default opt_maxAttempts opt_baseDelayMs].
  destruct (db_retry_loop handler Hhandler (Z.to_nat 5) 0 ThrownUndefined h
              ltac:(lia) ltac:(lia)) as (o & more & Hloop & Hs & Hq & Hw & Hgood).
  unfold Wide.try_catch, Wide.bind. rewrite Hloop.
  destruct o as [r|[|e]|]; cbn [settled] in Hs; try contradiction.
  - exists r, more. cbn [Wide.ret]. split; [reflexivity|].
    specialize (Hgood r eq_refl).
    split; [cbn in Hq; lia|]. split; [cbn in Hw; lia|].
    split; [cbn in *; tauto|].
    intros H500. rewrite H500 in Hgood. cbn in Hgood.
    destruct Hgood as [H|[H|[H|[H|[]]]]]; discriminate H.
  - exists (mkDbReply 500 (BodyError "internal error")), more.
    cbn [internal_error Wide.ret]. split; [reflexivity|].
    split; [cbn in Hq; lia|]. split; [cbn in Hw; lia|].
    split; [cbn; tauto | reflexivity].
Qed.

End DatabaseFacts.

(** X21: every database route answers, and is bounded, whatever the
    database does.  For each of the seven routes and every request, the route
    ends with a response (it never throws and never hangs), having sent at
    most ten queries and waited at most five seconds in all; the status is
    200, 201, 400, 404 or 500, and a 500 response carries the fixed text
    "internal error": what the database said is not passed on. *)
Theorem database_routes_bounded (world : World) (request : DbRequest) (h : History) :
  exists reply more,
    serve world request h = (Returned reply, h ++ more)
    /\ queries more <= 10
    /\ (slept (narrow_events more) <= 5000)%Z
    /\ In (db_status reply) [200; 201; 400; 404; 500]%Z
    /\ (db_status reply = 500%Z -> db_body reply = BodyError "internal error").
Proof.
  assert (Hrejected : forall error,
             exists reply more,
               (Returned (mkDbReply 400 (BodyError error)), h) = (Returned reply, h ++ more)
               /\ queries more <= 10
               /\ (slept (narrow_events more) <= 5000)%Z
               /\ In (db_status reply) [200; 201; 400; 404; 500]%Z
               /\ (db_status reply = 500%Z -> db_body reply = BodyError "internal error")).
  { intros error. eexists. exists []. rewrite app_nil_r. split; [reflexivity|].
    split; [cbn; lia|]. split; [cbn; lia|]. split; [cbn; tauto | discriminate]. }
  destruct request as [body|body|payid|email|payid body|email|email body];
    cbn [serve].
  - unfold post_user. cbv zeta.
    destruct (truthy (user_email body)); cbn [negb];
      [|unfold Wide.try_catch, Wide.ret; apply Hrejected].
    apply retried_route. apply db_behaves_after_query. intros rows.
    destruct (0 <? length rows); [apply db_behaves_update_user|].
    intros h0. unfold Wide.bind, query, Wide.call.
    destruct (world_query world _ _ h0) as [result|e].
    + eexists. eexists. split; [reflexivity|]. split; [exact I|].
      split; [cbn; lia|]. split; [reflexivity|].
      intros r H. injection H as <-. cbn. tauto.
    + eexists. eexists. split; [reflexivity|]. split; [exact I|].
      split; [cbn; lia|]. split; [reflexivity|]. discriminate.
  - unfold post_request. cbv zeta.
    destruct (negb (truthy (request_email body)) || negb (truthy (request_amount body)));
      [unfold Wide.try_catch, Wide.ret; apply Hrejected|].
    apply retried_route. apply db_behaves_after_query. intros rows.
    apply (db_behaves_weaken 0 1); [lia|]. apply db_behaves_ret. cbn. tauto.
  - unfold get_request. apply retried_route. apply db_behaves_after_query.
    intros rows. apply (db_behaves_weaken 0 1); [lia|].
    destruct (length rows =? 0); apply db_behaves_ret; cbn; tauto.
  - unfold get_requests_of. apply retried_route. apply db_behaves_after_query.
    intros rows. apply (db_behaves_weaken 0 1); [lia|]. apply db_behaves_ret. cbn. tauto.
  - unfold patch_request. apply retried_route. apply db_behaves_after_query.
    intros rows.
    destruct (length rows =? 0);
      [apply (db_behaves_weaken 0 1); [lia|]; apply db_behaves_ret; cbn; tauto|].
    destruct (request_updates (JString payid) body) as [[fields values] n].
    destruct (length fields =? 0);
      [apply (db_behaves_weaken 0 1); [lia|]; apply db_behaves_ret; cbn; tauto|].
    intros h0. unfold Wide.bind, query, Wide.call.
    destruct (world_query world _ _ h0) as [result|e].
    + eexists. eexists. split; [reflexivity|]. split; [exact I|].
      split; [cbn; lia|]. split; [reflexivity|].
      intros r H. injection H as <-. cbn. tauto.
    + eexists. eexists. split; [reflexivity|]. split; [exact I|].
      split; [cbn; lia|]. split; [reflexivity|]. discriminate.
  - unfold get_user. apply retried_route. apply db_behaves_after_query.
    intros rows. apply (db_behaves_weaken 0 1); [lia|].
    destruct (length rows =? 0); apply db_behaves_ret; cbn; tauto.
  - unfold patch_user. apply retried_route. apply db_behaves_after_query.
    intros rows.
    destruct (length rows =? 0);
      [apply (db_behaves_weaken 0 1); [lia|]; apply db_behaves_ret; cbn; tauto|].
    apply db_behaves_update_user.
Qed.

Section DatabaseDown.
Variable world : World.
Hypothesis Hdown : database_down world.

Lemma query_fails {A} (statement : Sql) (values : list Json)
    (k : list Json -> Wide.W A) (h : History) :
  exists e,
    Wide.bind (query world statement values) k h
    = (Threw (ThrownError e), h ++ [StQuery statement values]).
Proof.
  destruct (Hdown statement values h) as [e He]. exists e.
  unfold Wide.bind, query, Wide.call. rewrite He. reflexivity.
Qed.

(** A handler whose first query fails is tried five times, with waits of
    0.5, 1, 1.5 and 2 seconds, and the route answers 500. *)
Lemma retried_down (handler : Wide.W DbReply) (q : Step) (h : History) :
  (forall h0, exists e, handler h0 = (Threw (ThrownError e), h0 ++ [q])) ->
  Wide.try_catch (retried world handler) internal_error h
  = (Returned (mkDbReply 500 (BodyError "internal error")),
     h ++ [q; Narrow (EvSleep 500); q; Narrow (EvSleep 1000);
           q; Narrow (EvSleep 1500); q; Narrow (EvSleep 2000); q]).
Proof.
  intros Hfails. unfold retried, wide_runWithRetries.
  cbn [default opt_maxAttempts opt_baseDelayMs]. change (Z.to_nat 5) with 5.
  unfold Wide.try_catch at 1, Wide.bind at 1.
  destruct (Hfails h) as [e1 H1].
  rewrite (wide_retry_again world handler 5 500 4 0 _ _ _ _ H1) by lia.
  destruct (Hfails ((h ++ [q]) ++ [Narrow (EvSleep (500 * (0 + 1)))])) as [e2 H2].
  rewrite (wide_retry_again world handler 5 500 3 _ _ _ _ _ H2) by lia.
  destruct (Hfails ((((h ++ [q]) ++ [Narrow (EvSleep (500 * (0 + 1)))]) ++ [q])
                    ++ [Narrow (EvSleep (500 * (0 + 1 + 1)))])) as [e3 H3].
  rewrite (wide_retry_again world handler 5 500 2 _ _ _ _ _ H3) by lia.
  destruct (Hfails ((((((h ++ [q]) ++ [Narrow (EvSleep (500 * (0 + 1)))]) ++ [q])
                      ++ [Narrow (EvSleep (500 * (0 + 1 + 1)))]) ++ [q])
                    ++ [Narrow (EvSleep (500 * (0 + 1 + 1 + 1)))])) as [e4 H4].
  rewrite (wide_retry_again world handler 5 500 1 _ _ _ _ _ H4) by lia.
  destruct (Hfails ((((((((h ++ [q]) ++ [Narrow (EvSleep (500 * (0 + 1)))]) ++ [q])
                        ++ [Narrow (EvSleep (500 * (0 + 1 + 1)))]) ++ [q])
                      ++ [Narrow (EvSleep (500 * (0 + 1 + 1 + 1)))]) ++ [q])
                    ++ [Narrow (EvSleep (500 * (0 + 1 + 1 + 1 + 1)))])) as [e5 H5].
  rewrite (wide_retry_last world handler 5 500 0 _ _ _ _ _ H5) by lia.
  cbn [internal_error Wide.ret]. rewrite <- !app_assoc. reflexivity.
Qed.

End DatabaseDown.

(** X22: when the database is down, every route asks five times and says
    nothing of it.  In a world where every query fails, a request that
    passes the route's own validation sends its first query five times, with
    waits of 0.5, 1, 1.5 and 2 seconds in between, and is answered 500
    "internal error"; a request that does not pass is answered 400 without a
    query. *)
Theorem database_down_retried (world : World) (request : DbRequest) (h : History) :
  database_down world ->
  match first_query request with
  | None =>
      exists error,
        serve world request h = (Returned (mkDbReply 400 (BodyError error)), h)
  | Some (statement, values) =>
      let q := StQuery statement values in
      serve world request h
      = (Returned (mkDbReply 500 (BodyError "internal error")),
         h ++ [q; Narrow (EvSleep 500); q; Narrow (EvSleep 1000);
               q; Narrow (EvSleep 1500); q; Narrow (EvSleep 2000); q])
  end.
Proof.
  intros Hdown.
  destruct request as [body|body|payid|email|payid body|email|email body];
    cbn [serve first_query].
  - unfold post_user. cbv zeta. destruct (truthy (user_email body)); cbn [negb].
    + apply (retried_down world). intros h0. apply (query_fails world Hdown).
    + eexists. reflexivity.
  - unfold post_request. cbv zeta.
    destruct (truthy (request_email body)); cbn [negb orb andb];
      [|eexists; reflexivity].
    destruct (truthy (request_amount body)); cbn [negb orb andb];
      [|eexists; reflexivity].
    apply (retried_down world). intros h0. apply (query_fails world Hdown).
  - apply (retried_down world). intros h0. apply (query_fails world Hdown).
  - apply (retried_down world). intros h0. apply (query_fails world Hdown).
  - apply (retried_down world). intros h0. apply (query_fails world Hdown).
  - apply (retried_down world). intros h0. apply (query_fails world Hdown).
  - apply (retried_down world). intros h0. apply (query_fails world Hdown).
Qed.

Lemma database_down_retried_witness :
  serve stuck_attestation (GetUser "ada@example.org") []
  = (Returned (mkDbReply 500 (BodyError "internal error")),
     [StQuery SelectUser [JString "ada@example.org"]; Narrow (EvSleep 500);
      StQuery SelectUser [JString "ada@example.org"]; Narrow (EvSleep 1000);
      StQuery SelectUser [JString "ada@example.org"]; Narrow (EvSleep 1500);
      StQuery SelectUser [JString "ada@example.org"]; Narrow (EvSleep 2000);
      StQuery SelectUser [JString "ada@example.org"]]).
Proof.
  apply (database_down_retried stuck_attestation (GetUser "ada@example.org") []).
  intros statement values h. eexists. reflexivity.
Defined.

(** * Part XII: properties of the transfer route                          *)

(** The conversions return or throw on the spot. *)
Lemma BigInt_of_number_cases (x : Number) :
  (exists v, BigInt_of_number x = ret v) \/ (exists msg, BigInt_of_number x = throwError msg).
Proof.
  unfold BigInt_of_number, range_error.
  destruct x as [s| | |s m e]; try (right; eexists; reflexivity);
    [left; eexists; reflexivity|].
  cbv zeta. destruct (0 <=? e)%Z; [left; eexists; reflexivity|].
  destruct (_ =? 0)%Z; [left | right]; eexists; reflexivity.
Qed.

Lemma BigInt_of_string_cases (text : string) :
  (exists v, BigInt_of_string text = ret v)
  \/ (exists msg, BigInt_of_string text = throwError msg).
Proof.
  unfold BigInt_of_string, syntax_error. cbv zeta.
  destruct (trim text =? "")%string; [left; eexists; reflexivity|].
  destruct (String.prefix "0x" (trim text) || String.prefix "0X" (trim text));
    [destruct (read_integer 16 _); [left | right]; eexists; reflexivity|].
  destruct (String.prefix "0o" (trim text) || String.prefix "0O" (trim text));
    [destruct (read_integer 8 _); [left | right]; eexists; reflexivity|].
  destruct (String.prefix "0b" (trim text) || String.prefix "0B" (trim text));
    [destruct (read_integer 2 _); [left | right]; eexists; reflexivity|].
  destruct (read_sign (trim text)) as [negative digits].
  destruct (read_integer 10 digits); [left | right]; eexists; reflexivity.
Qed.

(** The validation of the amount always ends with an amount or a
    response of status 400, and touches nothing. *)
Lemma transfer_amount_returns (amount : string) (tr : Trace) :
  exists converted,
    transfer_amount amount tr = (Returned converted, tr)
    /\ match converted with
       | inl _ => True
       | inr response => status response = 400%Z
       end.
Proof.
  unfold transfer_amount, try_catch. destruct (includes amount ".").
  - cbv zeta. destruct (isNaN (parseFloat amount) || number_le_zero (parseFloat amount));
      [eexists; split; reflexivity|].
    unfold bind.
    destruct (BigInt_of_number_cases
                (Math_floor (number_mul (parseFloat amount)
                                        (number_of_decimal false 1000000 0))))
      as [[v ->]|[msg ->]]; eexists; split; try reflexivity; exact I.
  - unfold bind. destruct (BigInt_of_string_cases amount) as [[v ->]|[msg ->]];
      [|eexists; split; reflexivity].
    unfold ret at 1. destruct (v <=? 0)%Z; eexists; split; try reflexivity; exact I.
Qed.

Section TransferRouteFacts.
Variable world : World.

Lemma transfer_handler_run (walletAddress chain amount : string) (amountBigInt : Z)
    (h : History) :
  transfer_handler world walletAddress chain amount amountBigInt h
  = match world_sdkTransfer world walletAddress amountBigInt (toLowerCase chain) h with
    | Ok result =>
        (Returned
           (mkTransferResult chain "avalanche" walletAddress amount
              (sdk_burnTxHash result) (sdk_mintTxHash result)
              (sdk_totalTime result) (sdk_gasUsed result)
              ("https://"
               ++ (if String.eqb chain "base" then "sepolia.basescan.org"
                   else "sepolia.arbiscan.io")
               ++ "/tx/" ++ show (sdk_burnTxHash result))
              ("https://testnet.snowtrace.io/tx/" ++ show (sdk_mintTxHash result)))%string,
         h ++ [StSdkTransfer walletAddress amountBigInt (toLowerCase chain)])
    | Fail e =>
        (Threw (ThrownError e),
         h ++ [StSdkTransfer walletAddress amountBigInt (toLowerCase chain)])
    end.
Proof.
  unfold transfer_handler, Wide.bind, Wide.call.
  destruct (world_sdkTransfer world walletAddress amountBigInt (toLowerCase chain) h);
    reflexivity.
Qed.

End TransferRouteFacts.

(** X23: the explorer link of a transfer is chosen by the chain as it was
    typed, the transfer by the chain in lower case.  For a request whose
    chain reads "base" in any mix of capitals, with an amount in whole units
    above zero, when the SDK carries out the transfer at the first attempt,
    the route asks the SDK for a transfer on "base" and answers with the
    result; the link to the burn points to the Base explorer only when the
    chain was typed exactly "base", and to the Arbitrum explorer otherwise. *)
Theorem transfer_route_explorer_link (world : World)
    (walletAddress chain amount : string) (h : History) (result : SdkTransfer) :
  falsy (Some walletAddress) = false ->
  toLowerCase chain = "base"%string ->
  amount <> EmptyString -> all_decimal amount = true -> (0 < decimal_value amount)%Z ->
  world_sdkTransfer world walletAddress (decimal_value amount) "base" h = Ok result ->
  exists reply,
    transfer_usdc world
      (mkTransferBody (Some walletAddress) (Some chain) (Some amount)) h
    = (Returned (TransferJson reply),
       h ++ [StSdkTransfer walletAddress (decimal_value amount) "base"])
    /\ sourceChain reply = chain
    /\ burnTxHash reply = sdk_burnTxHash result
    /\ (chain = "base"%string ->
        explorer_burn reply
        = ("https://sepolia.basescan.org/tx/" ++ show (sdk_burnTxHash result))%string)
    /\ (chain <> "base"%string ->
        explorer_burn reply
        = ("https://sepolia.arbiscan.io/tx/" ++ show (sdk_burnTxHash result))%string).
Proof.
  intros Hwallet Hchain Hne Hdigits Hpos Hsdk.
  assert (Hchain_given : falsy (Some chain) = false).
  { destruct chain; [discriminate Hchain | reflexivity]. }
  assert (Hamount_given : falsy (Some amount) = false).
  { destruct amount; [now contradiction Hne | reflexivity]. }
  eexists. split.
  - unfold transfer_usdc. cbv zeta.
    cbn [transfer_walletAddress transfer_chain transfer_amount_text show default].
    rewrite Hwallet, Hchain_given, Hamount_given, Hchain. cbn [orb existsb validChains negb].
    change (("base" =? "base")%string) with true. cbn [orb negb].
    unfold Wide.try_catch at 1, Wide.bind at 1, Wide.narrow at 1.
    rewrite (proj2 (integer_amount_is_cast amount [] Hne Hdigits) Hpos).
    cbn [map]. rewrite app_nil_r.
    unfold wide_runWithRetries. cbn [default opt_maxAttempts opt_baseDelayMs].
    change (Z.to_nat 3) with 3.
    unfold Wide.bind.
    rewrite (wide_retry_returns world _ 3 2000 2 0 ThrownUndefined _ h _
               ltac:(rewrite transfer_handler_run, Hchain, Hsdk; reflexivity)
               ltac:(lia)).
    reflexivity.
  - cbn [sourceChain burnTxHash explorer_burn].
    split; [reflexivity|]. split; [reflexivity|]. split.
    + intros ->. reflexivity.
    + intros Hother. destruct (String.eqb_spec chain "base") as [E|_];
        [now contradiction Hother | reflexivity].
Qed.

Lemma transfer_route_explorer_link_witness :
  exists reply,
    transfer_usdc sdk_works
      (mkTransferBody (Some "0xa11ce"%string) (Some "Base"%string) (Some "1000"%string)) []
    = (Returned (TransferJson reply), [] ++ [StSdkTransfer "0xa11ce" 1000 "base"])
    /\ sourceChain reply = "Base"%string
    /\ burnTxHash reply = Some "0xb0b"%string
    /\ ("Base"%string = "base"%string ->
        explorer_burn reply = "https://sepolia.basescan.org/tx/0xb0b"%string)
    /\ ("Base"%string <> "base"%string ->
        explorer_burn reply = "https://sepolia.arbiscan.io/tx/0xb0b"%string).
Proof.
  apply (transfer_route_explorer_link sdk_works "0xa11ce" "Base" "1000" []
           (mkSdkTransfer (Some "0xb0b"%string) (Some "0xa4a"%string)
                          (Some "42"%string) (Some "21000"%string)));
    try reflexivity; discriminate.
Defined.

(** X24: the transfer route always answers, and only ever asks the SDK for
    what was validated.  For every world and every request it ends with a
    response: 400 with no interaction when a field is missing, and 400 with
    no interaction when the chain, in lower case, is neither base nor
    arbitrum (whatever the amount); otherwise it asks the SDK at most three
    times, always for the wallet of the request and a valid chain, waits at
    most six seconds between the attempts, and a response that is not a
    result has status 400 or 500. *)
Theorem transfer_route_bounded (world : World) (body : TransferBody) (h : History) :
  let walletAddress := transfer_walletAddress body in
  let chain := transfer_chain body in
  let amount := transfer_amount_text body in
  exists reply more,
    transfer_usdc world body h = (Returned reply, h ++ more)
    /\ sdk_transfers more <= 3
    /\ (slept (narrow_events more) <= 6000)%Z
    /\ Forall (transfer_step (show walletAddress)) more
    /\ (falsy walletAddress || falsy chain || falsy amount = true ->
        reply = TransferError 400 "walletAddress, chain, and amount are required"
        /\ more = [])
    /\ (falsy walletAddress || falsy chain || falsy amount = false ->
        existsb (String.eqb (toLowerCase (show chain))) validChains = false ->
        reply = TransferError 400 "Invalid chain. Supported chains: base, arbitrum"
        /\ more = [])
    /\ match reply with
       | TransferJson _ => True
       | TransferError status _ => status = 400%Z \/ status = 500%Z
       end.
Proof.
  cbv zeta. unfold transfer_usdc. cbv zeta.
  destruct (falsy (transfer_walletAddress body) || falsy (transfer_chain body)
            || falsy (transfer_amount_text body)) eqn:Hmissing.
  { eexists. exists []. rewrite app_nil_r. split; [reflexivity|].
    split; [cbn; lia|]. split; [cbn; lia|]. split; [constructor|].
    split; [intros _; split; reflexivity|]. split; [discriminate | left; reflexivity]. }
  destruct (existsb (String.eqb (toLowerCase (show (transfer_chain body)))) validChains)
    eqn:Hvalid; cbn [negb].
  2:{ eexists. exists []. rewrite app_nil_r. split; [reflexivity|].
      split; [cbn; lia|]. split; [cbn; lia|]. split; [constructor|].
      split; [discriminate|]. split; [intros _ _; split; reflexivity | left; reflexivity]. }
  assert (Hchain : In (toLowerCase (show (transfer_chain body))) validChains).
  { apply existsb_exists in Hvalid. destruct Hvalid as (c & Hin & Heq).
    apply String.eqb_eq in Heq. rewrite Heq. exact Hin. }
  unfold Wide.try_catch at 1, Wide.bind at 1, Wide.narrow at 1.
  destruct (transfer_amount_returns (show (transfer_amount_text body)) [])
    as (converted & -> & Hstatus).
  cbn [map]. rewrite app_nil_r.
  destruct converted as [amountBigInt|response].
  2:{ eexists. exists []. rewrite app_nil_r. cbn [Wide.ret]. split; [reflexivity|].
      split; [cbn; lia|]. split; [cbn; lia|]. split; [constructor|].
      split; [discriminate|]. split; [discriminate | left; exact Hstatus]. }
  unfold wide_runWithRetries. cbn [default opt_maxAttempts opt_baseDelayMs].
  change (Z.to_nat 3) with 3.
  set (walletAddress := show (transfer_walletAddress body)) in *.
  set (chain := show (transfer_chain body)) in *.
  set (amount := show (transfer_amount_text body)) in *.
  set (handler := transfer_handler world walletAddress chain amount amountBigInt).
  set (ask := StSdkTransfer walletAddress amountBigInt (toLowerCase chain)).
  assert (Hask : transfer_step walletAddress ask) by (split; [reflexivity | exact Hchain]).
  assert (Hattempt : forall h0,
             (exists r, handler h0 = (Returned r, h0 ++ [ask]))
             \/ (exists e, handler h0 = (Threw (ThrownError e), h0 ++ [ask]))).
  { intros h0. subst handler. rewrite transfer_handler_run.
    destruct (world_sdkTransfer world walletAddress amountBigInt (toLowerCase chain) h0);
      [left | right]; eexists; reflexivity. }
  unfold Wide.bind.
  destruct (Hattempt h) as [[r1 H1]|[e1 H1]].
  { rewrite (wide_retry_returns world handler 3 2000 2 0 _ _ _ _ H1) by lia.
    eexists. eexists. split; [reflexivity|].
    split; [cbn; lia|]. split; [cbn; lia|].
    split; [repeat (apply Forall_cons; [first [exact Hask | exact I]|]); apply Forall_nil|].
    split; [discriminate|]. split; [discriminate | exact I]. }
  rewrite (wide_retry_again world handler 3 2000 2 0 _ _ _ _ H1) by lia.
  destruct (Hattempt ((h ++ [ask]) ++ [Narrow (EvSleep (2000 * (0 + 1)))]))
    as [[r2 H2]|[e2 H2]].
  { rewrite (wide_retry_returns world handler 3 2000 1 _ _ _ _ _ H2) by lia.
    eexists. eexists. split; [rewrite <- !app_assoc; reflexivity|].
    split; [cbn; lia|]. split; [cbn; lia|].
    split; [repeat (apply Forall_cons; [first [exact Hask | exact I]|]); apply Forall_nil|].
    split; [discriminate|]. split; [discriminate | exact I]. }
  rewrite (wide_retry_again world handler 3 2000 1 _ _ _ _ _ H2) by lia.
  destruct (Hattempt ((((h ++ [ask]) ++ [Narrow (EvSleep (2000 * (0 + 1)))]) ++ [ask])
                      ++ [Narrow (EvSleep (2000 * (0 + 1 + 1)))]))
    as [[r3 H3]|[e3 H3]].
  { rewrite (wide_retry_returns world handler 3 2000 0 _ _ _ _ _ H3) by lia.
    eexists. eexists. split; [rewrite <- !app_assoc; reflexivity|].
    split; [cbn; lia|]. split; [cbn; lia|].
    split; [repeat (apply Forall_cons; [first [exact Hask | exact I]|]); apply Forall_nil|].
    split; [discriminate|]. split; [discriminate | exact I]. }
  rewrite (wide_retry_last world handler 3 2000 0 _ _ _ _ _ H3) by lia.
  cbn [Wide.message_of Wide.ret].
  eexists. eexists. split; [rewrite <- !app_assoc; reflexivity|].
  split; [cbn; lia|]. split; [cbn; lia|].
  split; [repeat (apply Forall_cons; [first [exact Hask | exact I]|]); apply Forall_nil|].
  split; [discriminate|]. split; [discriminate | right; reflexivity].
Qed.
